(** * Tank design documentation system: a shallow embedding and its properties

    The development follows the Python sources module by module:
    - [Py]            exceptions and results of calls that may raise;
    - [F64]           binary64 arithmetic (the IEEE 754 format of Python's float);
    - [PyNum]         Python's numeric values and operators on them;
    - [TankDesign]    professional_tank_design_system.ProfessionalTankDesigner;
    - [StepExport]    final_step_generator.export_step_file;
    - [PdfGen]        simple_pdf_generator;
    - [DocServer]     the request handlers of main.py and documentation_server.py;
    - [EntryPoints]   the effects of the two server entry points;
    - [Compliance]    the safety requirements and their matrix in the report;
    - [TankReport]    fields of the report and the numbers that
                      create_professional_step_file reads and computes;
    - [StepScripts]   the [main] functions and scripts of the STEP generators. *)

From Stdlib Require Import ZArith Bool List String Ascii Lia.
From Stdlib Require Import SpecFloat.
Import ListNotations.

(* ================================================================== *)
(** * Exceptions and results *)
(* ================================================================== *)

Module Py.

(** The exception classes that occur in the modelled code.  [KeyboardInterrupt]
    and [SystemExit] derive from BaseException only; every other class derives
    from Exception. *)
Inductive exn_class :=
| TypeError | ZeroDivisionError | OverflowError | ValueError | AttributeError
| KeyError | ImportError | OSError | UnicodeDecodeError | UnicodeEncodeError
| RuntimeError | Exception
| KeyboardInterrupt | SystemExit.

Record exn := mk_exn { exn_cls : exn_class; exn_msg : string }.

(** [isinstance(e, Exception)]: what [except Exception] catches.  A bare
    [except:] catches every class. *)
Definition is_Exception (e : exn) : bool :=
  match exn_cls e with
  | KeyboardInterrupt | SystemExit => false
  | _ => true
  end.

Inductive result (A : Type) :=
| Ok (a : A)
| Raise (e : exn).

Arguments Ok {A} a.
Arguments Raise {A} e.

Definition bind {A B} (r : result A) (k : A -> result B) : result B :=
  match r with
  | Ok a => k a
  | Raise e => Raise e
  end.

Definition raise {A} (c : exn_class) (msg : string) : result A :=
  Raise (mk_exn c msg).

Definition succeeded {A} (r : result A) : bool :=
  match r with Ok _ => true | Raise _ => false end.

End Py.

Export Py.

Declare Scope py_scope.
Delimit Scope py_scope with py.
Notation "x <- m ;; k" := (bind m (fun x => k))
  (at level 61, m at next level, right associativity) : py_scope.

(* ================================================================== *)
(** * Binary64 arithmetic *)
(* ================================================================== *)

Module F64.

Local Open Scope Z_scope.

(** Python's float is the IEEE 754 binary64 format: 53 bits of precision,
    exponent of infinity 1024, round to nearest even. *)
Definition float := spec_float.
Definition prec : Z := 53.
Definition emax : Z := 1024.

Definition fadd : float -> float -> float := SFadd prec emax.
Definition fsub : float -> float -> float := SFsub prec emax.
Definition fmul : float -> float -> float := SFmul prec emax.
Definition fdiv : float -> float -> float := SFdiv prec emax.
Definition fabs : float -> float := SFabs.
Definition fopp : float -> float := SFopp.
Definition feqb : float -> float -> bool := SFeqb.
Definition fltb : float -> float -> bool := SFltb.
Definition fleb : float -> float -> bool := SFleb.
Definition fsucc : float -> float := SFsucc prec emax.
Definition fpred : float -> float := SFpred prec emax.

Definition is_nan (x : float) : bool :=
  match x with S754_nan => true | _ => false end.

Definition is_inf (x : float) : bool :=
  match x with S754_infinity _ => true | _ => false end.

Definition is_zero (x : float) : bool :=
  match x with S754_zero _ => true | _ => false end.

Definition is_finite_nonzero (x : float) : bool :=
  match x with S754_finite _ _ _ => true | _ => false end.

(** Sign bit of a float that is not NaN. *)
Definition sign_bit (x : float) : bool :=
  match x with
  | S754_zero s | S754_infinity s | S754_finite s _ _ => s
  | S754_nan => false
  end.

Definition nan : float := S754_nan.
Definition pinf : float := S754_infinity false.
Definition pzero : float := S754_zero false.

(** The float nearest to an integer (ties to even); infinite when the integer
    is beyond the binary64 range. *)
Definition of_Z (n : Z) : float := binary_normalize prec emax n 0 false.

(** A decimal literal [n / 10^k] as Python reads it: the nearest binary64
    value.  For [|n| < 2^53] and [k <= 22] both operands of the division are
    exact, so one correctly rounded division gives that value. *)
Definition decimal (n : Z) (k : Z) : float := fdiv (of_Z n) (of_Z (10 ^ k)).

(** [math.pi], 0x1.921fb54442d18p+1. *)
Definition pi : float := S754_finite false 7074237752028440 (-51).

(** The value [x] of a finite float is an integer. *)
Definition is_integer (x : float) : bool :=
  match x with
  | S754_zero _ => true
  | S754_finite _ m e =>
      if 0 <=? e then true else Z.eqb (Z.pos m mod 2 ^ (- e)) 0
  | _ => false
  end.

(** [DOUBLE_IS_ODD_INTEGER(x)]: [fmod(fabs(x), 2.0) == 1.0]. *)
Definition is_odd_integer (x : float) : bool :=
  match x with
  | S754_finite _ m e =>
      if 0 <? e then false
      else if Z.eqb e 0 then Z.odd (Z.pos m)
      else Z.eqb (Z.pos m mod 2 ^ (- e)) 0 && Z.odd (Z.pos m / 2 ^ (- e))
  | _ => false
  end.

(** Exact comparison of an integer with a float, as Python compares an int
    with a float; [None] when the float is NaN. *)
Definition compare_Z_float (z : Z) (x : float) : option comparison :=
  match x with
  | S754_nan => None
  | S754_infinity s => Some (if s then Gt else Lt)
  | S754_zero _ => Some (z ?= 0)
  | S754_finite s m e =>
      let v := if s then Z.neg m else Z.pos m in
      Some (if 0 <=? e then z ?= v * 2 ^ e else z * 2 ^ (- e) ?= v)
  end.

End F64.

(* ================================================================== *)
(** * Python numbers *)
(* ================================================================== *)

Module PyNum.

Import F64.
Local Open Scope Z_scope.
Local Open Scope py_scope.

Record complex := mk_complex { re : float; im : float }.

(** The values of Python's int, float and complex. *)
Inductive num :=
| Int (z : Z)
| Flt (x : float)
| Cplx (c : complex).

(** The C library under the interpreter.  [libm_pow x y] is the value of C's
    [pow] together with whether it set [errno]; [libm_hypot] is C's [hypot];
    [complex_pow] is the interpreter's complex power on converted operands. *)
Record libm := mk_libm {
  libm_pow : float -> float -> float * bool;
  libm_hypot : float -> float -> float;
  complex_pow : complex -> complex -> result complex
}.

Definition one : float := of_Z 1.

(** [PyLong_AsDouble]. *)
Definition int_to_float (z : Z) : result float :=
  let x := of_Z z in
  if is_inf x then raise OverflowError "int too large to convert to float"
  else Ok x.

(** Conversion of a real operand of a float operation. *)
Definition to_float (a : num) : result float :=
  match a with
  | Int z => int_to_float z
  | Flt x => Ok x
  | Cplx _ => raise TypeError "can't convert complex to float"
  end.

(** Conversion of an operand of a complex operation. *)
Definition to_complex (a : num) : result complex :=
  match a with
  | Int z => x <- int_to_float z ;; Ok (mk_complex x pzero)
  | Flt x => Ok (mk_complex x pzero)
  | Cplx c => Ok c
  end.

Definition c_sum (a b : complex) : complex :=
  mk_complex (fadd (re a) (re b)) (fadd (im a) (im b)).

Definition c_diff (a b : complex) : complex :=
  mk_complex (fsub (re a) (re b)) (fsub (im a) (im b)).

Definition c_prod (a b : complex) : complex :=
  mk_complex (fsub (fmul (re a) (re b)) (fmul (im a) (im b)))
             (fadd (fmul (re a) (im b)) (fmul (im a) (re b))).

(** The quotient of two complex numbers; [None] for a zero divisor. *)
Definition c_quot (a b : complex) : option complex :=
  let abs_breal := if fltb (re b) pzero then fopp (re b) else re b in
  let abs_bimag := if fltb (im b) pzero then fopp (im b) else im b in
  if fleb abs_bimag abs_breal then
    if feqb abs_breal pzero then None
    else
      let ratio := fdiv (im b) (re b) in
      let denom := fadd (re b) (fmul (im b) ratio) in
      Some (mk_complex (fdiv (fadd (re a) (fmul (im a) ratio)) denom)
                       (fdiv (fsub (im a) (fmul (re a) ratio)) denom))
  else if fleb abs_breal abs_bimag then
    let ratio := fdiv (re b) (im b) in
    let denom := fadd (fmul (re b) ratio) (im b) in
    Some (mk_complex (fdiv (fadd (fmul (re a) ratio) (im a)) denom)
                     (fdiv (fsub (fmul (im a) ratio) (re a)) denom))
  else Some (mk_complex nan nan).

(** An integer as an unrounded operand of a division. *)
Definition raw_of_Z (z : Z) : float :=
  match z with
  | Z0 => S754_zero false
  | Zpos p => S754_finite false p 0
  | Zneg p => S754_finite true p 0
  end.

(** [int / int]: the correctly rounded quotient of the two integers. *)
Definition int_true_divide (x y : Z) : result num :=
  if Z.eqb y 0 then raise ZeroDivisionError "division by zero"
  else
    let q := fdiv (raw_of_Z x) (raw_of_Z y) in
    if is_inf q then
      raise OverflowError "integer division result too large for a float"
    else Ok (Flt q).

Definition py_add (a b : num) : result num :=
  match a, b with
  | Int x, Int y => Ok (Int (x + y))
  | Cplx _, _ | _, Cplx _ =>
      ca <- to_complex a ;; cb <- to_complex b ;; Ok (Cplx (c_sum ca cb))
  | _, _ => x <- to_float a ;; y <- to_float b ;; Ok (Flt (fadd x y))
  end.

Definition py_sub (a b : num) : result num :=
  match a, b with
  | Int x, Int y => Ok (Int (x - y))
  | Cplx _, _ | _, Cplx _ =>
      ca <- to_complex a ;; cb <- to_complex b ;; Ok (Cplx (c_diff ca cb))
  | _, _ => x <- to_float a ;; y <- to_float b ;; Ok (Flt (fsub x y))
  end.

Definition py_mul (a b : num) : result num :=
  match a, b with
  | Int x, Int y => Ok (Int (x * y))
  | Cplx _, _ | _, Cplx _ =>
      ca <- to_complex a ;; cb <- to_complex b ;; Ok (Cplx (c_prod ca cb))
  | _, _ => x <- to_float a ;; y <- to_float b ;; Ok (Flt (fmul x y))
  end.

Definition py_truediv (a b : num) : result num :=
  match a, b with
  | Int x, Int y => int_true_divide x y
  | Cplx _, _ | _, Cplx _ =>
      ca <- to_complex a ;; cb <- to_complex b ;;
      match c_quot ca cb with
      | Some q => Ok (Cplx q)
      | None => raise ZeroDivisionError "complex division by zero"
      end
  | _, _ =>
      x <- to_float a ;; y <- to_float b ;;
      if is_zero y then raise ZeroDivisionError "float division by zero"
      else Ok (Flt (fdiv x y))
  end.

(** [float ** float], case by case as the interpreter sorts them out before
    it calls C's [pow]. *)
Definition float_pow (L : libm) (iv iw : float) : result num :=
  if is_zero iw then Ok (Flt one)
  else if is_nan iv then Ok (Flt iv)
  else if is_nan iw then Ok (Flt (if feqb iv one then one else iw))
  else if is_inf iw then
    let av := fabs iv in
    if feqb av one then Ok (Flt one)
    else if Bool.eqb (fltb pzero iw) (fltb one av) then Ok (Flt (fabs iw))
    else Ok (Flt pzero)
  else if is_inf iv then
    let odd := is_odd_integer iw in
    if fltb pzero iw then Ok (Flt (if odd then iv else fabs iv))
    else Ok (Flt (if odd then S754_zero (sign_bit iv) else pzero))
  else if is_zero iv then
    if fltb iw pzero then
      raise ZeroDivisionError "0.0 cannot be raised to a negative power"
    else Ok (Flt (if is_odd_integer iw then iv else pzero))
  else if fltb iv pzero && negb (is_integer iw) then
    c <- complex_pow L (mk_complex iv pzero) (mk_complex iw pzero) ;;
    Ok (Cplx c)
  else
    let negate_result := fltb iv pzero && is_odd_integer iw in
    let iv := fabs iv in
    if feqb iv one then Ok (Flt (if negate_result then fopp one else one))
    else
      let '(ix, errno) := libm_pow L iv iw in
      let erange := if errno then negb (is_zero ix) else is_inf ix in
      if erange then
        raise OverflowError "(34, 'Numerical result out of range')"
      else Ok (Flt (if negate_result then fopp ix else ix)).

Definition py_pow (L : libm) (a b : num) : result num :=
  match a, b with
  | Int x, Int y =>
      if 0 <=? y then Ok (Int (x ^ y))
      else iv <- int_to_float x ;; iw <- int_to_float y ;; float_pow L iv iw
  | Cplx _, _ | _, Cplx _ =>
      ca <- to_complex a ;; cb <- to_complex b ;;
      c <- complex_pow L ca cb ;; Ok (Cplx c)
  | _, _ => iv <- to_float a ;; iw <- to_float b ;; float_pow L iv iw
  end.

(** [abs(a)]. *)
Definition py_abs (L : libm) (a : num) : result num :=
  match a with
  | Int z => Ok (Int (Z.abs z))
  | Flt x => Ok (Flt (fabs x))
  | Cplx c =>
      if is_finite_nonzero (re c) || is_zero (re c) then
        if is_finite_nonzero (im c) || is_zero (im c) then
          let r := libm_hypot L (re c) (im c) in
          if is_inf r || is_nan r then
            raise OverflowError "absolute value too large"
          else Ok (Flt r)
        else if is_inf (im c) then Ok (Flt (fabs (im c))) else Ok (Flt nan)
      else if is_inf (re c) then Ok (Flt (fabs (re c)))
      else if is_inf (im c) then Ok (Flt (fabs (im c)))
      else Ok (Flt nan)
  end.

(** Ordering of two numbers: [None] when one of them is NaN; complex numbers
    are not ordered. *)
Definition compare_num (a b : num) : result (option comparison) :=
  match a, b with
  | Int x, Int y => Ok (Some (x ?= y))
  | Int x, Flt y => Ok (compare_Z_float x y)
  | Flt x, Int y => Ok (option_map CompOpp (compare_Z_float y x))
  | Flt x, Flt y => Ok (SFcompare x y)
  | _, _ => raise TypeError "ordering not supported for complex"
  end.

Definition py_lt (a b : num) : result bool :=
  c <- compare_num a b ;;
  Ok (match c with Some Lt => true | _ => false end).

Definition py_le (a b : num) : result bool :=
  c <- compare_num a b ;;
  Ok (match c with Some Lt | Some Eq => true | _ => false end).

Definition py_gt (a b : num) : result bool :=
  c <- compare_num a b ;;
  Ok (match c with Some Gt => true | _ => false end).

Definition py_ge (a b : num) : result bool :=
  c <- compare_num a b ;;
  Ok (match c with Some Gt | Some Eq => true | _ => false end).

(** [max(a, b)]: [b] when [b > a], otherwise [a]. *)
Definition py_max (a b : num) : result num :=
  g <- py_gt b a ;; Ok (if g then b else a).

(** [lo <= x <= hi]: the second comparison is made only when the first
    holds. *)
Definition py_between (lo x hi : num) : result bool :=
  b <- py_le lo x ;;
  if b then py_le x hi else Ok false.

End PyNum.

(* ================================================================== *)
(** * Python strings *)
(* ================================================================== *)

Module PyStr.

Local Open Scope string_scope.

(** [s.startswith(p)]. *)
Definition startswith (s p : string) : bool := String.prefix p s.

(** [s.endswith(suffix)]: some tail of [s] is [suffix]. *)
Fixpoint endswith (s suffix : string) : bool :=
  if String.eqb s suffix then true
  else match s with
       | EmptyString => false
       | String _ s' => endswith s' suffix
       end.

(** [s.replace(old, new)] for a non-empty [old]: a scan from the left, each
    match replaced and skipped over.  [skip] counts the characters of the
    current match that are still to be dropped. *)
Fixpoint replace_from (old new : string) (skip : nat) (s : string) : string :=
  match s with
  | EmptyString => EmptyString
  | String c s' =>
      match skip with
      | S k => replace_from old new k s'
      | O =>
          if String.prefix old s
          then new ++ replace_from old new (String.length old - 1) s'
          else String c (replace_from old new 0 s')
      end
  end.

(** With an empty [old], [new] is put before every character and at the
    end. *)
Fixpoint intersperse (new s : string) : string :=
  match s with
  | EmptyString => new
  | String c s' => new ++ String c (intersperse new s')
  end.

Definition replace (s old new : string) : string :=
  match old with
  | EmptyString => intersperse new s
  | _ => replace_from old new 0 s
  end.

(** [s.split(sep)] for a one-character separator: the list is never empty. *)
Fixpoint split (sep : ascii) (s : string) : list string :=
  match s with
  | EmptyString => [EmptyString]
  | String c s' =>
      let rest := split sep s' in
      if Ascii.eqb c sep then EmptyString :: rest
      else match rest with
           | h :: t => String c h :: t
           | [] => [String c EmptyString]
           end
  end.

(** [s.split(sep)[-1]]. *)
Definition split_last (sep : ascii) (s : string) : string :=
  List.last (split sep s) EmptyString.

Definition is_lower (c : ascii) : bool :=
  let n := nat_of_ascii c in Nat.leb 97 n && Nat.leb n 122.

Definition is_upper (c : ascii) : bool :=
  let n := nat_of_ascii c in Nat.leb 65 n && Nat.leb n 90.

Definition to_upper (c : ascii) : ascii :=
  if is_lower c then ascii_of_nat (nat_of_ascii c - 32) else c.

Definition to_lower (c : ascii) : ascii :=
  if is_upper c then ascii_of_nat (nat_of_ascii c + 32) else c.

(** [s.title()] on ASCII text: a letter after a character that is not a
    letter is put in upper case, every other letter in lower case. *)
Fixpoint title_from (previous_is_cased : bool) (s : string) : string :=
  match s with
  | EmptyString => EmptyString
  | String c s' =>
      let cased := is_lower c || is_upper c in
      String (if previous_is_cased then to_lower c else to_upper c)
             (title_from cased s')
  end.

Definition title (s : string) : string := title_from false s.

(** Whether a character occurs in a string. *)
Fixpoint contains_char (c : ascii) (s : string) : bool :=
  match s with
  | EmptyString => false
  | String d s' => Ascii.eqb d c || contains_char c s'
  end.

End PyStr.

(* ================================================================== *)
(** * professional_tank_design_system.py *)
(* ================================================================== *)

Module TankDesign.

Import F64 PyNum PyStr.
Local Open Scope string_scope.
Local Open Scope Z_scope.

(** ** Objects and attribute access *)

(** A value of a component's [dimensions] dict: a number or a text. *)
Inductive dimval :=
| DNum (n : num)
| DStr (s : string).

(** The dataclass [TankComponent]; its two lists of requirement texts carry no
    number and are left out. *)
Record TankComponent := mkTankComponent {
  name : string;
  material : string;
  dimensions : list (string * dimval);
  thickness : num;
  standard_reference : string;
  safety_factor : num
}.

(** The values held by the attributes of a designer object. *)
Inductive attr :=
| ANum (n : num)
| ADict (d : list (string * num))
| AComponents (cs : list (string * TankComponent)).

(** An object is its attribute dictionary; the newest binding of a name comes
    first and is the one that is read. *)
Definition obj := list (string * attr).

Fixpoint lookup {A} (k : string) (d : list (string * A)) : option A :=
  match d with
  | [] => None
  | (k', v) :: d' => if String.eqb k k' then Some v else lookup k d'
  end.

(** A method body: it reads and updates [self] and may raise; the updates made
    before an exception stay. *)
Definition M (A : Type) := obj -> obj * result A.

Definition ret {A} (a : A) : M A := fun self => (self, Ok a).

Definition bindM {A B} (m : M A) (k : A -> M B) : M B :=
  fun self =>
    match m self with
    | (self', Ok a) => k a self'
    | (self', Raise e) => (self', Raise e)
    end.

Definition lift {A} (r : result A) : M A := fun self => (self, r).

Definition setattr (k : string) (v : attr) : M unit :=
  fun self => ((k, v) :: self, Ok tt).

Definition getattr (k : string) : M attr :=
  fun self =>
    match lookup k self with
    | Some v => (self, Ok v)
    | None => (self, raise AttributeError k)
    end.

Declare Scope M_scope.
Delimit Scope M_scope with M.
Notation "x <- m ;; k" := (bindM m (fun x => k))
  (at level 61, m at next level, right associativity) : M_scope.
Notation "m ;; k" := (bindM m (fun _ => k))
  (at level 61, right associativity) : M_scope.
Local Open Scope M_scope.

(** [self.k] where a number is expected. *)
Definition get_num (k : string) : M num :=
  v <- getattr k ;;
  match v with
  | ANum n => ret n
  | _ => lift (raise TypeError "unsupported operand type")
  end.

(** [self.k[key]] for a dict attribute. *)
Definition get_item (k key : string) : M num :=
  v <- getattr k ;;
  match v with
  | ADict d =>
      match lookup key d with
      | Some n => ret n
      | None => lift (raise KeyError key)
      end
  | _ => lift (raise TypeError "object is not subscriptable")
  end.

Definition set_num (k : string) (n : num) : M unit := setattr k (ANum n).

(** ** Literals *)

Definition f_0_00689476 : float := Eval vm_compute in decimal 689476 8.
Definition f_0_06 : float := Eval vm_compute in decimal 6 2.
Definition f_0_29 : float := Eval vm_compute in decimal 29 2.
Definition f_0_3 : float := Eval vm_compute in decimal 3 1.
Definition f_0_4 : float := Eval vm_compute in decimal 4 1.
Definition f_0_5 : float := Eval vm_compute in decimal 5 1.
Definition f_0_6 : float := Eval vm_compute in decimal 6 1.
Definition f_0_67 : float := Eval vm_compute in decimal 67 2.
Definition f_0_85 : float := Eval vm_compute in decimal 85 2.
Definition f_1_5 : float := Eval vm_compute in decimal 15 1.
Definition f_2_5 : float := Eval vm_compute in decimal 25 1.
Definition f_2_87 : float := Eval vm_compute in decimal 287 2.
Definition f_3_68 : float := Eval vm_compute in decimal 368 2.
Definition f_5_49 : float := Eval vm_compute in decimal 549 2.

(** The value of [1/3]. *)
Definition f_third : float := Eval vm_compute in fdiv (of_Z 1) (of_Z 3).

(** A literal [n.0]. *)
Definition whole (n : Z) : float := of_Z n.

Definition f_2 : float := Eval vm_compute in whole 2.
Definition f_3 : float := Eval vm_compute in whole 3.
Definition f_4 : float := Eval vm_compute in whole 4.
Definition f_6 : float := Eval vm_compute in whole 6.
Definition f_60 : float := Eval vm_compute in whole 60.
Definition f_1870 : float := Eval vm_compute in whole 1870.
Definition f_3680 : float := Eval vm_compute in whole 3680.

(** ** The designer *)

Section Designer.

Variable L : libm.

(** The first block of [_calculate_optimal_dimensions]: the standard
    proportions for 8000 to 12000 litres, computed ones otherwise. *)
Definition tank_proportions : M unit :=
  capacity_liters <- get_num "capacity_liters" ;;
  standard <- lift (py_between (Int 8000) capacity_liters (Int 12000)) ;;
  if standard : bool then
    set_num "tank_diameter" (Flt f_1870) ;;
    set_num "tank_length" (Flt f_3680) ;;
    set_num "actual_capacity" (Int 9000)
  else
    capacity_liters <- get_num "capacity_liters" ;;
    volume_m3 <- lift (py_truediv capacity_liters (Int 1000)) ;;
    doubled <- lift (py_mul volume_m3 (Int 2)) ;;
    base <- lift (py_truediv doubled (Flt pi)) ;;
    third <- lift (py_truediv (Int 1) (Int 3)) ;;
    root <- lift (py_pow L base third) ;;
    diameter <- lift (py_mul root (Int 1000)) ;;
    set_num "tank_diameter" diameter ;;
    tank_diameter <- get_num "tank_diameter" ;;
    tank_length <- lift (py_mul (Int 2) tank_diameter) ;;
    set_num "tank_length" tank_length ;;
    capacity_liters <- get_num "capacity_liters" ;;
    set_num "actual_capacity" capacity_liters.

(** The second block: the shell thickness
    [t = (P * R) / (S * E - 0.6 * P) + CA], not below the minimum. *)
Definition shell_thickness_block : M unit :=
  design_pressure <- get_num "design_pressure" ;;
  pressure_mpa <- lift (py_mul design_pressure (Flt f_0_00689476)) ;;
  tank_diameter <- get_num "tank_diameter" ;;
  half <- lift (py_truediv tank_diameter (Int 2)) ;;
  radius_m <- lift (py_truediv half (Int 1000)) ;;
  yield_strength <- get_item "material_properties" "yield_strength" ;;
  allowable_stress <- lift (py_mul yield_strength (Flt f_0_4)) ;;
  let joint_efficiency := Flt f_0_85 in
  let corrosion_allowance := Flt f_1_5 in
  pr <- lift (py_mul pressure_mpa radius_m) ;;
  numerator <- lift (py_mul pr (Int 1000)) ;;
  se <- lift (py_mul allowable_stress joint_efficiency) ;;
  p06 <- lift (py_mul (Flt f_0_6) pressure_mpa) ;;
  denominator <- lift (py_sub se p06) ;;
  quotient <- lift (py_truediv numerator denominator) ;;
  calculated_thickness <- lift (py_add quotient corrosion_allowance) ;;
  let minimum_thickness := Flt f_6 in
  shell_thickness <- lift (py_max calculated_thickness minimum_thickness) ;;
  set_num "shell_thickness" shell_thickness.

(** The third block: the dished ends. *)
Definition dished_end_block : M unit :=
  tank_diameter <- get_num "tank_diameter" ;;
  scaled <- lift (py_mul tank_diameter (Flt f_0_06)) ;;
  knuckle_radius <- lift (py_max (Flt f_60) scaled) ;;
  set_num "knuckle_radius" knuckle_radius ;;
  tank_diameter <- get_num "tank_diameter" ;;
  set_num "crown_radius" tank_diameter.

(** [_calculate_optimal_dimensions]. *)
Definition _calculate_optimal_dimensions : M unit :=
  tank_proportions ;; shell_thickness_block ;; dished_end_block.

(** [d[key] = v] on a dict kept in insertion order. *)
Fixpoint dict_set {A} (key : string) (v : A) (d : list (string * A))
  : list (string * A) :=
  match d with
  | [] => [(key, v)]
  | (k, w) :: d' =>
      if String.eqb key k then (k, v) :: d' else (k, w) :: dict_set key v d'
  end.

(** [self.components[key] = c]. *)
Definition set_component (key : string) (c : TankComponent) : M unit :=
  v <- getattr "components" ;;
  match v with
  | AComponents cs => setattr "components" (AComponents (dict_set key c cs))
  | _ => lift (raise TypeError "object does not support item assignment")
  end.

(** [_get_pipe_thickness]: [thickness_map.get(nominal_size, 3.68)]. *)
Definition _get_pipe_thickness (nominal_size : Z) : num :=
  if Z.eqb nominal_size 25 then Flt f_2_87
  else if Z.eqb nominal_size 50 then Flt f_3_68
  else if Z.eqb nominal_size 80 then Flt f_5_49
  else Flt f_3_68.

(** The table [nozzle_specs]: name and nominal size, in the order of the
    dict; schedule is 'Std' throughout. *)
Definition nozzle_specs : list (string * Z) :=
  [("fill_nozzle", 80); ("vent_nozzle", 50);
   ("outlet_nozzle", 50); ("drain_nozzle", 25)].

Definition nozzle_component (nozzles_factor : num) (spec : string * Z)
  : TankComponent :=
  let '(nozzle_name, size) := spec in
  mkTankComponent
    (title (replace nozzle_name "_" " "))
    "Carbon Steel Pipe Grade B (SANS 62-1)"
    [("nominal_size", DNum (Int size)); ("schedule", DStr "Std");
     ("length", DNum (Flt (whole 150))); ("flange_rating", DStr "Table D")]
    (_get_pipe_thickness size)
    "SANS 62-1 & SANS 1123"
    nozzles_factor.

Fixpoint add_nozzles (specs : list (string * Z)) : M unit :=
  match specs with
  | [] => ret tt
  | spec :: rest =>
      factor <- get_item "safety_factors" "nozzles" ;;
      set_component (fst spec) (nozzle_component factor spec) ;;
      add_nozzles rest
  end.

(** [_generate_component_specifications]. *)
Definition _generate_component_specifications : M unit :=
  tank_diameter <- get_num "tank_diameter" ;;
  tank_length <- get_num "tank_length" ;;
  shell_thickness <- get_num "shell_thickness" ;;
  factor <- get_item "safety_factors" "shell" ;;
  set_component "shell"
    (mkTankComponent "Cylindrical Shell"
       "Carbon Steel Plate Grade 300WA (SANS 1431)"
       [("diameter", DNum tank_diameter); ("length", DNum tank_length);
        ("thickness", DNum shell_thickness)]
       shell_thickness "SANS 10131:2004 Annex A.3.2" factor) ;;
  knuckle_radius <- get_num "knuckle_radius" ;;
  crown_radius <- get_num "crown_radius" ;;
  factor <- get_item "safety_factors" "ends" ;;
  set_component "dished_ends"
    (mkTankComponent "Dished Ends (Ellipsoidal)"
       "Carbon Steel Plate Grade 300WA (SANS 1431)"
       [("diameter", DNum tank_diameter);
        ("knuckle_radius", DNum knuckle_radius);
        ("crown_radius", DNum crown_radius);
        ("thickness", DNum shell_thickness)]
       shell_thickness "SANS 10131:2004 Annex A.3.2.4" factor) ;;
  let manhole_diameter := Flt (whole 600) in
  factor <- get_item "safety_factors" "nozzles" ;;
  set_component "manhole"
    (mkTankComponent "Manhole Assembly" "Carbon Steel Grade 300WA"
       [("diameter", DNum manhole_diameter);
        ("neck_height", DNum (Flt (whole 100)));
        ("flange_od", DNum (Flt (whole 750)));
        ("flange_thickness", DNum (Flt (whole 20)));
        ("reinforcing_plate_od", DNum (Flt (whole 800)));
        ("reinforcing_plate_thickness", DNum (Flt (whole 8)))]
       (Flt (whole 20)) "SANS 10131:2004 Annex A.3.4 & A.3.5" factor) ;;
  saddle_position <- lift (py_mul tank_length (Flt f_0_29)) ;;
  factor <- get_item "safety_factors" "supports" ;;
  set_component "support_saddles"
    (mkTankComponent "Support Saddles (Pair)" "Structural Steel Grade 300W"
       [("width", DNum (Flt (whole 250)));
        ("height", DNum (Flt (whole 600)));
        ("thickness", DNum (Flt (whole 10)));
        ("contact_angle", DNum (Flt (whole 120)));
        ("spacing", DNum (Flt (whole 2140)));
        ("position_from_center", DNum saddle_position)]
       (Flt (whole 10)) "SANS 10131:2004 Figure A.6" factor) ;;
  spacing <- lift (py_mul tank_length (Flt f_0_67)) ;;
  factor <- get_item "safety_factors" "lifting_lugs" ;;
  set_component "lifting_lugs"
    (mkTankComponent "Lifting Lugs (Pair)" "Structural Steel Grade 350W"
       [("height", DNum (Flt (whole 90)));
        ("width", DNum (Flt (whole 150)));
        ("thickness", DNum (Flt (whole 12)));
        ("hole_diameter", DNum (Flt (whole 50)));
        ("spacing", DNum spacing)]
       (Flt (whole 12)) "SANS 10131:2004 Figure A.5" factor) ;;
  add_nozzles nozzle_specs.

(** The table [self.safety_factors]. *)
Definition safety_factors : list (string * num) :=
  [("shell", Flt f_2); ("ends", Flt f_2); ("nozzles", Flt f_2_5);
   ("supports", Flt f_3); ("lifting_lugs", Flt f_4)].

(** The table [self.material_properties]. *)
Definition material_properties : list (string * num) :=
  [("yield_strength", Int 300); ("tensile_strength", Int 430);
   ("elongation", Int 23); ("density", Int 7850);
   ("modulus", Int 200000); ("poisson_ratio", Flt f_0_3)].

(** [__init__].  The list of safety requirements that it builds last is a
    fixed table of texts and is left out. *)
Definition __init__ (capacity_liters : num) : M unit :=
  set_num "capacity_liters" capacity_liters ;;
  capacity_m3 <- lift (py_truediv capacity_liters (Int 1000)) ;;
  set_num "capacity_m3" capacity_m3 ;;
  setattr "safety_factors" (ADict safety_factors) ;;
  setattr "material_properties" (ADict material_properties) ;;
  set_num "design_pressure" (Flt f_2_5) ;;
  set_num "design_temperature" (Int 60) ;;
  set_num "hydrostatic_test_pressure" (Flt f_1_5) ;;
  _calculate_optimal_dimensions ;;
  setattr "components" (AComponents []) ;;
  _generate_component_specifications.

(** [ProfessionalTankDesigner(capacity_liters)]: the object and whether the
    construction completed. *)
Definition ProfessionalTankDesigner (capacity_liters : num)
  : obj * result unit :=
  __init__ capacity_liters [].

(** The default argument of the constructor. *)
Definition default_capacity : num := Int 10000.

(** ** The capacity verification of the report *)

(** [math.pi * (self.tank_diameter/2000)**2 * (self.tank_length/1000)]. *)
Definition calculated_volume : M num :=
  tank_diameter <- get_num "tank_diameter" ;;
  radius <- lift (py_truediv tank_diameter (Int 2000)) ;;
  squared <- lift (py_pow L radius (Int 2)) ;;
  area <- lift (py_mul (Flt pi) squared) ;;
  tank_length <- get_num "tank_length" ;;
  metres <- lift (py_truediv tank_length (Int 1000)) ;;
  lift (py_mul area metres).

(** The two texts of the Capacity Match line. *)
Inductive verdict := PASS | FAIL.

(** The Capacity Match field of [generate_comprehensive_report]:
    PASS if [abs(calculated_volume - self.capacity_m3) < 0.5] else FAIL. *)
Definition capacity_match : M verdict :=
  volume <- calculated_volume ;;
  capacity_m3 <- get_num "capacity_m3" ;;
  difference <- lift (py_sub volume capacity_m3) ;;
  distance <- lift (py_abs L difference) ;;
  close <- lift (py_lt distance (Flt f_0_5)) ;;
  ret (if close : bool then PASS else FAIL).

End Designer.

(** ** Reading a constructed object *)

Definition attribute (self : obj) (k : string) : option num :=
  match lookup k self with
  | Some (ANum n) => Some n
  | _ => None
  end.

Definition components_of (self : obj) : list (string * TankComponent) :=
  match lookup "components" self with
  | Some (AComponents cs) => cs
  | _ => []
  end.

End TankDesign.

(* ================================================================== *)
(** * final_step_generator.py *)
(* ================================================================== *)

Module StepExport.

Local Open Scope string_scope.
Local Open Scope list_scope.

(** What the calls into the CAD library and the file system do when
    [export_step_file] makes them; each is made at most once. *)
Record world := mk_world {
  import_export_step : result unit;   (* from build123d import export_step *)
  export_step : result unit;          (* export_step(part_object, filename) *)
  part_export_step : result unit;     (* part_object.export_step(filename) *)
  open_file : result unit;            (* open(filename, 'w') *)
  to_step : result string;            (* part_object.to_step() *)
  write : string -> result unit;      (* f.write(step_data) *)
  close : result unit                 (* leaving the with block *)
}.

(** The calls made, in the order they are made. *)
Inductive call :=
| CallImport
| CallExportStep
| CallPartExportStep
| CallOpen
| CallToStep
| CallWrite (data : string)
| CallClose
| CallPrint (text : string).

(** A run: the calls made and how it ended. *)
Definition run (A : Type) := (list call * result A)%type.

Definition call_then {A B} (c : call) (r : result A) (k : A -> run B) : run B :=
  match r with
  | Ok a => let '(calls, out) := k a in (c :: calls, out)
  | Raise e => ([c], Raise e)
  end.

Definition done {A} (a : A) : run A := ([], Ok a).

(** First method: the exporter function of the library. *)
Definition first_method (w : world) : run unit :=
  call_then CallImport (import_export_step w) (fun _ =>
  call_then CallExportStep (export_step w) (fun _ => done tt)).

(** Second method: the method of the part. *)
Definition second_method (w : world) : run unit :=
  call_then CallPartExportStep (part_export_step w) (fun _ => done tt).

(** The body of the with block; the file is closed however the body ends, and
    an exception of the closing replaces the one of the body. *)
Definition third_method (w : world) : run unit :=
  call_then CallOpen (open_file w) (fun _ =>
    let '(calls, body) :=
      call_then CallToStep (to_step w) (fun step_data =>
      call_then (CallWrite step_data) (write w step_data) (fun _ => done tt)) in
    match close w with
    | Ok _ => (calls ++ [CallClose], body)
    | Raise e => (calls ++ [CallClose], Raise e)
    end).

(** [export_step_file]: the two outer handlers are bare [except:], the inner
    one is [except Exception as e]. *)
Definition export_step_file (w : world) : run bool :=
  let '(calls1, r1) := first_method w in
  match r1 with
  | Ok _ => (calls1, Ok true)
  | Raise _ =>
      let '(calls2, r2) := second_method w in
      match r2 with
      | Ok _ => (calls1 ++ calls2, Ok true)
      | Raise _ =>
          let '(calls3, r3) := third_method w in
          match r3 with
          | Ok _ => (calls1 ++ calls2 ++ calls3, Ok true)
          | Raise e =>
              if is_Exception e then
                (calls1 ++ calls2 ++ calls3
                   ++ [CallPrint ("Export failed: " ++ exn_msg e)%string], Ok false)
              else (calls1 ++ calls2 ++ calls3, Raise e)
          end
      end
  end.




End StepExport.

(* ================================================================== *)
(** * simple_pdf_generator.py *)
(* ================================================================== *)

Module PdfGen.

Local Open Scope string_scope.
Local Open Scope py_scope.

(** The file system and the two libraries, as [markdown_to_pdf] and [main]
    meet them.  The page template of [markdown_to_pdf] is kept as the three
    texts around its fields.  Printing the messages of the two functions,
    whose fixed text is ASCII, is taken to succeed, but for the last one of
    [main], which holds the absolute path of the output directory. *)
Record world := mk_world {
  mkdir : result unit;                            (* pdf_dir.mkdir(exist_ok=True) *)
  print_directory : result unit;                  (* print(... pdf_dir.absolute() ...) *)
  file_exists : string -> bool;                   (* os.path.exists *)
  import_markdown : result unit;                  (* import markdown *)
  import_weasyprint : result unit;                (* from weasyprint import HTML, CSS *)
  read_text : string -> result string;            (* open(...).read() *)
  md_convert : string -> result string;           (* Markdown(...).convert *)
  make_css : result unit;                         (* CSS(string=...) *)
  make_html : string -> result unit;              (* HTML(string=...) *)
  write_pdf : string -> string -> result unit;    (* html_doc.write_pdf *)
  template : string * string * string * string
}.

(** [title or "Professional Documentation"]. *)
Definition title_or_default (title : option string) : string :=
  match title with
  | None | Some EmptyString => "Professional Documentation"
  | Some t => t
  end.

Definition html_document (w : world) (title : option string)
  (html_content : string) : string :=
  let '(t0, t1, t2, t3) := template w in
  t0 ++ title_or_default title ++ t1 ++ title_or_default title ++ t2
     ++ html_content ++ t3.

(** The body of the try block of [markdown_to_pdf]. *)
Definition convert_body (w : world) (markdown_file output_pdf : string)
  (title : option string) : result bool :=
  _ <- import_markdown w ;;
  _ <- import_weasyprint w ;;
  markdown_content <- read_text w markdown_file ;;
  html_content <- md_convert w markdown_content ;;
  _ <- make_css w ;;
  let document := html_document w title html_content in
  _ <- make_html w document ;;
  _ <- write_pdf w document output_pdf ;;
  Ok true.

(** [markdown_to_pdf]: the handler is [except Exception as e]. *)
Definition markdown_to_pdf (w : world) (markdown_file output_pdf : string)
  (title : option string) : result bool :=
  match convert_body w markdown_file output_pdf title with
  | Ok b => Ok b
  | Raise e => if is_Exception e then Ok false else Raise e
  end.

(** The table [documents] of [main]. *)
Definition documents : list (string * string * string) :=
  [("Comprehensive_Tank_Design_Deliverable.md",
    "Complete_Professional_Tank_Design_Package.pdf",
    "Complete Professional Tank Design Package");
   ("Tank_Technical_Specifications.md",
    "Tank_Technical_Specifications.pdf",
    "Tank Technical Specifications");
   ("Tank_Design_Analysis_Report.md",
    "Tank_Design_Analysis_Report.pdf",
    "Tank Design Analysis Report");
   ("Tank_Safety_Compliance_Checklist.md",
    "Tank_Safety_Compliance_Checklist.pdf",
    "Tank Safety Compliance Checklist");
   ("README.md",
    "SolidWorks_API_Collection_Overview.pdf",
    "SolidWorks API Collection Overview");
   ("DEPLOYMENT_SUMMARY.md",
    "SuperClaude_Deployment_Summary.pdf",
    "SuperClaude Multi-Persona Optimization Summary")].

Definition pdf_dir : string := "Professional_PDF_Documentation".

(** The loop of [main] over the documents that remain, [successful] being the
    count so far. *)
Fixpoint convert_all (w : world) (docs : list (string * string * string))
  (successful : nat) : result nat :=
  match docs with
  | [] => Ok successful
  | (markdown_file, pdf_filename, title) :: rest =>
      if file_exists w markdown_file then
        let output_path := pdf_dir ++ "/" ++ pdf_filename in
        converted <- markdown_to_pdf w markdown_file output_path (Some title) ;;
        convert_all w rest (if converted : bool then S successful else successful)
      else convert_all w rest successful
  end.

(** [main].  The output directory is created before the loop and its
    absolute path is found and printed after it, both outside any handler. *)
Definition main (w : world) : result bool :=
  _ <- mkdir w ;;
  let total := List.length documents in
  successful <- convert_all w documents 0 ;;
  _ <- print_directory w ;;
  Ok (Nat.eqb successful total).

(** One document of the table is converted: it exists and [markdown_to_pdf]
    returns True for it. *)
Definition converted (w : world) (doc : string * string * string) : Prop :=
  let '(markdown_file, pdf_filename, title) := doc in
  file_exists w markdown_file = true /\
  markdown_to_pdf w markdown_file (pdf_dir ++ "/" ++ pdf_filename) (Some title)
    = Ok true.

End PdfGen.

(* ================================================================== *)
(** * main.py and documentation_server.py: the request handlers *)
(* ================================================================== *)

Module DocServer.

Import PyStr.
Local Open Scope string_scope.
Local Open Scope py_scope.

(** The two handler classes have the same methods and differ in their texts,
    in one header and in the markdown extensions. *)
Record handler_class := mk_handler {
  dashboard_html : string;                     (* the page of serve_main_dashboard *)
  page : string * string * string * string;    (* the page of serve_document, around its fields *)
  allow_origin : bool;                         (* Access-Control-Allow-Origin: * is sent *)
  extensions : list string;                    (* markdown.Markdown(extensions=...) *)
  not_found : string -> option string;         (* message of the 404 *)
  failure : string -> string                   (* message of the 500, from str(e) *)
}.

(** [main.ProfessionalDocumentationHandler]. *)
Definition ProfessionalDocumentationHandler
  (dashboard : string) (template : string * string * string * string)
  : handler_class :=
  mk_handler dashboard template true ["extra"; "tables"; "toc"]
    (fun filename => Some ("Document not found: " ++ filename))
    (fun e => "Error reading document: " ++ e).

(** [documentation_server.DocumentationHandler]. *)
Definition DocumentationHandler
  (dashboard : string) (template : string * string * string * string)
  : handler_class :=
  mk_handler dashboard template false ["extra"; "tables"]
    (fun _ => None)
    (fun e => "Error: " ++ e).

(** The library calls and the file system under a request. *)
Record world := mk_world {
  urlparse_path : string -> string;                     (* urlparse(...).path *)
  path_exists : string -> bool;                         (* os.path.exists *)
  read_text : string -> result string;                  (* open(...).read() *)
  markdown : list string -> string -> result string     (* Markdown(extensions).convert *)
}.

(** What a handler method does with the request: it writes a response of its
    own, calls [send_error], or hands the request to the base class.  Writing
    to the client is taken to succeed. *)
Inductive reply :=
| Response (status : nat) (headers : list (string * string)) (body : string)
| SendError (code : nat) (message : option string)
| Delegated.

Definition status_of (r : reply) : option nat :=
  match r with
  | Response status _ _ => Some status
  | SendError code _ => Some code
  | Delegated => None
  end.

Definition html_headers (h : handler_class) : list (string * string) :=
  ("Content-type", "text/html; charset=utf-8")
    :: (if allow_origin h then [("Access-Control-Allow-Origin", "*")] else []).

Definition serve_main_dashboard (h : handler_class) : reply :=
  Response 200 (html_headers h) (dashboard_html h).

(** The f-string [full_html]. *)
Definition full_html (h : handler_class) (title html_content : string) : string :=
  let '(t0, t1, t2, t3) := page h in
  t0 ++ title ++ t1 ++ title ++ t2 ++ html_content ++ t3.

Definition title_of (filename : string) : string :=
  replace (replace filename "_" " ") ".md" "".

(** The body of the try block of [serve_document]. *)
Definition document_body (h : handler_class) (w : world) (filename : string)
  : result reply :=
  content <- read_text w filename ;;
  html_content <-
    (if endswith filename ".md" then markdown w (extensions h) content
     else Ok ("<pre>" ++ content ++ "</pre>")) ;;
  let title := title_of filename in
  Ok (Response 200 (html_headers h) (full_html h title html_content)).

(** [serve_document]: the handler is [except Exception as e]. *)
Definition serve_document (h : handler_class) (w : world) (filename : string)
  : result reply :=
  if negb (path_exists w filename) then
    Ok (SendError 404 (not_found h filename))
  else
    match document_body h w filename with
    | Ok r => Ok r
    | Raise e =>
        if is_Exception e then Ok (SendError 500 (Some (failure h (exn_msg e))))
        else Raise e
    end.

(** [do_GET], on the request target [self.path]. *)
Definition do_GET (h : handler_class) (w : world) (target : string)
  : result reply :=
  let path := urlparse_path w target in
  if String.eqb path "/" || String.eqb path "/index.html" then
    Ok (serve_main_dashboard h)
  else if startswith path "/document/" then
    let doc_name := split_last "/"%char path in
    serve_document h w doc_name
  else Ok Delegated.

End DocServer.

(* ================================================================== *)
(** * The entry points of the two servers *)
(* ================================================================== *)

Module EntryPoints.

Local Open Scope string_scope.
Local Open Scope Z_scope.

(** What the body of a started thread does. *)
Inductive thread_effect :=
| Sleep (seconds : Z)
| OpenBrowser (url : string).

(** What an entry point does, step by step; the texts printed are left out. *)
Inductive effect :=
| Print
| Chdir
| Listen (host : string) (port : Z)
| StartThread (daemon : bool) (target : list thread_effect)
| ServeForever
| Shutdown.

Fixpoint prints (n : nat) : list effect :=
  match n with
  | O => []
  | S k => Print :: prints k
  end.

(** The local function [open_browser] of [start_server]. *)
Definition open_browser : list thread_effect :=
  [Sleep 2; OpenBrowser "http://localhost:8080"].

(** [documentation_server.start_server]; [interrupted] tells whether
    [serve_forever] is left by a KeyboardInterrupt. *)
Definition start_server (interrupted : bool) : list effect :=
  prints 11 ++ [Chdir; Listen "" 8080] ++ prints 2
    ++ [StartThread true open_browser]
    ++ prints 3 ++ [ServeForever]
    ++ (if interrupted then [Print; Shutdown; Print] else []).

(** [main.main], [port] being [int(os.environ.get('PORT', 8080))]. *)
Definition main (port : Z) (interrupted : bool) : list effect :=
  prints 12 ++ [Chdir; Listen "0.0.0.0" port] ++ prints 3 ++ [ServeForever]
    ++ (if interrupted then [Print; Shutdown] else []).

(** The threads an entry point starts itself. *)
Fixpoint threads_started (run : list effect)
  : list (bool * list thread_effect) :=
  match run with
  | [] => []
  | StartThread daemon target :: rest => (daemon, target) :: threads_started rest
  | _ :: rest => threads_started rest
  end.

(** The modules of the repository and what each imports, at the top of the
    file or inside a function. *)
Definition imports : list (string * list string) :=
  [("documentation_server",
    ["http.server"; "socketserver"; "webbrowser"; "threading"; "time"; "os";
     "markdown"; "pathlib"; "urllib.parse"]);
   ("final_step_generator", ["build123d"; "math"]);
   ("main",
    ["http.server"; "socketserver"; "os"; "markdown"; "pathlib";
     "urllib.parse"]);
   ("professional_tank_design_system",
    ["math"; "json"; "os"; "datetime"; "typing"; "dataclasses"; "enum";
     "build123d"]);
   ("simple_pdf_generator", ["os"; "sys"; "pathlib"; "markdown"; "weasyprint"]);
   ("simple_step_generator", ["math"; "build123d"]);
   ("tank_design_generator", ["build123d"]);
   ("working_step_generator", ["build123d"; "math"])].

(** The standard modules through which a program runs code concurrently. *)
Definition concurrency_modules : list string :=
  ["threading"; "_thread"; "multiprocessing"; "concurrent.futures";
   "asyncio"; "subprocess"].

Definition uses_concurrency (module_imports : list string) : bool :=
  existsb (fun m => existsb (String.eqb m) concurrency_modules) module_imports.

End EntryPoints.

From Stdlib Require Import Permutation DecimalString.

(* ================================================================== *)
(** * professional_tank_design_system.py: the safety requirements *)
(* ================================================================== *)

Module Compliance.

Local Open Scope string_scope.
Local Open Scope list_scope.

(** The members of the enumeration [SafetyStandard], in the order of their
    definition, which is the order of [for standard in SafetyStandard]. *)
Inductive SafetyStandard :=
| SANS_10131_2004 | API_650 | API_653 | ASME_BPVC_VIII | ISO_9001
| SANS_1431 | SANS_62_1 | SANS_9956_3 | SANS_9606_1 | ISO_8501_1.

Definition members : list SafetyStandard :=
  [SANS_10131_2004; API_650; API_653; ASME_BPVC_VIII; ISO_9001;
   SANS_1431; SANS_62_1; SANS_9956_3; SANS_9606_1; ISO_8501_1].

(** [standard.value]. *)
Definition value (s : SafetyStandard) : string :=
  match s with
  | SANS_10131_2004 => "SANS 10131:2004"
  | API_650 => "API 650"
  | API_653 => "API 653"
  | ASME_BPVC_VIII => "ASME BPVC Section VIII"
  | ISO_9001 => "ISO 9001"
  | SANS_1431 => "SANS 1431"
  | SANS_62_1 => "SANS 62-1"
  | SANS_9956_3 => "SANS 9956-3"
  | SANS_9606_1 => "SANS 9606-1"
  | ISO_8501_1 => "ISO 8501-1"
  end.

(** The position of a member in the enumeration. *)
Definition index (s : SafetyStandard) : nat :=
  match s with
  | SANS_10131_2004 => 0 | API_650 => 1 | API_653 => 2 | ASME_BPVC_VIII => 3
  | ISO_9001 => 4 | SANS_1431 => 5 | SANS_62_1 => 6 | SANS_9956_3 => 7
  | SANS_9606_1 => 8 | ISO_8501_1 => 9
  end.

(** [a == b] on members: two members are equal when they are the same
    member. *)
Definition standard_eqb (a b : SafetyStandard) : bool :=
  Nat.eqb (index a) (index b).

(** The dataclass [SafetyRequirement]. *)
Record SafetyRequirement := mkSafetyRequirement {
  standard : SafetyStandard;
  requirement_id : string;
  description : string;
  compliance_status : bool;
  verification_method : string;
  inspector_required : bool
}.

(** The list that [_generate_safety_requirements] stores in
    [self.safety_requirements]. *)
Definition _generate_safety_requirements : list SafetyRequirement :=
  let sans_requirements :=
    [mkSafetyRequirement SANS_10131_2004 "4.1"
       "Bund wall construction and capacity" false
       "Visual inspection and volume calculation" true;
     mkSafetyRequirement SANS_10131_2004 "4.2"
       "Safety distances per Tables 1, 2, 3" false
       "Distance measurement and verification" true;
     mkSafetyRequirement SANS_10131_2004 "5.1"
       "Fire resistance requirements" false
       "Fire authority consultation" true;
     mkSafetyRequirement SANS_10131_2004 "6.1"
       "Venting requirements per API 2000" false
       "Vent sizing calculation" true;
     mkSafetyRequirement SANS_10131_2004 "A.4"
       "Pressure testing procedures" false
       "Hydrostatic test performance" true] in
  let api_650_requirements :=
    [mkSafetyRequirement API_650 "5.3"
       "Shell plate thickness calculation" false
       "Stress analysis verification" true;
     mkSafetyRequirement API_650 "5.7"
       "Shell joint requirements" false
       "Welding procedure qualification" true;
     mkSafetyRequirement API_650 "5.10"
       "Nozzle reinforcement" false
       "Reinforcement area calculation" true;
     mkSafetyRequirement API_650 "8.1"
       "Welding requirements" false
       "Welder qualification verification" true] in
  let iso_9001_requirements :=
    [mkSafetyRequirement ISO_9001 "7.1"
       "Quality planning" false
       "Quality plan documentation" false;
     mkSafetyRequirement ISO_9001 "7.5"
       "Documented information control" false
       "Document control procedures" false;
     mkSafetyRequirement ISO_9001 "8.1"
       "Operational planning and control" false
       "Process control verification" false;
     mkSafetyRequirement ISO_9001 "8.7"
       "Control of nonconforming outputs" false
       "NCR system implementation" false] in
  let material_requirements :=
    [mkSafetyRequirement SANS_1431 "6.1"
       "Chemical composition requirements" false
       "Mill test certificate verification" true;
     mkSafetyRequirement SANS_1431 "7.1"
       "Mechanical property requirements" false
       "Tensile test verification" true] in
  let welding_requirements :=
    [mkSafetyRequirement SANS_9956_3 "5.1"
       "Welding procedure specification" false
       "WPS qualification and approval" true;
     mkSafetyRequirement SANS_9606_1 "4.1"
       "Welder qualification requirements" false
       "Welder certification verification" true] in
  sans_requirements ++ api_650_requirements ++ iso_9001_requirements
    ++ material_requirements ++ welding_requirements.

(** ** The compliance matrix of [generate_comprehensive_report] *)

(** [len(set(req.standard for req in self.safety_requirements))]: a member is
    counted when it has not been met before. *)
Fixpoint distinct (seen : list SafetyStandard) (l : list SafetyStandard) : nat :=
  match l with
  | [] => 0
  | s :: l' =>
      if existsb (standard_eqb s) seen then distinct seen l'
      else S (distinct (s :: seen) l')
  end.

Definition standards_coverage (reqs : list SafetyRequirement) : nat :=
  distinct [] (map standard reqs).

(** [[req for req in self.safety_requirements if req.standard == standard]]. *)
Definition standard_reqs (reqs : list SafetyRequirement) (s : SafetyStandard)
  : list SafetyRequirement :=
  filter (fun req => standard_eqb (standard req) s) reqs.

(** The sections of the matrix: one for each member that has requirements,
    in the order of the enumeration. *)
Fixpoint sections (standards : list SafetyStandard)
  (reqs : list SafetyRequirement)
  : list (SafetyStandard * list SafetyRequirement) :=
  match standards with
  | [] => []
  | s :: rest =>
      match standard_reqs reqs s with
      | [] => sections rest reqs
      | rows => (s, rows) :: sections rest reqs
      end
  end.

Definition newline : string := String (ascii_of_nat 10) EmptyString.

(** [str(n)] for a length. *)
Definition str_of_nat (n : nat) : string :=
  NilEmpty.string_of_uint (Nat.to_uint n).

(** One line of a table. *)
Definition matrix_row (req : SafetyRequirement) : string :=
  let inspector := if inspector_required req then "Yes" else "No" in
  "| " ++ requirement_id req ++ " | " ++ description req ++ " | "
       ++ inspector ++ " | " ++ verification_method req ++ " |" ++ newline.

Definition section_text (section : SafetyStandard * list SafetyRequirement)
  : string :=
  let '(s, rows) := section in
  newline ++ "### " ++ value s ++ newline
    ++ "Requirements: " ++ str_of_nat (List.length rows) ++ newline
    ++ newline
    ++ "| Req ID | Description | Inspector Required | Verification Method |"
    ++ newline
    ++ "|--------|-------------|--------------------|-------------------|"
    ++ newline
    ++ String.concat "" (map matrix_row rows).

(** The text that the loop over the enumeration adds to the report. *)
Definition compliance_matrix (reqs : list SafetyRequirement) : string :=
  String.concat "" (map section_text (sections members reqs)).

(** The two counts above the matrix. *)
Definition matrix_heading (reqs : list SafetyRequirement) : string :=
  newline ++ "## SAFETY STANDARDS COMPLIANCE MATRIX" ++ newline ++ newline
    ++ "Total Safety Requirements: " ++ str_of_nat (List.length reqs) ++ newline
    ++ "Standards Coverage: " ++ str_of_nat (standards_coverage reqs)
    ++ " standards" ++ newline ++ newline.

End Compliance.

(* ================================================================== *)
(** * professional_tank_design_system.py: the report and the STEP model *)
(* ================================================================== *)

Module TankReport.

Import F64 PyNum TankDesign.
Local Open Scope string_scope.
Local Open Scope list_scope.
Local Open Scope Z_scope.
Local Open Scope M_scope.

(** ** The thickness lines of [generate_comprehensive_report] *)

(** The Selected Thickness field: [max(self.shell_thickness, 6.0)]. *)
Definition selected_thickness : M num :=
  shell_thickness <- get_num "shell_thickness" ;;
  lift (py_max shell_thickness (Flt f_6)).

(** ** The dimensions that [create_professional_step_file] reads *)

(** [self.components[component].dimensions[key]] where a number is
    expected. *)
Definition read_dimension (component key : string) : M num :=
  v <- getattr "components" ;;
  match v with
  | AComponents cs =>
      match lookup component cs with
      | Some c =>
          match lookup key (dimensions c) with
          | Some (DNum n) => ret n
          | Some (DStr _) => lift (raise TypeError "unsupported operand type")
          | None => lift (raise KeyError key)
          end
      | None => lift (raise KeyError component)
      end
  | _ => lift (raise TypeError "object is not subscriptable")
  end.

(** The subscripts that the method evaluates on the manhole, the saddles and
    the lifting lugs, in the order of the source. *)
Definition dimension_reads : list (string * string) :=
  [("manhole", "reinforcing_plate_od"); ("manhole", "diameter");
   ("manhole", "reinforcing_plate_thickness"); ("manhole", "diameter");
   ("manhole", "neck_height"); ("manhole", "neck_height");
   ("manhole", "flange_od"); ("manhole", "diameter");
   ("manhole", "flange_thickness");
   ("support_saddles", "width"); ("support_saddles", "height");
   ("support_saddles", "thickness"); ("support_saddles", "width");
   ("support_saddles", "width"); ("support_saddles", "position_from_center");
   ("lifting_lugs", "width"); ("lifting_lugs", "height");
   ("lifting_lugs", "hole_diameter"); ("lifting_lugs", "height");
   ("lifting_lugs", "thickness"); ("lifting_lugs", "spacing")].

(** The names of the dict [nozzle_positions]. *)
Definition nozzle_positions : list string := ["fill"; "vent"; "outlet"; "drain"].

(** The subscripts of the loop over [nozzle_positions]: the nominal size of
    the component [f"{nozzle_name}_nozzle"]. *)
Definition nozzle_reads : list (string * string) :=
  map (fun nozzle_name => ((nozzle_name ++ "_nozzle")%string, "nominal_size"))
      nozzle_positions.

(** ** The profile of the dished ends in [create_professional_step_file] *)

Definition f_0_2 : float := Eval vm_compute in decimal 2 1.

(** The constant [degToRad] of the math module, [pi / 180.0]. *)
Definition degToRad : float := Eval vm_compute in fdiv pi (of_Z 180).

(** [math.radians(i)] for a small int [i]. *)
Definition radians (i : Z) : float := fmul (of_Z i) degToRad.

(** A function of the math module that wraps a function of the C library
    (math_1 with can_overflow = 0): ValueError when the result is NaN for an
    argument that is not, or infinite for a finite argument.  The test of
    [errno] on a finite result is left out. *)
Definition math_1 (func : float -> float) (x : float) : result float :=
  let r := func x in
  if is_nan r && negb (is_nan x) then raise ValueError "math domain error"
  else if is_inf r && negb (is_nan x) && negb (is_inf x)
  then raise ValueError "math domain error"
  else Ok r.

(** A point [(0, y, z)]. *)
Definition point := (Z * num * num)%type.

(** [range(n)]. *)
Definition range (n : nat) : list Z := map Z.of_nat (seq 0 n).

(** [for i in l: acc = body(i, acc)]. *)
Fixpoint for_each {S} (l : list Z) (body : Z -> S -> M S) (acc : S) : M S :=
  match l with
  | [] => ret acc
  | i :: rest => acc' <- body i acc ;; for_each rest body acc'
  end.

(** [l[::step]] after [skip] elements have been passed over. *)
Fixpoint every {A} (step skip : nat) (l : list A) : list A :=
  match l with
  | [] => []
  | x :: l' =>
      match skip with
      | O => x :: every step (step - 1) l'
      | S k => every step k l'
      end
  end.

Section Profile.

(** C's [cos] and [sin]. *)
Variables cos sin : float -> float.

(** The body of the first loop: a point of the ellipse. *)
Definition crown_step (radius : num) (i : Z) (points : list point)
  : M (list point) :=
  let angle := radians i in
  c <- lift (math_1 cos angle) ;;
  y <- lift (py_mul radius (Flt c)) ;;
  fifth <- lift (py_mul radius (Flt f_0_2)) ;;
  s <- lift (math_1 sin angle) ;;
  z <- lift (py_mul fifth (Flt s)) ;;
  ret (points ++ [(0, y, z)]).

(** The body of the second loop: a point of the knuckle, kept when it is not
    beyond the radius. *)
Definition knuckle_step (radius knuckle_center_y : num) (i : Z)
  (points : list point) : M (list point) :=
  let angle := radians i in
  knuckle_radius <- get_num "knuckle_radius" ;;
  c <- lift (math_1 cos angle) ;;
  offset <- lift (py_mul knuckle_radius (Flt c)) ;;
  y <- lift (py_add knuckle_center_y offset) ;;
  knuckle_radius <- get_num "knuckle_radius" ;;
  s <- lift (math_1 sin angle) ;;
  z <- lift (py_mul knuckle_radius (Flt s)) ;;
  inside <- lift (py_le y radius) ;;
  ret (if inside : bool then points ++ [(0, y, z)] else points).

(** The points handed to [Spline], or [None] when no spline is drawn. *)
Definition spline_points : M (option (list point)) :=
  tank_diameter <- get_num "tank_diameter" ;;
  radius <- lift (py_truediv tank_diameter (Int 2)) ;;
  points <- for_each (range 90) (crown_step radius) [] ;;
  knuckle_radius <- get_num "knuckle_radius" ;;
  knuckle_center_y <- lift (py_sub radius knuckle_radius) ;;
  points <- for_each (range 90) (knuckle_step radius knuckle_center_y) points ;;
  if Nat.ltb 3 (List.length points) then ret (Some (every 5 0 points))
  else ret None.

End Profile.

End TankReport.

(* ================================================================== *)
(** * The scripts that generate the STEP file *)
(* ================================================================== *)

Module StepScripts.

Local Open Scope string_scope.
Local Open Scope list_scope.
Local Open Scope Z_scope.
Local Open Scope py_scope.

(** How the run of a script ends: it calls [exit] with a status (the builtin
    that the site module provides, which raises SystemExit), it reaches the
    end of the file, or an exception that nothing caught ends it. *)
Inductive outcome :=
| Exit (status : Z)
| Finished
| Uncaught (e : exn).

(** A print statement raises when its text cannot be encoded for the output
    stream or the stream cannot be written to.  What each print statement of
    a script does is decided by the world, by the line of the statement; none
    of them is run twice.  [prints print first count] are the print
    statements of [count] successive lines from line [first] on: the first
    one that raises ends the sequence. *)
Fixpoint prints (print : Z -> result unit) (first : Z) (count : nat)
  : result unit :=
  match count with
  | O => Ok tt
  | S n => _ <- print first ;; prints print (first + 1) n
  end.

(** The print statements of the lines [first] to [last]. *)
Definition print_lines (print : Z -> result unit) (first last : Z)
  : result unit :=
  prints print first (Z.to_nat (last - first + 1)).

(** [try: body / except Exception as e: handler]. *)
Definition try_except {A} (body : result A) (handler : exn -> result A)
  : result A :=
  match body with
  | Ok a => Ok a
  | Raise e => if is_Exception e then handler e else Raise e
  end.

(** The closing messages of a script, then [exit(status)]. *)
Definition then_exit (messages : result unit) (status : Z) : outcome :=
  match messages with
  | Ok _ => Exit status
  | Raise e => Uncaught e
  end.

(** ** final_step_generator.py *)

Module Final.

Record world := mk_world {
  imports : result unit;          (* from build123d import *; import math *)
  print : Z -> result unit;       (* the print statement of a line *)
  create_professional_tank : result unit;
  export : StepExport.world       (* the calls of export_step_file *)
}.

(** [export_step_file(tank_model, output_filename)], with the message of its
    handler (line 112), printed before it returns False. *)
Definition export_step_file (w : world) : result bool :=
  exported <- snd (StepExport.export_step_file (export w)) ;;
  if exported : bool then Ok true else _ <- print w 112 ;; Ok false.

(** The try block of [main]: the tank is created, the export is announced
    and made; then either the report of success is printed (lines 137 to
    169) or [Exception("STEP export failed with all methods")] is raised. *)
Definition generation (w : world) : result bool :=
  _ <- create_professional_tank w ;;
  _ <- print w 131 ;;
  export_success <- export_step_file w ;;
  if export_success : bool then
    _ <- print_lines (print w) 137 169 ;; Ok true
  else raise Exception "STEP export failed with all methods".

(** [main]: the heading (lines 118 to 123) is printed before the try block;
    the handler prints five lines and returns False. *)
Definition main (w : world) : result bool :=
  _ <- print_lines (print w) 118 123 ;;
  try_except (generation w)
    (fun _ => _ <- print_lines (print w) 175 179 ;; Ok false).

(** The script: the imports, [main], and [exit(0)] after the messages of
    either branch. *)
Definition script (w : world) : outcome :=
  match (_ <- imports w ;; main w) with
  | Raise e => Uncaught e
  | Ok success =>
      if success : bool then then_exit (print w 185) 0
      else then_exit (print_lines (print w) 188 189) 0
  end.

End Final.

(** ** simple_step_generator.py *)

Module Simple.

(** The calls of the script into the CAD library and to the output stream. *)
Record world := mk_world {
  imports : result unit;          (* import math; from build123d import * *)
  print : Z -> result unit;       (* the print statement of a line *)
  create_simple_professional_tank : result unit;
  set_label : result unit;        (* tank_model.label = ... *)
  make_color : result unit;       (* Color(0.7, 0.7, 0.8) *)
  set_color : result unit;        (* tank_model.color = ... *)
  export_step : string -> result unit   (* tank_model.export_step *)
}.

Definition output_filename : string := "Professional_SANS_10131_Tank.stp".

(** The try block of [main]. *)
Definition generation (w : world) : result bool :=
  _ <- create_simple_professional_tank w ;;
  _ <- set_label w ;;
  _ <- make_color w ;;
  _ <- set_color w ;;
  _ <- print w 173 ;;
  _ <- export_step w output_filename ;;
  _ <- print_lines (print w) 177 194 ;;
  Ok true.

Definition main (w : world) : result bool :=
  _ <- print_lines (print w) 156 161 ;;
  try_except (generation w) (fun _ => _ <- print w 199 ;; Ok false).

(** The script: a message and [exit(1)] when [main] returned False;
    otherwise the end of the file is reached. *)
Definition script (w : world) : outcome :=
  match (_ <- imports w ;; main w) with
  | Raise e => Uncaught e
  | Ok success =>
      if negb success then then_exit (print w 205) 1 else Finished
  end.

End Simple.

(** ** working_step_generator.py *)

Module Working.

Record world := mk_world {
  imports : result unit;          (* from build123d import *; import math *)
  print : Z -> result unit;       (* the print statement of a line *)
  create_professional_tank : result unit;
  export_step : string -> result unit   (* tank_model.export_step *)
}.

Definition output_filename : string := "Professional_SANS_10131_Tank.stp".

(** The try block of [main]. *)
Definition generation (w : world) : result bool :=
  _ <- create_professional_tank w ;;
  _ <- print w 171 ;;
  _ <- export_step w output_filename ;;
  _ <- print_lines (print w) 175 208 ;;
  Ok true.

Definition main (w : world) : result bool :=
  _ <- print_lines (print w) 158 163 ;;
  try_except (generation w)
    (fun _ => _ <- print_lines (print w) 213 217 ;; Ok false).

(** The script: a message and [exit(0)] when [main] returned True, a message
    and [exit(1)] when it returned False. *)
Definition script (w : world) : outcome :=
  match (_ <- imports w ;; main w) with
  | Raise e => Uncaught e
  | Ok success =>
      if success : bool then then_exit (print w 223) 0
      else then_exit (print w 226) 1
  end.

End Working.

(** ** tank_design_generator.py *)

Module Generator.

(** The CAD library, the file system and the output stream under the script;
    [documentation] is the text of [generate_tank_documentation]. *)
Record world := mk_world {
  imports : result unit;                        (* from build123d import * *)
  print : Z -> result unit;                     (* the print statement of a line *)
  create_tank_model : result unit;
  export_step : string -> result unit;          (* tank_model.export_step *)
  open_file : string -> result unit;            (* open(filename, 'w', ...) *)
  write : string -> result unit;                (* f.write(doc) *)
  close : result unit;                          (* leaving the with block *)
  documentation : string
}.

(** The statements run whose outcome the world decides, in the order they
    are run. *)
Inductive event :=
| Import
| Print (line : Z)
| CreateModel
| ExportStep (filename : string)
| Open (filename : string)
| Write (text : string)
| Close.

Definition run (A : Type) := (list event * result A)%type.

Definition done {A} (a : A) : run A := ([], Ok a).

(** One statement. *)
Definition step {A} (ev : event) (r : result A) : run A := ([ev], r).

(** One part of a run, then the next unless the first raised. *)
Definition seq {A B} (m : run A) (k : A -> run B) : run B :=
  let '(events, r) := m in
  match r with
  | Ok a => let '(events', r') := k a in (events ++ events', r')
  | Raise e => (events, Raise e)
  end.

(** The print statements of [count] successive lines from [first] on. *)
Fixpoint prints (w : world) (first : Z) (count : nat) : run unit :=
  match count with
  | O => done tt
  | S n => seq (step (Print first) (print w first))
               (fun _ => prints w (first + 1) n)
  end.

Definition print_lines (w : world) (first last : Z) : run unit :=
  prints w first (Z.to_nat (last - first + 1)).

(** [try: body / except Exception as e: handler]. *)
Definition try_except {A} (body handler : run A) : run A :=
  let '(events, r) := body in
  match r with
  | Ok a => (events, Ok a)
  | Raise e =>
      if is_Exception e then
        let '(events', r') := handler in (events ++ events', r')
      else (events, Raise e)
  end.

(** [with open(...) as f: body]: the file is closed however the body ends,
    and an exception of the closing replaces the one of the body. *)
Definition with_close {A} (w : world) (body : run A) : run A :=
  let '(events, r) := body in
  (events ++ [Close],
   match close w with
   | Ok _ => r
   | Raise e => Raise e
   end).

(** [export_step_file(filename)]. *)
Definition export_step_file (w : world) (filename : string) : run bool :=
  try_except
    (seq (step (Print 257) (print w 257)) (fun _ =>
     seq (step CreateModel (create_tank_model w)) (fun _ =>
     seq (step (Print 260) (print w 260)) (fun _ =>
     seq (step (ExportStep filename) (export_step w filename)) (fun _ =>
     seq (print_lines w 263 269) (fun _ =>
     done true))))))
    (seq (step (Print 274) (print w 274)) (fun _ => done false)).

(** [export_documentation(filename)]. *)
Definition export_documentation (w : world) (filename : string) : run bool :=
  try_except
    (seq (step (Open filename) (open_file w filename)) (fun _ =>
     seq (with_close w
            (step (Write (documentation w)) (write w (documentation w))))
         (fun _ =>
     seq (step (Print 285) (print w 285)) (fun _ =>
     done true))))
    (seq (step (Print 288) (print w 288)) (fun _ => done false)).

Definition step_filename : string := "SANS_10131_10000L_Tank.stp".
Definition documentation_filename : string := "tank_design_documentation.md".

(** The statements of the script, with the default file names of the two
    functions: the import, the heading (lines 294 to 298), the two exports,
    and the messages of either branch (lines 307 to 315, or 317 and 318). *)
Definition statements (w : world) : run unit :=
  seq (step Import (imports w)) (fun _ =>
  seq (print_lines w 294 298) (fun _ =>
  seq (export_step_file w step_filename) (fun step_success =>
  seq (export_documentation w documentation_filename) (fun doc_success =>
  if step_success && doc_success then print_lines w 307 315
  else print_lines w 317 318)))).

(** The script: what it ran and how it ended.  It never calls [exit]. *)
Definition script (w : world) : list event * outcome :=
  let '(events, r) := statements w in
  (events, match r with Ok _ => Finished | Raise e => Uncaught e end).

End Generator.

End StepScripts.

(* ================================================================== *)
(** * A C library to run the designer on *)
(* ================================================================== *)

Module SampleLibm.

Import F64 PyNum.
Import TankDesign.
Local Open Scope Z_scope.

(** The integer cube root, bit by bit from bit [bits - 1] down. *)
Fixpoint icbrt_from (bits : nat) (n : Z) (root : Z) : Z :=
  match bits with
  | O => root
  | S k =>
      let candidate := root + 2 ^ Z.of_nat k in
      icbrt_from k n (if candidate ^ 3 <=? n then candidate else root)
  end.

(** The float nearest to the cube root of a positive finite float: the
    mantissa is scaled to a multiple-of-three exponent, the integer root is
    taken with 55 extra bits and rounded once. *)
Definition cbrt (x : float) : float :=
  match x with
  | S754_finite false m e =>
      let r := e mod 3 in
      let q := (e - r) / 3 in
      let n := Z.pos m * 2 ^ r * 2 ^ 165 in
      let c := icbrt_from 80 n 0 in
      let l :=
        if c ^ 3 =? n then loc_Exact
        else loc_Inexact (8 * n ?= (2 * c + 1) ^ 3) in
      binary_round_aux prec emax false c (q - 55) l
  | _ => x
  end.

(** [pow] for the two exponents the designer uses: squares and cube roots are
    correctly rounded.  Other exponents are not provided: the answer is NaN
    with [errno] set. *)
Definition pow (x y : float) : float * bool :=
  if feqb y f_2 then (fmul x x, false)
  else if feqb y f_third then (cbrt x, false)
  else (nan, true).

Definition hypot (x y : float) : float :=
  SFsqrt prec emax (fadd (fmul x x) (fmul y y)).

Definition sin_60 : float := Eval vm_compute in decimal 8660254037844386 16.

(** The complex power for a negative real base and the exponent 1/3: the
    principal cube root, at an angle of 60 degrees. *)
Definition cpow (a b : complex) : result complex :=
  if is_zero (im a) && is_zero (im b) && feqb (re b) f_third
     && is_finite_nonzero (re a) && sign_bit (re a)
  then
    let r := cbrt (fabs (re a)) in
    Ok (mk_complex (fmul r f_0_5) (fmul r sin_60))
  else raise OverflowError "complex exponentiation".

Definition libc : libm := mk_libm pow hypot cpow.

End SampleLibm.

(* ================================================================== *)
(** * Properties of binary64 arithmetic *)
(* ================================================================== *)

Module F64Facts.

Import F64.
Local Open Scope Z_scope.

(** ** Rounding never produces NaN *)

Section Rounding.

Variables p e : Z.

Lemma shr_1_nonneg mrs : 0 <= shr_m mrs -> 0 <= shr_m (shr_1 mrs).
Proof.
  destruct mrs as [m r s]; simpl.
  destruct m as [|q|q]; simpl; try lia.
  destruct q; simpl; lia.
Qed.

Lemma iter_shr_1_nonneg n : forall mrs,
  0 <= shr_m mrs -> 0 <= shr_m (iter_pos shr_1 n mrs).
Proof.
  induction n as [n IH|n IH|]; intros mrs H; simpl.
  - apply IH, IH, shr_1_nonneg, H.
  - apply IH, IH, H.
  - apply shr_1_nonneg, H.
Qed.

Lemma shr_nonneg mrs ex n : 0 <= shr_m mrs -> 0 <= shr_m (fst (shr mrs ex n)).
Proof.
  intros H. destruct n; simpl; auto using iter_shr_1_nonneg.
Qed.

Lemma shr_record_of_loc_m m l : shr_m (shr_record_of_loc m l) = m.
Proof. destruct l as [|[ | | ]]; reflexivity. Qed.

Lemma shr_fexp_nonneg m ex l :
  0 <= m -> 0 <= shr_m (fst (shr_fexp p e m ex l)).
Proof.
  intros H. unfold shr_fexp. apply shr_nonneg.
  rewrite shr_record_of_loc_m. exact H.
Qed.

Lemma round_nearest_even_nonneg m l : 0 <= m -> 0 <= round_nearest_even m l.
Proof.
  intros H. destruct l as [|[ | | ]]; simpl; try lia.
  destruct (Z.even m); lia.
Qed.

Lemma binary_round_aux_not_nan s m ex l :
  0 <= m -> is_nan (binary_round_aux p e s m ex l) = false.
Proof.
  intros H. unfold binary_round_aux.
  pose proof (shr_fexp_nonneg m ex l H) as H1.
  destruct (shr_fexp p e m ex l) as [mrs' e']. simpl in H1.
  pose proof (shr_fexp_nonneg _ e' loc_Exact
                (round_nearest_even_nonneg _ (loc_of_shr_record mrs') H1)) as H2.
  destruct (shr_fexp p e _ e' loc_Exact) as [mrs'' e'']. simpl in H2.
  destruct (shr_m mrs'') as [|q|q]; try reflexivity.
  - destruct (e'' <=? e - p); reflexivity.
  - lia.
Qed.

Lemma binary_round_not_nan s m ex : is_nan (binary_round p e s m ex) = false.
Proof.
  unfold binary_round.
  destruct (shl_align _ _ _) as [mz ez].
  apply binary_round_aux_not_nan. lia.
Qed.

Lemma binary_normalize_not_nan m ex sz :
  is_nan (binary_normalize p e m ex sz) = false.
Proof.
  destruct m; simpl; auto using binary_round_not_nan.
Qed.

Lemma div_core_nonneg m1 e1 m2 e2 :
  0 <= fst (fst (SFdiv_core_binary p e (Z.pos m1) e1 (Z.pos m2) e2)).
Proof.
  unfold SFdiv_core_binary.
  set (s := _ - _ - _).
  set (m' := match s with Z0 => _ | Z.pos _ => _ | Z.neg _ => _ end).
  assert (Hm : 0 <= m').
  { subst m'. destruct s; try lia. apply Z.shiftl_nonneg. lia. }
  pose proof (Z_div_mod m' (Z.pos m2) ltac:(lia)) as Hd.
  fold (Z.div_eucl m' (Z.pos m2)) in *.
  destruct (Z.div_eucl m' (Z.pos m2)) as [q r]. simpl.
  destruct Hd as [Hd Hr]. nia.
Qed.

End Rounding.

(** ** The operations on a number and a finite non-zero operand *)

Lemma fmul_not_nan x y :
  is_nan x = false -> is_finite_nonzero y = true -> is_nan (fmul x y) = false.
Proof.
  destruct y as [| | |sy my ey]; try discriminate. intros Hx _.
  destruct x as [sx|sx| |sx mx ex]; try discriminate; try reflexivity.
  apply binary_round_aux_not_nan. lia.
Qed.

Lemma fmul_not_nan_l x y :
  is_finite_nonzero x = true -> is_nan y = false -> is_nan (fmul x y) = false.
Proof.
  destruct x as [| | |sx mx ex]; try discriminate. intros _ Hy.
  destruct y as [sy|sy| |sy my ey]; try discriminate; try reflexivity.
  apply binary_round_aux_not_nan. lia.
Qed.

Lemma fdiv_not_nan x y :
  is_nan x = false -> is_finite_nonzero y = true -> is_nan (fdiv x y) = false.
Proof.
  destruct y as [| | |sy my ey]; try discriminate. intros Hx _.
  destruct x as [sx|sx| |sx mx ex]; try discriminate; try reflexivity.
  unfold fdiv, SFdiv.
  pose proof (div_core_nonneg prec emax mx ex my ey) as H.
  destruct (SFdiv_core_binary _ _ _ _ _ _) as [[mz ez] lz]. simpl in H.
  apply binary_round_aux_not_nan, H.
Qed.

Lemma fadd_not_nan x y :
  is_nan x = false -> is_finite_nonzero y = true -> is_nan (fadd x y) = false.
Proof.
  destruct y as [| | |sy my ey]; try discriminate. intros Hx _.
  destruct x as [sx|sx| |sx mx ex]; try discriminate; try reflexivity.
  apply binary_normalize_not_nan.
Qed.

Lemma of_Z_not_nan n : is_nan (of_Z n) = false.
Proof. apply binary_normalize_not_nan. Qed.

(** ** Comparison *)

Lemma SFcompare_antisym x y :
  SFcompare y x = option_map CompOpp (SFcompare x y).
Proof.
  destruct x as [sx|sx| |sx mx ex], y as [sy|sy| |sy my ey]; simpl;
    try reflexivity;
    try (destruct sx; reflexivity); try (destruct sy; reflexivity);
    try (destruct sx, sy; reflexivity).
  rewrite (Z.compare_antisym ex ey).
  rewrite !Pos.compare_cont_spec. simpl.
  rewrite (Pos.compare_antisym mx my).
  destruct sx, sy; simpl; try reflexivity;
    destruct (ex ?= ey); simpl; try reflexivity;
    destruct (mx ?= my)%positive; reflexivity.
Qed.

Lemma SFcompare_defined x y :
  is_nan x = false -> is_nan y = false -> SFcompare x y <> None.
Proof.
  destruct x, y; simpl; try discriminate; intros; discriminate.
Qed.

(** Python's [max(a, b)] on floats: [b] when [b > a], otherwise [a]. *)
Definition float_max (a b : float) : float :=
  match SFcompare b a with Some Gt => b | _ => a end.

(** With the bound as second argument, the maximum of a number is not below
    the bound. *)
Lemma float_max_bound_r a bound :
  is_nan a = false -> is_nan bound = false ->
  fleb bound bound = true -> fleb bound (float_max a bound) = true.
Proof.
  intros Ha Hb Hrefl. unfold float_max.
  destruct (SFcompare bound a) as [[ | | ]|] eqn:Hc; auto;
    unfold fleb, SFleb; rewrite Hc; try reflexivity.
  exfalso. exact (SFcompare_defined _ _ Hb Ha Hc).
Qed.

(** With the bound as first argument, the maximum is not below the bound even
    when the other argument is NaN. *)
Lemma float_max_bound_l bound b :
  fleb bound bound = true -> fleb bound (float_max bound b) = true.
Proof.
  intros Hrefl. unfold float_max.
  destruct (SFcompare b bound) as [[ | | ]|] eqn:Hc; auto.
  unfold fleb, SFleb. rewrite (SFcompare_antisym b bound), Hc. reflexivity.
Qed.

(** When the first argument is NaN the maximum is NaN. *)
Lemma float_max_nan b : float_max nan b = nan.
Proof. unfold float_max. destruct b; reflexivity. Qed.

(** ** Rounding a bounded mantissa never overflows *)

Section Overflow.

Variables p e : Z.

Lemma shr_1_le mrs : 0 <= shr_m mrs -> shr_m (shr_1 mrs) <= shr_m mrs.
Proof.
  destruct mrs as [m r s]; simpl.
  destruct m as [|q|q]; simpl; try lia.
  destruct q; simpl; lia.
Qed.

Lemma iter_shr_1_le n : forall mrs,
  0 <= shr_m mrs -> shr_m (iter_pos shr_1 n mrs) <= shr_m mrs.
Proof.
  induction n as [n IH|n IH|]; intros mrs H; simpl.
  - pose proof (shr_1_nonneg mrs H) as H1. pose proof (shr_1_le mrs H).
    pose proof (iter_shr_1_nonneg n _ H1) as H2.
    pose proof (IH _ H1). pose proof (IH _ H2). lia.
  - pose proof (iter_shr_1_nonneg n _ H) as H2.
    pose proof (IH _ H). pose proof (IH _ H2). lia.
  - apply shr_1_le, H.
Qed.

Lemma digits2_pos_size q : digits2_pos q = Pos.size q.
Proof. induction q; simpl; congruence. Qed.

Lemma Zdigits2_bound m D : 0 <= D -> 0 <= m < 2 ^ D -> Zdigits2 m <= D.
Proof.
  intros HD [Hm Hlt]. destruct m as [|q|q]; simpl; try lia.
  rewrite digits2_pos_size.
  pose proof (Pos.size_le q) as Hs.
  apply Pos2Z.pos_le_pos in Hs. rewrite Pos2Z.inj_pow in Hs.
  change (Z.pos q~0) with (2 * Z.pos q) in Hs.
  assert (H2 : 2 ^ Z.pos (Pos.size q) < 2 ^ (D + 1)).
  { rewrite Z.pow_add_r by lia. lia. }
  apply Z.pow_lt_mono_r_iff in H2; lia.
Qed.

(** The exponent after [shr_fexp] is the given one or the one [fexp] asks
    for, and the mantissa has not grown. *)
Lemma shr_fexp_bounds m ex l :
  0 <= m ->
  let '(mrs, e') := shr_fexp p e m ex l in
  0 <= shr_m mrs <= m /\
  e' <= Z.max ex (fexp p e (Zdigits2 m + ex)).
Proof.
  intros Hm. unfold shr_fexp, shr.
  pose proof (shr_record_of_loc_m m l) as Hrec.
  destruct (fexp p e (Zdigits2 m + ex) - ex) as [|n|n] eqn:Hn.
  - rewrite Hrec. lia.
  - pose proof (iter_shr_1_nonneg n (shr_record_of_loc m l)) as H1.
    pose proof (iter_shr_1_le n (shr_record_of_loc m l)) as H2.
    rewrite Hrec in H1, H2. lia.
  - rewrite Hrec. lia.
Qed.

Lemma round_nearest_even_le m l : round_nearest_even m l <= m + 1.
Proof.
  destruct l as [|[ | | ]]; simpl; try lia. destruct (Z.even m); lia.
Qed.

(** Rounding a mantissa below [2 ^ D] at an exponent of at most [B] stays
    finite when the exponents that can result are within range. *)
Lemma binary_round_aux_finite s m ex l D B :
  0 <= D -> 0 <= m < 2 ^ D -> ex <= B ->
  Z.max B (Z.max (D + B - p) (3 - e - p)) <= e - p ->
  D + 1 + Z.max B (Z.max (D + B - p) (3 - e - p)) - p <= e - p ->
  is_inf (binary_round_aux p e s m ex l) = false.
Proof.
  intros HD [Hm Hlt] Hex Hb1 Hb2. unfold binary_round_aux.
  pose proof (shr_fexp_bounds m ex l Hm) as H1.
  destruct (shr_fexp p e m ex l) as [mrs' e'].
  destruct H1 as [[Hm1 Hm1'] He'].
  set (m1 := round_nearest_even (shr_m mrs') (loc_of_shr_record mrs')).
  assert (Hm1nn : 0 <= m1)
    by (apply round_nearest_even_nonneg; exact Hm1).
  pose proof (round_nearest_even_le (shr_m mrs') (loc_of_shr_record mrs'))
    as Hm1le. fold m1 in Hm1le.
  pose proof (shr_fexp_bounds m1 e' loc_Exact Hm1nn) as H2.
  destruct (shr_fexp p e m1 e' loc_Exact) as [mrs'' e''].
  destruct H2 as [_ He''].
  assert (Hd : Zdigits2 m <= D) by (apply Zdigits2_bound; lia).
  assert (Hd1 : Zdigits2 m1 <= D + 1).
  { apply Zdigits2_bound; [lia | ]. split; [exact Hm1nn | ].
    rewrite Z.pow_add_r by lia. lia. }
  unfold fexp, SpecFloat.emin in He', He''.
  destruct (shr_m mrs'') as [|q|q]; try reflexivity.
  destruct (e'' <=? e - p) eqn:Hle; [reflexivity | ].
  apply Z.leb_gt in Hle. lia.
Qed.

(** The quotient of the division core is below the shifted dividend. *)
Lemma div_core_bounds m1 e1 m2 e2 :
  0 < p ->
  0 <= fst (fst (SFdiv_core_binary p e (Z.pos m1) e1 (Z.pos m2) e2))
    <= Z.pos m1 * 2 ^ (p + Zdigits2 (Z.pos m2)) /\
  snd (fst (SFdiv_core_binary p e (Z.pos m1) e1 (Z.pos m2) e2)) <= e1 - e2.
Proof.
  intros Hp. unfold SFdiv_core_binary.
  set (d1 := Zdigits2 (Z.pos m1)). set (d2 := Zdigits2 (Z.pos m2)).
  assert (Hd1 : 0 < d1) by (subst d1; simpl; lia).
  assert (Hd2 : 0 < d2) by (subst d2; simpl; lia).
  set (e' := Z.min (fexp p e (d1 + e1 - (d2 + e2))) (e1 - e2)).
  set (s := e1 - e2 - e').
  assert (Hs : 0 <= s <= p + d2).
  { subst s e'. unfold fexp, SpecFloat.emin. lia. }
  set (m' := match s with Z0 => Z.pos m1 | Z.pos _ => Z.shiftl (Z.pos m1) s
                     | Z.neg _ => 0 end).
  assert (Hm' : 0 <= m' <= Z.pos m1 * 2 ^ (p + d2)).
  { assert (Hpow : 2 ^ s <= 2 ^ (p + d2)) by (apply Z.pow_le_mono_r; lia).
    assert (Hpos : 0 < 2 ^ s) by (apply Z.pow_pos_nonneg; lia).
    subst m'. destruct s as [|n|n] eqn:Es.
    - simpl in Hpow. nia.
    - rewrite Z.shiftl_mul_pow2 by lia. nia.
    - lia. }
  pose proof (Z_div_mod m' (Z.pos m2) ltac:(lia)) as Hd.
  fold (Z.div_eucl m' (Z.pos m2)) in *.
  destruct (Z.div_eucl m' (Z.pos m2)) as [q r]. cbn [fst snd].
  destruct Hd as [Hd Hr]. split; [ | subst e'; lia].
  assert (Hq : 0 <= q) by nia.
  assert (Hq' : q <= Z.pos m2 * q) by nia.
  lia.
Qed.

End Overflow.

(** Integers below [2 ^ 64] in absolute value divide without overflow. *)
Lemma div_small_finite sx px sy py :
  Z.pos px < 2 ^ 64 -> Z.pos py < 2 ^ 64 ->
  is_inf (fdiv (S754_finite sx px 0) (S754_finite sy py 0)) = false.
Proof.
  intros Hx Hy. unfold fdiv, SFdiv.
  pose proof (div_core_bounds prec emax px 0 py 0 eq_refl) as [[Hq Hq'] He].
  assert (Hdb : Zdigits2 (Z.pos py) <= 64) by (apply Zdigits2_bound; lia).
  destruct (SFdiv_core_binary prec emax (Z.pos px) 0 (Z.pos py) 0)
    as [[mz ez] lz].
  cbn [fst snd] in Hq, Hq', He.
  apply binary_round_aux_finite with (D := 181) (B := 0);
    [lia | split; [exact Hq | ] | lia | unfold prec, emax; lia
    | unfold prec, emax; lia].
  eapply Z.le_lt_trans; [exact Hq' | ].
  assert (Hpow : 2 ^ (prec + Zdigits2 (Z.pos py)) <= 2 ^ 117)
    by (apply Z.pow_le_mono_r; unfold prec; lia).
  assert (Hpp : 0 < 2 ^ (prec + Zdigits2 (Z.pos py)))
    by (apply Z.pow_pos_nonneg; unfold prec; cbn [Zdigits2]; lia).
  replace (2 ^ 181) with (2 ^ 64 * 2 ^ 117) by reflexivity.
  nia.
Qed.

End F64Facts.

(* ================================================================== *)
(** * Properties of Python's numbers *)
(* ================================================================== *)

Module PyNumFacts.

Import F64 PyNum F64Facts.
Local Open Scope Z_scope.
Local Open Scope string_scope.

(** The quotient of two integers below [2 ^ 64] in absolute value is
    finite: the true division of such integers never raises OverflowError. *)
Lemma raw_quotient_finite x y :
  Z.abs x < 2 ^ 64 -> y <> 0 -> Z.abs y < 2 ^ 64 ->
  is_inf (fdiv (raw_of_Z x) (raw_of_Z y)) = false.
Proof.
  intros Hx Hy0 Hy.
  destruct y as [|py|py]; [congruence | | ];
    (destruct x as [|px|px]; [reflexivity | | ]);
    apply div_small_finite; lia.
Qed.

Lemma int_to_float_small n :
  is_inf (of_Z n) = false -> int_to_float n = Ok (of_Z n).
Proof. intros H. unfold int_to_float. rewrite H. reflexivity. Qed.

Lemma py_mul_FF a b : py_mul (Flt a) (Flt b) = Ok (Flt (fmul a b)).
Proof. reflexivity. Qed.

Lemma py_add_FF a b : py_add (Flt a) (Flt b) = Ok (Flt (fadd a b)).
Proof. reflexivity. Qed.

Lemma py_sub_FF a b : py_sub (Flt a) (Flt b) = Ok (Flt (fsub a b)).
Proof. reflexivity. Qed.

Lemma py_mul_FI a n :
  is_inf (of_Z n) = false -> py_mul (Flt a) (Int n) = Ok (Flt (fmul a (of_Z n))).
Proof.
  intros H. cbn [py_mul to_float bind]. rewrite (int_to_float_small _ H).
  reflexivity.
Qed.

Lemma py_mul_IF n a :
  is_inf (of_Z n) = false -> py_mul (Int n) (Flt a) = Ok (Flt (fmul (of_Z n) a)).
Proof.
  intros H. cbn [py_mul to_float bind]. rewrite (int_to_float_small _ H).
  reflexivity.
Qed.

Lemma py_truediv_FF a b :
  is_zero b = false -> py_truediv (Flt a) (Flt b) = Ok (Flt (fdiv a b)).
Proof. intros H. cbn [py_truediv to_float bind]. rewrite H. reflexivity. Qed.

Lemma py_truediv_FI a n :
  is_inf (of_Z n) = false -> is_zero (of_Z n) = false ->
  py_truediv (Flt a) (Int n) = Ok (Flt (fdiv a (of_Z n))).
Proof.
  intros H H0. cbn [py_truediv to_float bind].
  rewrite (int_to_float_small _ H). cbn [bind]. rewrite H0. reflexivity.
Qed.

Lemma py_max_FF a b : py_max (Flt a) (Flt b) = Ok (Flt (float_max a b)).
Proof.
  unfold py_max, py_gt, float_max. cbn [compare_num bind].
  destruct (SFcompare b a) as [[ | | ]|]; reflexivity.
Qed.

Lemma py_ge_FF a b : py_ge (Flt a) (Flt b) = Ok (fleb b a).
Proof.
  unfold py_ge, fleb, SFleb. cbn [compare_num bind].
  rewrite (SFcompare_antisym a b).
  destruct (SFcompare a b) as [[ | | ]|]; reflexivity.
Qed.

(** Ordering a complex number raises. *)
Lemma py_max_complex_l z b : exists e, py_max (Cplx z) b = Raise e.
Proof. unfold py_max, py_gt. destruct b; cbn; eauto. Qed.

(** A complex number divided by a finite non-zero real is complex. *)
Lemma c_quot_real a r :
  is_finite_nonzero r = true -> exists q, c_quot a (mk_complex r pzero) = Some q.
Proof.
  destruct r as [| | |s m e]; try discriminate. intros _.
  unfold c_quot. cbn [re im].
  destruct s; cbn; eauto.
Qed.

Lemma complex_truediv_F z r :
  is_finite_nonzero r = true -> exists q, py_truediv (Cplx z) (Flt r) = Ok (Cplx q).
Proof.
  intros H. cbn [py_truediv to_complex bind].
  destruct (c_quot_real z r H) as [q ->]. eauto.
Qed.

Lemma complex_truediv_I z n :
  is_finite_nonzero (of_Z n) = true ->
  exists q, py_truediv (Cplx z) (Int n) = Ok (Cplx q).
Proof.
  intros H. cbn [py_truediv to_complex bind].
  rewrite int_to_float_small by (destruct (of_Z n); try discriminate; reflexivity).
  cbn [bind].
  destruct (c_quot_real z (of_Z n) H) as [q ->]. eauto.
Qed.

End PyNumFacts.
(* ================================================================== *)
(** * Properties of Python's strings *)
(* ================================================================== *)

Module PyStrFacts.

Local Open Scope string_scope.
Local Open Scope list_scope.

Import PyStr.

Lemma endswith_cons c s suffix :
  endswith (String c s) suffix
  = if String.eqb (String c s) suffix then true else endswith s suffix.
Proof. reflexivity. Qed.

Lemma endswith_spec s suffix :
  endswith s suffix = true <-> exists front, s = (front ++ suffix)%string.
Proof.
  split.
  - induction s as [|c s IH].
    + destruct suffix; [ | discriminate]. intros _. exists "". reflexivity.
    + rewrite endswith_cons.
      destruct (String.eqb_spec (String c s) suffix) as [<-|_].
      * intros _. exists "". reflexivity.
      * intros H. destruct (IH H) as [front ->].
        exists (String c front). reflexivity.
  - intros [front ->]. induction front as [|c front IH].
    + destruct suffix as [|c suffix]; [reflexivity | ].
      simpl append. rewrite endswith_cons, String.eqb_refl.
      reflexivity.
    + simpl append. rewrite endswith_cons.
      destruct (String.eqb _ suffix); [reflexivity | exact IH].
Qed.

Lemma split_nonempty sep s : split sep s <> [].
Proof.
  destruct s as [|c s]; simpl; [discriminate | ].
  destruct (Ascii.eqb c sep); [discriminate | ].
  destruct (split sep s); discriminate.
Qed.

Lemma last_cons {A} (a : A) l d : l <> [] -> last (a :: l) d = last l d.
Proof. destruct l; [congruence | reflexivity]. Qed.

Lemma split_without_separator sep s :
  contains_char sep s = false -> split sep s = [s].
Proof.
  induction s as [|d s IH]; simpl; [reflexivity | ].
  intros H. apply orb_false_elim in H as [Hd Hs].
  rewrite Hd, (IH Hs). reflexivity.
Qed.

Lemma split_single sep s piece :
  split sep s = [piece] -> contains_char sep s = false.
Proof.
  revert piece. induction s as [|d s IH]; intros piece; simpl; [reflexivity | ].
  pose proof (split_nonempty sep s) as Hne.
  destruct (Ascii.eqb d sep).
  - intros [= _ H]. congruence.
  - destruct (split sep s) as [|h t]; [congruence | ].
    intros [= _ ->]. rewrite (IH h eq_refl). reflexivity.
Qed.

(** The last piece holds no separator, and what is before it in the string
    ends with a separator. *)
Lemma split_last_spec sep s :
  contains_char sep (split_last sep s) = false /\
  (contains_char sep s = false -> split_last sep s = s) /\
  (contains_char sep s = true ->
   exists front, s = (front ++ String sep (split_last sep s))%string).
Proof.
  unfold split_last. induction s as [|c s [IH1 [IH2 IH3]]].
  - split; [reflexivity | split; [reflexivity | discriminate]].
  - split; [ | split].
    + simpl. pose proof (split_nonempty sep s) as Hne.
      destruct (Ascii.eqb c sep) eqn:Hc.
      * rewrite last_cons by exact Hne. exact IH1.
      * destruct (split sep s) as [|piece [|piece' rest]] eqn:Hsplit;
          [congruence | | exact IH1].
        simpl in *. rewrite Hc, IH1. reflexivity.
    + intros H. rewrite (split_without_separator sep _ H). reflexivity.
    + simpl. pose proof (split_nonempty sep s) as Hne.
      destruct (Ascii.eqb_spec c sep) as [->|Hc].
      * intros _. rewrite last_cons by exact Hne. simpl.
        destruct (contains_char sep s) eqn:Hs.
        -- destruct (IH3 eq_refl) as [front Hfront].
           exists (String sep front). simpl. f_equal. exact Hfront.
        -- exists "". simpl. rewrite (IH2 eq_refl). reflexivity.
      * simpl. intros Hs.
        destruct (split sep s) as [|piece [|piece' rest]] eqn:Hsplit;
          [congruence | | ].
        -- rewrite (split_single sep s piece Hsplit) in Hs. discriminate Hs.
        -- change (last (String c piece :: piece' :: rest) "")
             with (last (piece :: piece' :: rest) "").
           destruct (IH3 Hs) as [front Hfront].
           exists (String c front). simpl. f_equal. exact Hfront.
Qed.

Lemma startswith_contains s c p :
  startswith s (String c p) = true -> contains_char c s = true.
Proof.
  unfold startswith. destruct s as [|d s]; simpl; [discriminate | ].
  destruct (ascii_dec c d) as [->|]; [ | discriminate].
  intros _. rewrite Ascii.eqb_refl. reflexivity.
Qed.

Lemma prefix_empty s : String.prefix "" s = true.
Proof. destruct s; reflexivity. Qed.

(** Replacing by one other character leaves no occurrence. *)
Lemma replace_char_gone c d s :
  c <> d ->
  contains_char c (replace s (String c "") (String d "")) = false.
Proof.
  intros Hcd. unfold replace.
  assert (Hd : Ascii.eqb d c = false)
    by (apply Ascii.eqb_neq; congruence).
  induction s as [|a s IH]; simpl; [reflexivity | ].
  destruct (ascii_dec c a) as [E|Hca].
  - rewrite prefix_empty. simpl. rewrite Hd, IH. reflexivity.
  - simpl. rewrite IH.
    destruct (Ascii.eqb_spec a c); [congruence | reflexivity].
Qed.

(** Deleting a piece of text brings in no character. *)
Lemma replace_from_delete c old s : forall skip,
  contains_char c s = false ->
  contains_char c (replace_from old "" skip s) = false.
Proof.
  induction s as [|a s IH]; intros skip H; [reflexivity | ].
  simpl in H. apply orb_false_elim in H as [Ha Hs].
  cbn [replace_from]. destruct skip as [|k]; [ | apply IH, Hs].
  destruct (String.prefix old (String a s)).
  - simpl append. apply IH, Hs.
  - cbn [contains_char]. rewrite Ha. apply IH, Hs.
Qed.

End PyStrFacts.
(* ================================================================== *)
(** * Properties of the tank designer *)
(* ================================================================== *)

Module TankDesignFacts.

Import F64 PyNum F64Facts PyNumFacts TankDesign.
Local Open Scope Z_scope.
Local Open Scope string_scope.
Local Open Scope list_scope.

(** ** Running a method *)

Lemma bindM_ok {A B} (m : M A) (k : A -> M B) s s' b :
  bindM m k s = (s', Ok b) ->
  exists a s1, m s = (s1, Ok a) /\ k a s1 = (s', Ok b).
Proof.
  unfold bindM. destruct (m s) as [s1 [a|e]]; intros H.
  - eauto.
  - discriminate.
Qed.

(** A method that adds bindings for the given names only. *)
Definition only_sets {A} (keys : list string) (m : M A) : Prop :=
  forall s, exists added,
    fst (m s) = added ++ s /\ Forall (fun kv => In (fst kv) keys) added.

Lemma only_sets_ret {A} keys (a : A) : only_sets keys (ret a).
Proof. intros s. exists []. split; [reflexivity | constructor]. Qed.

Lemma only_sets_lift {A} keys (r : result A) : only_sets keys (lift r).
Proof. intros s. exists []. split; [reflexivity | constructor]. Qed.

Lemma only_sets_getattr keys k : only_sets keys (getattr k).
Proof.
  intros s. exists []. unfold getattr.
  destruct (lookup k s); split; try reflexivity; constructor.
Qed.

Lemma only_sets_setattr keys k v : In k keys -> only_sets keys (setattr k v).
Proof.
  intros H s. exists [(k, v)]. split; [reflexivity | ].
  constructor; [exact H | constructor].
Qed.

Lemma only_sets_bindM {A B} keys (m : M A) (k : A -> M B) :
  only_sets keys m -> (forall a, only_sets keys (k a)) ->
  only_sets keys (bindM m k).
Proof.
  intros Hm Hk s. unfold bindM.
  destruct (Hm s) as [added1 [E1 F1]].
  destruct (m s) as [s1 [a|e]]; simpl in E1; subst s1.
  - destruct (Hk a (added1 ++ s)) as [added2 [E2 F2]].
    exists (added2 ++ added1). rewrite E2, app_assoc. split; [reflexivity | ].
    apply Forall_app; auto.
  - exists added1. auto.
Qed.

Lemma lookup_app_other {A} k (added s : list (string * A)) :
  Forall (fun kv => fst kv <> k) added -> lookup k (added ++ s) = lookup k s.
Proof.
  induction 1 as [|[k' v] added Hk _ IH]; simpl; auto.
  simpl in Hk. destruct (String.eqb_spec k k'); [congruence | exact IH].
Qed.

Lemma only_sets_lookup {A} keys (m : M A) k s :
  only_sets keys m -> ~ In k keys -> lookup k (fst (m s)) = lookup k s.
Proof.
  intros Hm Hk. destruct (Hm s) as [added [-> F]].
  apply lookup_app_other. eapply Forall_impl; [ | exact F].
  intros kv Hin E. apply Hk. rewrite <- E. exact Hin.
Qed.

Ltac only_sets_step :=
  first
    [ apply only_sets_bindM; [ | intro ]
    | apply only_sets_ret
    | apply only_sets_lift
    | apply only_sets_getattr
    | apply only_sets_setattr; simpl; tauto
    | match goal with
      | |- only_sets _ (if ?b then _ else _) => destruct b
      | |- only_sets _ (match ?x with _ => _ end) => destruct x
      end ].

Ltac only_sets_tac :=
  cbv beta zeta delta
    [get_num get_item set_num set_component tank_proportions
     shell_thickness_block dished_end_block _calculate_optimal_dimensions];
  repeat only_sets_step.

Lemma tank_proportions_sets L :
  only_sets ["tank_diameter"; "tank_length"; "actual_capacity"]
            (tank_proportions L).
Proof. only_sets_tac. Qed.

Lemma shell_thickness_block_sets :
  only_sets ["shell_thickness"] shell_thickness_block.
Proof. only_sets_tac. Qed.

Lemma dished_end_block_sets :
  only_sets ["knuckle_radius"; "crown_radius"] dished_end_block.
Proof. only_sets_tac. Qed.

Lemma add_nozzles_sets specs : only_sets ["components"] (add_nozzles specs).
Proof.
  induction specs as [|spec rest IH]; simpl.
  - apply only_sets_ret.
  - only_sets_tac. exact IH.
Qed.

Lemma component_specifications_sets :
  only_sets ["components"] _generate_component_specifications.
Proof.
  unfold _generate_component_specifications. only_sets_tac.
Qed.


(** ** The three blocks of [_calculate_optimal_dimensions] *)

Lemma bind_ok {A B} (r : result A) (k : A -> result B) b :
  bind r k = Ok b -> exists a, r = Ok a /\ k a = Ok b.
Proof. destruct r as [a|e]; simpl; intros H; [eauto | discriminate]. Qed.

Ltac run_M :=
  cbv beta iota zeta delta
    [bindM lift ret set_num setattr get_num getattr get_item].

Lemma tank_proportions_standard L s c :
  lookup "capacity_liters" s = Some (ANum c) ->
  py_between (Int 8000) c (Int 12000) = Ok true ->
  tank_proportions L s
  = (("actual_capacity", ANum (Int 9000)) :: ("tank_length", ANum (Flt f_3680))
       :: ("tank_diameter", ANum (Flt f_1870)) :: s, Ok tt).
Proof.
  intros Hc Hb. unfold tank_proportions. run_M.
  rewrite Hc. cbv beta iota. rewrite Hb. reflexivity.
Qed.

(** The expression
    [((self.capacity_liters / 1000 * 2 / math.pi) ** (1/3)) * 1000]. *)
Definition diameter_formula (L : libm) (capacity_liters : num) : result num :=
  (volume_m3 <- py_truediv capacity_liters (Int 1000) ;;
   doubled <- py_mul volume_m3 (Int 2) ;;
   base <- py_truediv doubled (Flt pi) ;;
   third <- py_truediv (Int 1) (Int 3) ;;
   root <- py_pow L base third ;;
   py_mul root (Int 1000))%py.

Lemma tank_proportions_computed L s c d l :
  lookup "capacity_liters" s = Some (ANum c) ->
  py_between (Int 8000) c (Int 12000) = Ok false ->
  diameter_formula L c = Ok d ->
  py_mul (Int 2) d = Ok l ->
  tank_proportions L s
  = (("actual_capacity", ANum c) :: ("tank_length", ANum l)
       :: ("tank_diameter", ANum d) :: s, Ok tt).
Proof.
  intros Hc Hb Hd Hl. unfold tank_proportions. run_M.
  rewrite Hc. cbv beta iota. rewrite Hb. cbv beta iota. rewrite Hc.
  unfold diameter_formula in Hd.
  apply bind_ok in Hd as [v [Hv Hd]]. rewrite Hv.
  apply bind_ok in Hd as [v2 [Hv2 Hd]]. rewrite Hv2.
  apply bind_ok in Hd as [b [Hbase Hd]]. rewrite Hbase.
  apply bind_ok in Hd as [t [Ht Hd]]. rewrite Ht.
  apply bind_ok in Hd as [r [Hr Hd]]. rewrite Hr, Hd.
  cbn [lookup String.eqb Ascii.eqb Bool.eqb].
  rewrite Hl, Hc. reflexivity.
Qed.


(** ** The computed diameter is a float or a complex number *)

(** C's [pow] is defined on a positive finite base and the exponent 1/3. *)
Definition pow_third_defined (L : libm) : Prop :=
  forall x, is_finite_nonzero x = true -> sign_bit x = false ->
            is_nan (fst (libm_pow L x f_third)) = false.

Definition is_nan_num (c : num) : bool :=
  match c with Flt x => is_nan x | _ => false end.

Section Shape.

Variable L : libm.
Variable P : Prop.

(** A float, which is not NaN when [P] holds, or a complex number. *)
Definition shape (n : num) : Prop :=
  match n with
  | Int _ => False
  | Flt x => P -> is_nan x = false
  | Cplx _ => True
  end.

Lemma finite_nonzero_not_inf x : is_finite_nonzero x = true -> is_inf x = false.
Proof. destruct x; try discriminate; reflexivity. Qed.

Lemma finite_nonzero_not_zero x : is_finite_nonzero x = true -> is_zero x = false.
Proof. destruct x; try discriminate; reflexivity. Qed.

Lemma shape_mul_int a n b :
  shape a -> is_finite_nonzero (of_Z n) = true ->
  py_mul a (Int n) = Ok b -> shape b.
Proof.
  intros Ha Hn. destruct a as [z|x|z]; [destruct Ha | | ].
  - rewrite py_mul_FI by auto using finite_nonzero_not_inf.
    intros [= <-]. intros HP. apply fmul_not_nan; auto.
  - cbn [py_mul to_complex bind].
    rewrite int_to_float_small by auto using finite_nonzero_not_inf.
    intros [= <-]. exact I.
Qed.

Lemma shape_int_mul n a b :
  shape a -> is_finite_nonzero (of_Z n) = true ->
  py_mul (Int n) a = Ok b -> shape b.
Proof.
  intros Ha Hn. destruct a as [z|x|z]; [destruct Ha | | ].
  - rewrite py_mul_IF by auto using finite_nonzero_not_inf.
    intros [= <-]. intros HP. apply fmul_not_nan_l; auto.
  - cbn [py_mul to_complex bind].
    rewrite int_to_float_small by auto using finite_nonzero_not_inf.
    intros [= <-]. exact I.
Qed.

Lemma shape_mul_float a y b :
  shape a -> is_finite_nonzero y = true -> py_mul a (Flt y) = Ok b -> shape b.
Proof.
  intros Ha Hy. destruct a as [z|x|z]; [destruct Ha | | ]; intros [= <-].
  - intros HP. apply fmul_not_nan; auto.
  - exact I.
Qed.

Lemma shape_float_mul y a b :
  shape a -> is_finite_nonzero y = true -> py_mul (Flt y) a = Ok b -> shape b.
Proof.
  intros Ha Hy. destruct a as [z|x|z]; [destruct Ha | | ]; intros [= <-].
  - intros HP. apply fmul_not_nan_l; auto.
  - exact I.
Qed.

Lemma shape_truediv_int a n b :
  shape a -> is_finite_nonzero (of_Z n) = true ->
  py_truediv a (Int n) = Ok b -> shape b.
Proof.
  intros Ha Hn. destruct a as [z|x|z]; [destruct Ha | | ].
  - rewrite py_truediv_FI
      by auto using finite_nonzero_not_inf, finite_nonzero_not_zero.
    intros [= <-]. intros HP. apply fdiv_not_nan; auto.
  - destruct (complex_truediv_I z n Hn) as [q ->]. intros [= <-]. exact I.
Qed.

Lemma shape_truediv_float a y b :
  shape a -> is_finite_nonzero y = true ->
  py_truediv a (Flt y) = Ok b -> shape b.
Proof.
  intros Ha Hy. destruct a as [z|x|z]; [destruct Ha | | ].
  - rewrite py_truediv_FF by auto using finite_nonzero_not_zero.
    intros [= <-]. intros HP. apply fdiv_not_nan; auto.
  - destruct (complex_truediv_F z y Hy) as [q ->]. intros [= <-]. exact I.
Qed.

Lemma shape_add_float a y b :
  shape a -> is_finite_nonzero y = true -> py_add a (Flt y) = Ok b -> shape b.
Proof.
  intros Ha Hy. destruct a as [z|x|z]; [destruct Ha | | ]; intros [= <-].
  - intros HP. apply fadd_not_nan; auto.
  - exact I.
Qed.

Hypothesis pow_defined : P -> pow_third_defined L.

Lemma shape_pow_third a b :
  shape a -> py_pow L a (Flt f_third) = Ok b -> shape b.
Proof.
  intros Ha. destruct a as [z|x|z]; [destruct Ha | | ].
  - cbn [py_pow to_float bind]. unfold float_pow.
    destruct x as [s|s| |s m e].
    + cbn. intros [= <-]. intros _. reflexivity.
    + cbn. intros [= <-]. intros _. reflexivity.
    + cbn. intros [= <-]. exact Ha.
    + change (is_zero f_third) with false.
      change (is_nan (S754_finite s m e)) with false.
      change (is_nan f_third) with false.
      change (is_inf f_third) with false.
      change (is_inf (S754_finite s m e)) with false.
      change (is_zero (S754_finite s m e)) with false.
      change (is_integer f_third) with false.
      change (is_odd_integer f_third) with false.
      cbv iota. rewrite andb_false_r. cbv iota.
      destruct s.
      * change (fltb (S754_finite true m e) pzero) with true.
        cbn [andb negb]. intros H. apply bind_ok in H as [q [_ [= <-]]]. exact I.
      * change (fltb (S754_finite false m e) pzero) with false.
        cbn [andb negb fabs SFabs].
        destruct (feqb (S754_finite false m e) one).
        { intros [= <-]. intros _. reflexivity. }
        pose proof (fun HP => pow_defined HP (S754_finite false m e) eq_refl eq_refl)
          as Hpow.
        destruct (libm_pow L (S754_finite false m e) f_third) as [ix errno].
        simpl in Hpow.
        destruct (if errno then negb (is_zero ix) else is_inf ix);
          [discriminate | ].
        intros [= <-]. exact Hpow.
  - cbn [py_pow to_complex bind].
    intros H. apply bind_ok in H as [q [_ [= <-]]]. exact I.
Qed.

End Shape.


Lemma third_value : py_truediv (Int 1) (Int 3) = Ok (Flt f_third).
Proof. reflexivity. Qed.

Lemma raw_of_Z_not_nan z : is_nan (raw_of_Z z) = false.
Proof. destruct z; reflexivity. Qed.

Lemma volume_shape (P : Prop) c v :
  (P -> is_nan_num c = false) ->
  py_truediv c (Int 1000) = Ok v -> shape P v.
Proof.
  intros Hc. destruct c as [z|x|z].
  - cbn [py_truediv]. unfold int_true_divide.
    change (1000 =? 0)%Z with false. cbv iota.
    destruct (is_inf _); [discriminate | ]. intros [= <-]. intros _.
    apply fdiv_not_nan; [apply raw_of_Z_not_nan | reflexivity].
  - apply shape_truediv_int; [exact Hc | reflexivity].
  - apply shape_truediv_int; [exact I | reflexivity].
Qed.

Lemma diameter_formula_shape L (P : Prop) c d :
  (P -> is_nan_num c = false) -> (P -> pow_third_defined L) ->
  diameter_formula L c = Ok d -> shape P d.
Proof.
  intros Hc Hpow Hd. unfold diameter_formula in Hd.
  apply bind_ok in Hd as [v [Hv Hd]].
  apply bind_ok in Hd as [v2 [Hv2 Hd]].
  apply bind_ok in Hd as [b [Hb Hd]].
  apply bind_ok in Hd as [t [Ht Hd]].
  apply bind_ok in Hd as [r [Hr Hd]].
  rewrite third_value in Ht. injection Ht as <-.
  apply volume_shape with (P := P) in Hv; [ | exact Hc].
  assert (S2 : shape P v2)
    by (eapply shape_mul_int; [exact Hv | | exact Hv2]; reflexivity).
  assert (Sb : shape P b)
    by (eapply shape_truediv_float; [exact S2 | | exact Hb]; reflexivity).
  assert (Sr : shape P r)
    by (eapply shape_pow_third; [exact Hpow | exact Sb | exact Hr]).
  eapply shape_mul_int; [exact Sr | | exact Hd]; reflexivity.
Qed.

(** What a run of the first block that completes has done. *)
Lemma tank_proportions_ok L s c s1 :
  lookup "capacity_liters" s = Some (ANum c) ->
  tank_proportions L s = (s1, Ok tt) ->
  (py_between (Int 8000) c (Int 12000) = Ok true /\
   s1 = ("actual_capacity", ANum (Int 9000))
          :: ("tank_length", ANum (Flt f_3680))
          :: ("tank_diameter", ANum (Flt f_1870)) :: s)
  \/
  (py_between (Int 8000) c (Int 12000) = Ok false /\
   exists d l, diameter_formula L c = Ok d /\ py_mul (Int 2) d = Ok l /\
     s1 = ("actual_capacity", ANum c) :: ("tank_length", ANum l)
            :: ("tank_diameter", ANum d) :: s).
Proof.
  intros Hc Hrun.
  destruct (py_between (Int 8000) c (Int 12000)) as [[|]|e] eqn:Hb.
  - left. rewrite (tank_proportions_standard L s c Hc Hb) in Hrun.
    injection Hrun as <-. auto.
  - right. split; [reflexivity | ].
    destruct (diameter_formula L c) as [d|e] eqn:Hd.
    + destruct (py_mul (Int 2) d) as [l|e] eqn:Hl.
      * rewrite (tank_proportions_computed L s c d l Hc Hb Hd Hl) in Hrun.
        injection Hrun as <-. eauto.
      * exfalso. revert Hrun. unfold tank_proportions. run_M.
        rewrite Hc. cbv beta iota. rewrite Hb. cbv beta iota. rewrite Hc.
        unfold diameter_formula in Hd.
        apply bind_ok in Hd as [v [Hv Hd]]. rewrite Hv.
        apply bind_ok in Hd as [v2 [Hv2 Hd]]. rewrite Hv2.
        apply bind_ok in Hd as [b [Hbase Hd]]. rewrite Hbase.
        apply bind_ok in Hd as [t [Ht Hd]]. rewrite Ht.
        apply bind_ok in Hd as [r [Hr Hd]]. rewrite Hr, Hd.
        cbn [lookup String.eqb Ascii.eqb Bool.eqb].
        rewrite Hl. discriminate.
    + exfalso. revert Hrun. unfold tank_proportions. run_M.
      rewrite Hc. cbv beta iota. rewrite Hb. cbv beta iota. rewrite Hc.
      unfold diameter_formula in Hd. revert Hd.
      destruct (py_truediv c (Int 1000)) as [v|]; [ | discriminate]. cbn [bind].
      destruct (py_mul v (Int 2)) as [v2|]; [ | discriminate]. cbn [bind].
      destruct (py_truediv v2 (Flt pi)) as [b|]; [ | discriminate]. cbn [bind].
      destruct (py_truediv (Int 1) (Int 3)) as [t|]; [ | discriminate].
      cbn [bind].
      destruct (py_pow L b t) as [r|]; [ | discriminate]. cbn [bind].
      intros ->. discriminate.
  - exfalso. revert Hrun. unfold tank_proportions. run_M.
    rewrite Hc. cbv beta iota. rewrite Hb. discriminate.
Qed.


(** ** The shell thickness and the dished ends *)

Definition pressure_mpa : float := fmul f_2_5 f_0_00689476.

Definition stress_term : float :=
  fsub (fmul (fmul (of_Z 300) f_0_4) f_0_85) (fmul f_0_6 pressure_mpa).

(** The thickness formula on a diameter in millimetres. *)
Definition calculated_thickness (d : float) : float :=
  fadd (fdiv (fmul (fmul pressure_mpa (fdiv (fdiv d (of_Z 2)) (of_Z 1000)))
                   (of_Z 1000)) stress_term) f_1_5.

Lemma calculated_thickness_not_nan d :
  is_nan d = false -> is_nan (calculated_thickness d) = false.
Proof.
  intros H. unfold calculated_thickness.
  apply fadd_not_nan; [ | reflexivity].
  apply fdiv_not_nan; [ | reflexivity].
  apply fmul_not_nan; [ | reflexivity].
  apply fmul_not_nan_l; [reflexivity | ].
  apply fdiv_not_nan; [ | reflexivity].
  apply fdiv_not_nan; [exact H | reflexivity].
Qed.

Lemma shell_block_float (s : obj) d :
  lookup "tank_diameter" s = Some (ANum (Flt d)) ->
  lookup "design_pressure" s = Some (ANum (Flt f_2_5)) ->
  lookup "material_properties" s = Some (ADict material_properties) ->
  shell_thickness_block s
  = (("shell_thickness",
      ANum (Flt (float_max (calculated_thickness d) f_6))) :: s, Ok tt).
Proof.
  intros Hd Hp Hm. unfold shell_thickness_block. run_M.
  rewrite Hp, Hd, Hm.
  change (lookup "yield_strength" material_properties) with (Some (Int 300)).
  cbv beta iota.
  rewrite !py_mul_FF.
  rewrite (py_truediv_FI d 2) by reflexivity.
  rewrite (@py_truediv_FI _ 1000) by reflexivity.
  rewrite !py_mul_FF.
  rewrite (@py_mul_FI _ 1000) by reflexivity.
  rewrite (@py_mul_IF 300) by reflexivity.
  rewrite !py_mul_FF, py_sub_FF.
  rewrite py_truediv_FF by reflexivity.
  rewrite py_add_FF, py_max_FF.
  reflexivity.
Qed.

(** With a complex diameter the comparison of [max] raises. *)
Lemma shell_block_complex (s : obj) z :
  lookup "tank_diameter" s = Some (ANum (Cplx z)) ->
  lookup "design_pressure" s = Some (ANum (Flt f_2_5)) ->
  lookup "material_properties" s = Some (ADict material_properties) ->
  exists e, shell_thickness_block s = (s, Raise e).
Proof.
  intros Hd Hp Hm. unfold shell_thickness_block. run_M.
  rewrite Hp, Hd, Hm.
  change (lookup "yield_strength" material_properties) with (Some (Int 300)).
  cbv beta iota.
  rewrite !py_mul_FF.
  destruct (@complex_truediv_I z 2 eq_refl) as [q1 ->]. cbv beta iota.
  destruct (@complex_truediv_I q1 1000 eq_refl) as [q2 ->]. cbv beta iota.
  change (py_mul (Flt (fmul f_2_5 f_0_00689476)) (Cplx q2))
    with (Ok (Cplx (c_prod (mk_complex (fmul f_2_5 f_0_00689476) pzero) q2))).
  cbv beta iota.
  set (q3 := c_prod (mk_complex (fmul f_2_5 f_0_00689476) pzero) q2).
  change (py_mul (Cplx q3) (Int 1000))
    with (Ok (Cplx (c_prod q3 (mk_complex (of_Z 1000) pzero)))).
  cbv beta iota.
  set (q4 := c_prod q3 (mk_complex (of_Z 1000) pzero)).
  rewrite (@py_mul_IF 300) by reflexivity. cbv beta iota.
  rewrite !py_mul_FF. cbv beta iota. rewrite py_sub_FF. cbv beta iota.
  destruct (@complex_truediv_F q4
              (fsub (fmul (fmul (of_Z 300) f_0_4) f_0_85)
                    (fmul f_0_6 (fmul f_2_5 f_0_00689476))) eq_refl) as [q5 ->].
  cbv beta iota.
  change (py_add (Cplx q5) (Flt f_1_5))
    with (Ok (Cplx (c_sum q5 (mk_complex f_1_5 pzero)))).
  cbv beta iota.
  destruct (py_max_complex_l (c_sum q5 (mk_complex f_1_5 pzero)) (Flt f_6))
    as [e ->].
  exists e. reflexivity.
Qed.

Lemma dished_block_float (s : obj) d :
  lookup "tank_diameter" s = Some (ANum (Flt d)) ->
  dished_end_block s
  = (("crown_radius", ANum (Flt d))
       :: ("knuckle_radius", ANum (Flt (float_max f_60 (fmul d f_0_06))))
       :: s, Ok tt).
Proof.
  intros Hd. unfold dished_end_block. run_M.
  rewrite Hd. cbv beta iota.
  rewrite py_mul_FF, py_max_FF.
  cbn [lookup String.eqb Ascii.eqb Bool.eqb].
  rewrite Hd. reflexivity.
Qed.


(** ** The constructor *)

(** The object when [_calculate_optimal_dimensions] is called. *)
Definition prelude (c m3 : num) : obj :=
  [("hydrostatic_test_pressure", ANum (Flt f_1_5));
   ("design_temperature", ANum (Int 60));
   ("design_pressure", ANum (Flt f_2_5));
   ("material_properties", ADict material_properties);
   ("safety_factors", ADict safety_factors);
   ("capacity_m3", ANum m3);
   ("capacity_liters", ANum c)].

(** What [__init__] does after [_calculate_optimal_dimensions]. *)
Definition specifications : M unit :=
  bindM (setattr "components" (AComponents []))
        (fun _ => _generate_component_specifications).

Lemma init_unfold L c :
  ProfessionalTankDesigner L c
  = match py_truediv c (Int 1000) with
    | Ok m3 =>
        bindM (_calculate_optimal_dimensions L) (fun _ => specifications)
              (prelude c m3)
    | Raise e => ([("capacity_liters", ANum c)], Raise e)
    end.
Proof.
  unfold ProfessionalTankDesigner, __init__, specifications. run_M.
  destruct (py_truediv c (Int 1000)); reflexivity.
Qed.

Lemma specifications_sets : only_sets ["components"] specifications.
Proof.
  unfold specifications. apply only_sets_bindM.
  - apply only_sets_setattr. simpl. tauto.
  - intros _. apply component_specifications_sets.
Qed.

Lemma specifications_keep k s :
  k <> "components" ->
  attribute (fst (specifications s)) k = attribute s k.
Proof.
  intros Hk. unfold attribute.
  rewrite (only_sets_lookup _ specifications k s specifications_sets);
    [reflexivity | ].
  simpl. intros [E|[]]. congruence.
Qed.

(** ** The components *)

(** The safety factor of each component, in the order of the dict. *)
Definition component_factors (self : obj) : list (string * num) :=
  map (fun kc => (fst kc, safety_factor (snd kc))) (components_of self).

Definition factor_table : list (string * num) :=
  [("shell", Flt f_2); ("dished_ends", Flt f_2); ("manhole", Flt f_2_5);
   ("support_saddles", Flt f_3); ("lifting_lugs", Flt f_4);
   ("fill_nozzle", Flt f_2_5); ("vent_nozzle", Flt f_2_5);
   ("outlet_nozzle", Flt f_2_5); ("drain_nozzle", Flt f_2_5)].

Lemma specifications_run c m3 a x y t k r :
  exists self,
    specifications
      (("crown_radius", ANum r) :: ("knuckle_radius", ANum k)
         :: ("shell_thickness", ANum t) :: ("actual_capacity", ANum a)
         :: ("tank_length", ANum (Flt y)) :: ("tank_diameter", ANum x)
         :: prelude c m3)
    = (self, Ok tt) /\
    component_factors self = factor_table.
Proof.
  eexists. split.
  - cbv -[fmul]. reflexivity.
  - reflexivity.
Qed.

(** The attributes of a constructed designer. *)
Record constructed (L : libm) (c : num) (self : obj) (d : float) : Prop := {
  built_capacity_m3 :
    exists m3, py_truediv c (Int 1000) = Ok m3 /\
               attribute self "capacity_m3" = Some m3;
  built_proportions :
    (py_between (Int 8000) c (Int 12000) = Ok true /\ d = f_1870 /\
     attribute self "tank_length" = Some (Flt f_3680) /\
     attribute self "actual_capacity" = Some (Int 9000))
    \/
    (py_between (Int 8000) c (Int 12000) = Ok false /\
     diameter_formula L c = Ok (Flt d) /\
     attribute self "tank_length" = Some (Flt (fmul (of_Z 2) d)) /\
     attribute self "actual_capacity" = Some c);
  built_capacity_liters : attribute self "capacity_liters" = Some c;
  built_diameter : attribute self "tank_diameter" = Some (Flt d);
  built_shell :
    attribute self "shell_thickness"
    = Some (Flt (float_max (calculated_thickness d) f_6));
  built_knuckle :
    attribute self "knuckle_radius"
    = Some (Flt (float_max f_60 (fmul d f_0_06)));
  built_crown : attribute self "crown_radius" = Some (Flt d);
  built_factors : component_factors self = factor_table
}.

Lemma construction_ok L c self :
  ProfessionalTankDesigner L c = (self, Ok tt) ->
  exists d, constructed L c self d.
Proof.
  rewrite init_unfold.
  destruct (py_truediv c (Int 1000)) as [m3|e] eqn:Hm3; [ | discriminate].
  intros H. apply bindM_ok in H as [[] [s3 [Hcalc Hspec]]].
  unfold _calculate_optimal_dimensions in Hcalc.
  apply bindM_ok in Hcalc as [[] [s1 [H1 Hcalc]]].
  apply bindM_ok in Hcalc as [[] [s2 [H2 H3]]].
  assert (Hself : forall k, k <> "components" -> attribute self k = attribute s3 k).
  { intros k Hk. rewrite <- (specifications_keep k s3 Hk), Hspec. reflexivity. }
  apply tank_proportions_ok with (c := c) in H1; [ | reflexivity].
  assert (Hshape : exists d l a,
             s1 = ("actual_capacity", ANum a) :: ("tank_length", ANum l)
                    :: ("tank_diameter", ANum d) :: prelude c m3 /\
             shape False d /\
             ((py_between (Int 8000) c (Int 12000) = Ok true /\
               d = Flt f_1870 /\ l = Flt f_3680 /\ a = Int 9000) \/
              (py_between (Int 8000) c (Int 12000) = Ok false /\
               diameter_formula L c = Ok d /\ py_mul (Int 2) d = Ok l /\ a = c))).
  { destruct H1 as [[Hb ->]|[Hb [d [l [Hd [Hl ->]]]]]].
    - exists (Flt f_1870), (Flt f_3680), (Int 9000).
      split; [reflexivity | ]. split; [intros [] | ]. left. auto.
    - exists d, l, c. split; [reflexivity | ]. split.
      + eapply diameter_formula_shape; [ | | exact Hd]; intros [].
      + right. auto. }
  destruct Hshape as [d [l [a [-> [Hd Hcase]]]]].
  destruct d as [z|x|z]; [destruct Hd | | ].
  - erewrite shell_block_float in H2 by reflexivity.
    injection H2 as <-.
    erewrite dished_block_float in H3 by reflexivity.
    injection H3 as <-.
    assert (Hl : exists y, l = Flt y).
    { destruct Hcase as [[_ [_ [-> _]]]|[_ [_ [Hl _]]]]; [eauto | ].
      rewrite py_mul_IF in Hl by reflexivity. injection Hl as <-. eauto. }
    destruct Hl as [y ->].
    destruct (specifications_run c m3 a (Flt x) y
                (Flt (float_max (calculated_thickness x) f_6))
                (Flt (float_max f_60 (fmul x f_0_06))) (Flt x))
      as [self' [Hrun Hfactors]].
    rewrite Hrun in Hspec. injection Hspec as <-.
    exists x. constructor.
    + exists m3. split; [exact Hm3 | ]. rewrite Hself by discriminate.
      reflexivity.
    + destruct Hcase as [[Hb [Hx [Hy ->]]]|[Hb [Hf [Hl ->]]]].
      * left. injection Hx as ->. injection Hy as ->.
        rewrite !Hself by discriminate. auto.
      * right. rewrite py_mul_IF in Hl by reflexivity. injection Hl as <-.
        rewrite !Hself by discriminate. auto.
    + rewrite Hself by discriminate. reflexivity.
    + rewrite Hself by discriminate. reflexivity.
    + rewrite Hself by discriminate. reflexivity.
    + rewrite Hself by discriminate. reflexivity.
    + rewrite Hself by discriminate. reflexivity.
    + exact Hfactors.
  - destruct (@shell_block_complex
                (("actual_capacity", ANum a) :: ("tank_length", ANum l)
                   :: ("tank_diameter", ANum (Cplx z)) :: prelude c m3)
                z eq_refl eq_refl eq_refl) as [e He].
    rewrite He in H2. discriminate H2.
Qed.


Lemma attribute_lookup self k n :
  attribute self k = Some n <-> lookup k self = Some (ANum n).
Proof.
  unfold attribute. destruct (lookup k self) as [[m|d|cs]|]; split;
    intros H; try discriminate H; congruence.
Qed.

Lemma thickness_blocks_sets :
  only_sets ["shell_thickness"; "knuckle_radius"; "crown_radius"]
            (bindM shell_thickness_block (fun _ => dished_end_block)).
Proof.
  apply only_sets_bindM; [ | intros _]; only_sets_tac.
Qed.

Lemma thickness_blocks_keep k s :
  ~ In k ["shell_thickness"; "knuckle_radius"; "crown_radius"] ->
  attribute (fst (bindM shell_thickness_block (fun _ => dished_end_block) s)) k
  = attribute s k.
Proof.
  intros Hk. unfold attribute.
  rewrite (only_sets_lookup _ _ k s thickness_blocks_sets Hk). reflexivity.
Qed.

Lemma calculate_after_proportions L s s1 :
  tank_proportions L s = (s1, Ok tt) ->
  fst (_calculate_optimal_dimensions L s)
  = fst (bindM shell_thickness_block (fun _ => dished_end_block) s1).
Proof.
  intros H. unfold _calculate_optimal_dimensions. unfold bindM at 1.
  rewrite H. reflexivity.
Qed.

(** The range test on an int is the test on the integer. *)
Lemma py_between_int lo z hi :
  py_between (Int lo) (Int z) (Int hi) = Ok ((lo <=? z)%Z && (z <=? hi)%Z).
Proof.
  unfold py_between, py_le. cbn [compare_num bind].
  unfold Z.leb. destruct (lo ?= z)%Z; cbn [bind andb]; try reflexivity;
    destruct (z ?= hi)%Z; reflexivity.
Qed.

(** C1.  [_calculate_optimal_dimensions] sets the standard proportions
    1870.0 mm, 3680.0 mm and 9000 L when [8000 <= capacity_liters <= 12000];
    otherwise it sets the diameter to the value of
    [((capacity_liters / 1000 * 2 / pi) ** (1/3)) * 1000], the length to twice
    the diameter and the actual capacity to the capacity asked for. *)
Theorem calculate_optimal_dimensions_proportions L s c :
  lookup "capacity_liters" s = Some (ANum c) ->
  let self := fst (_calculate_optimal_dimensions L s) in
  (py_between (Int 8000) c (Int 12000) = Ok true ->
   attribute self "tank_diameter" = Some (Flt f_1870) /\
   attribute self "tank_length" = Some (Flt f_3680) /\
   attribute self "actual_capacity" = Some (Int 9000))
  /\
  (py_between (Int 8000) c (Int 12000) = Ok false ->
   forall d l, diameter_formula L c = Ok d -> py_mul (Int 2) d = Ok l ->
   attribute self "tank_diameter" = Some d /\
   attribute self "tank_length" = Some l /\
   attribute self "actual_capacity" = Some c).
Proof.
  intros Hc self. subst self. split.
  - intros Hb.
    rewrite (calculate_after_proportions L s _
               (tank_proportions_standard L s c Hc Hb)).
    rewrite !thickness_blocks_keep
      by (simpl; intros [E|[E|[E|[]]]]; discriminate E).
    repeat split; reflexivity.
  - intros Hb d l Hd Hl.
    rewrite (calculate_after_proportions L s _
               (tank_proportions_computed L s c d l Hc Hb Hd Hl)).
    rewrite !thickness_blocks_keep
      by (simpl; intros [E|[E|[E|[]]]]; discriminate E).
    repeat split; reflexivity.
Qed.



(** ** The standard range *)

Lemma standard_capacity_m3 c :
  py_between (Int 8000) c (Int 12000) = Ok true ->
  exists m3, py_truediv c (Int 1000) = Ok (Flt m3).
Proof.
  destruct c as [z|x|z].
  - rewrite py_between_int. intros [= Hz].
    apply andb_prop in Hz as [Hlo Hhi].
    apply Z.leb_le in Hlo, Hhi.
    cbn [py_truediv]. unfold int_true_divide.
    change (1000 =? 0)%Z with false. cbv iota.
    rewrite (raw_quotient_finite z 1000) by lia.
    eauto.
  - intros _. rewrite py_truediv_FI by reflexivity. eauto.
  - intros H. discriminate H.
Qed.

(** In the standard range the construction completes. *)
Lemma standard_construction L c :
  py_between (Int 8000) c (Int 12000) = Ok true ->
  exists self, ProfessionalTankDesigner L c = (self, Ok tt).
Proof.
  intros Hb. destruct (standard_capacity_m3 c Hb) as [m3 Hm3].
  rewrite init_unfold, Hm3.
  unfold _calculate_optimal_dimensions.
  unfold bindM at 1. unfold bindM at 1.
  rewrite (tank_proportions_standard L (prelude c (Flt m3)) c eq_refl Hb).
  unfold bindM at 1.
  erewrite shell_block_float by reflexivity.
  erewrite dished_block_float by reflexivity.
  destruct (specifications_run c (Flt m3) (Int 9000) (Flt f_1870) f_3680
              (Flt (float_max (calculated_thickness f_1870) f_6))
              (Flt (float_max f_60 (fmul f_1870 f_0_06))) (Flt f_1870))
    as [self [Hrun _]].
  exists self. exact Hrun.
Qed.

Definition f_112_2 : float := Eval vm_compute in fmul f_1870 f_0_06.

(** C2, as the code has it.  For every capacity from 8000 to 12000 litres the
    construction completes with the diameter 1870.0, the length 3680.0 and
    the actual capacity 9000 of the table, and with the same shell thickness
    (6.0), knuckle radius (1870.0 * 0.06) and crown radius (1870.0).  For
    every capacity for which the construction completes, the safety factors
    of the nine components are those of the table, while the shell thickness,
    the knuckle radius and the crown radius are computed from the diameter:
    [max(calculated_thickness, 6.0)], [max(60.0, 0.06 * tank_diameter)] and
    [tank_diameter]; outside the range the diameter itself is computed from
    the capacity by the formula of C1, the length is twice the diameter and
    the actual capacity is the capacity. *)
Theorem standard_dimensions_and_factors L c :
  (py_between (Int 8000) c (Int 12000) = Ok true ->
   exists self, ProfessionalTankDesigner L c = (self, Ok tt) /\
     attribute self "tank_diameter" = Some (Flt f_1870) /\
     attribute self "tank_length" = Some (Flt f_3680) /\
     attribute self "actual_capacity" = Some (Int 9000) /\
     attribute self "shell_thickness" = Some (Flt f_6) /\
     attribute self "knuckle_radius" = Some (Flt f_112_2) /\
     attribute self "crown_radius" = Some (Flt f_1870))
  /\
  (forall self, ProfessionalTankDesigner L c = (self, Ok tt) ->
     component_factors self = factor_table)
  /\
  (forall self, ProfessionalTankDesigner L c = (self, Ok tt) ->
     exists d,
       attribute self "tank_diameter" = Some (Flt d) /\
       attribute self "shell_thickness"
       = Some (Flt (float_max (calculated_thickness d) f_6)) /\
       attribute self "knuckle_radius"
       = Some (Flt (float_max f_60 (fmul d f_0_06))) /\
       attribute self "crown_radius" = Some (Flt d) /\
       (py_between (Int 8000) c (Int 12000) = Ok false ->
        diameter_formula L c = Ok (Flt d) /\
        attribute self "tank_length" = Some (Flt (fmul (of_Z 2) d)) /\
        attribute self "actual_capacity" = Some c))
  /\
  float_max (calculated_thickness f_1870) f_6 = f_6 /\
  float_max f_60 (fmul f_1870 f_0_06) = f_112_2.
Proof.
  split; [ | split; [ | split]].
  - intros Hb. destruct (standard_construction L c Hb) as [self Hself].
    exists self. split; [exact Hself | ].
    destruct (construction_ok L c self Hself) as [d [? Hp ? Hd Hs Hk Hc ?]].
    destruct Hp as [[_ [-> [Hl Ha]]]|[Hb' _]]; [ | congruence].
    repeat split; assumption.
  - intros self Hself.
    destruct (construction_ok L c self Hself) as [d H]. apply H.
  - intros self Hself.
    destruct (construction_ok L c self Hself) as [d [_ Hp _ Hd Hs Hk Hc _]].
    exists d. repeat (split; [assumption | ]).
    intros Hout.
    destruct Hp as [[Hb _]|[_ [Hf [Hl Ha]]]]; [congruence | auto].
  - split; reflexivity.
Qed.


(** ** The minimum thickness and the knuckle radius *)

(** [shell_thickness >= 6.0] and [knuckle_radius >= 60.0]. *)
Definition thickness_invariants (self : obj) : Prop :=
  exists t k,
    attribute self "shell_thickness" = Some t /\
    py_ge t (Flt f_6) = Ok true /\
    attribute self "knuckle_radius" = Some k /\
    py_ge k (Flt f_60) = Ok true.

(** X21.  After a construction that completes, the shell thickness is
    [max(calculated_thickness, 6.0)] and the knuckle radius is
    [max(60.0, 0.06 * tank_diameter)]; the knuckle radius is at least 60.0
    whatever the capacity; the shell thickness is at least 6.0 when the
    capacity is not NaN and C's [pow] gives no NaN on a positive finite
    base. *)
Theorem thickness_invariants_after_construction L c self :
  ProfessionalTankDesigner L c = (self, Ok tt) ->
  (exists d,
     attribute self "tank_diameter" = Some (Flt d) /\
     attribute self "shell_thickness"
     = Some (Flt (float_max (calculated_thickness d) f_6)) /\
     attribute self "knuckle_radius"
     = Some (Flt (float_max f_60 (fmul d f_0_06))))
  /\
  (exists k, attribute self "knuckle_radius" = Some k /\
             py_ge k (Flt f_60) = Ok true)
  /\
  (pow_third_defined L -> is_nan_num c = false -> thickness_invariants self).
Proof.
  intros Hself.
  destruct (construction_ok L c self Hself) as [d [_ Hp _ Hd Hs Hk _ _]].
  assert (Hknuckle : py_ge (Flt (float_max f_60 (fmul d f_0_06))) (Flt f_60)
                     = Ok true).
  { rewrite py_ge_FF. f_equal. apply float_max_bound_l. reflexivity. }
  split; [eauto | ]. split; [eauto | ].
  intros Hpow Hc.
  exists (Flt (float_max (calculated_thickness d) f_6)),
         (Flt (float_max f_60 (fmul d f_0_06))).
  repeat split; try assumption.
  rewrite py_ge_FF. f_equal.
  apply float_max_bound_r; try reflexivity.
  apply calculated_thickness_not_nan.
  destruct Hp as [[_ [-> _]]|[_ [Hf _]]]; [reflexivity | ].
  apply (diameter_formula_shape L True c (Flt d)); auto.
Qed.

(** ** The capacity verification *)

(** The test
    [abs(pi * (tank_diameter/2000)**2 * (tank_length/1000)
         - capacity_liters/1000) < 0.5]. *)
Definition capacity_check (L : libm) (tank_diameter tank_length
  capacity_liters : num) : result bool :=
  (radius <- py_truediv tank_diameter (Int 2000) ;;
   squared <- py_pow L radius (Int 2) ;;
   area <- py_mul (Flt pi) squared ;;
   metres <- py_truediv tank_length (Int 1000) ;;
   volume <- py_mul area metres ;;
   capacity_m3 <- py_truediv capacity_liters (Int 1000) ;;
   difference <- py_sub volume capacity_m3 ;;
   distance <- py_abs L difference ;;
   py_lt distance (Flt f_0_5))%py.

Definition verdict_of (close : bool) : verdict := if close then PASS else FAIL.

Lemma capacity_match_run L self d l c m3 :
  lookup "tank_diameter" self = Some (ANum d) ->
  lookup "tank_length" self = Some (ANum l) ->
  lookup "capacity_m3" self = Some (ANum m3) ->
  py_truediv c (Int 1000) = Ok m3 ->
  snd (capacity_match L self)
  = bind (capacity_check L d l c) (fun close => Ok (verdict_of close)).
Proof.
  intros Hd Hl Hm Hc. unfold capacity_match, calculated_volume, capacity_check.
  run_M. rewrite Hd. cbv beta iota.
  destruct (py_truediv d (Int 2000)) as [radius|e]; [ | reflexivity].
  cbn [bind].
  destruct (py_pow L radius (Int 2)) as [squared|e]; [ | reflexivity].
  cbn [bind].
  destruct (py_mul (Flt pi) squared) as [area|e]; [ | reflexivity].
  cbn [bind]. rewrite Hl. cbv beta iota.
  destruct (py_truediv l (Int 1000)) as [metres|e]; [ | reflexivity].
  cbn [bind].
  destruct (py_mul area metres) as [volume|e]; [ | reflexivity].
  cbn [bind]. rewrite Hm, Hc. cbn [bind].
  destruct (py_sub volume m3) as [difference|e]; [ | reflexivity].
  cbn [bind].
  destruct (py_abs L difference) as [distance|e]; [ | reflexivity].
  cbn [bind].
  destruct (py_lt distance (Flt f_0_5)) as [close|e]; reflexivity.
Qed.

Definition f_0_935 : float := Eval vm_compute in fdiv f_1870 (of_Z 2000).

(** C's [pow] squares [x] to within one unit in the last place and reports no
    error. *)
Definition pow_square_accurate (L : libm) (x : float) : Prop :=
  exists r, libm_pow L x f_2 = (r, false) /\
            (r = fpred (fmul x x) \/ r = fmul x x \/ r = fsucc (fmul x x)).

Lemma standard_check_fails L :
  pow_square_accurate L f_0_935 ->
  capacity_check L (Flt f_1870) (Flt f_3680) (Int 9000) = Ok false.
Proof.
  intros [r [Hr Hcases]]. unfold capacity_check.
  rewrite py_truediv_FI by reflexivity.
  change (fdiv f_1870 (of_Z 2000)) with f_0_935. cbn [bind].
  assert (Hpow : py_pow L (Flt f_0_935) (Int 2) = Ok (Flt r)).
  { cbn [py_pow to_float bind]. rewrite int_to_float_small by reflexivity.
    cbn [bind]. unfold float_pow.
    change (of_Z 2) with f_2.
    change (is_zero f_2) with false. change (is_nan f_0_935) with false.
    change (is_nan f_2) with false. change (is_inf f_2) with false.
    change (is_inf f_0_935) with false. change (is_zero f_0_935) with false.
    change (fltb f_0_935 pzero) with false. cbn [andb].
    change (feqb (fabs f_0_935) one) with false.
    change (fabs f_0_935) with f_0_935. cbv iota.
    rewrite Hr.
    destruct Hcases as [->|[->| ->]]; reflexivity. }
  rewrite Hpow. cbn [bind].
  destruct Hcases as [->|[->| ->]]; vm_compute; reflexivity.
Qed.

(** C10.  The Capacity Match field is PASS exactly when
    [abs(pi * (tank_diameter/2000)**2 * (tank_length/1000)
         - capacity_liters/1000) < 0.5]
    holds for the capacity that was asked for, and FAIL exactly when the test
    is false; for 9000 litres, a capacity of the standard range, the field is
    FAIL. *)
Theorem capacity_match_verdict L :
  (forall c self,
     ProfessionalTankDesigner L c = (self, Ok tt) ->
     exists d l,
       attribute self "tank_diameter" = Some d /\
       attribute self "tank_length" = Some l /\
       (snd (capacity_match L self) = Ok PASS
        <-> capacity_check L d l c = Ok true) /\
       (snd (capacity_match L self) = Ok FAIL
        <-> capacity_check L d l c = Ok false))
  /\
  (pow_square_accurate L f_0_935 ->
   py_between (Int 8000) (Int 9000) (Int 12000) = Ok true /\
   exists self,
     ProfessionalTankDesigner L (Int 9000) = (self, Ok tt) /\
     snd (capacity_match L self) = Ok FAIL).
Proof.
  assert (Hrun : forall c self,
             ProfessionalTankDesigner L c = (self, Ok tt) ->
             exists d l,
               attribute self "tank_diameter" = Some d /\
               attribute self "tank_length" = Some l /\
               snd (capacity_match L self)
               = bind (capacity_check L d l c)
                      (fun close => Ok (verdict_of close))).
  { intros c self Hself.
    destruct (construction_ok L c self Hself)
      as [d [[m3 [Hm3 Hm]] Hp _ Hd _ _ _ _]].
    assert (Hl : exists l, attribute self "tank_length" = Some l).
    { destruct Hp as [[_ [_ [Hl _]]]|[_ [_ [Hl _]]]]; eauto. }
    destruct Hl as [l Hl]. exists (Flt d), l.
    split; [exact Hd | ]. split; [exact Hl | ].
    apply capacity_match_run with (m3 := m3);
      try (apply attribute_lookup; assumption); exact Hm3. }
  split.
  - intros c self Hself. destruct (Hrun c self Hself) as [d [l [Hd [Hl E]]]].
    exists d, l. split; [exact Hd | ]. split; [exact Hl | ].
    rewrite E.
    destruct (capacity_check L d l c) as [[|]|e]; cbn; split; split;
      intros H; try reflexivity; discriminate H.
  - intros Hpow. split; [reflexivity | ].
    destruct (standard_construction L (Int 9000) eq_refl) as [self Hself].
    exists self. split; [exact Hself | ].
    destruct (Hrun (Int 9000) self Hself) as [d [l [Hd [Hl E]]]].
    destruct (construction_ok L (Int 9000) self Hself)
      as [d' [_ Hp _ Hd' _ _ _ _]].
    destruct Hp as [[_ [-> [Hl' _]]]|[Hb _]]; [ | discriminate Hb].
    rewrite Hd' in Hd. injection Hd as <-.
    rewrite Hl' in Hl. injection Hl as <-.
    rewrite E, (standard_check_fails L Hpow). reflexivity.
Qed.

End TankDesignFacts.
(* ================================================================== *)
(** * The designer on the sample C library *)
(* ================================================================== *)

Module SampleLibmFacts.

Import F64 PyNum F64Facts TankDesign TankDesignFacts.
Local Open Scope string_scope.
Local Open Scope list_scope.
Local Open Scope Z_scope.

Import SampleLibm.

Lemma icbrt_from_nonneg bits : forall n root,
  0 <= root -> 0 <= icbrt_from bits n root.
Proof.
  induction bits as [|k IH]; intros n root H; simpl; [exact H | ].
  apply IH. destruct (_ <=? n); [ | exact H].
  pose proof (Z.pow_nonneg 2 (Z.of_nat k)). lia.
Qed.

Lemma cbrt_not_nan x : is_nan x = false -> is_nan (cbrt x) = false.
Proof.
  destruct x as [s|s| |[|] m e]; try discriminate; try reflexivity.
  intros _. unfold cbrt.
  apply binary_round_aux_not_nan, icbrt_from_nonneg. lia.
Qed.

Lemma libc_pow_third_defined : pow_third_defined libc.
Proof.
  intros x Hx _. simpl. unfold pow.
  change (feqb f_third f_2) with false. change (feqb f_third f_third) with true.
  simpl. apply cbrt_not_nan. destruct x; try discriminate Hx; reflexivity.
Qed.

Lemma libc_pow_square_accurate x : pow_square_accurate libc x.
Proof.
  exists (fmul x x). split; [ | auto].
  simpl. unfold pow. change (feqb f_2 f_2) with true. reflexivity.
Qed.

End SampleLibmFacts.
Module TankDesignExamples.

Import F64 PyNum F64Facts TankDesign TankDesignFacts.
Import SampleLibm SampleLibmFacts.
Local Open Scope string_scope.
Local Open Scope list_scope.
Local Open Scope Z_scope.

Definition ten : float := Eval vm_compute in of_Z 10.
Definition twenty : float := Eval vm_compute in of_Z 20.

(** The diameter for 20000 litres on the sample library, 2335.088... mm. *)
Definition diameter_20000 : float := S754_finite false 5134914244864879 (-41).

Lemma calculate_optimal_dimensions_proportions_witness :
  (let self :=
     fst (_calculate_optimal_dimensions libc (prelude (Int 10000) (Flt ten))) in
   attribute self "tank_diameter" = Some (Flt f_1870) /\
   attribute self "tank_length" = Some (Flt f_3680) /\
   attribute self "actual_capacity" = Some (Int 9000))
  /\
  (let self :=
     fst (_calculate_optimal_dimensions libc (prelude (Int 20000) (Flt twenty))) in
   attribute self "tank_diameter" = Some (Flt diameter_20000) /\
   attribute self "tank_length" = Some (Flt (fmul f_2 diameter_20000)) /\
   attribute self "actual_capacity" = Some (Int 20000)).
Proof.
  split.
  - apply (proj1 (calculate_optimal_dimensions_proportions libc
                    (prelude (Int 10000) (Flt ten)) (Int 10000) eq_refl)).
    reflexivity.
  - apply (proj2 (calculate_optimal_dimensions_proportions libc
                    (prelude (Int 20000) (Flt twenty)) (Int 20000) eq_refl)).
    + reflexivity.
    + vm_compute. reflexivity.
    + reflexivity.
Defined.

(** The claim C2 as it is worded: whatever the capacity, the diameter, the
    length and the shell thickness of a constructed designer are the constants
    of the table. *)
Definition dimensions_from_table (L : libm) : Prop :=
  forall c self,
    ProfessionalTankDesigner L c = (self, Ok tt) ->
    attribute self "tank_diameter" = Some (Flt f_1870) /\
    attribute self "tank_length" = Some (Flt f_3680) /\
    attribute self "shell_thickness" = Some (Flt f_6).

Definition designer_20000 : obj :=
  Eval vm_compute in fst (ProfessionalTankDesigner libc (Int 20000)).

Lemma computed_dimensions_counterexample : ~ dimensions_from_table libc.
Proof.
  intros H.
  assert (E : ProfessionalTankDesigner libc (Int 20000) = (designer_20000, Ok tt))
    by (vm_compute; reflexivity).
  destruct (H (Int 20000) designer_20000 E) as [Hd _].
  vm_compute in Hd. discriminate Hd.
Qed.

Lemma standard_dimensions_and_factors_witness :
  (exists self,
     ProfessionalTankDesigner libc (Int 10000) = (self, Ok tt) /\
     attribute self "tank_diameter" = Some (Flt f_1870) /\
     attribute self "tank_length" = Some (Flt f_3680) /\
     attribute self "actual_capacity" = Some (Int 9000) /\
     attribute self "shell_thickness" = Some (Flt f_6) /\
     attribute self "knuckle_radius" = Some (Flt f_112_2) /\
     attribute self "crown_radius" = Some (Flt f_1870))
  /\ component_factors designer_20000 = factor_table
  /\ (exists d,
       attribute designer_20000 "tank_diameter" = Some (Flt d) /\
       attribute designer_20000 "shell_thickness"
       = Some (Flt (float_max (calculated_thickness d) f_6)) /\
       attribute designer_20000 "knuckle_radius"
       = Some (Flt (float_max f_60 (fmul d f_0_06))) /\
       attribute designer_20000 "crown_radius" = Some (Flt d) /\
       (py_between (Int 8000) (Int 20000) (Int 12000) = Ok false ->
        diameter_formula libc (Int 20000) = Ok (Flt d) /\
        attribute designer_20000 "tank_length"
        = Some (Flt (fmul (of_Z 2) d)) /\
        attribute designer_20000 "actual_capacity" = Some (Int 20000))).
Proof.
  split; [ | split].
  - apply (proj1 (standard_dimensions_and_factors libc (Int 10000))).
    reflexivity.
  - apply (proj1 (proj2 (standard_dimensions_and_factors libc (Int 20000)))).
    vm_compute. reflexivity.
  - apply (proj1 (proj2 (proj2
             (standard_dimensions_and_factors libc (Int 20000))))).
    vm_compute. reflexivity.
Defined.

Definition designer_nan : obj :=
  Eval vm_compute in fst (ProfessionalTankDesigner libc (Flt nan)).

(** C9, at a capacity that is not a number.  Whatever the C library,
    [ProfessionalTankDesigner(float('nan'))] is constructed; its shell
    thickness is NaN, because [max(calculated_thickness, minimum_thickness)]
    keeps its first argument when the comparison with NaN is false, so that
    [shell_thickness >= 6.0] is False; its knuckle radius is 60.0, the
    minimum being the first argument of [max(60.0, ...)]. *)
Theorem nan_capacity_misses_minimum L :
  ProfessionalTankDesigner L (Flt nan) = (designer_nan, Ok tt) /\
  attribute designer_nan "shell_thickness" = Some (Flt nan) /\
  py_ge (Flt nan) (Flt f_6) = Ok false /\
  attribute designer_nan "knuckle_radius" = Some (Flt f_60) /\
  py_ge (Flt f_60) (Flt f_60) = Ok true /\
  ~ thickness_invariants designer_nan.
Proof.
  split; [vm_compute; reflexivity | ].
  repeat (split; [reflexivity | ]).
  intros [t [k [Ht [Hge _]]]].
  vm_compute in Ht. injection Ht as <-.
  vm_compute in Hge. discriminate Hge.
Qed.

Lemma thickness_invariants_after_construction_witness :
  thickness_invariants designer_20000.
Proof.
  apply (thickness_invariants_after_construction libc (Int 20000) designer_20000).
  - vm_compute. reflexivity.
  - exact libc_pow_third_defined.
  - reflexivity.
Defined.

Lemma capacity_match_verdict_witness :
  py_between (Int 8000) (Int 9000) (Int 12000) = Ok true /\
  exists self,
    ProfessionalTankDesigner libc (Int 9000) = (self, Ok tt) /\
    snd (capacity_match libc self) = Ok FAIL.
Proof.
  apply (proj2 (capacity_match_verdict libc)).
  exact (libc_pow_square_accurate f_0_935).
Defined.

End TankDesignExamples.

(* ================================================================== *)
(** * Properties of the STEP export *)
(* ================================================================== *)

Module StepExportFacts.

Local Open Scope string_scope.
Local Open Scope list_scope.

Import StepExport.











End StepExportFacts.

(* ================================================================== *)
(** * Properties of the PDF generator *)
(* ================================================================== *)

Module PdfGenFacts.

Local Open Scope string_scope.
Local Open Scope list_scope.

Import PdfGen.

(** ** [markdown_to_pdf] *)





(** ** [main] *)










End PdfGenFacts.
(* ================================================================== *)
(** * Properties of the request handlers *)
(* ================================================================== *)

Module DocServerFacts.

Import PyStr PyStrFacts.
Local Open Scope string_scope.
Local Open Scope list_scope.

Import DocServer.

(** C3.  [do_GET] answers the paths / and /index.html with status 200 and
    the dashboard page; a path that starts with /document/ is served by
    [serve_document] on its last piece between slashes; every other path is
    handed to the base class. *)
Theorem do_GET_routes h w target :
  let path := urlparse_path w target in
  (path = "/" \/ path = "/index.html" ->
   do_GET h w target = Ok (Response 200 (html_headers h) (dashboard_html h)))
  /\
  (startswith path "/document/" = true ->
   exists front doc_name,
     path = (front ++ "/" ++ doc_name)%string /\
     contains_char "/" doc_name = false /\
     do_GET h w target = serve_document h w doc_name)
  /\
  (path <> "/" -> path <> "/index.html" ->
   startswith path "/document/" = false ->
   do_GET h w target = Ok Delegated).
Proof.
  intros path. unfold do_GET. fold path. split; [ | split].
  - intros [->| ->]; reflexivity.
  - intros Hdoc.
    destruct (split_last_spec "/" path) as [Hlast [_ Hfront]].
    destruct (Hfront (startswith_contains path "/" "document/" Hdoc))
      as [front E].
    exists front, (split_last "/" path). split; [exact E | ].
    split; [exact Hlast | ].
    rewrite Hdoc.
    destruct (String.eqb_spec path "/") as [E1|_].
    { rewrite E1 in Hdoc. discriminate Hdoc. }
    destruct (String.eqb_spec path "/index.html") as [E2|_].
    { rewrite E2 in Hdoc. discriminate Hdoc. }
    reflexivity.
  - intros H1 H2 H3. rewrite H3.
    destruct (String.eqb_spec path "/"); [congruence | ].
    destruct (String.eqb_spec path "/index.html"); [congruence | ].
    reflexivity.
Qed.

Lemma title_without_underscore filename :
  contains_char "_" (title_of filename) = false.
Proof.
  unfold title_of. unfold replace at 1.
  apply replace_from_delete. apply replace_char_gone. discriminate.
Qed.

(** C4.  For a file that exists and is read, [serve_document] answers with
    status 200, the header Content-type: text/html; charset=utf-8 and the
    page built around the title and the content: the content converted by
    markdown when the name ends with .md, the content between <pre> and
    </pre> otherwise.  The title is the name with every _ replaced by a space
    and .md deleted. *)
Theorem serve_document_page h w filename content :
  path_exists w filename = true ->
  read_text w filename = Ok content ->
  (endswith filename ".md" = true ->
   forall html, markdown w (extensions h) content = Ok html ->
   serve_document h w filename
   = Ok (Response 200 (html_headers h) (full_html h (title_of filename) html)))
  /\
  (endswith filename ".md" = false ->
   serve_document h w filename
   = Ok (Response 200 (html_headers h)
           (full_html h (title_of filename)
                      ("<pre>" ++ content ++ "</pre>")%string)))
  /\
  In ("Content-type", "text/html; charset=utf-8") (html_headers h)
  /\
  title_of filename = replace (replace filename "_" " ") ".md" ""
  /\
  contains_char "_" (title_of filename) = false.
Proof.
  intros Hex Hread. unfold serve_document, document_body.
  rewrite Hex, Hread. cbn [negb bind].
  split; [ | split; [ | split; [ | split]]].
  - intros Hmd html Hhtml. rewrite Hmd, Hhtml. reflexivity.
  - intros Hmd. rewrite Hmd. reflexivity.
  - left. reflexivity.
  - reflexivity.
  - apply title_without_underscore.
Qed.

(** ** The error answers *)

Lemma document_body_raises h w filename e :
  document_body h w filename = Raise e
  <-> read_text w filename = Raise e \/
      exists content,
        read_text w filename = Ok content /\
        endswith filename ".md" = true /\
        markdown w (extensions h) content = Raise e.
Proof.
  unfold document_body.
  destruct (read_text w filename) as [content|e0]; cbn [bind].
  - destruct (endswith filename ".md").
    + destruct (markdown w (extensions h) content) as [html|e1] eqn:Hm;
        cbn [bind].
      * split; [intros H; discriminate H | ].
        intros [H|[c [Hc [_ H]]]]; [discriminate H | ].
        injection Hc as <-. rewrite Hm in H. discriminate H.
      * split.
        -- intros H. right. exists content.
           split; [reflexivity | split; [reflexivity | ]].
           rewrite Hm. injection H as <-. reflexivity.
        -- intros [H|[c [Hc [_ H]]]]; [discriminate H | ].
           injection Hc as <-. rewrite Hm in H. injection H as <-.
           reflexivity.
    + cbn [bind]. split; [intros H; discriminate H | ].
      intros [H|[c [_ [H _]]]]; discriminate H.
  - split.
    + intros H. left. injection H as <-. reflexivity.
    + intros [H|[c [H _]]]; [ | discriminate H].
      injection H as <-. reflexivity.
Qed.

Lemma document_body_status h w filename r :
  document_body h w filename = Ok r -> status_of r = Some 200.
Proof.
  unfold document_body.
  destruct (read_text w filename) as [content|]; [ | discriminate].
  cbn [bind].
  destruct (if endswith filename ".md" then _ else _) as [html|];
    [ | discriminate].
  cbn [bind]. intros [= <-]. reflexivity.
Qed.

(** C8 as it is worded, in its second part: whenever reading or converting an
    existing file raises, the answer is a 500. *)
Definition every_failure_is_500 : Prop :=
  forall h w filename e,
    path_exists w filename = true ->
    document_body h w filename = Raise e ->
    exists message, serve_document h w filename = Ok (SendError 500 message).

(** A world in which the reading of the file is interrupted. *)
Definition interrupted_reading : world :=
  mk_world (fun target => target) (fun _ => true)
           (fun _ => Raise (mk_exn KeyboardInterrupt ""))
           (fun _ content => Ok content).

Lemma reading_interrupt_counterexample : ~ every_failure_is_500.
Proof.
  intros H.
  destruct (H (DocumentationHandler "" ("", "", "", "")) interrupted_reading
              "README.md" (mk_exn KeyboardInterrupt "") eq_refl eq_refl)
    as [message Hm].
  vm_compute in Hm. discriminate Hm.
Qed.

(** C8, as the code has it.  The answer is a 404 exactly when the file does
    not exist; it is a 500 exactly when the file exists and reading or
    converting it raises an exception that derives from Exception; an
    exception that does not is propagated and nothing is answered; an answer
    with status 200 is given exactly when the file exists and nothing
    raised. *)
Theorem serve_document_errors h w filename :
  ((exists message,
      serve_document h w filename = Ok (SendError 404 message))
   <-> path_exists w filename = false)
  /\
  ((exists message,
      serve_document h w filename = Ok (SendError 500 message))
   <-> path_exists w filename = true /\
       exists e, document_body h w filename = Raise e /\
                 is_Exception e = true)
  /\
  (forall e,
     serve_document h w filename = Raise e
     <-> path_exists w filename = true /\
         document_body h w filename = Raise e /\ is_Exception e = false)
  /\
  (forall r,
     serve_document h w filename = Ok r ->
     (status_of r = Some 200
      <-> path_exists w filename = true /\
          document_body h w filename = Ok r)).
Proof.
  unfold serve_document.
  destruct (path_exists w filename) eqn:Hex; cbn [negb].
  - pose proof (document_body_status h w filename) as Hstatus.
    destruct (document_body h w filename) as [r|e] eqn:Hbody.
    + specialize (Hstatus r eq_refl).
      split; [ | split; [ | split]].
      * split; [ | intros H; discriminate H].
        intros [m H]. injection H as ->. discriminate Hstatus.
      * split.
        -- intros [m H]. injection H as ->. discriminate Hstatus.
        -- intros [_ [e [H _]]]. discriminate H.
      * intros e. split; [intros H; discriminate H | ].
        intros [_ [H _]]. discriminate H.
      * intros r' [= <-]. split; auto.
    + destruct (is_Exception e) eqn:He.
      * split; [ | split; [ | split]].
        -- split; [ | intros H; discriminate H].
           intros [m H]. discriminate H.
        -- split; [intros _; split; [reflexivity | exists e; auto] | ].
           intros _. eexists. reflexivity.
        -- intros e'. split; [intros H; discriminate H | ].
           intros [_ [H H']]. injection H as <-. congruence.
        -- intros r [= <-]. split; [intros H; discriminate H | ].
           intros [_ H]. discriminate H.
      * split; [ | split; [ | split]].
        -- split; [ | intros H; discriminate H].
           intros [m H]. discriminate H.
        -- split; [intros [m H]; discriminate H | ].
           intros [_ [e' [H H']]]. injection H as <-. congruence.
        -- intros e'. split.
           ++ intros [= <-]. auto.
           ++ intros [_ [[= <-] _]]. reflexivity.
        -- intros r H. discriminate H.
  - split; [ | split; [ | split]].
    + split; [reflexivity | ]. intros _. eexists. reflexivity.
    + split; [intros [m H]; discriminate H | ].
      intros [H _]. discriminate H.
    + intros e. split; [intros H; discriminate H | ].
      intros [H _]. discriminate H.
    + intros r [= <-]. split; [intros H; discriminate H | ].
      intros [H _]. discriminate H.
Qed.

(** ** A sample handler and file system *)

Definition sample_handler : handler_class :=
  ProfessionalDocumentationHandler "<html>dashboard</html>"
    ("<title>", "</title><h1>", "</h1>", "</html>").

(** One markdown file and one text file exist; markdown conversion wraps the
    text in a paragraph. *)
Definition sample_world : world :=
  mk_world (fun target => target)
           (fun file => String.eqb file "Tank_Design_Analysis_Report.md"
                        || String.eqb file "notes.txt")
           (fun file => Ok ("text of " ++ file)%string)
           (fun _ content => Ok ("<p>" ++ content ++ "</p>")%string).

Lemma do_GET_routes_witness :
  do_GET sample_handler sample_world "/index.html"
  = Ok (Response 200 (html_headers sample_handler)
          (dashboard_html sample_handler))
  /\
  (exists front doc_name,
     "/document/Tank_Design_Analysis_Report.md"
     = (front ++ "/" ++ doc_name)%string /\
     contains_char "/" doc_name = false /\
     do_GET sample_handler sample_world
            "/document/Tank_Design_Analysis_Report.md"
     = serve_document sample_handler sample_world doc_name)
  /\
  do_GET sample_handler sample_world "/Tank_Design_Analysis_Report.md"
  = Ok Delegated.
Proof.
  split; [ | split].
  - apply (proj1 (do_GET_routes sample_handler sample_world "/index.html")).
    right. reflexivity.
  - apply (proj1 (proj2 (do_GET_routes sample_handler sample_world
                           "/document/Tank_Design_Analysis_Report.md"))).
    reflexivity.
  - apply (proj2 (proj2 (do_GET_routes sample_handler sample_world
                           "/Tank_Design_Analysis_Report.md")));
      [discriminate | discriminate | reflexivity].
Defined.

Lemma serve_document_page_witness :
  serve_document sample_handler sample_world "Tank_Design_Analysis_Report.md"
  = Ok (Response 200
          [("Content-type", "text/html; charset=utf-8");
           ("Access-Control-Allow-Origin", "*")]
          "<title>Tank Design Analysis Report</title><h1>Tank Design Analysis Report</h1><p>text of Tank_Design_Analysis_Report.md</p></html>")
  /\
  serve_document sample_handler sample_world "notes.txt"
  = Ok (Response 200
          [("Content-type", "text/html; charset=utf-8");
           ("Access-Control-Allow-Origin", "*")]
          "<title>notes.txt</title><h1>notes.txt</h1><pre>text of notes.txt</pre></html>").
Proof.
  split.
  - exact (proj1 (serve_document_page sample_handler sample_world
                    "Tank_Design_Analysis_Report.md"
                    "text of Tank_Design_Analysis_Report.md"
                    eq_refl eq_refl)
                 eq_refl "<p>text of Tank_Design_Analysis_Report.md</p>"
                 eq_refl).
  - exact (proj1 (proj2 (serve_document_page sample_handler sample_world
                           "notes.txt" "text of notes.txt" eq_refl eq_refl))
                 eq_refl).
Defined.

Lemma serve_document_errors_witness :
  (exists message,
     serve_document sample_handler sample_world "missing.md"
     = Ok (SendError 404 message))
  /\
  forall r,
    serve_document sample_handler sample_world "notes.txt" = Ok r ->
    status_of r = Some 200.
Proof.
  split.
  - apply (proj1 (serve_document_errors sample_handler sample_world
                    "missing.md")).
    reflexivity.
  - intros r Hr.
    apply (proj2 (proj2 (proj2 (serve_document_errors sample_handler
                                  sample_world "notes.txt"))) r Hr).
    split; [reflexivity | ].
    vm_compute in Hr. injection Hr as <-. reflexivity.
Defined.

End DocServerFacts.

(* ================================================================== *)
(** * Properties of the entry points *)
(* ================================================================== *)

Module EntryPointsFacts.

Local Open Scope string_scope.
Local Open Scope list_scope.

Import EntryPoints.
Local Open Scope Z_scope.

(** C7 as it is worded: no entry point starts a thread of its own. *)
Definition no_thread_of_its_own : Prop :=
  (forall interrupted, threads_started (start_server interrupted) = []) /\
  (forall port interrupted, threads_started (main port interrupted) = []).

Lemma browser_thread_counterexample : ~ no_thread_of_its_own.
Proof.
  intros [H _]. specialize (H false). vm_compute in H. discriminate H.
Qed.

Lemma threads_started_app a b :
  threads_started (a ++ b) = threads_started a ++ threads_started b.
Proof.
  induction a as [|x a IH]; simpl; [reflexivity | ].
  destruct x; simpl; rewrite IH; reflexivity.
Qed.

(** C7, as the code has it.  [documentation_server.start_server] starts one
    thread of its own, a daemon that sleeps two seconds and opens the
    browser; [main.main] starts none; of the eight modules only
    documentation_server imports a module for running code concurrently. *)
Theorem threads_of_the_entry_points :
  (forall interrupted,
     threads_started (start_server interrupted) = [(true, open_browser)]) /\
  (forall port interrupted, threads_started (main port interrupted) = []) /\
  map (fun module => (fst module, uses_concurrency (snd module))) imports
  = [("documentation_server", true); ("final_step_generator", false);
     ("main", false); ("professional_tank_design_system", false);
     ("simple_pdf_generator", false); ("simple_step_generator", false);
     ("tank_design_generator", false); ("working_step_generator", false)].
Proof.
  split; [ | split].
  - intros [|]; reflexivity.
  - intros port [|]; reflexivity.
  - reflexivity.
Qed.

End EntryPointsFacts.

(* ================================================================== *)
(** * The size of a quotient and of a product *)
(* ================================================================== *)

Module F64Magnitude.

Import F64 F64Facts.
Local Open Scope Z_scope.

Section Magnitude.

Variables p e : Z.
Hypothesis Hp : 0 < p.
Hypothesis He : 2 <= e.

Lemma shr_1_half mrs : 0 <= shr_m mrs -> shr_m (shr_1 mrs) = shr_m mrs / 2.
Proof.
  destruct mrs as [m r s]; simpl.
  destruct m as [|q|q]; simpl; try lia; [reflexivity | ].
  intros _. rewrite <- Z.div2_div. destruct q; reflexivity.
Qed.

Lemma pow2_xI n : 2 ^ Z.pos n~1 = 2 * (2 ^ Z.pos n * 2 ^ Z.pos n).
Proof.
  replace (Z.pos n~1) with (1 + (Z.pos n + Z.pos n)) by lia.
  rewrite !Z.pow_add_r by lia. reflexivity.
Qed.

Lemma pow2_xO n : 2 ^ Z.pos n~0 = 2 ^ Z.pos n * 2 ^ Z.pos n.
Proof.
  replace (Z.pos n~0) with (Z.pos n + Z.pos n) by lia.
  rewrite Z.pow_add_r by lia. reflexivity.
Qed.

Lemma iter_shr_1_div n : forall mrs,
  0 <= shr_m mrs -> shr_m (iter_pos shr_1 n mrs) = shr_m mrs / 2 ^ Z.pos n.
Proof.
  induction n as [n IH|n IH|]; intros mrs H; simpl iter_pos.
  - pose proof (shr_1_nonneg mrs H) as H1.
    pose proof (iter_shr_1_nonneg n _ H1) as H2.
    assert (Hpos : 0 < 2 ^ Z.pos n) by (apply Z.pow_pos_nonneg; lia).
    rewrite (IH _ H2), (IH _ H1), (shr_1_half _ H), pow2_xI.
    rewrite !Z.div_div by lia. reflexivity.
  - pose proof (iter_shr_1_nonneg n _ H) as H2.
    assert (Hpos : 0 < 2 ^ Z.pos n) by (apply Z.pow_pos_nonneg; lia).
    rewrite (IH _ H2), (IH _ H), pow2_xO.
    rewrite !Z.div_div by lia. reflexivity.
  - rewrite (shr_1_half _ H). reflexivity.
Qed.

(** The number of digits of a positive integer. *)
Lemma Zdigits2_spec q :
  2 ^ (Zdigits2 (Z.pos q) - 1) <= Z.pos q < 2 ^ Zdigits2 (Z.pos q).
Proof.
  cbn [Zdigits2]. rewrite digits2_pos_size.
  pose proof (Pos.size_le q) as Hle. pose proof (Pos.size_gt q) as Hgt.
  apply Pos2Z.pos_le_pos in Hle. apply Pos2Z.pos_lt_pos in Hgt.
  rewrite Pos2Z.inj_pow in Hle, Hgt.
  change (Z.pos q~0) with (2 * Z.pos q) in Hle.
  replace (Z.pos (Pos.size q)) with (Z.pos (Pos.size q) - 1 + 1) in Hle by lia.
  rewrite Z.pow_add_r in Hle by lia. change (2 ^ 1) with 2 in Hle.
  change (Z.pos 2) with 2 in *. lia.
Qed.

Lemma Zdigits2_unique m k :
  0 < k -> 2 ^ (k - 1) <= m < 2 ^ k -> Zdigits2 m = k.
Proof.
  intros Hk [Hlo Hhi].
  assert (Hm : 0 < m).
  { assert (0 < 2 ^ (k - 1)) by (apply Z.pow_pos_nonneg; lia). lia. }
  destruct m as [|q|q]; try lia.
  pose proof (Zdigits2_spec q) as [Hlo' Hhi'].
  assert (Hd : 0 < Zdigits2 (Z.pos q)) by (cbn; lia).
  assert (H1 : 2 ^ (k - 1) < 2 ^ Zdigits2 (Z.pos q)) by lia.
  assert (H2 : 2 ^ (Zdigits2 (Z.pos q) - 1) < 2 ^ k) by lia.
  apply Z.pow_lt_mono_r_iff in H1; [ | lia | lia].
  apply Z.pow_lt_mono_r_iff in H2; [ | lia | lia].
  lia.
Qed.

Lemma fexp_mono a b : a <= b -> fexp p e a <= fexp p e b.
Proof. unfold fexp. lia. Qed.

(** After [shr_fexp] on a mantissa that has digits to spare, the exponent is
    the one [fexp] asks for and the magnitude is kept. *)
Lemma shr_fexp_spec m ex l :
  0 < m ->
  ex <= fexp p e (Zdigits2 m + ex) ->
  SpecFloat.emin p e < Zdigits2 m + ex ->
  let '(mrs, e') := shr_fexp p e m ex l in
  e' = fexp p e (Zdigits2 m + ex) /\ 0 < shr_m mrs /\
  Zdigits2 (shr_m mrs) + e' = Zdigits2 m + ex.
Proof.
  intros Hm Hex Hmin. unfold shr_fexp, shr.
  pose proof (shr_record_of_loc_m m l) as Hrec.
  destruct (fexp p e (Zdigits2 m + ex) - ex) as [|n|n] eqn:Hn; try lia.
  - rewrite Hrec. lia.
  - rewrite iter_shr_1_div by (rewrite Hrec; lia). rewrite Hrec.
    destruct m as [|q|q]; try lia.
    pose proof (Zdigits2_spec q) as [Hlo Hhi].
    set (d := Zdigits2 (Z.pos q)) in *.
    assert (Hnd : Z.pos n < d) by (unfold fexp in Hn; lia).
    assert (Hpn : 0 < 2 ^ Z.pos n) by (apply Z.pow_pos_nonneg; lia).
    assert (Hq : 2 ^ (d - Z.pos n - 1) <= Z.pos q / 2 ^ Z.pos n
                 < 2 ^ (d - Z.pos n)).
    { split.
      - apply Z.div_le_lower_bound; [lia | ].
        rewrite <- Z.pow_add_r by lia.
        replace (Z.pos n + (d - Z.pos n - 1)) with (d - 1) by lia. exact Hlo.
      - apply Z.div_lt_upper_bound; [lia | ].
        rewrite <- Z.pow_add_r by lia.
        replace (Z.pos n + (d - Z.pos n)) with d by lia. exact Hhi. }
    assert (Hpos : 0 < 2 ^ (d - Z.pos n - 1)) by (apply Z.pow_pos_nonneg; lia).
    rewrite (Zdigits2_unique _ (d - Z.pos n)) by (try lia; exact Hq).
    lia.
Qed.

Lemma round_nearest_even_range m l :
  m <= round_nearest_even m l <= m + 1.
Proof.
  destruct l as [|[ | | ]]; simpl; try lia. destruct (Z.even m); lia.
Qed.

Lemma Zdigits2_pos m : 0 < m -> 0 < Zdigits2 m.
Proof. destruct m; cbn; lia. Qed.

Lemma Zdigits2_mono a b : 0 < a -> a <= b -> Zdigits2 a <= Zdigits2 b.
Proof.
  intros Ha Hab. destruct a as [|qa|qa], b as [|qb|qb]; try lia.
  pose proof (Zdigits2_spec qa) as [Hlo _].
  pose proof (Zdigits2_spec qb) as [_ Hhi].
  assert (H : 2 ^ (Zdigits2 (Z.pos qa) - 1) < 2 ^ Zdigits2 (Z.pos qb)) by lia.
  apply Z.pow_lt_mono_r_iff in H; [lia | lia | cbn; lia].
Qed.

Lemma Zdigits2_succ m : 0 < m -> Zdigits2 (m + 1) <= Zdigits2 m + 1.
Proof.
  intros Hm. destruct m as [|q|q]; try lia.
  pose proof (Zdigits2_spec q) as [_ Hhi].
  pose proof (Zdigits2_pos (Z.pos q) Hm) as Hd.
  apply Zdigits2_bound; [lia | ].
  rewrite Z.pow_add_r by lia. lia.
Qed.

(** Rounding a positive mantissa that has digits to spare, at a magnitude
    within the range of the format, gives a finite number in canonical form
    whose magnitude is the given one or the next. *)
Lemma binary_round_aux_normal s m ex l :
  0 < m ->
  ex <= fexp p e (Zdigits2 m + ex) ->
  SpecFloat.emin p e < Zdigits2 m + ex ->
  Zdigits2 m + ex < e ->
  exists m3 e3,
    binary_round_aux p e s m ex l = S754_finite s m3 e3 /\
    e3 = fexp p e (Zdigits2 (Z.pos m3) + e3) /\
    Zdigits2 m + ex <= Zdigits2 (Z.pos m3) + e3 <= Zdigits2 m + ex + 1.
Proof.
  intros Hm Hex Hmin Hmax. unfold binary_round_aux.
  pose proof (shr_fexp_spec m ex l Hm Hex Hmin) as H1.
  destruct (shr_fexp p e m ex l) as [mrs' e'].
  destruct H1 as [He' [Hm1 Hmu1]].
  set (m2 := round_nearest_even (shr_m mrs') (loc_of_shr_record mrs')).
  pose proof (round_nearest_even_range (shr_m mrs') (loc_of_shr_record mrs'))
    as Hr. fold m2 in Hr.
  assert (Hm2 : 0 < m2) by lia.
  assert (Hd2 : Zdigits2 (shr_m mrs') <= Zdigits2 m2 <= Zdigits2 (shr_m mrs') + 1).
  { split.
    - apply Zdigits2_mono; lia.
    - etransitivity; [ | apply Zdigits2_succ; exact Hm1].
      apply Zdigits2_mono; lia. }
  assert (Hex2 : e' <= fexp p e (Zdigits2 m2 + e')).
  { rewrite He' at 1. apply fexp_mono. lia. }
  pose proof (shr_fexp_spec m2 e' loc_Exact Hm2 Hex2 ltac:(lia)) as H2.
  destruct (shr_fexp p e m2 e' loc_Exact) as [mrs'' e''].
  destruct H2 as [He'' [Hm3 Hmu3]].
  destruct (shr_m mrs'') as [|m3|m3] eqn:E3; try lia.
  assert (Hle : (e'' <=? e - p) = true).
  { apply Z.leb_le. rewrite He''. unfold fexp, SpecFloat.emin. lia. }
  rewrite Hle. exists m3, e''. split; [reflexivity | ].
  split; [ | lia].
  rewrite Hmu3. exact He''.
Qed.

(** The quotient that the division hands to the rounding. *)
Lemma div_core_normal mx ex my ey :
  SpecFloat.emin p e + p
    <= Zdigits2 (Z.pos mx) + ex - (Zdigits2 (Z.pos my) + ey) ->
  let '(q, e', l) := SFdiv_core_binary p e (Z.pos mx) ex (Z.pos my) ey in
  0 < q /\ e' <= fexp p e (Zdigits2 q + e') /\
  Zdigits2 (Z.pos mx) + ex - (Zdigits2 (Z.pos my) + ey) <= Zdigits2 q + e'
    <= Zdigits2 (Z.pos mx) + ex - (Zdigits2 (Z.pos my) + ey) + 1.
Proof.
  intros Hmu. unfold SFdiv_core_binary.
  pose proof (Zdigits2_spec mx) as [Hxlo Hxhi].
  pose proof (Zdigits2_spec my) as [Hylo Hyhi].
  set (dx := Zdigits2 (Z.pos mx)) in *. set (dy := Zdigits2 (Z.pos my)) in *.
  assert (Hdx : 0 < dx) by (subst dx; cbn; lia).
  assert (Hdy : 0 < dy) by (subst dy; cbn; lia).
  set (e' := Z.min (fexp p e (dx + ex - (dy + ey))) (ex - ey)).
  set (s := ex - ey - e').
  assert (Hfexp : fexp p e (dx + ex - (dy + ey)) = dx + ex - (dy + ey) - p)
    by (unfold fexp; lia).
  assert (Hs : p + dy - dx <= s /\ 0 <= s) by (subst s e'; lia).
  set (m' := match s with Z0 => Z.pos mx | Z.pos _ => Z.shiftl (Z.pos mx) s
                     | Z.neg _ => 0 end).
  assert (Hm' : m' = Z.pos mx * 2 ^ s).
  { subst m'. destruct s as [|n|n] eqn:Es; try lia.
    rewrite Z.shiftl_mul_pow2 by lia. reflexivity. }
  pose proof (Z_div_mod m' (Z.pos my) ltac:(lia)) as Hd.
  pose proof (Z.div_eucl_eq m' (Z.pos my) ltac:(lia)) as Hdiv.
  assert (Hq : fst (Z.div_eucl m' (Z.pos my)) = m' / Z.pos my) by reflexivity.
  destruct (Z.div_eucl m' (Z.pos my)) as [q r]. cbn [fst] in Hq. subst q.
  clear Hd Hdiv.
  set (k := dx + s - dy).
  assert (Hk : 0 < k) by (subst k; lia).
  assert (Hps : 0 < 2 ^ s) by (apply Z.pow_pos_nonneg; lia).
  assert (Hq : 2 ^ (k - 1) <= m' / Z.pos my < 2 ^ (k + 1)).
  { split.
    - apply Z.div_le_lower_bound; [lia | ].
      apply Z.le_trans with (2 ^ dy * 2 ^ (k - 1)).
      + apply Z.mul_le_mono_nonneg_r; [apply Z.pow_nonneg; lia | lia].
      + rewrite <- Z.pow_add_r by lia.
        replace (dy + (k - 1)) with (dx - 1 + s) by (subst k; lia).
        rewrite Z.pow_add_r by lia. rewrite Hm'.
        apply Z.mul_le_mono_nonneg_r; lia.
    - apply Z.div_lt_upper_bound; [lia | ].
      apply Z.lt_le_trans with (2 ^ (dy - 1) * 2 ^ (k + 1)).
      + rewrite <- Z.pow_add_r by lia.
        replace (dy - 1 + (k + 1)) with (dx + s) by (subst k; lia).
        rewrite Z.pow_add_r by lia. rewrite Hm'.
        apply Z.mul_lt_mono_pos_r; lia.
      + apply Z.mul_le_mono_nonneg_r; [apply Z.pow_nonneg; lia | lia]. }
  assert (Hqpos : 0 < m' / Z.pos my).
  { assert (0 < 2 ^ (k - 1)) by (apply Z.pow_pos_nonneg; lia). lia. }
  assert (Hdq : k <= Zdigits2 (m' / Z.pos my) <= k + 1).
  { split.
    - destruct (m' / Z.pos my) as [|q|q] eqn:Eq; try lia.
      pose proof (Zdigits2_spec q) as [_ Hhi].
      assert (H : 2 ^ (k - 1) < 2 ^ Zdigits2 (Z.pos q)) by lia.
      apply Z.pow_lt_mono_r_iff in H; [lia | lia | cbn; lia].
    - apply Zdigits2_bound; lia. }
  split; [exact Hqpos | ].
  assert (Hse : s + e' = ex - ey) by (subst s; lia).
  split.
  - apply Z.le_trans with (fexp p e (dx + ex - (dy + ey))); [subst e'; lia | ].
    apply fexp_mono. subst k. lia.
  - subst k. lia.
Qed.

End Magnitude.

(** ** Finite numbers of a known sign and magnitude *)

(** [x] is finite, of sign [s], and [2 ^ (lo - 1) <= |x| < 2 ^ hi]. *)
Definition finite_in (s : bool) (lo hi : Z) (x : float) : Prop :=
  exists m ex, x = S754_finite s m ex /\ lo <= Zdigits2 (Z.pos m) + ex <= hi.

(** Moreover the mantissa of [x] has all its 53 digits. *)
Definition normal_in (s : bool) (lo hi : Z) (x : float) : Prop :=
  exists m ex, x = S754_finite s m ex /\ Zdigits2 (Z.pos m) = prec /\
               lo <= prec + ex <= hi.

Lemma normal_finite s lo hi x : normal_in s lo hi x -> finite_in s lo hi x.
Proof. intros [m [ex [-> [Hd H]]]]. exists m, ex. rewrite Hd. auto. Qed.

Lemma normal_weaken s lo hi lo' hi' x :
  lo' <= lo -> hi <= hi' -> normal_in s lo hi x -> normal_in s lo' hi' x.
Proof.
  intros Hlo Hhi [m [ex [-> [Hd H]]]]. exists m, ex. repeat split; auto; lia.
Qed.

Lemma fdiv_normal sx sy lox hix loy hiy x y :
  finite_in sx lox hix x -> finite_in sy loy hiy y ->
  -1021 <= lox - hiy -> hix - loy + 1 < 1024 ->
  normal_in (xorb sx sy) (lox - hiy) (hix - loy + 2) (fdiv x y).
Proof.
  intros [mx [ex [-> Hx]]] [my [ey [-> Hy]]] Hlo Hhi.
  unfold fdiv, SFdiv.
  pose proof (div_core_normal prec emax eq_refl mx ex my ey) as Hcore.
  destruct (SFdiv_core_binary prec emax (Z.pos mx) ex (Z.pos my) ey)
    as [[q e'] l].
  destruct Hcore as [Hq [He' Hmu]]; [unfold SpecFloat.emin, prec, emax; lia | ].
  destruct (binary_round_aux_normal prec emax eq_refl ltac:(unfold emax; lia)
              (xorb sx sy) q e' l Hq He')
    as [m3 [e3 [-> [Hc Hmu3]]]];
    [unfold SpecFloat.emin, prec, emax; lia | unfold emax; lia | ].
  exists m3, e3. split; [reflexivity | ].
  unfold fexp, SpecFloat.emin, prec, emax in Hc. unfold prec. lia.
Qed.

Lemma fmul_normal sx sy lox hix loy hiy x y :
  normal_in sx lox hix x -> normal_in sy loy hiy y ->
  -1021 <= lox + loy - 1 -> hix + hiy < 1024 ->
  normal_in (xorb sx sy) (lox + loy - 1) (hix + hiy + 1) (fmul x y).
Proof.
  intros [mx [ex [-> [Hdx Hx]]]] [my [ey [-> [Hdy Hy]]]] Hlo Hhi.
  unfold fmul, SFmul.
  pose proof (Zdigits2_spec mx) as [Hxlo Hxhi].
  pose proof (Zdigits2_spec my) as [Hylo Hyhi].
  rewrite Hdx in Hxlo, Hxhi. rewrite Hdy in Hylo, Hyhi.
  assert (Hprod : 2 ^ (2 * prec - 1 - 1) <= Z.pos (mx * my) < 2 ^ (2 * prec)).
  { rewrite Pos2Z.inj_mul. unfold prec in *.
    change (2 ^ (2 * 53 - 1 - 1)) with (2 ^ (53 - 1) * 2 ^ (53 - 1)).
    change (2 ^ (2 * 53)) with (2 ^ 53 * 2 ^ 53).
    assert (0 < 2 ^ (53 - 1)) by reflexivity.
    split; [apply Z.mul_le_mono_nonneg; lia | apply Z.mul_lt_mono_nonneg; lia]. }
  assert (Hd : 2 * prec - 1 <= Zdigits2 (Z.pos (mx * my)) <= 2 * prec).
  { split.
    - pose proof (Zdigits2_spec (mx * my)) as [_ Hhi'].
      assert (H : 2 ^ (2 * prec - 1 - 1) < 2 ^ Zdigits2 (Z.pos (mx * my))) by lia.
      apply Z.pow_lt_mono_r_iff in H; [lia | lia | cbn; lia].
    - apply Zdigits2_bound; [unfold prec; lia | lia]. }
  destruct (binary_round_aux_normal prec emax eq_refl ltac:(unfold emax; lia)
              (xorb sx sy) (Z.pos (mx * my)) (ex + ey) loc_Exact)
    as [m3 [e3 [-> [Hc Hmu3]]]];
    try (unfold fexp, SpecFloat.emin, prec, emax in *; lia).
  exists m3, e3. split; [reflexivity | ].
  unfold fexp, SpecFloat.emin, prec, emax in *. lia.
Qed.

End F64Magnitude.

(* ================================================================== *)
(** * The capacities for which the designer is constructed *)
(* ================================================================== *)

Module ConstructorDomain.

Import F64 PyNum F64Facts PyNumFacts TankDesign TankDesignFacts F64Magnitude.
Local Open Scope string_scope.
Local Open Scope list_scope.
Local Open Scope Z_scope.

(** A capacity of sign [s] whose size is between [2 ^ -1000] and
    [2 ^ 1000]: an int, or a finite float. *)
Definition sized (s : bool) (c : num) : Prop :=
  match c with
  | Int z => if s then - 2 ^ 1000 < z < 0 else 0 < z < 2 ^ 1000
  | Flt x => finite_in s (-999) 1000 x
  | Cplx _ => False
  end.

Lemma raw_of_Z_sized (s : bool) (z : Z) :
  (if s then - 2 ^ 1000 < z < 0 else 0 < z < 2 ^ 1000) ->
  finite_in s 1 1000 (raw_of_Z z).
Proof.
  intros H.
  assert (Hd : forall q, Z.pos q < 2 ^ 1000 ->
                         1 <= Zdigits2 (Z.pos q) + 0 <= 1000).
  { intros q Hq. split; [cbn; lia | ].
    rewrite Z.add_0_r. apply Zdigits2_bound; lia. }
  destruct s, z as [|q|q]; try lia; exists q, 0; (split; [reflexivity | ]);
    apply Hd; lia.
Qed.

Lemma normal_1000 : normal_in false 10 10 (of_Z 1000).
Proof.
  unfold normal_in. eexists _, _.
  split; [vm_compute; reflexivity | ].
  split; [vm_compute; reflexivity | unfold prec; lia].
Qed.

Lemma normal_2 : normal_in false 2 2 (of_Z 2).
Proof.
  unfold normal_in. eexists _, _.
  split; [vm_compute; reflexivity | ].
  split; [vm_compute; reflexivity | unfold prec; lia].
Qed.

Lemma normal_pi : normal_in false 2 2 (pi).
Proof.
  unfold normal_in. eexists _, _.
  split; [vm_compute; reflexivity | ].
  split; [vm_compute; reflexivity | unfold prec; lia].
Qed.

Lemma normal_not_inf s lo hi x : normal_in s lo hi x -> is_inf x = false.
Proof. intros [m [ex [-> _]]]. reflexivity. Qed.

(** The base of the power in the diameter formula, for a sized capacity. *)
Lemma base_of_sized s c :
  sized s c ->
  exists q b,
    py_truediv c (Int 1000) = Ok (Flt q) /\
    py_mul (Flt q) (Int 2) = Ok (Flt (fmul q (of_Z 2))) /\
    py_truediv (Flt (fmul q (of_Z 2))) (Flt pi) = Ok (Flt b) /\
    normal_in s (-1013) 1000 b.
Proof.
  intros Hc.
  assert (Hq : exists q, py_truediv c (Int 1000) = Ok (Flt q) /\
                         normal_in s (-1009) 992 q).
  { destruct c as [z|x|z]; [ | | destruct Hc].
    - pose proof (raw_of_Z_sized s z Hc) as Hz.
      assert (Hn : normal_in (xorb s false) (1 - 10) (1000 - 10 + 2)
                     (fdiv (raw_of_Z z) (raw_of_Z 1000))).
      { apply fdiv_normal with (lox := 1) (hix := 1000) (loy := 10) (hiy := 10);
          try lia; [exact Hz | ].
        exists 1000%positive, 0. split; [reflexivity | ]. vm_compute.
        split; congruence. }
      rewrite xorb_false_r in Hn.
      exists (fdiv (raw_of_Z z) (raw_of_Z 1000)). split.
      + cbn [py_truediv]. unfold int_true_divide.
        change (1000 =? 0)%Z with false. cbv iota.
        rewrite (normal_not_inf _ _ _ _ Hn). reflexivity.
      + eapply normal_weaken; [ | | exact Hn]; lia.
    - exists (fdiv x (of_Z 1000)). split.
      + apply py_truediv_FI; reflexivity.
      + pose proof (fdiv_normal s false (-999) 1000 10 10 x (of_Z 1000) Hc
                      (normal_finite _ _ _ _ normal_1000)
                      ltac:(lia) ltac:(lia)) as Hn.
        rewrite xorb_false_r in Hn.
        eapply normal_weaken; [ | | exact Hn]; lia. }
  destruct Hq as [q [Hq Hn]].
  exists q, (fdiv (fmul q (of_Z 2)) pi).
  split; [exact Hq | ]. split; [apply py_mul_FI; reflexivity | ].
  split; [apply py_truediv_FF; reflexivity | ].
  pose proof (fmul_normal s false (-1009) 992 2 2 q (of_Z 2) Hn normal_2
                ltac:(lia) ltac:(lia)) as Hm.
  rewrite xorb_false_r in Hm.
  pose proof (fdiv_normal s false (-1009 + 2 - 1) (992 + 2 + 1) 2 2 _ pi
                (normal_finite _ _ _ _ Hm)
                (normal_finite _ _ _ _ normal_pi) ltac:(lia) ltac:(lia)) as Hb.
  rewrite xorb_false_r in Hb.
  eapply normal_weaken; [ | | exact Hb]; lia.
Qed.


(** ** The power *)

(** With a negative finite base the power 1/3 is left to the complex
    power. *)
Lemma float_pow_negative L m ex :
  float_pow L (S754_finite true m ex) f_third
  = bind (complex_pow L (mk_complex (S754_finite true m ex) pzero)
                        (mk_complex f_third pzero))
         (fun q => Ok (Cplx q)).
Proof. reflexivity. Qed.

(** C's [pow] reports no range error for the exponent 1/3 on a positive
    float of the format. *)
Definition pow_third_in_range (L : libm) : Prop :=
  forall x, valid_binary prec emax x = true ->
            is_finite_nonzero x = true -> sign_bit x = false ->
            snd (libm_pow L x f_third) = false /\
            is_inf (fst (libm_pow L x f_third)) = false.

Lemma normal_valid s lo hi x :
  -1021 <= lo -> hi <= 1024 -> normal_in s lo hi x ->
  valid_binary prec emax x = true.
Proof.
  intros Hlo Hhi [m [ex [-> [Hd H]]]].
  unfold valid_binary, bounded, canonical_mantissa.
  cbn [Zdigits2] in Hd. rewrite Hd.
  apply andb_true_intro. split.
  - apply Z.eqb_eq. unfold fexp, SpecFloat.emin, prec, emax in *. lia.
  - apply Z.leb_le. unfold prec, emax in *. lia.
Qed.

Lemma float_pow_positive L lo hi b :
  -1021 <= lo -> hi <= 1024 -> normal_in false lo hi b ->
  pow_third_in_range L ->
  exists r, float_pow L b f_third = Ok (Flt r).
Proof.
  intros Hlo Hhi Hb Hpow.
  pose proof (normal_valid _ _ _ _ Hlo Hhi Hb) as Hv.
  destruct Hb as [m [ex [-> _]]].
  destruct (Hpow (S754_finite false m ex) Hv eq_refl eq_refl) as [Herr Hinf].
  unfold float_pow.
  change (is_zero f_third) with false.
  change (is_nan (S754_finite false m ex)) with false.
  change (is_nan f_third) with false.
  change (is_inf f_third) with false.
  change (is_inf (S754_finite false m ex)) with false.
  change (is_zero (S754_finite false m ex)) with false.
  change (fltb (S754_finite false m ex) pzero) with false.
  cbn [andb negb fabs SFabs]. cbv iota.
  destruct (feqb (S754_finite false m ex) one); [eauto | ].
  destruct (libm_pow L (S754_finite false m ex) f_third) as [ix errno].
  cbn [fst snd] in Herr, Hinf. subst errno. rewrite Hinf. eauto.
Qed.

(** ** The range test *)

Lemma py_between_sized_negative c :
  sized true c -> py_between (Int 8000) c (Int 12000) = Ok false.
Proof.
  destruct c as [z|x|z]; [ | | intros []].
  - intros H. rewrite py_between_int.
    assert (E : (8000 <=? z) = false) by (apply Z.leb_gt; cbn in H; lia).
    rewrite E. reflexivity.
  - intros [m [ex [-> _]]].
    unfold py_between, py_le. cbn [compare_num compare_Z_float bind].
    destruct (0 <=? ex) eqn:E.
    + assert (H : (8000 ?= Z.neg m * 2 ^ ex) = Gt).
      { apply Z.compare_gt_iff. apply Z.leb_le in E.
        pose proof (Z.pow_pos_nonneg 2 ex ltac:(lia) E). nia. }
      rewrite H. reflexivity.
    + assert (H : (8000 * 2 ^ (- ex) ?= Z.neg m) = Gt).
      { apply Z.compare_gt_iff. apply Z.leb_gt in E.
        pose proof (Z.pow_pos_nonneg 2 (- ex) ltac:(lia) ltac:(lia)). nia. }
      rewrite H. reflexivity.
Qed.

Lemma py_between_real c :
  (exists z, c = Int z) \/ (exists x, c = Flt x) ->
  exists b, py_between (Int 8000) c (Int 12000) = Ok b.
Proof.
  intros [[z ->]|[x ->]].
  - rewrite py_between_int. eauto.
  - unfold py_between, py_le. cbn [compare_num bind].
    destruct (compare_Z_float 8000 x) as [[ | | ]|]; cbn [bind]; eauto;
      destruct (option_map CompOpp (compare_Z_float 12000 x)) as [[ | | ]|];
      eauto.
Qed.

(** ** The constructor on a diameter that is computed *)

Lemma py_max_complex_type z b :
  exists e, py_max (Cplx z) (Flt b) = Raise e /\ exn_cls e = TypeError.
Proof. eexists. split; reflexivity. Qed.

Lemma shell_block_complex_type (s : obj) z :
  lookup "tank_diameter" s = Some (ANum (Cplx z)) ->
  lookup "design_pressure" s = Some (ANum (Flt f_2_5)) ->
  lookup "material_properties" s = Some (ADict material_properties) ->
  exists e, shell_thickness_block s = (s, Raise e) /\ exn_cls e = TypeError.
Proof.
  intros Hd Hp Hm. unfold shell_thickness_block. run_M.
  rewrite Hp, Hd, Hm.
  change (lookup "yield_strength" material_properties) with (Some (Int 300)).
  cbv beta iota.
  rewrite !py_mul_FF.
  destruct (@complex_truediv_I z 2 eq_refl) as [q1 ->]. cbv beta iota.
  destruct (@complex_truediv_I q1 1000 eq_refl) as [q2 ->]. cbv beta iota.
  change (py_mul (Flt (fmul f_2_5 f_0_00689476)) (Cplx q2))
    with (Ok (Cplx (c_prod (mk_complex (fmul f_2_5 f_0_00689476) pzero) q2))).
  cbv beta iota.
  set (q3 := c_prod (mk_complex (fmul f_2_5 f_0_00689476) pzero) q2).
  change (py_mul (Cplx q3) (Int 1000))
    with (Ok (Cplx (c_prod q3 (mk_complex (of_Z 1000) pzero)))).
  cbv beta iota.
  set (q4 := c_prod q3 (mk_complex (of_Z 1000) pzero)).
  rewrite (@py_mul_IF 300) by reflexivity. cbv beta iota.
  rewrite !py_mul_FF. cbv beta iota. rewrite py_sub_FF. cbv beta iota.
  destruct (@complex_truediv_F q4
              (fsub (fmul (fmul (of_Z 300) f_0_4) f_0_85)
                    (fmul f_0_6 (fmul f_2_5 f_0_00689476))) eq_refl) as [q5 ->].
  cbv beta iota.
  change (py_add (Cplx q5) (Flt f_1_5))
    with (Ok (Cplx (c_sum q5 (mk_complex f_1_5 pzero)))).
  cbv beta iota.
  destruct (py_max_complex_type (c_sum q5 (mk_complex f_1_5 pzero)) f_6)
    as [e [-> He]].
  exists e. split; [reflexivity | exact He].
Qed.

Lemma tank_proportions_raises L s c e :
  lookup "capacity_liters" s = Some (ANum c) ->
  py_between (Int 8000) c (Int 12000) = Ok false ->
  diameter_formula L c = Raise e ->
  tank_proportions L s = (s, Raise e).
Proof.
  intros Hc Hb Hd. unfold tank_proportions. run_M.
  rewrite Hc. cbv beta iota. rewrite Hb. cbv beta iota. rewrite Hc.
  unfold diameter_formula in Hd. revert Hd.
  destruct (py_truediv c (Int 1000)) as [v|];
    [ | intros [= ->]; reflexivity]. cbn [bind].
  destruct (py_mul v (Int 2)) as [v2|];
    [ | intros [= ->]; reflexivity]. cbn [bind].
  destruct (py_truediv v2 (Flt pi)) as [b|];
    [ | intros [= ->]; reflexivity]. cbn [bind].
  destruct (py_truediv (Int 1) (Int 3)) as [t|];
    [ | intros [= ->]; reflexivity]. cbn [bind].
  destruct (py_pow L b t) as [r|];
    [ | intros [= ->]; reflexivity]. cbn [bind].
  intros ->. reflexivity.
Qed.

Lemma construction_float_diameter L c m3 d :
  py_truediv c (Int 1000) = Ok m3 ->
  py_between (Int 8000) c (Int 12000) = Ok false ->
  diameter_formula L c = Ok (Flt d) ->
  exists self, ProfessionalTankDesigner L c = (self, Ok tt).
Proof.
  intros Hm3 Hb Hd.
  rewrite init_unfold, Hm3.
  unfold _calculate_optimal_dimensions.
  unfold bindM at 1. unfold bindM at 1.
  rewrite (tank_proportions_computed L (prelude c m3) c (Flt d)
             (Flt (fmul (of_Z 2) d)) eq_refl Hb Hd
             (py_mul_IF 2 d eq_refl)).
  unfold bindM at 1.
  erewrite shell_block_float by reflexivity.
  erewrite dished_block_float by reflexivity.
  destruct (specifications_run c m3 c (Flt d) (fmul (of_Z 2) d)
              (Flt (float_max (calculated_thickness d) f_6))
              (Flt (float_max f_60 (fmul d f_0_06))) (Flt d))
    as [self [Hrun _]].
  exists self. exact Hrun.
Qed.

Lemma construction_complex_diameter L c m3 z :
  py_truediv c (Int 1000) = Ok m3 ->
  py_between (Int 8000) c (Int 12000) = Ok false ->
  diameter_formula L c = Ok (Cplx z) ->
  exists self e, ProfessionalTankDesigner L c = (self, Raise e) /\
                 exn_cls e = TypeError.
Proof.
  intros Hm3 Hb Hd.
  rewrite init_unfold, Hm3.
  unfold _calculate_optimal_dimensions.
  unfold bindM at 1. unfold bindM at 1.
  rewrite (tank_proportions_computed L (prelude c m3) c (Cplx z)
             (Cplx (c_prod (mk_complex (of_Z 2) pzero) z)) eq_refl Hb Hd
             eq_refl).
  unfold bindM at 1.
  destruct (@shell_block_complex_type
              (("actual_capacity", ANum c)
                 :: ("tank_length",
                     ANum (Cplx (c_prod (mk_complex (of_Z 2) pzero) z)))
                 :: ("tank_diameter", ANum (Cplx z)) :: prelude c m3)
              z eq_refl eq_refl eq_refl) as [e [He Hcls]].
  rewrite He. eauto.
Qed.

Lemma construction_diameter_raises L c m3 e :
  py_truediv c (Int 1000) = Ok m3 ->
  py_between (Int 8000) c (Int 12000) = Ok false ->
  diameter_formula L c = Raise e ->
  exists self, ProfessionalTankDesigner L c = (self, Raise e).
Proof.
  intros Hm3 Hb Hd.
  rewrite init_unfold, Hm3.
  unfold _calculate_optimal_dimensions.
  unfold bindM at 1. unfold bindM at 1.
  rewrite (tank_proportions_raises L (prelude c m3) c e eq_refl Hb Hd).
  eauto.
Qed.

(** The diameter formula once the base of the power is known. *)
Lemma diameter_formula_base L c q b :
  py_truediv c (Int 1000) = Ok (Flt q) ->
  py_mul (Flt q) (Int 2) = Ok (Flt (fmul q (of_Z 2))) ->
  py_truediv (Flt (fmul q (of_Z 2))) (Flt pi) = Ok (Flt b) ->
  diameter_formula L c
  = bind (float_pow L b f_third) (fun root => py_mul root (Int 1000)).
Proof.
  intros H1 H2 H3. unfold diameter_formula.
  rewrite H1. cbn [bind]. rewrite H2. cbn [bind]. rewrite H3. cbn [bind].
  rewrite third_value. reflexivity.
Qed.

(** ** The capacities that the constructor accepts *)

Import SampleLibm SampleLibmFacts.

(** X2.  The constructor completes for every capacity that is zero or
    positive: for 0, for 0.0 and -0.0, for a positive int below [2 ^ 1000] and
    for a positive float between [2 ^ -1000] and [2 ^ 1000], given that C's
    [pow] reports no range error for the exponent 1/3. *)
Theorem nonnegative_capacity_constructs L c :
  pow_third_in_range L ->
  c = Int 0 \/ (exists s, c = Flt (S754_zero s)) \/ sized false c ->
  exists self, ProfessionalTankDesigner L c = (self, Ok tt).
Proof.
  intros Hpow Hc.
  assert (Hreal : (exists z, c = Int z) \/ (exists x, c = Flt x)).
  { destruct Hc as [->|[[s ->]|Hc]]; eauto.
    destruct c as [z|x|z]; eauto. destruct Hc. }
  destruct (py_between_real c Hreal) as [[|] Hb];
    [exact (standard_construction L c Hb) | ].
  assert (Hd : exists m3 d, py_truediv c (Int 1000) = Ok m3 /\
                            diameter_formula L c = Ok (Flt d)).
  { destruct Hc as [->|[[s ->]|Hc]].
    - eexists _, _. split; reflexivity.
    - destruct s; eexists _, _; split; reflexivity.
    - destruct (base_of_sized false c Hc) as [q [b [H1 [H2 [H3 Hn]]]]].
      destruct (float_pow_positive L (-1013) 1000 b ltac:(lia) ltac:(lia)
                  Hn Hpow) as [r Hr].
      exists (Flt q), (fmul r (of_Z 1000)). split; [exact H1 | ].
      rewrite (diameter_formula_base L c q b H1 H2 H3), Hr. reflexivity. }
  destruct Hd as [m3 [d [Hm3 Hd]]].
  exact (construction_float_diameter L c m3 d Hm3 Hb Hd).
Qed.

(** X3.  The constructor raises for every negative capacity, an int above
    [- 2 ^ 1000] or a float between [- 2 ^ 1000] and [- 2 ^ -1000]: the power
    1/3 of the negative base is complex, and the exception is the TypeError of
    [max(calculated_thickness, minimum_thickness)] on a complex number, unless
    the complex power itself raised. *)
Theorem negative_capacity_raises L c :
  sized true c ->
  exists self e,
    ProfessionalTankDesigner L c = (self, Raise e) /\
    (exn_cls e = TypeError \/ exists a b, complex_pow L a b = Raise e).
Proof.
  intros Hc.
  pose proof (py_between_sized_negative c Hc) as Hb.
  destruct (base_of_sized true c Hc) as [q [b [H1 [H2 [H3 Hn]]]]].
  pose proof (diameter_formula_base L c q b H1 H2 H3) as Hd.
  destruct Hn as [m [ex [-> _]]].
  rewrite float_pow_negative in Hd.
  destruct (complex_pow L (mk_complex (S754_finite true m ex) pzero)
                          (mk_complex f_third pzero)) as [z|e] eqn:Hz.
  - cbn [bind] in Hd.
    change (py_mul (Cplx z) (Int 1000))
      with (Ok (Cplx (c_prod z (mk_complex (of_Z 1000) pzero)))) in Hd.
    destruct (construction_complex_diameter L c (Flt q) _ H1 Hb Hd)
      as [self [e [Hrun Hcls]]].
    exists self, e. auto.
  - cbn [bind] in Hd.
    destruct (construction_diameter_raises L c (Flt q) e H1 Hb Hd)
      as [self Hrun].
    exists self, e. split; [exact Hrun | ]. right. eauto.
Qed.

(** ** On the sample C library *)

Lemma icbrt_from_below bits : forall n root,
  icbrt_from bits n root < root + 2 ^ Z.of_nat bits.
Proof.
  induction bits as [|k IH]; intros n root.
  - simpl. lia.
  - cbn [icbrt_from]. rewrite Nat2Z.inj_succ, Z.pow_succ_r by lia.
    destruct (_ <=? n); pose proof (IH n root);
      pose proof (IH n (root + 2 ^ Z.of_nat k)); lia.
Qed.

Lemma libc_pow_third_in_range : pow_third_in_range libc.
Proof.
  intros x Hv Hx Hs. cbn [libm_pow libc]. unfold pow.
  change (feqb f_third f_2) with false. change (feqb f_third f_third) with true.
  cbn [fst snd]. split; [reflexivity | ].
  destruct x as [| | |s m ex]; try discriminate Hx.
  cbn [sign_bit] in Hs. subst s.
  unfold valid_binary, bounded in Hv. apply andb_prop in Hv as [_ Hv].
  apply Z.leb_le in Hv. unfold cbrt.
  set (r := ex mod 3).
  assert (Hr : 0 <= r < 3) by (apply Z.mod_pos_bound; lia).
  assert (Hq : (ex - r) / 3 <= 324).
  { apply Z.div_le_upper_bound; unfold prec, emax in Hv; lia. }
  apply binary_round_aux_finite with (D := 80) (B := 269);
    try (unfold prec, emax; lia).
  split.
  - apply icbrt_from_nonneg. lia.
  - pose proof (icbrt_from_below 80 (Z.pos m * 2 ^ r * 2 ^ 165) 0) as H.
    exact H.
Qed.

Lemma nonnegative_capacity_constructs_witness :
  exists self, ProfessionalTankDesigner libc (Int 20000) = (self, Ok tt).
Proof.
  apply (nonnegative_capacity_constructs libc (Int 20000)
           libc_pow_third_in_range).
  right. right. cbn. lia.
Defined.

Lemma negative_capacity_raises_witness :
  exists self e,
    ProfessionalTankDesigner libc (Int (-1000)) = (self, Raise e) /\
    (exn_cls e = TypeError \/ exists a b, complex_pow libc a b = Raise e).
Proof.
  apply (negative_capacity_raises libc (Int (-1000))). cbn. lia.
Defined.

End ConstructorDomain.

(* ================================================================== *)
(** * Properties of the report and of the STEP model *)
(* ================================================================== *)

Module TankReportFacts.

Import F64 PyNum F64Facts PyNumFacts TankDesign TankDesignFacts TankReport.
Local Open Scope string_scope.
Local Open Scope list_scope.
Local Open Scope Z_scope.

(** ** The thickness lines *)

Lemma float_max_idempotent a bound :
  SFcompare bound bound = Some Eq ->
  float_max (float_max a bound) bound = float_max a bound.
Proof.
  intros Hrefl. unfold float_max.
  destruct (SFcompare bound a) as [[ | | ]|] eqn:Hc; rewrite ?Hc, ?Hrefl;
    reflexivity.
Qed.

(** X1.  In the report of a constructed designer the Selected Thickness,
    [max(self.shell_thickness, 6.0)], is [self.shell_thickness] itself: the
    minimum was applied when the attribute was computed, and a NaN thickness
    stays NaN. *)
Theorem selected_thickness_is_shell_thickness L c self :
  ProfessionalTankDesigner L c = (self, Ok tt) ->
  exists t, attribute self "shell_thickness" = Some t /\
            selected_thickness self = (self, Ok t).
Proof.
  intros Hself.
  destruct (construction_ok L c self Hself) as [d [_ _ _ _ Hs _ _ _]].
  exists (Flt (float_max (calculated_thickness d) f_6)).
  split; [exact Hs | ].
  apply attribute_lookup in Hs.
  unfold selected_thickness. run_M. rewrite Hs. cbv beta iota.
  rewrite py_max_FF, float_max_idempotent by reflexivity. reflexivity.
Qed.


(** ** The profile of the dished ends *)

Ltac run_profile :=
  cbv beta iota zeta delta
    [bindM lift ret set_num setattr get_num getattr get_item].

Lemma for_each_grows {S} (body : Z -> S -> M S) (size : S -> nat) lo hi :
  (forall i acc s s' r, body i acc s = (s', Ok r) ->
     s' = s /\ (size acc + lo <= size r <= size acc + hi)%nat) ->
  forall l acc s s' r,
    for_each l body acc s = (s', Ok r) ->
    s' = s /\
    (size acc + lo * List.length l <= size r
       <= size acc + hi * List.length l)%nat.
Proof.
  intros Hbody. induction l as [|i rest IH]; intros acc s s' r H.
  - injection H as <- <-. cbn [List.length]. rewrite !Nat.mul_0_r.
    split; [reflexivity | lia].
  - cbn [for_each] in H. apply bindM_ok in H as [acc' [s1 [H1 H2]]].
    apply Hbody in H1 as [-> Hacc]. apply IH in H2 as [-> Hr].
    split; [reflexivity | ]. cbn [List.length]. rewrite !Nat.mul_succ_r. lia.
Qed.

Lemma crown_step_grows cos sin radius i points s s' r :
  crown_step cos sin radius i points s = (s', Ok r) ->
  s' = s /\
  (List.length points + 1 <= List.length r <= List.length points + 1)%nat.
Proof.
  unfold crown_step. run_profile.
  destruct (math_1 cos (radians i)) as [x|]; [ | discriminate]. cbv beta iota.
  destruct (py_mul radius (Flt x)); [ | discriminate]. cbv beta iota.
  destruct (py_mul radius (Flt f_0_2)); [ | discriminate]. cbv beta iota.
  destruct (math_1 sin (radians i)); [ | discriminate]. cbv beta iota.
  destruct (py_mul _ _); [ | discriminate]. cbv beta iota.
  intros [= <- <-]. split; [reflexivity | ]. rewrite length_app. simpl. lia.
Qed.

Lemma knuckle_step_grows cos sin radius center i points s s' r :
  knuckle_step cos sin radius center i points s = (s', Ok r) ->
  s' = s /\
  (List.length points + 0 <= List.length r <= List.length points + 1)%nat.
Proof.
  unfold knuckle_step. run_profile.
  destruct (lookup "knuckle_radius" s) as [[k| | ]|] eqn:Hk; cbv beta iota;
    try discriminate.
  destruct (math_1 cos (radians i)); [ | discriminate]. cbv beta iota.
  destruct (py_mul k _); [ | discriminate]. cbv beta iota.
  destruct (py_add _ _); [ | discriminate]. cbv beta iota.
  rewrite Hk. cbv beta iota.
  destruct (math_1 sin (radians i)); [ | discriminate]. cbv beta iota.
  destruct (py_mul k _); [ | discriminate]. cbv beta iota.
  destruct (py_le _ _) as [[|]|]; [ | | discriminate];
    intros [= <- <-]; (split; [reflexivity | ]); rewrite ?length_app;
    simpl; lia.
Qed.

Lemma every_length {A} : forall (l : list A) skip,
  (skip <= 4)%nat ->
  (5 * List.length (every 5 skip l) + skip <= List.length l + 4 /\
   List.length l <= 5 * List.length (every 5 skip l) + skip)%nat.
Proof.
  induction l as [|x l IH]; intros skip Hskip.
  - simpl. lia.
  - destruct skip as [|k].
    + cbn [every List.length Nat.sub]. destruct (IH 4%nat ltac:(lia)). lia.
    + cbn [every List.length]. destruct (IH k ltac:(lia)). lia.
Qed.

Lemma range_length n : List.length (range n) = n.
Proof. unfold range. rewrite length_map, length_seq. reflexivity. Qed.

(** When the code of the profile returns, the spline has been drawn. *)
Lemma spline_points_returned cos sin s s' r :
  spline_points cos sin s = (s', Ok r) ->
  s' = s /\ exists points, r = Some points /\
                           (18 <= List.length points <= 36)%nat.
Proof.
  unfold spline_points. intros H.
  apply bindM_ok in H as [d [s1 [H1 H]]].
  assert (E1 : s1 = s).
  { revert H1. unfold get_num, getattr. run_profile.
    destruct (lookup "tank_diameter" s) as [[n| | ]|]; try discriminate;
      intros [= <- _]; reflexivity. }
  subst s1. clear H1.
  apply bindM_ok in H as [radius [s1 [H1 H]]].
  injection H1 as <- _.
  apply bindM_ok in H as [points1 [s1 [H1 H]]].
  apply (for_each_grows (crown_step cos sin radius) (@List.length point) 1 1)
    in H1 as [-> Hlen1];
    [ | intros; eapply crown_step_grows; eassumption].
  rewrite range_length in Hlen1. cbn [List.length] in Hlen1.
  apply bindM_ok in H as [k [s1 [H1 H]]].
  assert (E1 : s1 = s).
  { revert H1. unfold get_num, getattr. run_profile.
    destruct (lookup "knuckle_radius" s) as [[n| | ]|]; try discriminate;
      intros [= <- _]; reflexivity. }
  subst s1. clear H1.
  apply bindM_ok in H as [center [s1 [H1 H]]].
  injection H1 as <- _.
  apply bindM_ok in H as [points2 [s1 [H1 H]]].
  apply (for_each_grows (knuckle_step cos sin radius center)
           (@List.length point) 0 1)
    in H1 as [-> Hlen2];
    [ | intros; eapply knuckle_step_grows; eassumption].
  rewrite range_length in Hlen2.
  assert (Hlt : Nat.ltb 3 (List.length points2) = true)
    by (apply Nat.ltb_lt; lia).
  rewrite Hlt in H. injection H as <- <-.
  split; [reflexivity | ]. eexists. split; [reflexivity | ].
  destruct (every_length points2 0%nat ltac:(lia)). lia.
Qed.

(** [cos] and [sin] give a number for a number. *)
Definition regular (f : float -> float) : Prop :=
  forall x, is_nan x = false -> is_inf x = false ->
            is_nan (f x) = false /\ is_inf (f x) = false.

Lemma angles_finite :
  forallb (fun i => negb (is_nan (radians i)) && negb (is_inf (radians i)))
          (range 90) = true.
Proof. vm_compute. reflexivity. Qed.

Lemma math_1_regular f i :
  regular f -> In i (range 90) -> math_1 f (radians i) = Ok (f (radians i)).
Proof.
  intros Hf Hi.
  pose proof (proj1 (forallb_forall _ _) angles_finite i Hi) as Ha.
  cbv beta in Ha. apply andb_prop in Ha as [Hn Hinf].
  apply negb_true_iff in Hn, Hinf.
  destruct (Hf (radians i) Hn Hinf) as [Hrn Hri].
  unfold math_1. rewrite Hrn, Hri. reflexivity.
Qed.

Lemma for_each_runs {S} (body : Z -> S -> M S) s :
  forall l,
    (forall i acc, In i l -> exists acc', body i acc s = (s, Ok acc')) ->
    forall acc, exists r, for_each l body acc s = (s, Ok r).
Proof.
  induction l as [|i rest IH]; intros Hbody acc.
  - eexists. reflexivity.
  - destruct (Hbody i acc (or_introl eq_refl)) as [acc' Hacc].
    destruct (IH (fun j a Hj => Hbody j a (or_intror Hj)) acc') as [r Hr].
    exists r. cbn [for_each]. unfold bindM. rewrite Hacc. exact Hr.
Qed.

Lemma spline_points_runs cos sin s d k :
  regular cos -> regular sin ->
  lookup "tank_diameter" s = Some (ANum (Flt d)) ->
  lookup "knuckle_radius" s = Some (ANum (Flt k)) ->
  exists r, spline_points cos sin s = (s, Ok r).
Proof.
  intros Hcos Hsin Hd Hk.
  set (radius := Flt (fdiv d (of_Z 2))).
  destruct (for_each_runs (crown_step cos sin radius) s (range 90)) with (acc := @nil point)
    as [points1 H1].
  { intros i acc Hi. unfold crown_step. run_profile.
    rewrite (math_1_regular cos i Hcos Hi), (math_1_regular sin i Hsin Hi).
    subst radius. eexists. reflexivity. }
  set (center := Flt (fsub (fdiv d (of_Z 2)) k)).
  destruct (for_each_runs (knuckle_step cos sin radius center) s (range 90))
    with (acc := points1) as [points2 H2].
  { intros i acc Hi. unfold knuckle_step. run_profile.
    rewrite Hk. cbv beta iota.
    rewrite (math_1_regular cos i Hcos Hi), (math_1_regular sin i Hsin Hi).
    subst radius center.
    rewrite py_mul_FF. cbv beta iota. rewrite py_add_FF. cbv beta iota.
    rewrite Hk. cbv beta iota. rewrite py_mul_FF. cbv beta iota.
    unfold py_le. cbn [compare_num bind].
    eexists. reflexivity. }
  unfold spline_points. 
  unfold bindM at 1. unfold get_num at 1. unfold bindM at 1.
  unfold getattr at 1. rewrite Hd. cbv beta iota. unfold ret at 1.
  unfold bindM at 1. unfold lift at 1.
  rewrite (py_truediv_FI d 2) by reflexivity. fold radius.
  unfold bindM at 1. rewrite H1.
  unfold bindM at 1. unfold get_num at 1. unfold bindM at 1.
  unfold getattr at 1. rewrite Hk. cbv beta iota. unfold ret at 1.
  unfold bindM at 1. unfold lift at 1. subst radius. rewrite py_sub_FF.
  fold center. unfold bindM at 1.
  rewrite H2.
  destruct (Nat.ltb 3 (List.length points2)); eexists; reflexivity.
Qed.

(** X6.  The profile of the dished ends in [create_professional_step_file]
    always draws its spline: whenever the code returns, [len(points) > 3]
    held and [Spline] got between 18 and 36 points, and [self] is unchanged;
    on a constructed designer the code returns when [cos] and [sin] give
    numbers for numbers. *)
Theorem spline_is_always_drawn cos sin :
  (forall s s' r,
     spline_points cos sin s = (s', Ok r) ->
     s' = s /\ exists points, r = Some points /\
                              (18 <= List.length points <= 36)%nat)
  /\
  (regular cos -> regular sin ->
   forall L c self,
     ProfessionalTankDesigner L c = (self, Ok tt) ->
     exists points,
       spline_points cos sin self = (self, Ok (Some points)) /\
       (18 <= List.length points <= 36)%nat).
Proof.
  split; [apply spline_points_returned | ].
  intros Hcos Hsin L c self Hself.
  destruct (construction_ok L c self Hself) as [d [_ _ _ Hd _ Hk _ _]].
  apply attribute_lookup in Hd, Hk.
  destruct (spline_points_runs cos sin self d _ Hcos Hsin Hd Hk) as [r Hr].
  destruct (spline_points_returned cos sin self self r Hr)
    as [_ [points [-> Hlen]]].
  exists points. auto.
Qed.


(** ** The component table *)

(** The object when [_generate_component_specifications] is called. *)
Definition dimensioned (c m3 a : num) (x y : float) : obj :=
  ("crown_radius", ANum (Flt x))
    :: ("knuckle_radius", ANum (Flt (float_max f_60 (fmul x f_0_06))))
    :: ("shell_thickness", ANum (Flt (float_max (calculated_thickness x) f_6)))
    :: ("actual_capacity", ANum a) :: ("tank_length", ANum (Flt y))
    :: ("tank_diameter", ANum (Flt x)) :: prelude c m3.

Lemma construction_state L c self :
  ProfessionalTankDesigner L c = (self, Ok tt) ->
  exists m3 a x y, specifications (dimensioned c m3 a x y) = (self, Ok tt).
Proof.
  rewrite init_unfold.
  destruct (py_truediv c (Int 1000)) as [m3|e] eqn:Hm3; [ | discriminate].
  intros H. apply bindM_ok in H as [[] [s3 [Hcalc Hspec]]].
  unfold _calculate_optimal_dimensions in Hcalc.
  apply bindM_ok in Hcalc as [[] [s1 [H1 Hcalc]]].
  apply bindM_ok in Hcalc as [[] [s2 [H2 H3]]].
  apply tank_proportions_ok with (c := c) in H1; [ | reflexivity].
  assert (Hshape : exists d l a,
             s1 = ("actual_capacity", ANum a) :: ("tank_length", ANum l)
                    :: ("tank_diameter", ANum d) :: prelude c m3 /\
             shape False d /\ py_mul (Int 2) d = Ok l \/
             s1 = ("actual_capacity", ANum (Int 9000))
                    :: ("tank_length", ANum (Flt f_3680))
                    :: ("tank_diameter", ANum (Flt f_1870)) :: prelude c m3).
  { destruct H1 as [[Hb ->]|[Hb [d [l [Hd [Hl ->]]]]]].
    - exists (Flt f_1870), (Flt f_3680), (Int 9000). right. reflexivity.
    - exists d, l, c. left. split; [reflexivity | ]. split; [ | exact Hl].
      eapply diameter_formula_shape; [ | | exact Hd]; intros []. }
  destruct Hshape as [d [l [a [[-> [Hd Hl]]| ->]]]].
  - destruct d as [z|x|z]; [destruct Hd | | ].
    + rewrite py_mul_IF in Hl by reflexivity. injection Hl as <-.
      erewrite shell_block_float in H2 by reflexivity. injection H2 as <-.
      erewrite dished_block_float in H3 by reflexivity. injection H3 as <-.
      exists m3, a, x, (fmul (of_Z 2) x). exact Hspec.
    + destruct (@shell_block_complex
                  (("actual_capacity", ANum a) :: ("tank_length", ANum l)
                     :: ("tank_diameter", ANum (Cplx z)) :: prelude c m3)
                  z eq_refl eq_refl eq_refl) as [e He].
      rewrite He in H2. discriminate H2.
  - erewrite shell_block_float in H2 by reflexivity. injection H2 as <-.
    erewrite dished_block_float in H3 by reflexivity. injection H3 as <-.
    exists m3, (Int 9000), f_1870, f_3680. exact Hspec.
Qed.

(** The nine names of [self.components], in the order of the dict. *)
Definition component_names : list string :=
  ["shell"; "dished_ends"; "manhole"; "support_saddles"; "lifting_lugs";
   "fill_nozzle"; "vent_nozzle"; "outlet_nozzle"; "drain_nozzle"].

(** The components that are computed from the attributes repeat them. *)
Definition repeats_attributes (self : obj) (d : num) (l : float) (t k : num)
  : Prop :=
  exists shell ends saddles lugs,
    map fst (components_of self) = component_names /\
    lookup "shell" (components_of self) = Some shell /\
    thickness shell = t /\
    dimensions shell
    = [("diameter", DNum d); ("length", DNum (Flt l)); ("thickness", DNum t)] /\
    lookup "dished_ends" (components_of self) = Some ends /\
    thickness ends = t /\
    dimensions ends
    = [("diameter", DNum d); ("knuckle_radius", DNum k);
       ("crown_radius", DNum d); ("thickness", DNum t)] /\
    lookup "support_saddles" (components_of self) = Some saddles /\
    lookup "position_from_center" (dimensions saddles)
    = Some (DNum (Flt (fmul l f_0_29))) /\
    lookup "lifting_lugs" (components_of self) = Some lugs /\
    lookup "spacing" (dimensions lugs) = Some (DNum (Flt (fmul l f_0_67))).

Lemma specifications_components c m3 a x y self :
  specifications (dimensioned c m3 a x y) = (self, Ok tt) ->
  repeats_attributes self (Flt x) y
    (Flt (float_max (calculated_thickness x) f_6))
    (Flt (float_max f_60 (fmul x f_0_06))).
Proof.
  intros H.
  assert (E : self = fst (specifications (dimensioned c m3 a x y)))
    by (rewrite H; reflexivity).
  subst self. clear H. unfold repeats_attributes.
  eexists _, _, _, _.
  repeat split; cbv -[fmul float_max calculated_thickness]; reflexivity.
Qed.

(** X13.  After a construction that completes, the component table repeats
    the attributes: the nine components are there in the order of the source;
    the shell and the dished ends carry [shell_thickness] as their thickness
    and in their dimensions, with the diameter, the length, the knuckle
    radius and the diameter again as crown radius; the saddles are placed at
    [0.29 * tank_length] and the lifting lugs are [0.67 * tank_length]
    apart. *)
Theorem components_repeat_attributes L c self :
  ProfessionalTankDesigner L c = (self, Ok tt) ->
  exists d l t k,
    attribute self "tank_diameter" = Some d /\
    attribute self "tank_length" = Some (Flt l) /\
    attribute self "shell_thickness" = Some t /\
    attribute self "knuckle_radius" = Some k /\
    repeats_attributes self d l t k.
Proof.
  intros Hself.
  destruct (construction_state L c self Hself) as [m3 [a [x [y Hspec]]]].
  assert (Hkeep : forall key, key <> "components" ->
            attribute self key = attribute (dimensioned c m3 a x y) key).
  { intros key Hkey.
    rewrite <- (specifications_keep key (dimensioned c m3 a x y) Hkey), Hspec.
    reflexivity. }
  exists (Flt x), y, (Flt (float_max (calculated_thickness x) f_6)),
         (Flt (float_max f_60 (fmul x f_0_06))).
  rewrite !Hkeep by discriminate.
  repeat (split; [reflexivity | ]).
  exact (specifications_components c m3 a x y self Hspec).
Qed.


(** X14.  On a constructed designer every subscript that
    [create_professional_step_file] evaluates on [self.components] finds a
    number: the components and dimensions that the method reads for the
    manhole, the saddles, the lifting lugs and the four nozzles are the ones
    that [_generate_component_specifications] wrote, so no KeyError arises
    from them, and [self] is not changed by the reading. *)
Theorem step_file_dimensions_are_present L c self :
  ProfessionalTankDesigner L c = (self, Ok tt) ->
  Forall (fun read => exists n,
            read_dimension (fst read) (snd read) self = (self, Ok n))
         (dimension_reads ++ nozzle_reads).
Proof.
  intros Hself.
  destruct (construction_state L c self Hself) as [m3 [a [x [y Hspec]]]].
  assert (E : self = fst (specifications (dimensioned c m3 a x y)))
    by (rewrite Hspec; reflexivity).
  assert (Hcs : exists cs, lookup "components" self = Some (AComponents cs) /\
                           cs = components_of self).
  { subst self. eexists. split; cbv -[fmul float_max calculated_thickness];
      reflexivity. }
  destruct Hcs as [cs [Hlook Hcs]].
  assert (Hread : forall component key n,
            match lookup component (components_of self) with
            | Some comp => lookup key (dimensions comp) = Some (DNum n)
            | None => False
            end ->
            read_dimension component key self = (self, Ok n)).
  { intros component key n H. unfold read_dimension. run_profile.
    rewrite Hlook. cbv beta iota. rewrite Hcs.
    destruct (lookup component (components_of self)) as [comp|]; [ | destruct H].
    rewrite H. reflexivity. }
  repeat (constructor;
          [eexists; apply Hread; subst self;
           cbv -[fmul float_max calculated_thickness]; reflexivity | ]).
  constructor.
Qed.


(** ** On the sample C library *)

Import SampleLibm TankDesignExamples.

(** The values of [cos] and [sin] at 0, taken everywhere. *)
Definition flat_cos (x : float) : float := one.
Definition flat_sin (x : float) : float := pzero.

Lemma selected_thickness_is_shell_thickness_witness :
  exists t, attribute designer_20000 "shell_thickness" = Some t /\
            selected_thickness designer_20000 = (designer_20000, Ok t).
Proof.
  apply (selected_thickness_is_shell_thickness libc (Int 20000)).
  vm_compute. reflexivity.
Defined.

Lemma spline_is_always_drawn_witness :
  exists points,
    spline_points flat_cos flat_sin designer_20000
    = (designer_20000, Ok (Some points)) /\
    (18 <= List.length points <= 36)%nat.
Proof.
  apply (proj2 (spline_is_always_drawn flat_cos flat_sin)
           (fun x _ _ => conj eq_refl eq_refl)
           (fun x _ _ => conj eq_refl eq_refl) libc (Int 20000)).
  vm_compute. reflexivity.
Defined.

Lemma components_repeat_attributes_witness :
  exists d l t k,
    attribute designer_20000 "tank_diameter" = Some d /\
    attribute designer_20000 "tank_length" = Some (Flt l) /\
    attribute designer_20000 "shell_thickness" = Some t /\
    attribute designer_20000 "knuckle_radius" = Some k /\
    repeats_attributes designer_20000 d l t k.
Proof.
  apply (components_repeat_attributes libc (Int 20000)).
  vm_compute. reflexivity.
Defined.

Lemma step_file_dimensions_are_present_witness :
  Forall (fun read => exists n,
            read_dimension (fst read) (snd read) designer_20000
            = (designer_20000, Ok n))
         (dimension_reads ++ nozzle_reads).
Proof.
  apply (step_file_dimensions_are_present libc (Int 20000)).
  vm_compute. reflexivity.
Defined.

End TankReportFacts.

(* ================================================================== *)
(** * Properties of the compliance matrix *)
(* ================================================================== *)

Module ComplianceFacts.

Import Compliance.
Local Open Scope string_scope.
Local Open Scope list_scope.

Lemma standard_eqb_eq a b : standard_eqb a b = true <-> a = b.
Proof. destruct a, b; split; intros H; try reflexivity; discriminate H. Qed.

Lemma standard_eqb_refl a : standard_eqb a a = true.
Proof. apply standard_eqb_eq. reflexivity. Qed.

Lemma members_complete s : In s members.
Proof. destruct s; simpl; tauto. Qed.

Lemma members_NoDup : NoDup members.
Proof.
  unfold members.
  repeat (constructor; [simpl; intros H; repeat destruct H as [H|H];
                        try discriminate H; exact H | ]).
  constructor.
Qed.

(** The rows of the sections are the requirements of the members, section by
    section. *)
Lemma sections_rows standards reqs :
  List.concat (map snd (sections standards reqs))
  = List.concat (map (standard_reqs reqs) standards).
Proof.
  induction standards as [|s rest IH]; [reflexivity | ].
  cbn [sections map List.concat].
  destruct (standard_reqs reqs s) as [|row rows] eqn:E.
  - rewrite IH. reflexivity.
  - cbn [map snd List.concat]. rewrite IH. reflexivity.
Qed.

Lemma has_requirement reqs s :
  existsb (fun req => standard_eqb (standard req) s) reqs
  = match standard_reqs reqs s with [] => false | _ => true end.
Proof.
  unfold standard_reqs. induction reqs as [|r reqs IH]; [reflexivity | ].
  cbn [existsb filter]. destruct (standard_eqb (standard r) s); [reflexivity | ].
  exact IH.
Qed.

Lemma sections_members standards reqs :
  map fst (sections standards reqs)
  = filter (fun s => existsb (fun req => standard_eqb (standard req) s) reqs)
           standards.
Proof.
  induction standards as [|s rest IH]; [reflexivity | ].
  cbn [sections filter]. rewrite has_requirement.
  destruct (standard_reqs reqs s); cbn [map fst]; rewrite IH; reflexivity.
Qed.

Lemma rows_without standards req reqs :
  ~ In (standard req) standards ->
  List.concat (map (standard_reqs (req :: reqs)) standards)
  = List.concat (map (standard_reqs reqs) standards).
Proof.
  induction standards as [|s rest IH]; intros Hnot; [reflexivity | ].
  cbn [map List.concat]. rewrite IH by (intros H; apply Hnot; right; exact H).
  f_equal. unfold standard_reqs. cbn [filter].
  destruct (standard_eqb (standard req) s) eqn:E; [ | reflexivity].
  apply standard_eqb_eq in E. exfalso. apply Hnot. left. auto.
Qed.

Lemma rows_with standards req reqs :
  NoDup standards -> In (standard req) standards ->
  Permutation (List.concat (map (standard_reqs (req :: reqs)) standards))
              (req :: List.concat (map (standard_reqs reqs) standards)).
Proof.
  induction standards as [|s rest IH]; intros Hnd Hin; [destruct Hin | ].
  inversion Hnd as [|? ? Hnot Hnd']; subst.
  cbn [map List.concat]. unfold standard_reqs at 1. cbn [filter].
  destruct (standard_eqb (standard req) s) eqn:E.
  - apply standard_eqb_eq in E. subst s.
    rewrite (rows_without rest req reqs Hnot). reflexivity.
  - destruct Hin as [Hin|Hin].
    + subst s. rewrite standard_eqb_refl in E. discriminate E.
    + fold (standard_reqs reqs s).
      rewrite (IH Hnd' Hin). symmetry. apply Permutation_middle.
Qed.

Lemma rows_permutation reqs :
  Permutation (List.concat (map (standard_reqs reqs) members)) reqs.
Proof.
  induction reqs as [|req reqs IH].
  - unfold standard_reqs. simpl. constructor.
  - rewrite (rows_with members req reqs members_NoDup (members_complete _)).
    constructor. exact IH.
Qed.

Lemma sections_sound standards reqs :
  Forall (fun section =>
            snd section <> [] /\
            Forall (fun req => standard req = fst section) (snd section))
         (sections standards reqs).
Proof.
  induction standards as [|s rest IH]; [constructor | ].
  cbn [sections].
  destruct (standard_reqs reqs s) as [|row rows] eqn:E; [exact IH | ].
  constructor; [ | exact IH]. cbn [fst snd]. split; [discriminate | ].
  rewrite <- E. unfold standard_reqs. apply Forall_forall.
  intros req Hreq. apply filter_In in Hreq as [_ Hreq].
  apply standard_eqb_eq. exact Hreq.
Qed.

(** X4.  The compliance matrix of the report lists every safety requirement
    exactly once, whatever the list of requirements: the rows of its sections
    are a rearrangement of the list; a section has at least one row and only
    rows of its own standard; and the sections are those of the standards
    that have a requirement, in the order of the enumeration. *)
Theorem matrix_lists_every_requirement_once reqs :
  Permutation (List.concat (map snd (sections members reqs))) reqs /\
  Forall (fun section =>
            snd section <> [] /\
            Forall (fun req => standard req = fst section) (snd section))
         (sections members reqs) /\
  map fst (sections members reqs)
  = filter (fun s => existsb (fun req => standard_eqb (standard req) s) reqs)
           members.
Proof.
  split; [ | split].
  - rewrite sections_rows. apply rows_permutation.
  - apply sections_sound.
  - apply sections_members.
Qed.

(** ** The number of standards *)

Lemma filter_length_ext {A} (f g : A -> bool) l :
  (forall x, In x l -> f x = g x) ->
  List.length (filter f l) = List.length (filter g l).
Proof.
  induction l as [|x l IH]; intros H; [reflexivity | ].
  cbn [filter]. rewrite (H x (or_introl eq_refl)).
  destruct (g x); cbn [List.length]; rewrite IH; auto;
    intros y Hy; apply H; right; exact Hy.
Qed.

(** A member occurs once among the members. *)
Lemma filter_split_one (P : SafetyStandard -> bool) s l :
  NoDup l -> In s l -> P s = false ->
  List.length (filter (fun x => standard_eqb x s || P x) l)
  = S (List.length (filter (fun x => negb (standard_eqb x s) && P x) l)).
Proof.
  induction l as [|x l IH]; intros Hnd Hin HP; [destruct Hin | ].
  inversion Hnd as [|? ? Hnot Hnd']; subst.
  cbn [filter]. destruct (standard_eqb x s) eqn:E.
  - apply standard_eqb_eq in E. subst x. cbn [orb negb andb List.length].
    f_equal. apply filter_length_ext. intros y Hy.
    destruct (standard_eqb y s) eqn:Ey; [ | reflexivity].
    apply standard_eqb_eq in Ey. subst y. contradiction.
  - cbn [orb negb andb]. destruct Hin as [->|Hin];
      [rewrite standard_eqb_refl in E; discriminate E | ].
    destruct (P x); cbn [List.length]; rewrite (IH Hnd' Hin HP); reflexivity.
Qed.

Lemma distinct_count seen l :
  distinct seen l
  = List.length
      (filter (fun s => existsb (standard_eqb s) l
                        && negb (existsb (standard_eqb s) seen))
              members).
Proof.
  revert seen. induction l as [|s l IH]; intros seen.
  - cbn [distinct existsb andb].
    induction members as [|x m IHm]; [reflexivity | exact IHm].
  - cbn [distinct]. destruct (existsb (standard_eqb s) seen) eqn:Es.
    + rewrite IH. apply filter_length_ext. intros x _.
      cbn [existsb]. destruct (standard_eqb x s) eqn:Ex; [ | reflexivity].
      apply standard_eqb_eq in Ex. subst x. rewrite Es.
      cbn [negb]. rewrite !andb_false_r. reflexivity.
    + rewrite IH.
      set (Q := fun x => negb (standard_eqb x s)
                         && (existsb (standard_eqb x) l
                             && negb (existsb (standard_eqb x) seen))).
      transitivity
        (S (List.length
              (filter (fun x => negb (standard_eqb x s) && Q x) members))).
      * f_equal. apply filter_length_ext. intros x _. subst Q.
        cbn [existsb]. cbv beta.
        destruct (standard_eqb x s), (existsb (standard_eqb x) l),
                 (existsb (standard_eqb x) seen); reflexivity.
      * rewrite <- (filter_split_one Q s members members_NoDup
                      (members_complete s))
          by (subst Q; cbv beta; rewrite standard_eqb_refl; reflexivity).
        apply filter_length_ext. intros x _. subst Q. cbn [existsb]. cbv beta.
        destruct (standard_eqb x s) eqn:Ex; [ | reflexivity].
        apply standard_eqb_eq in Ex. subst x. rewrite Es. reflexivity.
Qed.

(** X5.  The number that the report prints as Standards Coverage is the
    number of sections of the matrix below it, whatever the list of
    requirements. *)
Theorem standards_coverage_counts_sections reqs :
  standards_coverage reqs = List.length (sections members reqs).
Proof.
  unfold standards_coverage. rewrite distinct_count.
  rewrite <- (length_map fst (sections members reqs)), sections_members.
  apply filter_length_ext. intros s _. cbn [existsb negb].
  rewrite andb_true_r. induction reqs as [|r reqs IH]; [reflexivity | ].
  cbn [map existsb]. rewrite IH. f_equal.
  destruct (standard_eqb s (standard r)) eqn:E1,
           (standard_eqb (standard r) s) eqn:E2; try reflexivity.
  - apply standard_eqb_eq in E1. subst s. rewrite standard_eqb_refl in E2.
    discriminate E2.
  - apply standard_eqb_eq in E2. subst s. rewrite standard_eqb_refl in E1.
    discriminate E1.
Qed.


(** The table of the designer: seventeen requirements of six standards. *)
Example designer_requirements :
  List.length _generate_safety_requirements = 17%nat /\
  standards_coverage _generate_safety_requirements = 6%nat /\
  map fst (sections members _generate_safety_requirements)
  = [SANS_10131_2004; API_650; ISO_9001; SANS_1431; SANS_9956_3; SANS_9606_1].
Proof. repeat split; reflexivity. Qed.

End ComplianceFacts.

(* ================================================================== *)
(** * The file of the STEP export *)
(* ================================================================== *)

Module StepExportFile.

Import StepExport.
Local Open Scope string_scope.
Local Open Scope list_scope.












End StepExportFile.

(* ================================================================== *)
(** * Properties of the generator scripts *)
(* ================================================================== *)

Module StepScriptsFacts.

Import StepExport StepScripts.
Local Open Scope string_scope.
Local Open Scope list_scope.
Local Open Scope Z_scope.

(** ** Print statements and handlers *)

(** A sequence of print statements ends without an exception exactly when
    each of them does. *)
Lemma prints_ok print : forall count first,
  prints print first count = Ok tt <->
  forall line, first <= line < first + Z.of_nat count -> print line = Ok tt.
Proof.
  induction count as [|n IH]; intros first.
  - cbn [prints]. split; [intros _ line H; lia | reflexivity].
  - cbn [prints]. destruct (print first) as [[]|e] eqn:E; cbn [bind].
    + rewrite IH. split; intros H line Hl.
      * destruct (Z.eq_dec line first) as [->|Hne]; [exact E | ].
        apply H. lia.
      * apply H. lia.
    + split; [discriminate | ].
      intros H. rewrite H in E by lia. discriminate E.
Qed.

Lemma print_lines_ok print first last :
  print_lines print first last = Ok tt <->
  forall line, first <= line <= last -> print line = Ok tt.
Proof.
  unfold print_lines. rewrite prints_ok.
  split; intros H line Hl; apply H; lia.
Qed.

(** The exception of a sequence of print statements is the exception of one
    of them. *)
Lemma prints_raise print e : forall count first,
  prints print first count = Raise e ->
  exists line, first <= line < first + Z.of_nat count /\ print line = Raise e.
Proof.
  induction count as [|n IH]; intros first; [discriminate | ].
  cbn [prints]. destruct (print first) as [[]|e0] eqn:E; cbn [bind].
  - intros H. destruct (IH _ H) as [line [Hl Hp]]. exists line. split; [lia | exact Hp].
  - intros [= <-]. exists first. split; [lia | exact E].
Qed.

Lemma try_except_cases {A} (body : result A) handler :
  (forall a, try_except body handler = Ok a <->
     body = Ok a \/
     exists e, body = Raise e /\ is_Exception e = true /\ handler e = Ok a) /\
  (forall e, try_except body handler = Raise e <->
     (body = Raise e /\ is_Exception e = false) \/
     exists e0, body = Raise e0 /\ is_Exception e0 = true /\
                handler e0 = Raise e).
Proof.
  unfold try_except. destruct body as [a0|e0].
  - split; [intros a | intros e]; split.
    + auto.
    + intros [H|[e [H _]]]; [exact H | discriminate H].
    + discriminate.
    + intros [[H _]|[e1 [H _]]]; discriminate H.
  - destruct (is_Exception e0) eqn:He; split; [intros a | intros e | intros a | intros e]; split.
    + intros H. right. exists e0. auto.
    + intros [H|[e [[= <-] [_ H]]]]; [discriminate H | exact H].
    + intros H. right. exists e0. auto.
    + intros [[[= <-] H]|[e1 [[= <-] [_ H]]]]; [congruence | exact H].
    + discriminate.
    + intros [H|[e [[= <-] [H _]]]]; [discriminate H | congruence].
    + intros [= <-]. left. auto.
    + intros [[[= <-] _]|[e1 [[= <-] [H _]]]]; [reflexivity | congruence].
Qed.

(** ** [export_step_file] of final_step_generator.py *)

(** One of the three export methods succeeded. *)
Definition exported (w : StepExport.world) : bool :=
  succeeded (snd (first_method w)) || succeeded (snd (second_method w))
  || succeeded (snd (third_method w)).

Lemma export_step_file_result w :
  (snd (StepExport.export_step_file w) = Ok true <-> exported w = true) /\
  (snd (StepExport.export_step_file w) = Ok false <->
   exported w = false /\
   exists e, snd (third_method w) = Raise e /\ is_Exception e = true) /\
  (forall e, snd (StepExport.export_step_file w) = Raise e <->
   exported w = false /\ snd (third_method w) = Raise e /\
   is_Exception e = false).
Proof.
  unfold StepExport.export_step_file, exported.
  destruct (first_method w) as [calls1 [[]|e1]];
    destruct (second_method w) as [calls2 [[]|e2]];
    destruct (third_method w) as [calls3 [[]|e3]];
    try destruct (is_Exception e3) eqn:He3;
    cbn [fst snd succeeded orb];
    (split; [split; intros H | split; [split; intros H | intros e; split; intros H]]);
    repeat match goal with
      | H : _ /\ _ |- _ => destruct H
      | H : exists _, _ |- _ => destruct H
      | H : Ok _ = Ok _ |- _ => injection H as H
      | H : Raise _ = Raise _ |- _ => injection H as H
      end;
    subst; try discriminate; try congruence; auto.
  - split; [reflexivity | ]. exists e3. auto.
Qed.

Lemma final_export_result w :
  let third := snd (third_method (Final.export w)) in
  (Final.export_step_file w = Ok true <-> exported (Final.export w) = true) /\
  (Final.export_step_file w = Ok false <->
   exported (Final.export w) = false /\
   (exists e3, third = Raise e3 /\ is_Exception e3 = true) /\
   Final.print w 112 = Ok tt) /\
  (forall e, Final.export_step_file w = Raise e <->
   exported (Final.export w) = false /\
   ((third = Raise e /\ is_Exception e = false) \/
    ((exists e3, third = Raise e3 /\ is_Exception e3 = true) /\
     Final.print w 112 = Raise e))).
Proof.
  cbv zeta. unfold Final.export_step_file.
  pose proof (export_step_file_result (Final.export w)) as [Ht [Hf Hr]].
  destruct (snd (StepExport.export_step_file (Final.export w)))
    as [[|]|e0]; cbn [bind]; cbv iota.
  - pose proof (proj1 Ht eq_refl) as Hx. rewrite Hx.
    split; [tauto | ].
    split; [split; [discriminate | intros [H _]; discriminate H] | ].
    intros e. split; [discriminate | intros [H _]; discriminate H].
  - pose proof (proj1 Hf eq_refl) as [Hx H3]. rewrite Hx.
    destruct (Final.print w 112) as [[]|e1]; cbn [bind];
      (split; [split; discriminate | ]).
    + split; [tauto | ].
      intros e. split; [discriminate | ].
      intros [_ [[H He]|[_ H]]]; [ | discriminate H].
      destruct H3 as [e3 [H3 He3]]. congruence.
    + split; [split; [discriminate | intros [_ [_ H]]; discriminate H] | ].
      intros e. split.
      * intros [= <-]. split; [reflexivity | ]. right. auto.
      * intros [_ [[H He]|[_ H]]]; [ | congruence].
        destruct H3 as [e3 [H3 He3]]. congruence.
  - pose proof (proj1 (Hr e0) eq_refl) as [Hx [H3 He0]]. rewrite Hx.
    split; [split; discriminate | ].
    split; [split; [discriminate | ] | ].
    + intros [_ [[e3 [H3' He3]] _]]. congruence.
    + intros e. split.
      * intros [= <-]. split; [reflexivity | ]. left. auto.
      * intros [_ [[H He]|[[e3 [H3' He3]] _]]]; congruence.
Qed.

(** The try block of [final_step_generator.main] ends without an exception
    only with True. *)
Lemma final_generation_result w :
  (forall b, Final.generation w = Ok b <->
     b = true /\
     Final.create_professional_tank w = Ok tt /\ Final.print w 131 = Ok tt /\
     exported (Final.export w) = true /\
     print_lines (Final.print w) 137 169 = Ok tt) /\
  (forall e, Final.generation w = Raise e <->
     Final.create_professional_tank w = Raise e \/
     (Final.create_professional_tank w = Ok tt /\
      (Final.print w 131 = Raise e \/
       (Final.print w 131 = Ok tt /\
        (Final.export_step_file w = Raise e \/
         (Final.export_step_file w = Ok false /\
          e = mk_exn Exception "STEP export failed with all methods") \/
         (Final.export_step_file w = Ok true /\
          print_lines (Final.print w) 137 169 = Raise e)))))).
Proof.
  unfold Final.generation.
  pose proof (final_export_result w) as [Ht _]. cbv zeta in Ht.
  destruct (Final.create_professional_tank w) as [[]|e0]; cbn [bind].
  2:{ split; [intros b | intros e]; split; intros H.
      - discriminate H.
      - destruct H as [_ [H _]]. discriminate H.
      - left. injection H as <-. reflexivity.
      - destruct H as [H|[H _]]; [ | discriminate H].
        injection H as <-. reflexivity. }
  destruct (Final.print w 131) as [[]|e1]; cbn [bind].
  2:{ split; [intros b | intros e]; split; intros H.
      - discriminate H.
      - destruct H as [_ [_ [H _]]]. discriminate H.
      - right. split; [reflexivity | ]. left. injection H as <-. reflexivity.
      - destruct H as [H|[_ [H|[H _]]]]; try discriminate H.
        injection H as <-. reflexivity. }
  destruct (Final.export_step_file w) as [[|]|e2] eqn:Ex; cbn [bind]; cbv iota.
  - pose proof (proj1 Ht eq_refl) as Hx.
    destruct (print_lines (Final.print w) 137 169) as [[]|e3]; cbn [bind].
    + split; [intros b | intros e]; split; intros H.
      * injection H as <-. auto.
      * destruct H as [-> _]. reflexivity.
      * discriminate H.
      * destruct H as [H|[_ [H|[_ [H|[[H _]|[_ H]]]]]]]; discriminate H.
    + split; [intros b | intros e]; split; intros H.
      * discriminate H.
      * destruct H as [_ [_ [_ [_ H]]]]. discriminate H.
      * right. split; [reflexivity | ]. right. split; [reflexivity | ].
        right. right. split; [reflexivity | ].
        injection H as <-. reflexivity.
      * destruct H as [H|[_ [H|[_ [H|[[H _]|[_ H]]]]]]]; try discriminate H.
        injection H as <-. reflexivity.
  - assert (Hx : exported (Final.export w) <> true).
    { intros Hx. apply Ht in Hx. discriminate Hx. }
    unfold raise. split; [intros b | intros e]; split; intros H.
    + discriminate H.
    + destruct H as [_ [_ [_ [H _]]]]. contradiction.
    + injection H as <-. right. split; [reflexivity | ]. right.
      split; [reflexivity | ]. right. left. split; reflexivity.
    + destruct H as [H|[_ [H|[_ [H|[[_ H]|[H _]]]]]]]; try discriminate H.
      subst e. reflexivity.
  - assert (Hx : exported (Final.export w) <> true).
    { intros Hx. apply Ht in Hx. discriminate Hx. }
    split; [intros b | intros e]; split; intros H.
    + discriminate H.
    + destruct H as [_ [_ [_ [H _]]]]. contradiction.
    + right. split; [reflexivity | ]. right. split; [reflexivity | ].
      left. exact H.
    + destruct H as [H|[_ [H|[_ [H|[[H _]|[H _]]]]]]]; try discriminate H.
      exact H.
Qed.

(** X7.  [final_step_generator.main] returns True exactly when its heading
    was printed, the tank was created, the export was announced, one of the
    three export methods succeeded and the report of success was printed; it
    returns False exactly when the heading was printed, the try block raised
    an exception that derives from Exception and the five lines of the
    handler were printed.  The try block raises the exception of the
    creation, of one of its print statements, of [export_step_file] (the one
    of its third method when that does not derive from Exception, or the one
    of the message of its handler), or the Exception that [main] raises
    itself when [export_step_file] returned False.  An exception that leaves
    [main] is the one of a print statement of the heading or of the handler,
    or it was raised in the try block and does not derive from Exception. *)
Theorem final_main_result w :
  (Final.main w = Ok true <->
   print_lines (Final.print w) 118 123 = Ok tt /\
   Final.create_professional_tank w = Ok tt /\ Final.print w 131 = Ok tt /\
   exported (Final.export w) = true /\
   print_lines (Final.print w) 137 169 = Ok tt)
  /\
  (Final.main w = Ok false <->
   print_lines (Final.print w) 118 123 = Ok tt /\
   (exists e, Final.generation w = Raise e /\ is_Exception e = true) /\
   print_lines (Final.print w) 175 179 = Ok tt)
  /\
  (forall e, Final.generation w = Raise e <->
     Final.create_professional_tank w = Raise e \/
     (Final.create_professional_tank w = Ok tt /\
      (Final.print w 131 = Raise e \/
       (Final.print w 131 = Ok tt /\
        (Final.export_step_file w = Raise e \/
         (Final.export_step_file w = Ok false /\
          e = mk_exn Exception "STEP export failed with all methods") \/
         (Final.export_step_file w = Ok true /\
          print_lines (Final.print w) 137 169 = Raise e))))))
  /\
  (let third := snd (third_method (Final.export w)) in
   (Final.export_step_file w = Ok true <-> exported (Final.export w) = true) /\
   (Final.export_step_file w = Ok false <->
    exported (Final.export w) = false /\
    (exists e3, third = Raise e3 /\ is_Exception e3 = true) /\
    Final.print w 112 = Ok tt) /\
   (forall e, Final.export_step_file w = Raise e <->
    exported (Final.export w) = false /\
    ((third = Raise e /\ is_Exception e = false) \/
     ((exists e3, third = Raise e3 /\ is_Exception e3 = true) /\
      Final.print w 112 = Raise e))))
  /\
  (forall e, Final.main w = Raise e ->
     print_lines (Final.print w) 118 123 = Raise e \/
     print_lines (Final.print w) 175 179 = Raise e \/
     (Final.generation w = Raise e /\ is_Exception e = false)).
Proof.
  pose proof (final_generation_result w) as [Hok Hraise].
  split; [ | split; [ | split; [exact Hraise | split;
                                  [exact (final_export_result w) | ]]]].
  - unfold Final.main.
    destruct (print_lines (Final.print w) 118 123) as [[]|e0]; cbn [bind].
    2:{ split; [discriminate | intros [H _]; discriminate H]. }
    rewrite (proj1 (try_except_cases _ _) true). split.
    + intros [H|[e [_ [_ H]]]].
      * apply Hok in H. tauto.
      * destruct (print_lines (Final.print w) 175 179); discriminate H.
    + intros [_ H]. left. apply Hok. tauto.
  - unfold Final.main.
    destruct (print_lines (Final.print w) 118 123) as [[]|e0]; cbn [bind].
    2:{ split; [discriminate | intros [H _]; discriminate H]. }
    rewrite (proj1 (try_except_cases _ _) false). split.
    + intros [H|[e [Hg [He H]]]].
      * apply Hok in H. destruct H as [H _]. discriminate H.
      * split; [reflexivity | ]. split; [eauto | ].
        destruct (print_lines (Final.print w) 175 179) as [[]|];
          [reflexivity | discriminate H].
    + intros [_ [[e [Hg He]] Ha]]. right. exists e. rewrite Ha. auto.
  - unfold Final.main. intros e.
    destruct (print_lines (Final.print w) 118 123) as [[]|e0]; cbn [bind].
    2:{ intros [= <-]. left. reflexivity. }
    rewrite (proj2 (try_except_cases _ _) e).
    intros [[Hg He]|[e1 [_ [_ H]]]]; [auto | ].
    right. left.
    destruct (print_lines (Final.print w) 175 179) as [[]|e2];
      [discriminate H | ].
    cbn [bind] in H. injection H as <-. reflexivity.
Qed.

(** ** The other two generators *)

(** A [main] that prints a heading, runs a try block that can only return
    True, and whose handler prints and returns False. *)
Lemma main_cases (heading : result unit) (generation : result bool)
  (handler : result unit) :
  (forall b, generation = Ok b -> b = true) ->
  let main :=
    bind heading (fun _ =>
      try_except generation (fun _ => bind handler (fun _ => Ok false))) in
  (main = Ok true <-> heading = Ok tt /\ generation = Ok true) /\
  (main = Ok false <->
   heading = Ok tt /\
   (exists e, generation = Raise e /\ is_Exception e = true) /\
   handler = Ok tt) /\
  (forall e, main = Raise e <->
   heading = Raise e \/
   (heading = Ok tt /\
    ((generation = Raise e /\ is_Exception e = false) \/
     ((exists e0, generation = Raise e0 /\ is_Exception e0 = true) /\
      handler = Raise e)))).
Proof.
  intros Htrue. cbv zeta.
  destruct heading as [[]|e0]; cbn [bind].
  2:{ split; [ | split; [ | intros e]]; split; intros H;
        try discriminate H.
      - destruct H as [H _]. discriminate H.
      - destruct H as [H _]. discriminate H.
      - left. injection H as <-. reflexivity.
      - destruct H as [H|[H _]]; [ | discriminate H].
        injection H as <-. reflexivity. }
  unfold try_except.
  destruct generation as [b|e1].
  - rewrite (Htrue b eq_refl).
    split; [ | split; [ | intros e]]; split; intros H;
      try discriminate H; auto.
    + destruct H as [_ [[e [H _]] _]]. discriminate H.
    + destruct H as [H|[_ [[H _]|[[e0 [H _]] _]]]]; discriminate H.
  - destruct (is_Exception e1) eqn:He1.
    + destruct handler as [[]|e2]; cbn [bind];
        (split; [ | split; [ | intros e]]); split; intros H;
        try discriminate H.
      * destruct H as [_ H]. discriminate H.
      * split; [reflexivity | ]. split; [eauto | reflexivity].
      * reflexivity.
      * destruct H as [H|[_ [[H H']|[_ H]]]]; try discriminate H.
        injection H as <-. congruence.
      * destruct H as [_ H]. discriminate H.
      * destruct H as [_ [_ H]]. discriminate H.
      * injection H as <-. right. split; [reflexivity | ]. right.
        split; [eauto | reflexivity].
      * destruct H as [H|[_ [[H H']|[_ H]]]]; try discriminate H.
        -- injection H as <-. congruence.
        -- injection H as <-. reflexivity.
    + split; [ | split; [ | intros e]]; split; intros H;
        try discriminate H.
      * destruct H as [_ H]. discriminate H.
      * destruct H as [_ [[e [H H']] _]]. injection H as <-. congruence.
      * injection H as <-. right. split; [reflexivity | ]. left. auto.
      * destruct H as [H|[_ [[H _]|[[e0 [H H']] _]]]]; try discriminate H.
        -- exact H.
        -- injection H as <-. congruence.
Qed.

Lemma working_generation_result w :
  forall b, Working.generation w = Ok b <->
    b = true /\
    Working.create_professional_tank w = Ok tt /\
    Working.print w 171 = Ok tt /\
    Working.export_step w Working.output_filename = Ok tt /\
    print_lines (Working.print w) 175 208 = Ok tt.
Proof.
  intros b. unfold Working.generation.
  destruct (Working.create_professional_tank w) as [[]|];
    [ | split; [discriminate | intros [_ [H _]]; discriminate H]].
  destruct (Working.print w 171) as [[]|];
    [ | split; [discriminate | intros [_ [_ [H _]]]; discriminate H]].
  destruct (Working.export_step w Working.output_filename) as [[]|];
    [ | split; [discriminate | intros [_ [_ [_ [H _]]]]; discriminate H]].
  destruct (print_lines (Working.print w) 175 208) as [[]|];
    [ | split; [discriminate | intros [_ [_ [_ [_ H]]]]; discriminate H]].
  cbn [bind]. split; [intros [= <-]; auto | intros [-> _]; reflexivity].
Qed.

Lemma simple_generation_result w :
  forall b, Simple.generation w = Ok b <->
    b = true /\
    Simple.create_simple_professional_tank w = Ok tt /\
    Simple.set_label w = Ok tt /\ Simple.make_color w = Ok tt /\
    Simple.set_color w = Ok tt /\ Simple.print w 173 = Ok tt /\
    Simple.export_step w Simple.output_filename = Ok tt /\
    print_lines (Simple.print w) 177 194 = Ok tt.
Proof.
  intros b. unfold Simple.generation.
  destruct (Simple.create_simple_professional_tank w) as [[]|];
    [ | split; [discriminate | intros [_ [H _]]; discriminate H]].
  destruct (Simple.set_label w) as [[]|];
    [ | split; [discriminate | intros [_ [_ [H _]]]; discriminate H]].
  destruct (Simple.make_color w) as [[]|];
    [ | split; [discriminate | intros [_ [_ [_ [H _]]]]; discriminate H]].
  destruct (Simple.set_color w) as [[]|];
    [ | split; [discriminate | intros [_ [_ [_ [_ [H _]]]]]; discriminate H]].
  destruct (Simple.print w 173) as [[]|];
    [ | split; [discriminate
               | intros [_ [_ [_ [_ [_ [H _]]]]]]; discriminate H]].
  destruct (Simple.export_step w Simple.output_filename) as [[]|];
    [ | split; [discriminate
               | intros [_ [_ [_ [_ [_ [_ [H _]]]]]]]; discriminate H]].
  destruct (print_lines (Simple.print w) 177 194) as [[]|];
    [ | split; [discriminate
               | intros [_ [_ [_ [_ [_ [_ [_ H]]]]]]]; discriminate H]].
  cbn [bind]. split; [intros [= <-]; auto 10 | intros [-> _]; reflexivity].
Qed.

(** X8.  final_step_generator.py reports a failed generation as a success:
    whenever its script calls [exit] the status is 0, and it calls
    [exit(0)] exactly when the imports succeeded and either [main] returned
    True and the closing message was printed, or [main] returned False and
    the two closing messages were printed.  working_step_generator.py calls
    [exit(0)] exactly when the imports succeeded, [main] returned True and
    the closing message was printed, and [exit(1)] exactly when the imports
    succeeded, [main] returned False and the closing message was printed; it
    calls [exit] with no other status.  Its [main] returns True exactly when
    every statement of the heading and of the try block succeeded, and False
    exactly when the heading was printed, the try block raised an exception
    that derives from Exception and the handler's lines were printed. *)
Theorem exit_status_hides_failure :
  (forall w,
     (forall s, Final.script w = Exit s -> s = 0) /\
     (Final.script w = Exit 0 <->
      Final.imports w = Ok tt /\
      ((Final.main w = Ok true /\ Final.print w 185 = Ok tt) \/
       (Final.main w = Ok false /\
        print_lines (Final.print w) 188 189 = Ok tt))))
  /\
  (forall w,
     (Working.script w = Exit 0 <->
      Working.imports w = Ok tt /\ Working.main w = Ok true /\
      Working.print w 223 = Ok tt) /\
     (Working.script w = Exit 1 <->
      Working.imports w = Ok tt /\ Working.main w = Ok false /\
      Working.print w 226 = Ok tt) /\
     (forall s, Working.script w = Exit s -> s = 0 \/ s = 1) /\
     (Working.main w = Ok true <->
      print_lines (Working.print w) 158 163 = Ok tt /\
      Working.create_professional_tank w = Ok tt /\
      Working.print w 171 = Ok tt /\
      Working.export_step w Working.output_filename = Ok tt /\
      print_lines (Working.print w) 175 208 = Ok tt) /\
     (Working.main w = Ok false <->
      print_lines (Working.print w) 158 163 = Ok tt /\
      (exists e, Working.generation w = Raise e /\ is_Exception e = true) /\
      print_lines (Working.print w) 213 217 = Ok tt)).
Proof.
  split.
  - intros w. unfold Final.script, then_exit.
    destruct (Final.imports w) as [[]|e0]; cbn [bind].
    2:{ split; [intros s H; discriminate H | ].
        split; [discriminate | intros [H _]; discriminate H]. }
    destruct (Final.main w) as [[|]|e1].
    + destruct (Final.print w 185) as [[]|e2].
      * split; [intros s [= <-]; reflexivity | ].
        split; [auto | reflexivity].
      * split; [intros s H; discriminate H | ].
        split; [discriminate | ].
        intros [_ [[_ H]|[H _]]]; discriminate H.
    + destruct (print_lines (Final.print w) 188 189) as [[]|e2].
      * split; [intros s [= <-]; reflexivity | ].
        split; [auto | reflexivity].
      * split; [intros s H; discriminate H | ].
        split; [discriminate | ].
        intros [_ [[H _]|[_ H]]]; discriminate H.
    + split; [intros s H; discriminate H | ].
      split; [discriminate | ].
      intros [_ [[H _]|[H _]]]; discriminate H.
  - intros w.
    assert (Hscript :
              (Working.script w = Exit 0 <->
               Working.imports w = Ok tt /\ Working.main w = Ok true /\
               Working.print w 223 = Ok tt) /\
              (Working.script w = Exit 1 <->
               Working.imports w = Ok tt /\ Working.main w = Ok false /\
               Working.print w 226 = Ok tt) /\
              (forall s, Working.script w = Exit s -> s = 0 \/ s = 1)).
    { unfold Working.script, then_exit.
      destruct (Working.imports w) as [[]|e0]; cbn [bind].
      2:{ split; [split; [discriminate | intros [H _]; discriminate H] | ].
          split; [split; [discriminate | intros [H _]; discriminate H] | ].
          intros s H; discriminate H. }
      destruct (Working.main w) as [[|]|e1].
      - destruct (Working.print w 223) as [[]|e2].
        + split; [split; [auto | reflexivity] | ].
          split; [split; [discriminate | intros [_ [H _]]; discriminate H] | ].
          intros s [= <-]; auto.
        + split; [split; [discriminate | intros [_ [_ H]]; discriminate H] | ].
          split; [split; [discriminate | intros [_ [H _]]; discriminate H] | ].
          intros s H; discriminate H.
      - destruct (Working.print w 226) as [[]|e2].
        + split; [split; [discriminate | intros [_ [H _]]; discriminate H] | ].
          split; [split; [auto | reflexivity] | ].
          intros s [= <-]; auto.
        + split; [split; [discriminate | intros [_ [H _]]; discriminate H] | ].
          split; [split; [discriminate | intros [_ [_ H]]; discriminate H] | ].
          intros s H; discriminate H.
      - split; [split; [discriminate | intros [_ [H _]]; discriminate H] | ].
        split; [split; [discriminate | intros [_ [H _]]; discriminate H] | ].
        intros s H; discriminate H. }
    destruct Hscript as [H0 [H1 Hs]].
    split; [exact H0 | ]. split; [exact H1 | ]. split; [exact Hs | ].
    pose proof (working_generation_result w) as Hg.
    pose proof (main_cases (print_lines (Working.print w) 158 163)
                  (Working.generation w)
                  (print_lines (Working.print w) 213 217)
                  (fun b H => proj1 (proj1 (Hg b) H))) as [Ht [Hf _]].
    split.
    + unfold Working.main. rewrite Ht, (Hg true). tauto.
    + exact Hf.
Qed.

(** X9.  simple_step_generator.py reaches the end of its file exactly when
    the imports succeeded and [main] returned True, and it calls [exit(1)]
    exactly when the imports succeeded, [main] returned False and the
    message of the failure was printed; it calls [exit] with no other
    status, and otherwise it ends with the exception of the imports, of
    [main] or of that message.  [main] returns True exactly when the
    heading, the creation of the tank, the assignments of the label and of
    the colour, the export and every message of the try block succeeded,
    and False exactly when the heading was printed, the try block raised an
    exception that derives from Exception and the handler's message was
    printed. *)
Theorem simple_exit_status w :
  (Simple.script w = Finished <->
   Simple.imports w = Ok tt /\ Simple.main w = Ok true)
  /\
  (Simple.script w = Exit 1 <->
   Simple.imports w = Ok tt /\ Simple.main w = Ok false /\
   Simple.print w 205 = Ok tt)
  /\
  (forall s, Simple.script w = Exit s -> s = 1)
  /\
  (forall e, Simple.script w = Uncaught e <->
     Simple.imports w = Raise e \/
     (Simple.imports w = Ok tt /\
      (Simple.main w = Raise e \/
       (Simple.main w = Ok false /\ Simple.print w 205 = Raise e))))
  /\
  (Simple.main w = Ok true <->
   print_lines (Simple.print w) 156 161 = Ok tt /\
   Simple.create_simple_professional_tank w = Ok tt /\
   Simple.set_label w = Ok tt /\ Simple.make_color w = Ok tt /\
   Simple.set_color w = Ok tt /\ Simple.print w 173 = Ok tt /\
   Simple.export_step w Simple.output_filename = Ok tt /\
   print_lines (Simple.print w) 177 194 = Ok tt)
  /\
  (Simple.main w = Ok false <->
   print_lines (Simple.print w) 156 161 = Ok tt /\
   (exists e, Simple.generation w = Raise e /\ is_Exception e = true) /\
   Simple.print w 199 = Ok tt).
Proof.
  assert (Hscript :
            (Simple.script w = Finished <->
             Simple.imports w = Ok tt /\ Simple.main w = Ok true) /\
            (Simple.script w = Exit 1 <->
             Simple.imports w = Ok tt /\ Simple.main w = Ok false /\
             Simple.print w 205 = Ok tt) /\
            (forall s, Simple.script w = Exit s -> s = 1) /\
            (forall e, Simple.script w = Uncaught e <->
               Simple.imports w = Raise e \/
               (Simple.imports w = Ok tt /\
                (Simple.main w = Raise e \/
                 (Simple.main w = Ok false /\
                  Simple.print w 205 = Raise e))))).
  { unfold Simple.script, then_exit.
    destruct (Simple.imports w) as [[]|e0]; cbn [bind].
    2:{ split; [split; [discriminate | intros [H _]; discriminate H] | ].
        split; [split; [discriminate | intros [H _]; discriminate H] | ].
        split; [intros s H; discriminate H | ].
        intros e. split.
        - intros [= <-]. left. reflexivity.
        - intros [[= <-]|[H _]]; [reflexivity | discriminate H]. }
    destruct (Simple.main w) as [[|]|e1]; cbn [negb].
    - split; [split; [auto | reflexivity] | ].
      split; [split; [discriminate | intros [_ [H _]]; discriminate H] | ].
      split; [intros s H; discriminate H | ].
      intros e. split; [discriminate | ].
      intros [H|[_ [H|[H _]]]]; discriminate H.
    - destruct (Simple.print w 205) as [[]|e2].
      + split; [split; [discriminate | intros [_ H]; discriminate H] | ].
        split; [split; [auto | reflexivity] | ].
        split; [intros s [= <-]; reflexivity | ].
        intros e. split; [discriminate | ].
        intros [H|[_ [H|[_ H]]]]; discriminate H.
      + split; [split; [discriminate | intros [_ H]; discriminate H] | ].
        split; [split; [discriminate | intros [_ [_ H]]; discriminate H] | ].
        split; [intros s H; discriminate H | ].
        intros e. split.
        * intros [= <-]. right. split; [reflexivity | ]. right. auto.
        * intros [H|[_ [H|[_ H]]]]; try discriminate H.
          injection H as <-. reflexivity.
    - split; [split; [discriminate | intros [_ H]; discriminate H] | ].
      split; [split; [discriminate | intros [_ [H _]]; discriminate H] | ].
      split; [intros s H; discriminate H | ].
      intros e. split.
      + intros [= <-]. right. split; [reflexivity | ]. left. reflexivity.
      + intros [H|[_ [H|[H _]]]]; try discriminate H.
        injection H as <-. reflexivity. }
  destruct Hscript as [H0 [H1 [Hs Hu]]].
  split; [exact H0 | ]. split; [exact H1 | ]. split; [exact Hs | ].
  split; [exact Hu | ].
  pose proof (simple_generation_result w) as Hg.
  pose proof (main_cases (print_lines (Simple.print w) 156 161)
                (Simple.generation w) (Simple.print w 199)
                (fun b H => proj1 (proj1 (Hg b) H))) as [Ht [Hf _]].
  split.
  - unfold Simple.main. rewrite Ht, (Hg true). tauto.
  - exact Hf.
Qed.

(** ** tank_design_generator.py *)

Import Generator.

(** Every print statement among the events is one of the lines [lo] to
    [hi]. *)
Definition lines_within (lo hi : Z) (events : list event) : Prop :=
  Forall (fun ev => match ev with Print k => lo <= k <= hi | _ => True end)
         events.

Lemma lines_within_app lo hi a b :
  lines_within lo hi a -> lines_within lo hi b -> lines_within lo hi (a ++ b).
Proof. intros Ha Hb. apply Forall_app. split; assumption. Qed.

Lemma lines_within_not_in lo hi events k :
  lines_within lo hi events -> ~ lo <= k <= hi -> ~ In (Print k) events.
Proof.
  intros Hall Hk Hin.
  apply (proj1 (Forall_forall _ _) Hall) in Hin. cbv beta iota in Hin. lia.
Qed.

Lemma lines_within_weaken lo hi lo' hi' events :
  lines_within lo hi events -> lo' <= lo -> hi <= hi' ->
  lines_within lo' hi' events.
Proof.
  intros Hall Hlo Hhi. eapply Forall_impl; [ | exact Hall].
  intros [ | k | | | | | ]; cbv beta iota; auto. lia.
Qed.

Lemma seq_events {A B} (m : run A) (k : A -> run B) :
  fst (seq m k) = fst m \/ exists a, snd m = Ok a /\ fst (seq m k) = fst m ++ fst (k a).
Proof.
  unfold seq. destruct m as [events [a|e]]; cbn [fst snd]; [ | auto].
  right. exists a. destruct (k a). auto.
Qed.

Lemma seq_ok {A B} (m : run A) (k : A -> run B) a :
  snd m = Ok a -> seq m k = (fst m ++ fst (k a), snd (k a)).
Proof.
  unfold seq. destruct m as [events r]. cbn [fst snd]. intros ->.
  destruct (k a). reflexivity.
Qed.

Lemma seq_within lo hi {A B} (m : run A) (k : A -> run B) :
  lines_within lo hi (fst m) ->
  (forall a, lines_within lo hi (fst (k a))) ->
  lines_within lo hi (fst (seq m k)).
Proof.
  intros Hm Hk. destruct (seq_events m k) as [->|[a [_ ->]]]; [exact Hm | ].
  apply lines_within_app; auto.
Qed.

Lemma try_except_within lo hi {A} (body handler : run A) :
  lines_within lo hi (fst body) -> lines_within lo hi (fst handler) ->
  lines_within lo hi (fst (try_except body handler)).
Proof.
  unfold try_except. destruct body as [events [a|e]]; cbn [fst]; [auto | ].
  destruct (is_Exception e); [ | auto].
  destruct handler as [events' r']. cbn [fst]. apply lines_within_app.
Qed.

Lemma prints_within w : forall count first,
  lines_within first (first + Z.of_nat count - 1) (fst (prints w first count)).
Proof.
  induction count as [|n IH]; intros first; [constructor | ].
  cbn [prints]. apply seq_within.
  - constructor; [cbv beta iota; lia | constructor].
  - intros _. eapply lines_within_weaken; [apply IH | lia | lia].
Qed.

Lemma print_lines_within w first last :
  first <= last -> lines_within first last (fst (print_lines w first last)).
Proof.
  intros H. unfold print_lines.
  eapply lines_within_weaken; [apply prints_within | lia | lia].
Qed.

(** The first print statement of a sequence is run. *)
Lemma print_lines_first w first last :
  first <= last -> In (Print first) (fst (print_lines w first last)).
Proof.
  intros H. unfold print_lines.
  destruct (Z.to_nat (last - first + 1)) as [|n] eqn:E; [lia | ].
  cbn [prints]. unfold seq, step.
  destruct (print w first); [ | left; reflexivity].
  destruct (prints w (first + 1) n). left. reflexivity.
Qed.

Lemma export_step_file_within w f :
  lines_within 257 274 (fst (export_step_file w f)).
Proof.
  unfold export_step_file.
  apply try_except_within; repeat (apply seq_within; [ | intros ?]);
    try (constructor; [cbv beta iota; auto; lia | constructor]);
    try constructor.
Qed.

Lemma export_documentation_within w f :
  lines_within 285 288 (fst (export_documentation w f)).
Proof.
  unfold export_documentation.
  apply try_except_within; repeat (apply seq_within; [ | intros ?]);
    try (constructor; [cbv beta iota; auto; lia | constructor]);
    try constructor.
Qed.

(** [export_documentation] starts with the opening of its file. *)
Lemma export_documentation_opens w f :
  In (Open f) (fst (export_documentation w f)).
Proof.
  unfold export_documentation, try_except, seq, step, with_close, done.
  destruct (open_file w f); [ | destruct (is_Exception e);
    [destruct (print w 288) | ]; left; reflexivity].
  destruct (close w); destruct (write w (documentation w));
    try destruct (print w 285); cbn [app];
    repeat match goal with
      | |- context [is_Exception ?e] => destruct (is_Exception e)
      | |- context [print w 288] => destruct (print w 288)
      end; left; reflexivity.
Qed.

(** The events of the script when its two exports have returned. *)
Lemma statements_after_exports w step_success doc_success :
  imports w = Ok tt ->
  snd (print_lines w 294 298) = Ok tt ->
  snd (export_step_file w step_filename) = Ok step_success ->
  snd (export_documentation w documentation_filename) = Ok doc_success ->
  let closing :=
    if step_success && doc_success then print_lines w 307 315
    else print_lines w 317 318 in
  statements w
  = ([Import] ++ fst (print_lines w 294 298)
       ++ fst (export_step_file w step_filename)
       ++ fst (export_documentation w documentation_filename)
       ++ fst closing,
     snd closing).
Proof.
  intros Hi Hh Hs Hd. cbv zeta. unfold statements.
  rewrite (seq_ok (step Import (imports w)) _ tt) by exact Hi.
  rewrite (seq_ok (print_lines w 294 298) _ tt) by exact Hh.
  rewrite (seq_ok (export_step_file w step_filename) _ step_success)
    by exact Hs.
  rewrite (seq_ok (export_documentation w documentation_filename) _
             doc_success) by exact Hd.
  cbn [fst snd step]. reflexivity.
Qed.

(** X10.  The script tank_design_generator.py exports the documentation
    whether or not the STEP export succeeded: when the import and the
    heading succeeded and [export_step_file] returns, True or False,
    [export_documentation] opens its file.  [export_documentation] returns
    True exactly when the file was opened, written and closed and the
    message was printed without an exception.  When both functions have
    returned, the message of completion (line 307) is printed exactly when
    both returned True, and the message that files may be missing (line 317)
    exactly when one of them returned False; the script then ends at the end
    of the file unless one of these closing messages raises.  The script
    never calls [exit]. *)
Theorem documentation_is_exported_regardless w :
  (forall step_success,
     imports w = Ok tt ->
     snd (print_lines w 294 298) = Ok tt ->
     snd (export_step_file w step_filename) = Ok step_success ->
     In (Open documentation_filename) (fst (script w)))
  /\
  (snd (export_documentation w documentation_filename) = Ok true <->
   open_file w documentation_filename = Ok tt /\
   write w (documentation w) = Ok tt /\ close w = Ok tt /\
   print w 285 = Ok tt)
  /\
  (forall step_success doc_success,
     imports w = Ok tt ->
     snd (print_lines w 294 298) = Ok tt ->
     snd (export_step_file w step_filename) = Ok step_success ->
     snd (export_documentation w documentation_filename) = Ok doc_success ->
     (In (Print 307) (fst (script w)) <->
      step_success = true /\ doc_success = true) /\
     (In (Print 317) (fst (script w)) <->
      step_success = false \/ doc_success = false) /\
     (snd (script w) = Finished <->
      snd (if step_success && doc_success then print_lines w 307 315
           else print_lines w 317 318) = Ok tt))
  /\
  (forall s, snd (script w) <> Exit s).
Proof.
  split; [ | split; [ | split]].
  - intros b Hi Hh Hs. unfold script, statements.
    rewrite (seq_ok (step Import (imports w)) _ tt) by exact Hi.
    rewrite (seq_ok (print_lines w 294 298) _ tt) by exact Hh.
    rewrite (seq_ok (export_step_file w step_filename) _ b) by exact Hs.
    pose proof (export_documentation_opens w documentation_filename) as Ho.
    destruct (seq_events (export_documentation w documentation_filename)
                (fun doc_success =>
                   if b && doc_success then print_lines w 307 315
                   else print_lines w 317 318)) as [E|[a [_ E]]];
      destruct (seq _ _) as [events r]; cbn [fst snd] in *; subst events;
      rewrite !in_app_iff; auto.
  - unfold export_documentation, try_except, seq, step, with_close, done.
    destruct (open_file w documentation_filename) as [[]|e1].
    + destruct (write w (documentation w)) as [[]|e2];
        destruct (close w) as [[]|e3]; cbn [app fst snd];
        try destruct (print w 285) as [[]|e4]; cbn [app fst snd];
        repeat match goal with
          | |- context [is_Exception ?e] => destruct (is_Exception e)
          | |- context [print w 288] => destruct (print w 288) as [[]|]
          end; cbn [fst snd];
        (split; [intros H; try discriminate H; auto | ]);
        intros [H1 [H2 [H3 H4]]]; try discriminate; reflexivity.
    + destruct (is_Exception e1); [destruct (print w 288) as [[]|] | ];
        cbn [fst snd];
        (split; [discriminate | intros [H _]; discriminate H]).
  - intros b1 b2 Hi Hh Hs Hd. unfold script.
    rewrite (statements_after_exports w b1 b2 Hi Hh Hs Hd).
    cbn [fst snd].
    pose proof (print_lines_within w 294 298 ltac:(lia)) as Wh.
    pose proof (export_step_file_within w step_filename) as Ws.
    pose proof (export_documentation_within w documentation_filename) as Wd.
    pose proof (print_lines_within w 307 315 ltac:(lia)) as Wt.
    pose proof (print_lines_within w 317 318 ltac:(lia)) as Wf.
    pose proof (print_lines_first w 307 315 ltac:(lia)) as Ft.
    pose proof (print_lines_first w 317 318 ltac:(lia)) as Ff.
    assert (N : forall k lo hi events,
               lines_within lo hi events -> ~ lo <= k <= hi ->
               In (Print k) events -> False)
      by (intros k lo hi events Hw Hk Hin;
          exact (lines_within_not_in lo hi events k Hw Hk Hin)).
    split; [ | split].
    + cbn [app In]. rewrite !in_app_iff. split.
      * intros [H|[H|[H|[H|H]]]]; try discriminate H.
        -- exfalso. eapply N; [exact Wh | | exact H]; lia.
        -- exfalso. eapply N; [exact Ws | | exact H]; lia.
        -- exfalso. eapply N; [exact Wd | | exact H]; lia.
        -- destruct b1, b2; cbn [andb] in H; auto;
             (exfalso; eapply N; [exact Wf | | exact H]; lia).
      * intros [-> ->]. cbn [andb]. auto 10.
    + cbn [app In]. rewrite !in_app_iff. split.
      * intros [H|[H|[H|[H|H]]]]; try discriminate H.
        -- exfalso. eapply N; [exact Wh | | exact H]; lia.
        -- exfalso. eapply N; [exact Ws | | exact H]; lia.
        -- exfalso. eapply N; [exact Wd | | exact H]; lia.
        -- destruct b1, b2; cbn [andb] in H; auto.
           exfalso. eapply N; [exact Wt | | exact H]; lia.
      * intros [-> | ->]; [ | destruct b1]; cbn [andb]; auto 10.
    + destruct (b1 && b2);
        [destruct (snd (print_lines w 307 315)) as [[]|e]
        | destruct (snd (print_lines w 317 318)) as [[]|e]];
        split; intros H; try reflexivity; discriminate H.
  - intros s. unfold script. destruct (statements w) as [events [[]|e]];
      discriminate.
Qed.

(** ** Some runs *)

(** A world in which no export method works: the exporter cannot be
    imported, the part has no method, the file cannot be opened. *)
Definition failing_export : StepExport.world :=
  StepExport.mk_world
    (Raise (mk_exn ImportError "cannot import name 'export_step'"))
    (Ok tt)
    (Raise (mk_exn AttributeError "export_step"))
    (Raise (mk_exn OSError "Permission denied"))
    (Ok "ISO-10303-21;")
    (fun _ => Ok tt)
    (Ok tt).

(** The export fails, everything else works and every message is printed. *)
Definition failed_generation : Final.world :=
  Final.mk_world (Ok tt) (fun _ => Ok tt) (Ok tt) failing_export.

Definition failed_working : Working.world :=
  Working.mk_world (Ok tt) (fun _ => Ok tt) (Ok tt)
                   (fun _ => Raise (mk_exn OSError "Permission denied")).

(** An output stream that cannot encode the second line of the heading of
    final_step_generator.py. *)
Definition encode_error : exn :=
  mk_exn UnicodeEncodeError "'charmap' codec can't encode character".

Definition narrow_console : Final.world :=
  Final.mk_world (Ok tt)
                 (fun line => if line =? 119 then Raise encode_error else Ok tt)
                 (Ok tt) failing_export.

Lemma final_main_result_witness :
  StepScripts.print_lines (Final.print narrow_console) 118 123
  = Raise encode_error \/
  StepScripts.print_lines (Final.print narrow_console) 175 179
  = Raise encode_error \/
  (Final.generation narrow_console = Raise encode_error /\
   is_Exception encode_error = false).
Proof.
  apply (proj2 (proj2 (proj2 (proj2 (final_main_result narrow_console))))).
  reflexivity.
Defined.

Lemma exit_status_hides_failure_witness :
  Final.main failed_generation = Ok false /\
  Final.script failed_generation = Exit 0 /\
  Working.script failed_working = Exit 1.
Proof.
  split; [reflexivity | split].
  - destruct (proj1 exit_status_hides_failure failed_generation) as [_ H].
    apply H. split; [reflexivity | ]. right. split; reflexivity.
  - destruct (proj2 exit_status_hides_failure failed_working)
      as [_ [H _]].
    apply H. repeat split; reflexivity.
Defined.

(** A machine on which the CAD library is not installed. *)
Definition without_build123d : Simple.world :=
  Simple.mk_world
    (Raise (mk_exn ImportError "No module named 'build123d'"))
    (fun _ => Ok tt) (Ok tt) (Ok tt) (Ok tt) (Ok tt) (fun _ => Ok tt).

Lemma simple_exit_status_witness :
  Simple.script without_build123d
  = Uncaught (mk_exn ImportError "No module named 'build123d'").
Proof.
  destruct (simple_exit_status without_build123d) as [_ [_ [_ [H _]]]].
  apply H. left. reflexivity.
Defined.

(** A world in which the CAD model cannot be built, the file system works
    and every message is printed. *)
Definition cad_failure : Generator.world :=
  Generator.mk_world (Ok tt) (fun _ => Ok tt)
                     (Raise (mk_exn RuntimeError "BuildPart failed"))
                     (fun _ => Ok tt) (fun _ => Ok tt) (fun _ => Ok tt)
                     (Ok tt) "# Tank".

Lemma documentation_is_exported_regardless_witness :
  In (Open documentation_filename) (fst (script cad_failure)).
Proof.
  apply (proj1 (documentation_is_exported_regardless cad_failure) false);
    reflexivity.
Defined.

End StepScriptsFacts.

(* ================================================================== *)
(** * More on the served documents and on the PDF generator *)
(* ================================================================== *)

Module DocumentTitleFacts.

Import PyStr PyStrFacts DocServer.
Local Open Scope string_scope.

Lemma append_associative a b c : (a ++ b) ++ c = a ++ (b ++ c).
Proof. induction a as [|x a IH]; simpl; [reflexivity | rewrite IH; reflexivity]. Qed.

(** Replacing one character works piece by piece. *)
Lemma replace_char_app c new a b :
  replace_from (String c "") new 0 (a ++ b)
  = replace_from (String c "") new 0 a ++ replace_from (String c "") new 0 b.
Proof.
  induction a as [|x a IH]; [reflexivity | ].
  cbn [append replace_from String.length Nat.sub].
  cbn [String.prefix]. rewrite !prefix_empty.
  destruct (ascii_dec c x).
  - rewrite IH. rewrite append_associative. reflexivity.
  - rewrite IH. reflexivity.
Qed.

Lemma contains_char_app c a b :
  contains_char c (a ++ b) = contains_char c a || contains_char c b.
Proof.
  induction a as [|x a IH]; [reflexivity | ].
  cbn [append contains_char]. rewrite IH. apply orb_assoc.
Qed.

(** Turning underscores into spaces brings in no dot. *)
Lemma underscores_no_dot s :
  contains_char "." s = false ->
  contains_char "." (replace s "_" " ") = false.
Proof.
  unfold replace. induction s as [|x s IH]; [reflexivity | ].
  cbn [contains_char]. intros H. apply orb_false_elim in H as [Hx Hs].
  cbn [replace_from String.length Nat.sub String.prefix].
  rewrite prefix_empty.
  destruct (ascii_dec "_" x).
  - cbn [append contains_char]. rewrite (IH Hs). reflexivity.
  - cbn [contains_char]. rewrite Hx, (IH Hs). reflexivity.
Qed.

(** The extension is removed from a name that holds no other dot. *)
Lemma extension_removed t :
  contains_char "." t = false -> replace (t ++ ".md") ".md" "" = t.
Proof.
  unfold replace. induction t as [|x t IH]; [reflexivity | ].
  cbn [contains_char]. intros H. apply orb_false_elim in H as [Hx Hs].
  cbn [append replace_from String.prefix].
  destruct (ascii_dec "." x) as [E|_].
  - subst x. discriminate Hx.
  - rewrite (IH Hs). reflexivity.
Qed.

(** X11.  For a document [stem.md] whose stem holds no dot, the title of the
    page that [serve_document] builds is the stem with every underscore
    turned into a space; it is the stem itself when the stem holds no
    underscore either. *)
Theorem title_of_markdown_name stem :
  contains_char "." stem = false ->
  title_of (stem ++ ".md") = replace stem "_" " " /\
  (contains_char "_" stem = false -> title_of (stem ++ ".md") = stem).
Proof.
  intros Hdot.
  assert (Htitle : title_of (stem ++ ".md") = replace stem "_" " ").
  { unfold title_of.
    assert (E : replace (stem ++ ".md") "_" " " = replace stem "_" " " ++ ".md").
    { unfold replace. rewrite replace_char_app. reflexivity. }
    rewrite E. apply extension_removed, underscores_no_dot, Hdot. }
  split; [exact Htitle | ].
  intros Hunder. rewrite Htitle. clear Htitle Hdot. unfold replace.
  induction stem as [|x s IH]; [reflexivity | ].
  cbn [contains_char] in Hunder. apply orb_false_elim in Hunder as [Hx Hs].
  cbn [replace_from String.prefix].
  destruct (ascii_dec "_" x) as [E|_].
  - subst x. discriminate Hx.
  - rewrite (IH Hs). reflexivity.
Qed.

Lemma title_of_markdown_name_witness :
  title_of ("Tank_Design_Analysis_Report" ++ ".md")
  = replace "Tank_Design_Analysis_Report" "_" " ".
Proof.
  apply (proj1 (title_of_markdown_name "Tank_Design_Analysis_Report" eq_refl)).
Defined.

End DocumentTitleFacts.

Module PdfGenDependencies.

Import PdfGen.
Local Open Scope string_scope.
Local Open Scope list_scope.

(** One of the two imports of [markdown_to_pdf] fails with an exception that
    derives from Exception. *)
Definition library_missing (w : world) : Prop :=
  exists e, is_Exception e = true /\
    (import_markdown w = Raise e \/
     (import_markdown w = Ok tt /\ import_weasyprint w = Raise e)).

Lemma conversion_without_library w file out title :
  library_missing w -> markdown_to_pdf w file out title = Ok false.
Proof.
  intros [e [He [H|[H1 H2]]]]; unfold markdown_to_pdf, convert_body.
  - rewrite H. cbn [bind]. rewrite He. reflexivity.
  - rewrite H1, H2. cbn [bind]. rewrite He. reflexivity.
Qed.

Lemma convert_all_without_library w docs n :
  library_missing w -> convert_all w docs n = Ok n.
Proof.
  intros Hw. revert n. induction docs as [|[[file pdf] title] rest IH];
    intros n; [reflexivity | ].
  cbn [convert_all]. destruct (file_exists w file); [ | apply IH].
  rewrite (conversion_without_library w _ _ _ Hw). cbn [bind]. apply IH.
Qed.

(** X12.  When the markdown or the weasyprint library cannot be imported,
    [markdown_to_pdf] returns False for every file, and
    [simple_pdf_generator.main] returns False whichever files exist, provided
    that the output directory could be created and its path found and
    printed; [main] never returns True then, and the only exceptions that
    leave it are those of the creation of the directory and of the printing
    of its path. *)
Theorem missing_library_gives_false w :
  library_missing w ->
  (forall file out title, markdown_to_pdf w file out title = Ok false) /\
  (mkdir w = Ok tt -> print_directory w = Ok tt -> main w = Ok false) /\
  (forall b, main w = Ok b -> b = false) /\
  (forall e, main w = Raise e ->
     mkdir w = Raise e \/ print_directory w = Raise e).
Proof.
  intros Hw.
  assert (Hmain : main w =
                  (_ <- mkdir w ;; _ <- print_directory w ;; Ok false)%py).
  { unfold main. destruct (mkdir w) as [[]|e]; [ | reflexivity].
    cbn [bind]. rewrite (convert_all_without_library w documents 0 Hw).
    reflexivity. }
  split; [ | split; [ | split]].
  - intros file out title. exact (conversion_without_library w _ _ _ Hw).
  - intros Hm Ha. rewrite Hmain, Hm, Ha. reflexivity.
  - intros b. rewrite Hmain.
    destruct (mkdir w) as [[]|e]; [ | discriminate].
    destruct (print_directory w) as [[]|e]; [ | discriminate].
    cbn [bind]. congruence.
  - intros e. rewrite Hmain.
    destruct (mkdir w) as [[]|e0]; cbn [bind];
      [ | intros [= <-]; left; reflexivity].
    destruct (print_directory w) as [[]|e1]; cbn [bind];
      [discriminate | intros [= <-]; right; reflexivity].
Qed.

(** A world without the weasyprint library, the six files being there. *)
Definition without_weasyprint : world :=
  mk_world (Ok tt) (Ok tt)
           (fun _ => true) (Ok tt)
           (Raise (mk_exn ImportError "No module named 'weasyprint'"))
           (fun _ => Ok "# Tank") (fun _ => Ok "<h1>Tank</h1>") (Ok tt)
           (fun _ => Ok tt) (fun _ _ => Ok tt) ("", "", "", "").

Lemma missing_library_gives_false_witness :
  (forall file out title,
     markdown_to_pdf without_weasyprint file out title = Ok false) /\
  main without_weasyprint = Ok false.
Proof.
  assert (H : library_missing without_weasyprint).
  { exists (mk_exn ImportError "No module named 'weasyprint'").
    split; [reflexivity | ]. right. split; reflexivity. }
  split.
  - apply (proj1 (missing_library_gives_false without_weasyprint H)).
  - apply (proj1 (proj2 (missing_library_gives_false without_weasyprint H)));
      reflexivity.
Defined.

End PdfGenDependencies.

(* ================================================================== *)
(** * The value of a quotient and of a difference *)
(* ================================================================== *)

Module F64Value.

Import F64 F64Facts F64Magnitude.
Local Open Scope Z_scope.

Section Value.

Variables p e : Z.
Hypothesis Hp : 0 < p.
Hypothesis He : 2 <= e.

(** What [shr_fexp] keeps of a mantissa: its quotient by the power of two
    that the exponent has grown by. *)
Lemma shr_fexp_value m ex l :
  0 < m ->
  ex <= fexp p e (Zdigits2 m + ex) ->
  let '(mrs, e') := shr_fexp p e m ex l in
  ex <= e' /\ shr_m mrs = m / 2 ^ (e' - ex).
Proof.
  intros Hm Hex. unfold shr_fexp, shr.
  pose proof (shr_record_of_loc_m m l) as Hrec.
  destruct (fexp p e (Zdigits2 m + ex) - ex) as [|n|n] eqn:Hn; try lia.
  - rewrite Hrec, Z.sub_diag, Z.div_1_r. lia.
  - rewrite iter_shr_1_div by (rewrite Hrec; lia). rewrite Hrec.
    replace (ex + Z.pos n - ex) with (Z.pos n) by lia. lia.
Qed.

(** Rounding keeps the quotient of the mantissa by the power of two that the
    exponent has grown by, or gives the next integer. *)
Lemma binary_round_aux_value s m ex l :
  0 < m ->
  ex <= fexp p e (Zdigits2 m + ex) ->
  SpecFloat.emin p e < Zdigits2 m + ex ->
  Zdigits2 m + ex < e ->
  exists m3 e3,
    binary_round_aux p e s m ex l = S754_finite s m3 e3 /\
    e3 = fexp p e (Zdigits2 (Z.pos m3) + e3) /\
    Zdigits2 m + ex <= Zdigits2 (Z.pos m3) + e3 <= Zdigits2 m + ex + 1 /\
    ex <= e3 /\
    m / 2 ^ (e3 - ex) <= Z.pos m3 <= m / 2 ^ (e3 - ex) + 1.
Proof.
  intros Hm Hex Hmin Hmax. unfold binary_round_aux.
  pose proof (shr_fexp_spec p e Hp m ex l Hm Hex Hmin) as H1.
  pose proof (shr_fexp_value m ex l Hm Hex) as V1.
  destruct (shr_fexp p e m ex l) as [mrs' e'].
  destruct H1 as [He' [Hm1 Hmu1]]. destruct V1 as [Hle1 Hv1].
  set (m2 := round_nearest_even (shr_m mrs') (loc_of_shr_record mrs')).
  pose proof (round_nearest_even_range (shr_m mrs') (loc_of_shr_record mrs'))
    as Hr. fold m2 in Hr.
  assert (Hm2 : 0 < m2) by lia.
  assert (Hd2 : Zdigits2 (shr_m mrs') <= Zdigits2 m2
                <= Zdigits2 (shr_m mrs') + 1).
  { split.
    - apply Zdigits2_mono; lia.
    - etransitivity; [ | apply Zdigits2_succ; exact Hm1].
      apply Zdigits2_mono; lia. }
  assert (Hex2 : e' <= fexp p e (Zdigits2 m2 + e')).
  { rewrite He' at 1. apply fexp_mono. lia. }
  pose proof (shr_fexp_spec p e Hp m2 e' loc_Exact Hm2 Hex2 ltac:(lia)) as H2.
  pose proof (shr_fexp_value m2 e' loc_Exact Hm2 Hex2) as V2.
  destruct (shr_fexp p e m2 e' loc_Exact) as [mrs'' e''].
  destruct H2 as [He'' [Hm3 Hmu3]]. destruct V2 as [Hle2 Hv2].
  destruct (shr_m mrs'') as [|m3|m3] eqn:E3; try lia.
  assert (Hle : (e'' <=? e - p) = true).
  { apply Z.leb_le. rewrite He''. unfold fexp, SpecFloat.emin. lia. }
  rewrite Hle. exists m3, e''. split; [reflexivity | ].
  split; [rewrite Hmu3; exact He'' | ].
  split; [lia | ]. split; [lia | ].
  assert (Hp1 : 0 < 2 ^ (e' - ex)) by (apply Z.pow_pos_nonneg; lia).
  assert (Hp2 : 0 < 2 ^ (e'' - e')) by (apply Z.pow_pos_nonneg; lia).
  assert (Hsplit : m / 2 ^ (e'' - ex) = shr_m mrs' / 2 ^ (e'' - e')).
  { rewrite Hv1, Z.div_div by lia. rewrite <- Z.pow_add_r by lia.
    f_equal. f_equal. lia. }
  rewrite Hsplit, Hv2.
  split.
  - apply Z.div_le_mono; lia.
  - apply Z.le_trans with ((shr_m mrs' + 1) / 2 ^ (e'' - e')).
    + apply Z.div_le_mono; lia.
    + apply Z.div_le_upper_bound; [lia | ].
      pose proof (Z.mul_succ_div_gt (shr_m mrs') (2 ^ (e'' - e')) Hp2). lia.
Qed.

(** The quotient that the division hands to the rounding, as a number. *)
Lemma div_core_value mx ex my ey :
  let '(q, e', l) := SFdiv_core_binary p e (Z.pos mx) ex (Z.pos my) ey in
  e' = Z.min (fexp p e (Zdigits2 (Z.pos mx) + ex - (Zdigits2 (Z.pos my) + ey)))
             (ex - ey) /\
  q = Z.pos mx * 2 ^ (ex - ey - e') / Z.pos my.
Proof.
  unfold SFdiv_core_binary.
  set (e' := Z.min (fexp p e (Zdigits2 (Z.pos mx) + ex
                              - (Zdigits2 (Z.pos my) + ey))) (ex - ey)).
  set (s := ex - ey - e').
  assert (Hs : 0 <= s) by (subst s e'; lia).
  set (m' := match s with Z0 => Z.pos mx | Z.pos _ => Z.shiftl (Z.pos mx) s
                     | Z.neg _ => 0 end).
  assert (Hm' : m' = Z.pos mx * 2 ^ s).
  { subst m'. destruct s as [|n|n] eqn:Es; try lia.
    rewrite Z.shiftl_mul_pow2 by lia. reflexivity. }
  assert (Hq : fst (Z.div_eucl m' (Z.pos my)) = m' / Z.pos my) by reflexivity.
  destruct (Z.div_eucl m' (Z.pos my)) as [q r]. cbn [fst] in Hq. subst q.
  rewrite Hm'. split; reflexivity.
Qed.

(** Shifting a mantissa to the left multiplies it by a power of two. *)
Lemma iter_xO_pow2 mx k :
  Z.pos (Pos.iter xO mx k) = Z.pos mx * 2 ^ Z.pos k.
Proof.
  induction k as [|k IH] using Pos.peano_ind.
  - cbn [Pos.iter]. lia.
  - rewrite Pos.iter_succ, Pos2Z.inj_xO, IH, Pos2Z.inj_succ, Z.pow_succ_r by lia.
    lia.
Qed.

(** An integer of at most [p] digits, at a magnitude within the range of the
    format, is represented as it is. *)
Lemma binary_round_exact s mx ex :
  Zdigits2 (Z.pos mx) <= p ->
  SpecFloat.emin p e + p <= Zdigits2 (Z.pos mx) + ex ->
  Zdigits2 (Z.pos mx) + ex <= e ->
  exists mz,
    binary_round p e s mx ex
    = S754_finite s mz (Zdigits2 (Z.pos mx) + ex - p) /\
    Z.pos mz = Z.pos mx * 2 ^ (p - Zdigits2 (Z.pos mx)).
Proof.
  intros Hd Hmin Hmax. unfold binary_round.
  change (Z.pos (digits2_pos mx)) with (Zdigits2 (Z.pos mx)).
  set (d := Zdigits2 (Z.pos mx)) in *.
  assert (Hfexp : fexp p e (d + ex) = d + ex - p) by (unfold fexp; lia).
  assert (Hmz : exists mz,
             shl_align mx ex (fexp p e (d + ex)) = (mz, d + ex - p) /\
             Z.pos mz = Z.pos mx * 2 ^ (p - d)).
  { unfold shl_align. rewrite Hfexp.
    destruct (d + ex - p - ex) as [|k|k] eqn:Hk; try lia.
    - exists mx. replace (p - d) with 0 by lia.
      split; [f_equal; lia | lia].
    - exists (Pos.iter xO mx k). split; [reflexivity | ].
      rewrite iter_xO_pow2. f_equal. f_equal. lia. }
  destruct Hmz as [mz [-> Hz]]. exists mz. split; [ | exact Hz].
  pose proof (Zdigits2_spec mx) as [Hlo Hhi]. fold d in Hlo, Hhi.
  assert (Hdpos : 0 < d) by (subst d; cbn; lia).
  assert (Hdz : Zdigits2 (Z.pos mz) = p).
  { apply Zdigits2_unique; [lia | ]. rewrite Hz.
    assert (Hpk : 0 < 2 ^ (p - d)) by (apply Z.pow_pos_nonneg; lia).
    assert (Hp1 : 2 ^ (p - 1) = 2 ^ (d - 1) * 2 ^ (p - d)).
    { rewrite <- Z.pow_add_r by lia. f_equal. lia. }
    assert (Hp2 : 2 ^ p = 2 ^ d * 2 ^ (p - d)).
    { rewrite <- Z.pow_add_r by lia. f_equal. lia. }
    rewrite Hp1, Hp2.
    split; [apply Z.mul_le_mono_nonneg_r; lia
           | apply Z.mul_lt_mono_pos_r; lia]. }
  unfold binary_round_aux.
  assert (Hshr : forall l,
             shr_fexp p e (Z.pos mz) (d + ex - p) l
             = (shr_record_of_loc (Z.pos mz) l, d + ex - p)).
  { intros l. unfold shr_fexp. rewrite Hdz.
    replace (fexp p e (p + (d + ex - p)) - (d + ex - p)) with 0
      by (unfold fexp; lia).
    reflexivity. }
  rewrite Hshr. cbn [shr_record_of_loc shr_m loc_of_shr_record round_nearest_even].
  rewrite Hshr. cbn [shr_record_of_loc shr_m].
  replace (d + ex - p <=? e - p) with true by (symmetry; apply Z.leb_le; lia).
  reflexivity.
Qed.

End Value.

(** ** The quotient of a capacity of the standard range by 1000 *)

Lemma div_bounds a b : 0 < b -> b * (a / b) <= a < b * (a / b) + b.
Proof.
  intros Hb. pose proof (Z.mul_div_le a b Hb).
  pose proof (Z.mul_succ_div_gt a b Hb). lia.
Qed.

Lemma standard_quotient_bounds z s e3 m3 :
  8000 <= z <= 12000 ->
  s = 50 /\ z < 8192 \/ s = 49 /\ 8192 <= z ->
  - s <= e3 -> -50 <= e3 <= -47 ->
  2 ^ 52 <= m3 < 2 ^ 53 ->
  z * 2 ^ s / 1000 / 2 ^ (e3 + s) <= m3 <= z * 2 ^ s / 1000 / 2 ^ (e3 + s) + 1 ->
  e3 = -49 /\ z * 2 ^ 49 - 1000 <= 1000 * m3 <= z * 2 ^ 49 + 1000.
Proof.
  intros Hz Hs Hle He3 Hm3.
  assert (E3 : e3 = -50 \/ e3 = -49 \/ e3 = -48 \/ e3 = -47) by lia.
  destruct Hs as [[-> Hr]|[-> Hr]];
    destruct E3 as [->|[->|[->| ->]]]; try lia;
    match goal with
    | |- z * ?a / 1000 / ?b <= _ <= _ -> _ =>
        let a' := eval vm_compute in a in
        let b' := eval vm_compute in b in
        change a with a'; change b with b';
        pose proof (div_bounds (z * a') 1000 eq_refl);
        pose proof (div_bounds (z * a' / 1000) b' eq_refl)
    end;
    intros Hv; change (2 ^ 52) with 4503599627370496 in *;
    change (2 ^ 53) with 9007199254740992 in *;
    change (2 ^ 49) with 562949953421312 in *; lia.
Qed.

(** [z / 1000] for an integer [z] between 8000 and 12000: a number whose
    exponent is [-49] and whose mantissa is within one unit of
    [z * 2 ^ 49 / 1000]. *)
Lemma standard_quotient z :
  8000 <= z <= 12000 ->
  exists m,
    fdiv (PyNum.raw_of_Z z) (PyNum.raw_of_Z 1000) = S754_finite false m (-49) /\
    2 ^ 52 <= Z.pos m < 2 ^ 53 /\
    z * 2 ^ 49 - 1000 <= 1000 * Z.pos m <= z * 2 ^ 49 + 1000.
Proof.
  intros Hz. destruct z as [|pz|pz]; try lia.
  cbn [PyNum.raw_of_Z]. unfold fdiv, SFdiv.
  assert (Hdz : Zdigits2 (Z.pos pz) = 13 /\ Z.pos pz < 8192
                \/ Zdigits2 (Z.pos pz) = 14 /\ 8192 <= Z.pos pz).
  { destruct (Z.ltb_spec (Z.pos pz) 8192) as [Hlt|Hge]; [left | right];
      (split; [apply Zdigits2_unique; [lia | ]; split; [ | ]; cbn; lia | lia]). }
  pose proof (div_core_value prec emax pz 0 1000 0) as Hv.
  pose proof (div_core_normal prec emax eq_refl pz 0 1000 0) as Hcore.
  destruct (SFdiv_core_binary prec emax (Z.pos pz) 0 (Z.pos 1000) 0)
    as [[q e'] l].
  destruct Hv as [He' Hq].
  change (Zdigits2 (Z.pos 1000)) with 10 in *.
  destruct Hcore as [Hqpos [Hex Hmu]];
    [unfold SpecFloat.emin, prec, emax; lia | ].
  destruct (binary_round_aux_value prec emax eq_refl ltac:(unfold emax; lia)
              (xorb false false) q e' l Hqpos Hex)
    as [m3 [e3 [-> [Hc [Hmu3 [Hle Hval]]]]]];
    [unfold SpecFloat.emin, prec, emax; lia | unfold emax; lia | ].
  cbn [xorb].
  assert (Hd3 : Zdigits2 (Z.pos m3) = 53).
  { unfold fexp, SpecFloat.emin, prec, emax in Hc. lia. }
  pose proof (Zdigits2_spec m3) as Hm3. rewrite Hd3 in Hm3.
  change (53 - 1) with 52 in Hm3.
  assert (Hs : (- e' = 50 /\ Z.pos pz < 8192) \/ (- e' = 49 /\ 8192 <= Z.pos pz)).
  { unfold fexp, SpecFloat.emin, prec, emax in He'. lia. }
  replace (0 - 0 - e') with (- e') in Hq by lia.
  replace (e3 - e') with (e3 + - e') in Hval by lia.
  rewrite Hq in Hval.
  destruct (standard_quotient_bounds (Z.pos pz) (- e') e3 (Z.pos m3) Hz Hs)
    as [-> Hb]; try assumption; try lia.
  exists m3. split; [reflexivity | ]. split; assumption.
Qed.

End F64Value.

(* ================================================================== *)
(** * The capacities of the standard range that pass the verification *)
(* ================================================================== *)

Module CapacityVerdict.

Import Py F64 PyNum TankDesign F64Facts PyNumFacts TankDesignFacts.
Import F64Magnitude F64Value.
Local Open Scope Z_scope.

(** An integer below [2 ^ 53], counted in units of [2 ^ -49], is below 0.5
    exactly when it is below [2 ^ 48]. *)
Lemma units_below_half s k :
  Z.pos k < 2 ^ 53 ->
  py_lt (Flt (fabs (binary_round prec emax s k (-49)))) (Flt f_0_5)
  = Ok (Z.pos k <? 2 ^ 48).
Proof.
  intros Hk.
  pose proof (Zdigits2_spec k) as [Hlo Hhi].
  assert (Hd : Zdigits2 (Z.pos k) <= 53) by (apply Zdigits2_bound; lia).
  assert (Hdpos : 0 < Zdigits2 (Z.pos k)) by (cbn; lia).
  destruct (binary_round_exact prec emax eq_refl s k (-49))
    as [mz [-> Hz]];
    try (unfold SpecFloat.emin, prec, emax; lia).
  set (d := Zdigits2 (Z.pos k)) in *. clearbody d.
  cbn [fabs SFabs]. unfold py_lt. cbn [compare_num bind].
  change f_0_5 with (S754_finite false 4503599627370496 (-53)).
  cbn [SFcompare]. unfold prec.
  destruct (Z.compare_spec (d + -49 - 53) (-53)) as [E|E|E].
  - assert (Ed : d = 49) by lia. subst d.
    rewrite Pos.compare_cont_spec.
    unfold prec in Hz. change (2 ^ (53 - 49)) with 16 in Hz.
    change (2 ^ (49 - 1)) with 281474976710656 in Hlo.
    destruct (Z.ltb_spec (Z.pos k) (2 ^ 48)) as [Hlt|Hge];
      [change (2 ^ 48) with 281474976710656 in Hlt; lia | ].
    destruct (Pos.compare_spec mz 4503599627370496) as [C|C|C];
      cbn [Pos.switch_Eq]; try reflexivity.
    apply Pos2Z.pos_lt_pos in C. lia.
  - destruct (Z.ltb_spec (Z.pos k) (2 ^ 48)) as [Hlt|Hge]; [reflexivity | ].
    assert (H : 2 ^ d <= 2 ^ 48) by (apply Z.pow_le_mono_r; lia). lia.
  - destruct (Z.ltb_spec (Z.pos k) (2 ^ 48)) as [Hlt|Hge]; [ | reflexivity].
    assert (H : 2 ^ 49 <= 2 ^ (d - 1)) by (apply Z.pow_le_mono_r; lia).
    change (2 ^ 49) with 562949953421312 in H.
    change (2 ^ 48) with 281474976710656 in Hlt. lia.
Qed.

(** The test [abs(volume - capacity_m3) < 0.5] on two numbers between 8 and
    16: it compares their mantissas. *)
Lemma close_mantissas V m :
  2 ^ 52 <= Z.pos V < 2 ^ 53 -> 2 ^ 52 <= Z.pos m < 2 ^ 53 ->
  py_lt (Flt (fabs (fsub (S754_finite false V (-49))
                         (S754_finite false m (-49))))) (Flt f_0_5)
  = Ok (Z.abs (Z.pos V - Z.pos m) <? 2 ^ 48).
Proof.
  intros HV Hm. unfold fsub, SFsub.
  change (Z.min (-49) (-49)) with (-49).
  unfold shl_align. change (-49 - -49) with 0. cbn [fst cond_Zopp].
  unfold binary_normalize.
  destruct (Z.pos V - Z.pos m) as [|k|k] eqn:E.
  - reflexivity.
  - apply units_below_half. lia.
  - rewrite units_below_half by lia. reflexivity.
Qed.

(** The volume that the report computes for the standard proportions, for
    each of the squares that an accurate [pow] may return. *)
Definition standard_volume (r : float) : float :=
  fmul (fmul pi r) (fdiv f_3680 (of_Z 1000)).

(** The verdict for a capacity of the standard range. *)
Definition standard_verdict (z : Z) : bool := (9607 <=? z) && (z <=? 10606).

Lemma standard_volume_verdict r z :
  r = fpred (fmul f_0_935 f_0_935) \/ r = fmul f_0_935 f_0_935
  \/ r = fsucc (fmul f_0_935 f_0_935) ->
  8000 <= z <= 12000 ->
  py_lt (Flt (fabs (fsub (standard_volume r)
                         (fdiv (raw_of_Z z) (raw_of_Z 1000))))) (Flt f_0_5)
  = Ok (standard_verdict z).
Proof.
  intros Hr Hz.
  destruct (standard_quotient z Hz) as [m [-> [Hm Hb]]].
  assert (HV : exists V,
             standard_volume r = S754_finite false V (-49) /\
             5689717458865690 <= Z.pos V <= 5689717458865710).
  { destruct Hr as [->|[->| ->]]; eexists;
      (split; [vm_compute; reflexivity | lia]). }
  destruct HV as [V [-> HV]].
  change (2 ^ 52) with 4503599627370496 in Hm.
  change (2 ^ 53) with 9007199254740992 in Hm.
  change (2 ^ 49) with 562949953421312 in Hb.
  rewrite close_mantissas
    by (change (2 ^ 52) with 4503599627370496;
        change (2 ^ 53) with 9007199254740992; lia).
  f_equal. unfold standard_verdict.
  change (2 ^ 48) with 281474976710656.
  destruct (Z.ltb_spec (Z.abs (Z.pos V - Z.pos m)) 281474976710656);
    destruct (Z.leb_spec 9607 z); destruct (Z.leb_spec z 10606);
    cbn [andb]; try reflexivity; exfalso; lia.
Qed.

Lemma standard_check L z :
  pow_square_accurate L f_0_935 ->
  8000 <= z <= 12000 ->
  capacity_check L (Flt f_1870) (Flt f_3680) (Int z)
  = Ok (standard_verdict z).
Proof.
  intros [r [Hr Hcases]] Hz. unfold capacity_check.
  rewrite py_truediv_FI by reflexivity.
  change (fdiv f_1870 (of_Z 2000)) with f_0_935. cbn [bind].
  assert (Hpow : py_pow L (Flt f_0_935) (Int 2) = Ok (Flt r)).
  { cbn [py_pow to_float bind]. rewrite int_to_float_small by reflexivity.
    cbn [bind]. unfold float_pow.
    change (of_Z 2) with f_2.
    change (is_zero f_2) with false. change (is_nan f_0_935) with false.
    change (is_nan f_2) with false. change (is_inf f_2) with false.
    change (is_inf f_0_935) with false. change (is_zero f_0_935) with false.
    change (fltb f_0_935 pzero) with false. cbn [andb].
    change (feqb (fabs f_0_935) one) with false.
    change (fabs f_0_935) with f_0_935. cbv iota.
    rewrite Hr.
    destruct Hcases as [->|[->| ->]]; reflexivity. }
  rewrite Hpow. cbn [bind]. rewrite py_mul_FF. cbn [bind].
  rewrite py_truediv_FI by reflexivity. cbn [bind].
  rewrite py_mul_FF. cbn [bind].
  cbn [py_truediv]. unfold int_true_divide.
  change (1000 =? 0) with false. cbv iota.
  rewrite (raw_quotient_finite z 1000) by lia. cbn [bind].
  rewrite py_sub_FF. cbn [bind py_abs].
  exact (standard_volume_verdict r z Hcases Hz).
Qed.

(** X16.  For an integer capacity of the standard range, from 8000 to 12000
    litres, and a C library whose [pow] squares 0.935 to within one unit in
    the last place, the construction completes and the Capacity Match field
    of the report is PASS exactly for the capacities from 9607 to 10606
    litres; it is FAIL for every other capacity of the range. *)
Theorem standard_range_capacity_match L z :
  pow_square_accurate L f_0_935 ->
  8000 <= z <= 12000 ->
  exists self,
    ProfessionalTankDesigner L (Int z) = (self, Ok tt) /\
    snd (capacity_match L self)
    = Ok (if (9607 <=? z) && (z <=? 10606) then PASS else FAIL).
Proof.
  intros Hpow Hz.
  assert (Hb : py_between (Int 8000) (Int z) (Int 12000) = Ok true).
  { rewrite py_between_int. f_equal. apply andb_true_intro.
    split; apply Z.leb_le; lia. }
  destruct (standard_construction L (Int z) Hb) as [self Hself].
  exists self. split; [exact Hself | ].
  destruct (construction_ok L (Int z) self Hself)
    as [d [[m3 [Hm3 Hm]] Hp _ Hd _ _ _ _]].
  destruct Hp as [[_ [-> [Hl _]]]|[Hb' _]]; [ | congruence].
  rewrite (capacity_match_run L self (Flt f_1870) (Flt f_3680) (Int z) m3);
    try (apply attribute_lookup; assumption); try exact Hm3.
  rewrite (standard_check L z Hpow Hz). reflexivity.
Qed.

(** The default capacity of [main], on the sample C library. *)
Lemma standard_range_capacity_match_witness :
  exists self,
    ProfessionalTankDesigner SampleLibm.libc (Int 10000) = (self, Ok tt) /\
    snd (capacity_match SampleLibm.libc self) = Ok PASS.
Proof.
  apply (standard_range_capacity_match SampleLibm.libc 10000).
  - exact (SampleLibmFacts.libc_pow_square_accurate f_0_935).
  - lia.
Defined.

End CapacityVerdict.

(* ================================================================== *)
(** * Rounding at any magnitude below the overflow threshold *)
(* ================================================================== *)

Module F64Rounding.

Import F64 F64Facts F64Magnitude F64Value.
Local Open Scope Z_scope.

Section General.

Variables p e : Z.
Hypothesis Hp : 0 < p.
Hypothesis He : 2 <= e.

Lemma fexp_emin a : SpecFloat.emin p e <= fexp p e a.
Proof. unfold fexp. lia. Qed.

Lemma shr_fexp_general m ex l :
  0 <= m ->
  ex <= fexp p e (Zdigits2 m + ex) ->
  let '(mrs, e') := shr_fexp p e m ex l in
  e' = fexp p e (Zdigits2 m + ex) /\ ex <= e' /\
  shr_m mrs = m / 2 ^ (e' - ex).
Proof.
  intros Hm Hex. unfold shr_fexp, shr.
  pose proof (shr_record_of_loc_m m l) as Hrec.
  destruct (fexp p e (Zdigits2 m + ex) - ex) as [|n|n] eqn:Hn; try lia.
  - rewrite Hrec, Z.sub_diag, Z.div_1_r. lia.
  - rewrite iter_shr_1_div by (rewrite Hrec; lia). rewrite Hrec.
    replace (ex + Z.pos n - ex) with (Z.pos n) by lia. lia.
Qed.

Lemma Zdigits2_div m n :
  0 <= m -> 0 <= n -> Zdigits2 (m / 2 ^ n) <= Z.max 0 (Zdigits2 m - n).
Proof.
  intros Hm Hn. destruct m as [|q|q]; try lia.
  - rewrite Z.div_0_l by (apply Z.pow_nonzero; lia). cbn. lia.
  - pose proof (Zdigits2_spec q) as [_ Hhi].
    set (d := Zdigits2 (Z.pos q)) in *.
    assert (Hd : 0 < d) by (subst d; cbn; lia).
    assert (Hpn : 0 < 2 ^ n) by (apply Z.pow_pos_nonneg; lia).
    destruct (Z.le_gt_cases d n) as [Hle|Hgt].
    + rewrite Z.div_small; [cbn; lia | ].
      split; [lia | ].
      apply Z.lt_le_trans with (2 ^ d); [exact Hhi | ].
      apply Z.pow_le_mono_r; lia.
    + rewrite Z.max_r by lia. apply Zdigits2_bound; [lia | ].
      split; [apply Z.div_pos; lia | ].
      apply Z.div_lt_upper_bound; [lia | ].
      rewrite <- Z.pow_add_r by lia.
      replace (n + (d - n)) with d by lia. exact Hhi.
Qed.

Lemma Zdigits2_nonneg m : 0 <= Zdigits2 m.
Proof. destruct m; cbn; lia. Qed.

(** Rounding a mantissa that has digits to spare, below the overflow
    threshold: the result is a zero, or a finite number in canonical form
    whose mantissa is the quotient of the given one by the power of two that
    the exponent has grown by, or the next integer. *)
Lemma binary_round_aux_general s m ex l :
  0 <= m ->
  ex <= fexp p e (Zdigits2 m + ex) ->
  Zdigits2 m + ex < e ->
  binary_round_aux p e s m ex l = S754_zero s \/
  exists m3 e3,
    binary_round_aux p e s m ex l = S754_finite s m3 e3 /\
    e3 = fexp p e (Zdigits2 (Z.pos m3) + e3) /\
    e3 <= e - p /\
    ex <= e3 /\
    m / 2 ^ (e3 - ex) <= Z.pos m3 <= m / 2 ^ (e3 - ex) + 1 /\
    Zdigits2 (Z.pos m3) + e3
    <= Z.max (Zdigits2 m + ex) (SpecFloat.emin p e) + 1.
Proof.
  intros Hm Hex Hmax. unfold binary_round_aux.
  pose proof (shr_fexp_general m ex l Hm Hex) as V1.
  pose proof (shr_fexp_spec p e Hp m ex l) as S1.
  destruct (shr_fexp p e m ex l) as [mrs' e'].
  destruct V1 as [He' [Hle1 Hv1]].
  pose proof (fexp_emin (Zdigits2 m + ex)) as Hemin. rewrite <- He' in Hemin.
  set (m1 := shr_m mrs') in *.
  assert (Hm1 : 0 <= m1).
  { rewrite Hv1. apply Z.div_pos; [lia | apply Z.pow_pos_nonneg; lia]. }
  set (m2 := round_nearest_even m1 (loc_of_shr_record mrs')).
  pose proof (round_nearest_even_range m1 (loc_of_shr_record mrs')) as Hr.
  fold m2 in Hr.
  destruct (Z.eq_dec m2 0) as [Hz|Hnz].
  - left. rewrite Hz. unfold shr_fexp, shr.
    change (Zdigits2 0) with 0.
    assert (Hn : fexp p e (0 + e') - e' <= 0) by (unfold fexp; lia).
    destruct (fexp p e (0 + e') - e') as [|n|n]; try lia;
      rewrite shr_record_of_loc_m; reflexivity.
  - right.
    assert (Hm2 : 0 < m2) by lia.
    assert (Hd1 : Zdigits2 m1 <= Z.max 0 (Zdigits2 m - (e' - ex))).
    { rewrite Hv1. apply Zdigits2_div; lia. }
    assert (Hd2 : Zdigits2 m1 <= Zdigits2 m2 <= Zdigits2 m1 + 1).
    { destruct (Z.eq_dec m1 0) as [E|E].
      - rewrite E in *. change (Zdigits2 0) with 0.
        assert (E2 : m2 = 1) by lia. rewrite E2. cbn. lia.
      - split.
        + apply Zdigits2_mono; lia.
        + etransitivity; [ | apply Zdigits2_succ; lia].
          apply Zdigits2_mono; lia. }
    assert (Hex2 : e' <= fexp p e (Zdigits2 m2 + e')).
    { destruct (Z.eq_dec e' (SpecFloat.emin p e)) as [E|E].
      - rewrite E at 1. apply fexp_emin.
      - assert (Hmpos : 0 < m).
        { destruct (Z.eq_dec m 0) as [E0|E0]; [ | lia].
          exfalso. rewrite E0 in *. change (Zdigits2 0) with 0 in *.
          unfold fexp in *. lia. }
        destruct (S1 Hmpos Hex) as [_ [Hm1pos Hmu1]];
          [unfold fexp in *; lia | ].
        fold m1 in Hmu1, Hm1pos.
        rewrite He' at 1. rewrite <- Hmu1. apply fexp_mono. lia. }
    pose proof (Zdigits2_pos m2 Hm2) as Hd2pos.
    pose proof (shr_fexp_spec p e Hp m2 e' loc_Exact Hm2 Hex2 ltac:(lia)) as S2.
    pose proof (shr_fexp_general m2 e' loc_Exact ltac:(lia) Hex2) as V2.
    destruct (shr_fexp p e m2 e' loc_Exact) as [mrs'' e''].
    destruct S2 as [He'' [Hm3 Hmu3]]. destruct V2 as [_ [Hle2 Hv2]].
    destruct (shr_m mrs'') as [|m3|m3] eqn:E3; try lia.
    pose proof (Zdigits2_nonneg m) as Hdm.
    assert (Hmag : Zdigits2 m2 + e'
                   <= Z.max (Zdigits2 m + ex) (SpecFloat.emin p e) + 1).
    { unfold fexp in He'. lia. }
    assert (Hle : (e'' <=? e - p) = true).
    { apply Z.leb_le. rewrite He''. unfold fexp, SpecFloat.emin in *. lia. }
    rewrite Hle. exists m3, e''. split; [reflexivity | ].
    split; [rewrite Hmu3; exact He'' | ].
    split; [apply Z.leb_le; exact Hle | ].
    split; [lia | ]. split; [ | lia].
    assert (Hp1 : 0 < 2 ^ (e' - ex)) by (apply Z.pow_pos_nonneg; lia).
    assert (Hp2 : 0 < 2 ^ (e'' - e')) by (apply Z.pow_pos_nonneg; lia).
    assert (Hsplit : m / 2 ^ (e'' - ex) = m1 / 2 ^ (e'' - e')).
    { rewrite Hv1, Z.div_div by lia. rewrite <- Z.pow_add_r by lia.
      f_equal. f_equal. lia. }
    rewrite Hsplit, Hv2.
    split.
    + apply Z.div_le_mono; lia.
    + apply Z.le_trans with ((m1 + 1) / 2 ^ (e'' - e')).
      * apply Z.div_le_mono; lia.
      * apply Z.div_le_upper_bound; [lia | ].
        pose proof (Z.mul_succ_div_gt m1 (2 ^ (e'' - e')) Hp2). lia.
Qed.

(** The quotient that the division hands to the rounding, at any
    magnitude. *)
Lemma div_core_general mx ex my ey :
  let '(q, e', l) := SFdiv_core_binary p e (Z.pos mx) ex (Z.pos my) ey in
  0 <= q /\ e' <= fexp p e (Zdigits2 q + e') /\
  e' <= ex - ey /\
  q = Z.pos mx * 2 ^ (ex - ey - e') / Z.pos my /\
  Zdigits2 q + e'
  <= Z.max (Zdigits2 (Z.pos mx) + ex - (Zdigits2 (Z.pos my) + ey) + 1)
           (SpecFloat.emin p e).
Proof.
  pose proof (div_core_value p e mx ex my ey) as V.
  pose proof (div_core_normal p e Hp mx ex my ey) as N.
  destruct (SFdiv_core_binary p e (Z.pos mx) ex (Z.pos my) ey) as [[q e'] l].
  destruct V as [He' Hq].
  pose proof (Zdigits2_spec mx) as [Hxlo Hxhi].
  pose proof (Zdigits2_spec my) as [Hylo Hyhi].
  set (dx := Zdigits2 (Z.pos mx)) in *. set (dy := Zdigits2 (Z.pos my)) in *.
  assert (Hdx : 0 < dx) by (subst dx; cbn; lia).
  assert (Hdy : 0 < dy) by (subst dy; cbn; lia).
  set (s := ex - ey - e') in *.
  assert (Hs : 0 <= s) by (subst s; lia).
  assert (Hps : 0 < 2 ^ s) by (apply Z.pow_pos_nonneg; lia).
  assert (Hq0 : 0 <= q).
  { rewrite Hq. apply Z.div_pos; lia. }
  split; [exact Hq0 | ].
  assert (Hdq : Zdigits2 q <= Z.max 0 (dx + s - dy + 1)).
  { destruct (Z.le_gt_cases 0 (dx + s - dy + 1)) as [Hk|Hk].
    - rewrite Z.max_r by lia.
      apply Zdigits2_bound; [lia | ]. split; [exact Hq0 | ].
      rewrite Hq. apply Z.div_lt_upper_bound; [lia | ].
      apply Z.lt_le_trans with (2 ^ (dy - 1) * 2 ^ (dx + s - dy + 1)).
      + rewrite <- Z.pow_add_r by lia.
        replace (dy - 1 + (dx + s - dy + 1)) with (dx + s) by lia.
        rewrite Z.pow_add_r by lia.
        apply Z.mul_lt_mono_pos_r; lia.
      + apply Z.mul_le_mono_nonneg_r; [apply Z.pow_nonneg; lia | lia].
    - rewrite Z.max_l by lia.
      assert (E : q = 0); [ | rewrite E; cbn; lia].
      rewrite Hq. apply Z.div_small. split; [lia | ].
      apply Z.lt_le_trans with (2 ^ (dx + s)).
      + rewrite Z.pow_add_r by lia. apply Z.mul_lt_mono_pos_r; lia.
      + apply Z.le_trans with (2 ^ (dy - 1)); [ | lia].
        apply Z.pow_le_mono_r; lia. }
  assert (Hfe : e' <= fexp p e (dx + ex - (dy + ey))) by lia.
  split; [ | split; [lia | split; [exact Hq | ]]];
    [ | subst s; unfold fexp in Hfe; lia].
  destruct (Z.le_gt_cases (SpecFloat.emin p e + p) (dx + ex - (dy + ey)))
    as [Hn|Hu].
  - destruct (N Hn) as [_ [H _]]. exact H.
  - apply Z.le_trans with (SpecFloat.emin p e); [ | apply fexp_emin].
    rewrite He'. unfold fexp. lia.
Qed.

End General.

End F64Rounding.

From Stdlib Require Import QArith Qpower Lqa.

(* ================================================================== *)
(** * Bounds on the values of binary64 results *)
(* ================================================================== *)

Module F64Bounds.

Import F64 F64Facts F64Magnitude F64Value F64Rounding.
Local Open Scope Z_scope.
Local Open Scope Q_scope.

(** ** Powers of two *)

Lemma pow2_pos e : 0 < 2 ^ e.
Proof. apply Qpower_0_lt. reflexivity. Qed.

Lemma pow2_add a b : 2 ^ (a + b) == 2 ^ a * 2 ^ b.
Proof. apply Qpower_plus. discriminate. Qed.

Lemma pow2_Z n : (0 <= n)%Z -> inject_Z (2 ^ n) == 2 ^ n.
Proof. intros H. rewrite Zpower_Qpower by exact H. reflexivity. Qed.

Lemma pow2_le a b : (a <= b)%Z -> 2 ^ a <= 2 ^ b.
Proof. intros H. apply Qpower_le_compat_l; [exact H | discriminate]. Qed.

Lemma pow2_lt a b : (a < b)%Z -> 2 ^ a < 2 ^ b.
Proof. intros H. apply Qpower_lt_compat_l; [exact H | reflexivity]. Qed.

(** ** The value of a positive finite number *)

(** [m * 2 ^ e]. *)
Definition Qmag (m : positive) (e : Z) : Q := inject_Z (Z.pos m) * 2 ^ e.

Lemma Qmag_pos m e : 0 < Qmag m e.
Proof.
  unfold Qmag. apply Qmult_lt_0_compat; [reflexivity | apply pow2_pos].
Qed.

Lemma Qmag_digits m e :
  2 ^ (Zdigits2 (Z.pos m) - 1 + e) <= Qmag m e
  /\ Qmag m e < 2 ^ (Zdigits2 (Z.pos m) + e).
Proof.
  pose proof (Zdigits2_spec m) as [Hlo Hhi].
  pose proof (Zdigits2_pos (Z.pos m) eq_refl) as Hd.
  unfold Qmag. rewrite !pow2_add. split.
  - apply Qmult_le_compat_r; [ | apply Qlt_le_weak, pow2_pos].
    rewrite <- pow2_Z by lia. rewrite <- Zle_Qle. exact Hlo.
  - apply Qmult_lt_compat_r; [apply pow2_pos | ].
    rewrite <- pow2_Z by lia. rewrite <- Zlt_Qlt. exact Hhi.
Qed.

(** The relative and the absolute error of a rounding: half a unit in the
    last place of a number with all its digits is below [u] times the number;
    a number with fewer digits has the least exponent, and a unit in its last
    place is below [eta]. *)
Definition u : Q := 1 # 4503599627370496.
Definition eta : Q := 1 # 1267650600228229401496703205376.

Lemma u_pow2 : u == 2 ^ (-52).
Proof. reflexivity. Qed.

Lemma eta_pow2 : eta == 2 ^ (-100).
Proof. reflexivity. Qed.

(** A finite number in canonical form. *)
Definition canonical (m : positive) (e : Z) : Prop :=
  e = fexp prec emax (Zdigits2 (Z.pos m) + e) /\ (e <= emax - prec)%Z.

Lemma canonical_valid s m e :
  canonical m e <-> valid_binary prec emax (S754_finite s m e) = true.
Proof.
  unfold canonical, valid_binary, bounded, canonical_mantissa.
  change (Z.pos (digits2_pos m)) with (Zdigits2 (Z.pos m)).
  rewrite andb_true_iff, Z.eqb_eq, Z.leb_le. split; intros [H1 H2]; auto.
Qed.

Lemma canonical_digits m e : canonical m e -> (Zdigits2 (Z.pos m) <= prec)%Z.
Proof. intros [H _]. unfold fexp in H. lia. Qed.

Lemma canonical_ulp m e :
  canonical m e -> 2 ^ e <= eta \/ 2 ^ e <= u * Qmag m e.
Proof.
  intros [H _].
  destruct (Z.eq_dec e (SpecFloat.emin prec emax)) as [E|E].
  - left. rewrite E, eta_pow2. apply pow2_le. vm_compute. discriminate.
  - right.
    assert (Hd : Zdigits2 (Z.pos m) = 53%Z).
    { unfold fexp, SpecFloat.emin, prec, emax in *. lia. }
    pose proof (Qmag_digits m e) as [Hlo _]. rewrite Hd in Hlo.
    rewrite u_pow2.
    apply Qle_trans with (2 ^ (-52) * 2 ^ (53 - 1 + e)).
    + rewrite <- pow2_add. apply pow2_le. lia.
    + apply Qmult_le_l; [apply pow2_pos | exact Hlo].
Qed.

(** The mantissa that a rounding returns, as a value. *)
Lemma round_value m ex m3 e3 :
  (0 <= m)%Z -> (ex <= e3)%Z ->
  (m / 2 ^ (e3 - ex) <= Z.pos m3 <= m / 2 ^ (e3 - ex) + 1)%Z ->
  inject_Z m * 2 ^ ex - 2 ^ e3 < Qmag m3 e3
  /\ Qmag m3 e3 <= inject_Z m * 2 ^ ex + 2 ^ e3.
Proof.
  intros Hm Hle [Hlo Hhi].
  set (n := (e3 - ex)%Z) in *.
  assert (Hn : (0 <= n)%Z) by (subst n; lia).
  assert (Hpn : (0 < 2 ^ n)%Z) by (apply Z.pow_pos_nonneg; lia).
  pose proof (Z.mul_div_le m (2 ^ n) Hpn) as D1.
  pose proof (Z.mul_succ_div_gt m (2 ^ n) Hpn) as D2.
  assert (Z1 : (Z.pos m3 * 2 ^ n <= m + 2 ^ n)%Z) by nia.
  assert (Z2 : (m - 2 ^ n < Z.pos m3 * 2 ^ n)%Z) by nia.
  assert (E3 : 2 ^ e3 == 2 ^ n * 2 ^ ex).
  { rewrite <- pow2_add. replace (n + ex)%Z with e3 by (subst n; lia).
    reflexivity. }
  unfold Qmag. rewrite E3.
  rewrite Zle_Qle, inject_Z_plus, inject_Z_mult, pow2_Z in Z1 by lia.
  rewrite Zlt_Qlt in Z2.
  unfold Z.sub in Z2. rewrite inject_Z_plus, inject_Z_opp, inject_Z_mult in Z2.
  rewrite pow2_Z in Z2 by lia.
  pose proof (pow2_pos ex) as Hpe.
  split.
  - apply Qlt_le_trans
      with ((inject_Z (Z.pos m3) * 2 ^ n) * 2 ^ ex); [ | ring_simplify; apply Qle_refl].
    apply Qle_lt_trans with ((inject_Z m + - 2 ^ n) * 2 ^ ex);
      [ring_simplify; apply Qle_refl | ].
    apply Qmult_lt_compat_r; assumption.
  - apply Qle_trans
      with ((inject_Z (Z.pos m3) * 2 ^ n) * 2 ^ ex); [ring_simplify; apply Qle_refl | ].
    apply Qle_trans with ((inject_Z m + 2 ^ n) * 2 ^ ex);
      [ | ring_simplify; apply Qle_refl].
    apply Qmult_le_compat_r; [assumption | apply Qlt_le_weak; assumption].
Qed.

(** The bound on a result whose exact value is at most [v]. *)
Definition U (v : Q) : Q := v * (1 + 2 * u) + eta.

Lemma U_mono a b : a <= b -> U a <= U b.
Proof. unfold U, u, eta. intros H. lra. Qed.

Lemma U_ge a : 0 <= a -> a <= U a.
Proof. unfold U, u, eta. intros H. lra. Qed.

Lemma round_upper m ex m3 e3 :
  (0 <= m)%Z -> (ex <= e3)%Z -> canonical m3 e3 ->
  (m / 2 ^ (e3 - ex) <= Z.pos m3 <= m / 2 ^ (e3 - ex) + 1)%Z ->
  Qmag m3 e3 <= U (inject_Z m * 2 ^ ex).
Proof.
  intros Hm Hle Hc Hv.
  destruct (round_value m ex m3 e3 Hm Hle Hv) as [_ Hhi].
  assert (Hv0 : 0 <= inject_Z m * 2 ^ ex).
  { apply Qmult_le_0_compat; [ | apply Qlt_le_weak, pow2_pos].
    change 0 with (inject_Z 0). rewrite <- Zle_Qle. exact Hm. }
  destruct (canonical_ulp m3 e3 Hc) as [H|H]; unfold U, u, eta in *; lra.
Qed.

(** ** Numbers that are not negative and not above a bound *)

(** [x] is a zero, or a positive finite number in canonical form, of
    magnitude at most [hi] and of value at most [B]. *)
Definition below (hi : Z) (B : Q) (x : float) : Prop :=
  (exists s, x = S754_zero s) \/
  exists m e, x = S754_finite false m e /\ canonical m e /\
              (Zdigits2 (Z.pos m) + e <= hi)%Z /\ Qmag m e <= B.

Lemma below_weaken hi B hi' B' x :
  (hi <= hi')%Z -> B <= B' -> below hi B x -> below hi' B' x.
Proof.
  intros Hh HB [Hz|[m [e [-> [Hc [Hm Hv]]]]]]; [left; exact Hz | right].
  exists m, e. repeat split; try apply Hc; try lia.
  apply Qle_trans with B; assumption.
Qed.

(** What a rounding of a value that is at most [v] gives. *)
Lemma round_below m ex l hi v :
  (0 <= m)%Z ->
  (ex <= fexp prec emax (Zdigits2 m + ex))%Z ->
  (Zdigits2 m + ex <= hi)%Z -> (hi < emax)%Z ->
  inject_Z m * 2 ^ ex <= v ->
  below (Z.max hi (SpecFloat.emin prec emax) + 1) (U v)
        (binary_round_aux prec emax false m ex l).
Proof.
  intros Hm Hex Hhi Hmax Hv.
  destruct (binary_round_aux_general prec emax eq_refl
              ltac:(unfold emax; lia) false m ex l Hm Hex ltac:(lia))
    as [->|[m3 [e3 [-> [Hc [Hb [Hle [Hval Hmag]]]]]]]].
  - left. eauto.
  - right. exists m3, e3. split; [reflexivity | ].
    split; [split; assumption | ]. split; [lia | ].
    apply Qle_trans with (U (inject_Z m * 2 ^ ex)).
    + apply round_upper; [assumption | assumption | split; assumption | assumption].
    + apply U_mono. exact Hv.
Qed.

(** ** Division, multiplication and addition *)

Lemma fdiv_below hi B x my ey ly :
  below hi B x -> 0 <= B ->
  (ly <= Zdigits2 (Z.pos my) + ey)%Z -> (hi - ly + 1 < emax)%Z ->
  below (Z.max (hi - ly + 1) (SpecFloat.emin prec emax) + 1)
        (U (B / Qmag my ey)) (fdiv x (S754_finite false my ey)).
Proof.
  intros [[s ->]|[mx [ex [-> [Hc [Hm Hv]]]]]] HB Hly Hmax.
  - left. eexists. reflexivity.
  - unfold fdiv, SFdiv.
    pose proof (div_core_general prec emax eq_refl mx ex my ey) as Hcore.
    destruct (SFdiv_core_binary prec emax (Z.pos mx) ex (Z.pos my) ey)
      as [[q e'] l].
    destruct Hcore as [Hq0 [Hex [Hle [Hq Hmag]]]].
    cbn [xorb].
    eapply below_weaken;
      [ | apply Qle_refl
        | apply (round_below q e' l
                   (Z.max (hi - ly + 1) (SpecFloat.emin prec emax))
                   (B / Qmag my ey)); try assumption ].
    + lia.
    + lia.
    + unfold SpecFloat.emin, prec, emax in *. lia.
    + pose proof (Qmag_pos my ey) as Hy.
      apply Qle_shift_div_l; [exact Hy | ].
      apply Qle_trans with (Qmag mx ex); [ | exact Hv].
      set (s := (ex - ey - e')%Z) in *.
      assert (Hs : (0 <= s)%Z) by (subst s; lia).
      assert (Hps : (0 < 2 ^ s)%Z) by (apply Z.pow_pos_nonneg; lia).
      pose proof (Z.mul_div_le (Z.pos mx * 2 ^ s) (Z.pos my) eq_refl) as D.
      rewrite <- Hq in D.
      rewrite Zle_Qle, !inject_Z_mult, pow2_Z in D by lia.
      unfold Qmag.
      assert (Ex : 2 ^ ex == 2 ^ s * (2 ^ e' * 2 ^ ey)).
      { rewrite <- !pow2_add. replace (s + (e' + ey))%Z with ex by (subst s; lia).
        reflexivity. }
      rewrite Ex.
      pose proof (pow2_pos e') as He'. pose proof (pow2_pos ey) as Hey.
      apply Qle_trans
        with ((inject_Z (Z.pos my) * inject_Z q) * (2 ^ e' * 2 ^ ey));
        [ring_simplify; apply Qle_refl | ].
      apply Qle_trans
        with ((inject_Z (Z.pos mx) * 2 ^ s) * (2 ^ e' * 2 ^ ey));
        [ | ring_simplify; apply Qle_refl].
      apply Qmult_le_compat_r; [exact D | ].
      apply Qlt_le_weak, Qmult_lt_0_compat; assumption.
Qed.

Lemma mul_digits mx my :
  (Zdigits2 (Z.pos mx) + Zdigits2 (Z.pos my) - 1
   <= Zdigits2 (Z.pos (mx * my))
   <= Zdigits2 (Z.pos mx) + Zdigits2 (Z.pos my))%Z.
Proof.
  pose proof (Zdigits2_spec mx) as [Hxlo Hxhi].
  pose proof (Zdigits2_spec my) as [Hylo Hyhi].
  pose proof (Zdigits2_spec (mx * my)) as [Hlo Hhi].
  pose proof (Zdigits2_pos (Z.pos mx) eq_refl) as Hdx.
  pose proof (Zdigits2_pos (Z.pos my) eq_refl) as Hdy.
  set (dx := Zdigits2 (Z.pos mx)) in *. set (dy := Zdigits2 (Z.pos my)) in *.
  rewrite Pos2Z.inj_mul in *.
  assert (H1 : (2 ^ (dx - 1) * 2 ^ (dy - 1) <= Z.pos mx * Z.pos my)%Z).
  { apply Z.mul_le_mono_nonneg; try lia; apply Z.pow_nonneg; lia. }
  assert (H2 : (Z.pos mx * Z.pos my < 2 ^ dx * 2 ^ dy)%Z).
  { apply Z.mul_lt_mono_nonneg; lia. }
  rewrite <- Z.pow_add_r in H1, H2 by lia.
  split.
  - assert (H : (2 ^ (dx - 1 + (dy - 1))
                 < 2 ^ Zdigits2 (Z.pos mx * Z.pos my))%Z) by lia.
    apply Z.pow_lt_mono_r_iff in H; [lia | lia | ].
    apply Zdigits2_nonneg.
  - apply Zdigits2_bound; lia.
Qed.

Lemma fmul_below_r hi B x my ey hy :
  below hi B x -> 0 <= B ->
  Zdigits2 (Z.pos my) = prec ->
  (Zdigits2 (Z.pos my) + ey <= hy)%Z -> (hi + hy < emax)%Z ->
  below (Z.max (hi + hy) (SpecFloat.emin prec emax) + 1)
        (U (B * Qmag my ey)) (fmul x (S754_finite false my ey)).
Proof.
  intros [[s ->]|[mx [ex [-> [Hc [Hm Hv]]]]]] HB Hdy Hhy Hmax.
  - left. eexists. reflexivity.
  - unfold fmul, SFmul. cbn [xorb].
    pose proof (mul_digits mx my) as [Hdlo Hdhi].
    pose proof (Zdigits2_pos (Z.pos mx) eq_refl) as Hdx.
    apply round_below.
    + lia.
    + unfold fexp, prec in *. lia.
    + lia.
    + exact Hmax.
    + rewrite Pos2Z.inj_mul, inject_Z_mult, pow2_add.
      pose proof (Qmag_pos my ey) as Hy.
      apply Qle_trans with (Qmag mx ex * Qmag my ey);
        [unfold Qmag; ring_simplify; apply Qle_refl | ].
      apply Qmult_le_compat_r; [exact Hv | apply Qlt_le_weak; exact Hy].
Qed.

Lemma fmul_below_l hi B x my ey hy :
  below hi B x -> 0 <= B ->
  Zdigits2 (Z.pos my) = prec ->
  (Zdigits2 (Z.pos my) + ey <= hy)%Z -> (hi + hy < emax)%Z ->
  below (Z.max (hi + hy) (SpecFloat.emin prec emax) + 1)
        (U (B * Qmag my ey)) (fmul (S754_finite false my ey) x).
Proof.
  intros [[s ->]|[mx [ex [-> [Hc [Hm Hv]]]]]] HB Hdy Hhy Hmax.
  - left. eexists. reflexivity.
  - unfold fmul, SFmul. cbn [xorb].
    pose proof (mul_digits my mx) as [Hdlo Hdhi].
    pose proof (Zdigits2_pos (Z.pos mx) eq_refl) as Hdx.
    apply round_below.
    + lia.
    + unfold fexp, prec in *. lia.
    + lia.
    + exact Hmax.
    + rewrite Pos2Z.inj_mul, inject_Z_mult, pow2_add.
      pose proof (Qmag_pos my ey) as Hy.
      apply Qle_trans with (Qmag mx ex * Qmag my ey);
        [unfold Qmag; ring_simplify; apply Qle_refl | ].
      apply Qmult_le_compat_r; [exact Hv | apply Qlt_le_weak; exact Hy].
Qed.

Lemma shl_align_spec mx ex ex' :
  let '(mz, ez) := shl_align mx ex ex' in
  ez = Z.min ex ex' /\ Z.pos mz = (Z.pos mx * 2 ^ (ex - ez))%Z.
Proof.
  unfold shl_align.
  destruct (ex' - ex)%Z as [|d|d] eqn:E.
  - split; [lia | ]. rewrite Z.sub_diag. lia.
  - split; [lia | ]. rewrite Z.sub_diag. lia.
  - split; [lia | ]. rewrite iter_xO_pow2. f_equal. f_equal. lia.
Qed.

Lemma Zdigits2_shift m j :
  (0 <= j)%Z -> Zdigits2 (Z.pos m * 2 ^ j) = (Zdigits2 (Z.pos m) + j)%Z.
Proof.
  intros Hj. pose proof (Zdigits2_spec m) as [Hlo Hhi].
  pose proof (Zdigits2_pos (Z.pos m) eq_refl) as Hd.
  assert (Hpj : (0 < 2 ^ j)%Z) by (apply Z.pow_pos_nonneg; lia).
  apply Zdigits2_unique; [lia | ].
  replace (Zdigits2 (Z.pos m) + j - 1)%Z with (Zdigits2 (Z.pos m) - 1 + j)%Z
    by lia.
  rewrite !Z.pow_add_r by lia.
  split; [apply Z.mul_le_mono_nonneg_r; lia | apply Z.mul_lt_mono_pos_r; lia].
Qed.

Lemma binary_round_below k ez hi v :
  (Zdigits2 (Z.pos k) + ez <= hi)%Z -> (hi < emax)%Z ->
  inject_Z (Z.pos k) * 2 ^ ez <= v ->
  below (Z.max hi (SpecFloat.emin prec emax) + 1) (U v)
        (binary_round prec emax false k ez).
Proof.
  intros Hhi Hmax Hv. unfold binary_round.
  change (Z.pos (digits2_pos k)) with (Zdigits2 (Z.pos k)).
  pose proof (shl_align_spec k ez
                (fexp prec emax (Zdigits2 (Z.pos k) + ez))) as Hs.
  destruct (shl_align k ez (fexp prec emax (Zdigits2 (Z.pos k) + ez)))
    as [mz ez'].
  destruct Hs as [Hez Hmz].
  assert (Hj : (0 <= ez - ez')%Z) by lia.
  assert (Hd : Zdigits2 (Z.pos mz) = (Zdigits2 (Z.pos k) + (ez - ez'))%Z).
  { rewrite Hmz. apply Zdigits2_shift. exact Hj. }
  apply round_below.
  - lia.
  - rewrite Hd. replace (Zdigits2 (Z.pos k) + (ez - ez') + ez')%Z
      with (Zdigits2 (Z.pos k) + ez)%Z by lia. lia.
  - lia.
  - exact Hmax.
  - rewrite Hmz, inject_Z_mult, pow2_Z by lia.
    apply Qle_trans with (inject_Z (Z.pos k) * 2 ^ ez); [ | exact Hv].
    assert (E : 2 ^ ez == 2 ^ (ez - ez') * 2 ^ ez').
    { rewrite <- pow2_add. replace (ez - ez' + ez')%Z with ez by lia.
      reflexivity. }
    rewrite E. ring_simplify. apply Qle_refl.
Qed.

Lemma fadd_below hi B x my ey hy :
  below hi B x -> 0 <= B -> canonical my ey ->
  (Zdigits2 (Z.pos my) + ey <= hy)%Z -> (Z.max hi hy + 1 < emax)%Z ->
  below (Z.max (Z.max hi hy + 1) (SpecFloat.emin prec emax) + 1)
        (U (B + Qmag my ey)) (fadd x (S754_finite false my ey)).
Proof.
  intros [[s ->]|[mx [ex [-> [Hc [Hm Hv]]]]]] HB Hcy Hhy Hmax.
  - right. exists my, ey. split; [reflexivity | ]. split; [exact Hcy | ].
    split; [unfold SpecFloat.emin, prec, emax in *; lia | ].
    pose proof (Qmag_pos my ey) as Hy.
    apply Qle_trans with (B + Qmag my ey); [lra | ].
    apply U_ge. lra.
  - unfold fadd, SFadd.
    pose proof (shl_align_spec mx ex (Z.min ex ey)) as Hx.
    pose proof (shl_align_spec my ey (Z.min ex ey)) as Hy.
    destruct (shl_align mx ex (Z.min ex ey)) as [mx' ex'].
    destruct (shl_align my ey (Z.min ex ey)) as [my' ey'].
    destruct Hx as [Hex' Hmx']. destruct Hy as [Hey' Hmy'].
    cbn [fst cond_Zopp]. set (ez := Z.min ex ey) in *.
    assert (Eex : ex' = ez) by lia. assert (Eey : ey' = ez) by lia.
    rewrite Eex in Hmx'. rewrite Eey in Hmy'.
    change (Z.pos mx' + Z.pos my')%Z with (Z.pos (mx' + my')).
    cbn [binary_normalize].
    pose proof (Zdigits2_spec mx) as [_ Hxhi].
    pose proof (Zdigits2_spec my) as [_ Hyhi].
    pose proof (Zdigits2_pos (Z.pos mx) eq_refl) as Hdx.
    pose proof (Zdigits2_pos (Z.pos my) eq_refl) as Hdy.
    assert (Hjx : (0 <= ex - ez)%Z) by lia.
    assert (Hjy : (0 <= ey - ez)%Z) by lia.
    apply binary_round_below.
    + set (M := Z.max hi hy) in *.
      assert (HM : (0 <= M - ez)%Z) by lia.
      assert (Hk : (Zdigits2 (Z.pos (mx' + my')) <= M - ez + 1)%Z).
      { apply Zdigits2_bound; [lia | ]. split; [lia | ].
        rewrite Pos2Z.inj_add, Hmx', Hmy', Z.pow_add_r by lia.
        assert (H1 : (Z.pos mx * 2 ^ (ex - ez) < 2 ^ (M - ez))%Z).
        { apply Z.lt_le_trans
            with (2 ^ Zdigits2 (Z.pos mx) * 2 ^ (ex - ez))%Z.
          - apply Z.mul_lt_mono_pos_r; [apply Z.pow_pos_nonneg; lia | lia].
          - rewrite <- Z.pow_add_r by lia. apply Z.pow_le_mono_r; lia. }
        assert (H2 : (Z.pos my * 2 ^ (ey - ez) < 2 ^ (M - ez))%Z).
        { apply Z.lt_le_trans
            with (2 ^ Zdigits2 (Z.pos my) * 2 ^ (ey - ez))%Z.
          - apply Z.mul_lt_mono_pos_r; [apply Z.pow_pos_nonneg; lia | lia].
          - rewrite <- Z.pow_add_r by lia. apply Z.pow_le_mono_r; lia. }
        lia. }
      lia.
    + exact Hmax.
    + rewrite Pos2Z.inj_add, inject_Z_plus, Hmx', Hmy', !inject_Z_mult.
      rewrite !pow2_Z by lia.
      apply Qle_trans with (Qmag mx ex + Qmag my ey); [ | lra].
      unfold Qmag.
      assert (E1 : 2 ^ ex == 2 ^ (ex - ez) * 2 ^ ez).
      { rewrite <- pow2_add. replace (ex - ez + ez)%Z with ex by lia.
        reflexivity. }
      assert (E2 : 2 ^ ey == 2 ^ (ey - ez) * 2 ^ ez).
      { rewrite <- pow2_add. replace (ey - ez + ez)%Z with ey by lia.
        reflexivity. }
      rewrite E1, E2. ring_simplify. apply Qle_refl.
Qed.

(** ** Subtraction *)

Lemma fabs_round s m ex l :
  fabs (binary_round_aux prec emax s m ex l)
  = binary_round_aux prec emax false m ex l.
Proof.
  unfold binary_round_aux.
  destruct (shr_fexp prec emax m ex l) as [mrs' e'].
  destruct (shr_fexp prec emax
              (round_nearest_even (shr_m mrs') (loc_of_shr_record mrs'))
              e' loc_Exact) as [mrs'' e''].
  destruct (shr_m mrs'') as [|q|q]; try reflexivity.
  destruct (e'' <=? emax - prec)%Z; reflexivity.
Qed.

Lemma fabs_binary_round s k ez :
  fabs (binary_round prec emax s k ez) = binary_round prec emax false k ez.
Proof.
  unfold binary_round.
  destruct (shl_align k ez (fexp prec emax (Z.pos (digits2_pos k) + ez)))
    as [mz ez'].
  apply fabs_round.
Qed.

(** The distance between two positive numbers whose values differ by at
    most [D]. *)
Lemma fsub_below hi D mx ex my ey :
  (Zdigits2 (Z.pos mx) + ex <= hi)%Z -> (Zdigits2 (Z.pos my) + ey <= hi)%Z ->
  (hi < emax)%Z ->
  Qmag mx ex - Qmag my ey <= D -> Qmag my ey - Qmag mx ex <= D ->
  below (Z.max hi (SpecFloat.emin prec emax) + 1) (U D)
        (fabs (fsub (S754_finite false mx ex) (S754_finite false my ey))).
Proof.
  intros Hx Hy Hmax H1 H2. unfold fsub, SFsub.
  pose proof (shl_align_spec mx ex (Z.min ex ey)) as Sx.
  pose proof (shl_align_spec my ey (Z.min ex ey)) as Sy.
  destruct (shl_align mx ex (Z.min ex ey)) as [mx' ex'].
  destruct (shl_align my ey (Z.min ex ey)) as [my' ey'].
  destruct Sx as [Hex' Hmx']. destruct Sy as [Hey' Hmy'].
  cbn [fst cond_Zopp]. set (ez := Z.min ex ey) in *.
  assert (Eex : ex' = ez) by lia. assert (Eey : ey' = ez) by lia.
  rewrite Eex in Hmx'. rewrite Eey in Hmy'.
  assert (Hjx : (0 <= ex - ez)%Z) by lia.
  assert (Hjy : (0 <= ey - ez)%Z) by lia.
  assert (Vx : inject_Z (Z.pos mx') * 2 ^ ez == Qmag mx ex).
  { rewrite Hmx', inject_Z_mult, pow2_Z by lia. unfold Qmag.
    assert (E : 2 ^ ex == 2 ^ (ex - ez) * 2 ^ ez).
    { rewrite <- pow2_add. replace (ex - ez + ez)%Z with ex by lia.
      reflexivity. }
    rewrite E. ring. }
  assert (Vy : inject_Z (Z.pos my') * 2 ^ ez == Qmag my ey).
  { rewrite Hmy', inject_Z_mult, pow2_Z by lia. unfold Qmag.
    assert (E : 2 ^ ey == 2 ^ (ey - ez) * 2 ^ ez).
    { rewrite <- pow2_add. replace (ey - ez + ez)%Z with ey by lia.
      reflexivity. }
    rewrite E. ring. }
  assert (Dx : (Zdigits2 (Z.pos mx') + ez <= hi)%Z).
  { rewrite Hmx', Zdigits2_shift by lia. lia. }
  assert (Dy : (Zdigits2 (Z.pos my') + ez <= hi)%Z).
  { rewrite Hmy', Zdigits2_shift by lia. lia. }
  destruct (Z.pos mx' - Z.pos my')%Z as [|k|k] eqn:E; cbn [binary_normalize].
  - left. exists false. reflexivity.
  - rewrite fabs_binary_round. apply binary_round_below.
    + assert (Hk : (Zdigits2 (Z.pos k) <= Zdigits2 (Z.pos mx'))%Z)
        by (apply Zdigits2_mono; lia).
      lia.
    + exact Hmax.
    + apply Qle_trans with (Qmag mx ex - Qmag my ey); [ | exact H1].
      rewrite <- Vx, <- Vy.
      replace (Z.pos k) with (Z.pos mx' + - Z.pos my')%Z by lia.
      rewrite inject_Z_plus, inject_Z_opp. ring_simplify. apply Qle_refl.
  - rewrite fabs_binary_round. apply binary_round_below.
    + assert (Hk : (Zdigits2 (Z.pos k) <= Zdigits2 (Z.pos my'))%Z)
        by (apply Zdigits2_mono; lia).
      lia.
    + exact Hmax.
    + apply Qle_trans with (Qmag my ey - Qmag mx ex); [ | exact H2].
      rewrite <- Vx, <- Vy.
      replace (Z.pos k) with (Z.pos my' + - Z.pos mx')%Z by lia.
      rewrite inject_Z_plus, inject_Z_opp. ring_simplify. apply Qle_refl.
Qed.

(** ** Comparison *)

(** A positive number in canonical form is above every number that is not
    negative and whose value is below its own. *)
Lemma above_below hi B x my ey :
  below hi B x -> canonical my ey -> B < Qmag my ey ->
  SFcompare (S754_finite false my ey) x = Some Gt.
Proof.
  intros [[s ->]|[mx [ex [-> [Hc [Hm Hv]]]]]] Hcy HB; [reflexivity | ].
  cbn [SFcompare].
  assert (Hlt : Qmag mx ex < Qmag my ey) by lra.
  destruct (Z.compare_spec ey ex) as [E|E|E].
  - subst ex. rewrite Pos.compare_cont_spec.
    unfold Qmag in Hlt.
    apply Qmult_lt_r in Hlt; [ | apply pow2_pos].
    rewrite <- Zlt_Qlt in Hlt.
    assert (Hgt : (my > mx)%positive) by lia.
    rewrite Hgt. reflexivity.
  - exfalso.
    pose proof (canonical_digits my ey Hcy) as Hdy.
    destruct Hc as [Hcx _].
    assert (Hdx : Zdigits2 (Z.pos mx) = prec).
    { destruct Hcy as [Hcy _].
      unfold fexp, SpecFloat.emin, prec, emax in *. lia. }
    pose proof (Qmag_digits mx ex) as [Hxlo _].
    pose proof (Qmag_digits my ey) as [_ Hyhi].
    assert (H : 2 ^ (Zdigits2 (Z.pos my) + ey)
                <= 2 ^ (Zdigits2 (Z.pos mx) - 1 + ex)).
    { apply pow2_le. unfold prec in *. lia. }
    lra.
  - reflexivity.
Qed.

End F64Bounds.

(* ================================================================== *)
(** * The relative error of products and quotients *)
(* ================================================================== *)

Module F64Error.

Import F64 F64Facts F64Magnitude F64Value F64Rounding F64Bounds.
Local Open Scope Z_scope.
Local Open Scope Q_scope.

(** The value of a float that is not negative. *)
Definition Qval (x : float) : Q :=
  match x with
  | S754_finite false m e => Qmag m e
  | _ => 0
  end.

(** The factor that one operation adds to the error: [1 + 2 ^ -50]. *)
Definition r : Q := 1 + 4 * u.

(** The factor after [k] operations. *)
Fixpoint R (k : nat) : Q :=
  match k with
  | O => 1
  | S k => R k * r
  end.

Lemma r_gt_1 : 1 < r.
Proof. reflexivity. Qed.

Lemma R_ge_1 k : 1 <= R k.
Proof.
  induction k as [|k IH]; cbn [R]; [apply Qle_refl | ].
  pose proof r_gt_1.
  apply Qle_trans with (1 * 1); [apply Qle_refl | ].
  apply Qmult_le_compat_nonneg; split; try assumption;
    try apply Qlt_le_weak; try assumption; discriminate.
Qed.

Lemma R_pos k : 0 < R k.
Proof. apply Qlt_le_trans with 1; [reflexivity | apply R_ge_1]. Qed.

Lemma R_add i j : R (i + j) == R i * R j.
Proof.
  induction j as [|j IH].
  - rewrite Nat.add_0_r. cbn [R]. ring.
  - rewrite Nat.add_succ_r. cbn [R]. rewrite IH. ring.
Qed.

Lemma R_mono i j : (i <= j)%nat -> R i <= R j.
Proof.
  intros H. replace j with (i + (j - i))%nat by lia.
  rewrite R_add. pose proof (R_ge_1 (j - i)). pose proof (R_pos i).
  apply Qle_trans with (R i * 1); [ring_simplify; apply Qle_refl | ].
  apply Qmult_le_l; assumption.
Qed.

(** [x] and [y] are within a factor [f] of each other. *)
Definition within (f x y : Q) : Prop := x <= y * f /\ y <= x * f.

Lemma within_sym f x y : within f x y -> within f y x.
Proof. intros [H1 H2]. split; assumption. Qed.

Lemma within_refl x : within 1 x x.
Proof. split; ring_simplify; apply Qle_refl. Qed.

Lemma within_weaken f g x y :
  0 <= x -> 0 <= y -> f <= g -> within f x y -> within g x y.
Proof.
  intros Hx Hy Hfg [H1 H2]. split.
  - apply Qle_trans with (y * f); [exact H1 | ].
    rewrite (Qmult_comm y f), (Qmult_comm y g).
    apply Qmult_le_compat_r; assumption.
  - apply Qle_trans with (x * f); [exact H2 | ].
    rewrite (Qmult_comm x f), (Qmult_comm x g).
    apply Qmult_le_compat_r; assumption.
Qed.

Lemma within_eq f g x y : f == g -> within f x y -> within g x y.
Proof. intros E [H1 H2]. split; rewrite <- E; assumption. Qed.

Lemma within_mul f g a b c d :
  0 <= a -> 0 <= b -> 0 <= c -> 0 <= d ->
  within f a b -> within g c d -> within (f * g) (a * c) (b * d).
Proof.
  intros Ha Hb Hc Hd [H1 H2] [H3 H4]. split.
  - apply Qle_trans with ((b * f) * (d * g));
      [ | ring_simplify; apply Qle_refl].
    apply Qmult_le_compat_nonneg; split; assumption.
  - apply Qle_trans with ((a * f) * (c * g));
      [ | ring_simplify; apply Qle_refl].
    apply Qmult_le_compat_nonneg; split; assumption.
Qed.

Lemma within_trans f g a b c :
  0 <= f -> 0 <= g -> within f a b -> within g b c -> within (f * g) a c.
Proof.
  intros Hf Hg [H1 H2] [H3 H4]. split.
  - apply Qle_trans with (b * f); [exact H1 | ].
    apply Qle_trans with ((c * g) * f); [ | ring_simplify; apply Qle_refl].
    apply Qmult_le_compat_r; assumption.
  - apply Qle_trans with (b * g); [exact H4 | ].
    apply Qle_trans with ((a * f) * g); [ | ring_simplify; apply Qle_refl].
    apply Qmult_le_compat_r; assumption.
Qed.

Lemma within_div f g a b c d :
  0 <= a -> 0 <= b -> 0 < c -> 0 < d -> 0 <= f -> 0 <= g ->
  within f a b -> within g c d -> within (f * g) (a / c) (b / d).
Proof.
  intros Ha Hb Hc Hd Hf Hg [H1 H2] [H3 H4].
  assert (Ec : ~ c == 0) by (intros E; rewrite E in Hc; discriminate Hc).
  assert (Ed : ~ d == 0) by (intros E; rewrite E in Hd; discriminate Hd).
  split.
  - apply Qle_shift_div_r; [exact Hc | ].
    apply Qle_trans with (b * f); [exact H1 | ].
    apply Qle_trans with ((b * f) * ((c * g) / d));
      [ | apply Qle_lteq; right; field; exact Ed].
    apply Qle_trans with ((b * f) * 1); [ring_simplify; apply Qle_refl | ].
    apply Qmult_le_compat_nonneg; split;
      [apply Qmult_le_0_compat; assumption | apply Qle_refl | discriminate | ].
    apply Qle_shift_div_l; [exact Hd | ]. ring_simplify. exact H4.
  - apply Qle_shift_div_r; [exact Hd | ].
    apply Qle_trans with (a * f); [exact H2 | ].
    apply Qle_trans with ((a * f) * ((d * g) / c));
      [ | apply Qle_lteq; right; field; exact Ec].
    apply Qle_trans with ((a * f) * 1); [ring_simplify; apply Qle_refl | ].
    apply Qmult_le_compat_nonneg; split;
      [apply Qmult_le_0_compat; assumption | apply Qle_refl | discriminate | ].
    apply Qle_shift_div_l; [exact Hc | ]. ring_simplify. exact H3.
Qed.

(** ** One product, one quotient *)

Lemma Qval_finite m e : Qval (S754_finite false m e) = Qmag m e.
Proof. reflexivity. Qed.

Lemma normal_ulp m e :
  Zdigits2 (Z.pos m) = prec -> 2 ^ e <= u * Qmag m e.
Proof.
  intros Hd. pose proof (Qmag_digits m e) as [Hlo _]. rewrite Hd in Hlo.
  rewrite u_pow2.
  apply Qle_trans with (2 ^ (-52) * 2 ^ (prec - 1 + e)).
  - rewrite <- pow2_add. apply pow2_le. unfold prec. lia.
  - apply Qmult_le_l; [apply pow2_pos | exact Hlo].
Qed.

(** A rounding in the normal range, as a factor. *)
Lemma round_within s m ex l :
  (0 < m)%Z ->
  (ex <= fexp prec emax (Zdigits2 m + ex))%Z ->
  (SpecFloat.emin prec emax + prec <= Zdigits2 m + ex)%Z ->
  (Zdigits2 m + ex < emax)%Z ->
  exists m3 e3,
    binary_round_aux prec emax s m ex l = S754_finite s m3 e3 /\
    Zdigits2 (Z.pos m3) = prec /\
    (Zdigits2 m + ex <= prec + e3 <= Zdigits2 m + ex + 1)%Z /\
    inject_Z m * 2 ^ ex < Qmag m3 e3 * (1 + u) /\
    Qmag m3 e3 * (1 - u) <= inject_Z m * 2 ^ ex.
Proof.
  intros Hm Hex Hmin Hmax.
  destruct (binary_round_aux_value prec emax eq_refl ltac:(unfold emax; lia)
              s m ex l Hm Hex ltac:(unfold SpecFloat.emin, prec, emax in *; lia) Hmax)
    as [m3 [e3 [-> [Hc [Hmu [Hle Hval]]]]]].
  exists m3, e3. split; [reflexivity | ].
  assert (Hd : Zdigits2 (Z.pos m3) = prec).
  { unfold fexp, SpecFloat.emin, prec, emax in *. lia. }
  split; [exact Hd | ]. split; [lia | ].
  destruct (round_value m ex m3 e3 ltac:(lia) Hle Hval) as [Hlo Hhi].
  pose proof (normal_ulp m3 e3 Hd) as Hu.
  split; lra.
Qed.

Lemma fmul_within lox hix loy hiy x y :
  normal_in false lox hix x -> normal_in false loy hiy y ->
  (-1021 <= lox + loy - 1)%Z -> (hix + hiy < 1024)%Z ->
  normal_in false (lox + loy - 1) (hix + hiy + 1) (fmul x y) /\
  within r (Qval x * Qval y) (Qval (fmul x y)).
Proof.
  intros Hx Hy Hlo Hhi.
  split; [exact (fmul_normal false false _ _ _ _ x y Hx Hy Hlo Hhi) | ].
  destruct Hx as [mx [ex [-> [Hdx Hx]]]]. destruct Hy as [my [ey [-> [Hdy Hy]]]].
  unfold fmul, SFmul. cbn [xorb].
  pose proof (mul_digits mx my) as [Hdlo Hdhi].
  rewrite Hdx, Hdy in Hdlo, Hdhi.
  destruct (round_within false (Z.pos (mx * my)) (ex + ey) loc_Exact)
    as [m3 [e3 [-> [Hd3 [Hmu [Hlo3 Hhi3]]]]]];
    try (unfold fexp, SpecFloat.emin, prec, emax in *; lia).
  rewrite !Qval_finite.
  assert (E : inject_Z (Z.pos (mx * my)) * 2 ^ (ex + ey)
              == Qmag mx ex * Qmag my ey).
  { rewrite Pos2Z.inj_mul, inject_Z_mult, pow2_add. unfold Qmag. ring. }
  rewrite E in Hlo3, Hhi3.
  pose proof (Qmag_pos m3 e3) as H3.
  set (P := Qmag mx ex * Qmag my ey) in *. set (Z3 := Qmag m3 e3) in *.
  unfold within, r, u in *. split; lra.
Qed.

Lemma fdiv_within lox hix loy hiy x y :
  finite_in false lox hix x -> finite_in false loy hiy y ->
  (-1021 <= lox - hiy)%Z -> (hix - loy + 1 < 1024)%Z ->
  normal_in false (lox - hiy) (hix - loy + 2) (fdiv x y) /\
  within r (Qval x / Qval y) (Qval (fdiv x y)).
Proof.
  intros Hx Hy Hlo Hhi.
  split; [exact (fdiv_normal false false _ _ _ _ x y Hx Hy Hlo Hhi) | ].
  destruct Hx as [mx [ex [-> Hx]]]. destruct Hy as [my [ey [-> Hy]]].
  unfold fdiv, SFdiv. cbn [xorb].
  pose proof (div_core_normal prec emax eq_refl mx ex my ey) as Hn.
  pose proof (div_core_general prec emax eq_refl mx ex my ey) as Hg.
  destruct (SFdiv_core_binary prec emax (Z.pos mx) ex (Z.pos my) ey)
    as [[q e'] l].
  destruct Hn as [Hq [He' Hmu]]; [unfold SpecFloat.emin, prec, emax; lia | ].
  destruct Hg as [_ [_ [Hle [Hqv _]]]].
  destruct (round_within false q e' l Hq He')
    as [m3 [e3 [-> [Hd3 [Hmu3 [Hlo3 Hhi3]]]]]];
    try (unfold SpecFloat.emin, prec, emax in *; lia).
  rewrite !Qval_finite.
  pose proof (Qmag_pos mx ex) as HX. pose proof (Qmag_pos my ey) as HY.
  pose proof (Qmag_pos m3 e3) as H3.
  set (s := (ex - ey - e')%Z) in *.
  assert (Hs : (0 <= s)%Z) by (subst s; lia).
  assert (Hps : (0 < 2 ^ s)%Z) by (apply Z.pow_pos_nonneg; lia).
  pose proof (Z.mul_div_le (Z.pos mx * 2 ^ s) (Z.pos my) eq_refl) as D1.
  pose proof (Z.mul_succ_div_gt (Z.pos mx * 2 ^ s) (Z.pos my) eq_refl) as D2.
  rewrite <- Hqv in D1, D2.
  assert (Ex : 2 ^ ex == 2 ^ s * (2 ^ e' * 2 ^ ey)).
  { rewrite <- !pow2_add. replace (s + (e' + ey))%Z with ex by (subst s; lia).
    reflexivity. }
  pose proof (pow2_pos e') as Pe'. pose proof (pow2_pos ey) as Pey.
  assert (Pee : 0 < 2 ^ e' * 2 ^ ey) by (apply Qmult_lt_0_compat; assumption).
  (* q * 2^e' * Y <= X < (q + 1) * 2^e' * Y *)
  assert (L1 : (inject_Z q * 2 ^ e') * Qmag my ey <= Qmag mx ex).
  { rewrite Zle_Qle, !inject_Z_mult, pow2_Z in D1 by lia.
    unfold Qmag. rewrite Ex.
    apply Qle_trans
      with ((inject_Z (Z.pos my) * inject_Z q) * (2 ^ e' * 2 ^ ey));
      [ring_simplify; apply Qle_refl | ].
    apply Qle_trans
      with ((inject_Z (Z.pos mx) * 2 ^ s) * (2 ^ e' * 2 ^ ey));
      [ | ring_simplify; apply Qle_refl].
    apply Qmult_le_compat_r; [exact D1 | apply Qlt_le_weak; exact Pee]. }
  assert (L2 : Qmag mx ex < (inject_Z q * 2 ^ e' + 2 ^ e') * Qmag my ey).
  { unfold Z.succ in D2.
    rewrite Zlt_Qlt, !inject_Z_mult, inject_Z_plus, pow2_Z in D2 by lia.
    unfold Qmag. rewrite Ex.
    apply Qlt_le_trans
      with ((inject_Z (Z.pos my) * (inject_Z q + inject_Z 1))
            * (2 ^ e' * 2 ^ ey));
      [ | change (inject_Z 1) with 1; ring_simplify; apply Qle_refl].
    apply Qle_lt_trans
      with ((inject_Z (Z.pos mx) * 2 ^ s) * (2 ^ e' * 2 ^ ey));
      [ring_simplify; apply Qle_refl | ].
    apply Qmult_lt_compat_r; [exact Pee | exact D2]. }
  (* the quotient has all its digits *)
  assert (Hdq : (prec <= Zdigits2 q)%Z).
  { unfold fexp, SpecFloat.emin, prec, emax in *. lia. }
  assert (Hu : 2 ^ e' <= u * (inject_Z q * 2 ^ e')).
  { destruct q as [|pq|pq]; try lia.
    pose proof (Qmag_digits pq e') as [Hqlo _]. unfold Qmag in Hqlo.
    rewrite u_pow2.
    apply Qle_trans with (2 ^ (-52) * 2 ^ (Zdigits2 (Z.pos pq) - 1 + e')).
    - rewrite <- pow2_add. apply pow2_le. unfold prec in *. lia.
    - apply Qmult_le_l; [apply pow2_pos | exact Hqlo]. }
  set (V := inject_Z q * 2 ^ e') in *.
  set (X := Qmag mx ex) in *. set (Y := Qmag my ey) in *.
  set (Z3 := Qmag m3 e3) in *.
  assert (EY : ~ Y == 0) by (intros E; rewrite E in HY; discriminate HY).
  split.
  - (* X / Y <= Z3 * r *)
    apply Qle_shift_div_r; [exact HY | ].
    apply Qle_trans with ((V + 2 ^ e') * Y); [apply Qlt_le_weak; exact L2 | ].
    apply Qmult_le_compat_r; [ | apply Qlt_le_weak; exact HY].
    unfold r, u in *. lra.
  - (* Z3 <= X / Y * r *)
    apply Qle_trans with (V * r); [unfold r, u in *; lra | ].
    apply Qmult_le_compat_r; [ | discriminate].
    apply Qle_shift_div_l; assumption.
Qed.

Lemma binary_round_within k ez :
  (SpecFloat.emin prec emax + prec <= Zdigits2 (Z.pos k) + ez)%Z ->
  (Zdigits2 (Z.pos k) + ez < emax)%Z ->
  exists m3 e3,
    binary_round prec emax false k ez = S754_finite false m3 e3 /\
    Zdigits2 (Z.pos m3) = prec /\
    (Zdigits2 (Z.pos k) + ez <= prec + e3 <= Zdigits2 (Z.pos k) + ez + 1)%Z /\
    inject_Z (Z.pos k) * 2 ^ ez < Qmag m3 e3 * (1 + u) /\
    Qmag m3 e3 * (1 - u) <= inject_Z (Z.pos k) * 2 ^ ez.
Proof.
  intros Hmin Hmax. unfold binary_round.
  change (Z.pos (digits2_pos k)) with (Zdigits2 (Z.pos k)).
  pose proof (shl_align_spec k ez
                (fexp prec emax (Zdigits2 (Z.pos k) + ez))) as Hs.
  destruct (shl_align k ez (fexp prec emax (Zdigits2 (Z.pos k) + ez)))
    as [mz ez'].
  destruct Hs as [Hez Hmz].
  assert (Hj : (0 <= ez - ez')%Z) by lia.
  assert (Hd : Zdigits2 (Z.pos mz) = (Zdigits2 (Z.pos k) + (ez - ez'))%Z).
  { rewrite Hmz. apply Zdigits2_shift. exact Hj. }
  assert (Hmag : (Zdigits2 (Z.pos mz) + ez' = Zdigits2 (Z.pos k) + ez)%Z)
    by lia.
  destruct (round_within false (Z.pos mz) ez' loc_Exact)
    as [m3 [e3 [-> [Hd3 [Hmu [Hlo Hhi]]]]]]; try lia.
  - rewrite Hmag. lia.
  - exists m3, e3. split; [reflexivity | ]. split; [exact Hd3 | ].
    split; [lia | ].
    assert (E : inject_Z (Z.pos mz) * 2 ^ ez' == inject_Z (Z.pos k) * 2 ^ ez).
    { rewrite Hmz, inject_Z_mult, pow2_Z by lia.
      assert (E : 2 ^ ez == 2 ^ (ez - ez') * 2 ^ ez').
      { rewrite <- pow2_add. replace (ez - ez' + ez')%Z with ez by lia.
        reflexivity. }
      rewrite E. ring. }
    rewrite E in Hlo, Hhi. split; assumption.
Qed.

Lemma fadd_within lox hix loy hiy x y :
  finite_in false lox hix x -> finite_in false loy hiy y ->
  (-1021 <= Z.max lox loy)%Z -> (Z.max hix hiy + 1 < 1024)%Z ->
  normal_in false (Z.max lox loy) (Z.max hix hiy + 2) (fadd x y) /\
  within r (Qval x + Qval y) (Qval (fadd x y)).
Proof.
  intros [mx [ex [-> Hx]]] [my [ey [-> Hy]]] Hlo Hhi.
  unfold fadd, SFadd.
  pose proof (shl_align_spec mx ex (Z.min ex ey)) as Sx.
  pose proof (shl_align_spec my ey (Z.min ex ey)) as Sy.
  destruct (shl_align mx ex (Z.min ex ey)) as [mx' ex'].
  destruct (shl_align my ey (Z.min ex ey)) as [my' ey'].
  destruct Sx as [Hex' Hmx']. destruct Sy as [Hey' Hmy'].
  cbn [fst cond_Zopp]. set (ez := Z.min ex ey) in *.
  assert (Eex : ex' = ez) by lia. assert (Eey : ey' = ez) by lia.
  rewrite Eex in Hmx'. rewrite Eey in Hmy'.
  change (Z.pos mx' + Z.pos my')%Z with (Z.pos (mx' + my')).
  cbn [binary_normalize].
  assert (Hjx : (0 <= ex - ez)%Z) by lia.
  assert (Hjy : (0 <= ey - ez)%Z) by lia.
  assert (Dx : (Zdigits2 (Z.pos mx') + ez = Zdigits2 (Z.pos mx) + ex)%Z).
  { rewrite Hmx', Zdigits2_shift by lia. lia. }
  assert (Dy : (Zdigits2 (Z.pos my') + ez = Zdigits2 (Z.pos my) + ey)%Z).
  { rewrite Hmy', Zdigits2_shift by lia. lia. }
  assert (Klo : (Zdigits2 (Z.pos mx') <= Zdigits2 (Z.pos (mx' + my'))
                 /\ Zdigits2 (Z.pos my') <= Zdigits2 (Z.pos (mx' + my')))%Z).
  { split; apply Zdigits2_mono; lia. }
  assert (Khi : (Zdigits2 (Z.pos (mx' + my'))
                 <= Z.max (Zdigits2 (Z.pos mx')) (Zdigits2 (Z.pos my')) + 1)%Z).
  { pose proof (Zdigits2_spec mx') as [_ H1].
    pose proof (Zdigits2_spec my') as [_ H2].
    pose proof (Zdigits2_pos (Z.pos mx') eq_refl) as P1.
    pose proof (Zdigits2_pos (Z.pos my') eq_refl) as P2.
    set (M := Z.max (Zdigits2 (Z.pos mx')) (Zdigits2 (Z.pos my'))) in *.
    apply Zdigits2_bound; [lia | ]. split; [lia | ].
    rewrite Pos2Z.inj_add, Z.pow_add_r by lia.
    assert (2 ^ Zdigits2 (Z.pos mx') <= 2 ^ M)%Z
      by (apply Z.pow_le_mono_r; lia).
    assert (2 ^ Zdigits2 (Z.pos my') <= 2 ^ M)%Z
      by (apply Z.pow_le_mono_r; lia).
    lia. }
  destruct (binary_round_within (mx' + my') ez)
    as [m3 [e3 [-> [Hd3 [Hmu [Hlo3 Hhi3]]]]]];
    try (unfold SpecFloat.emin, prec, emax in *; lia).
  split.
  - exists m3, e3. split; [reflexivity | ]. split; [exact Hd3 | lia].
  - rewrite !Qval_finite.
    assert (E : inject_Z (Z.pos (mx' + my')) * 2 ^ ez
                == Qmag mx ex + Qmag my ey).
    { rewrite Pos2Z.inj_add, inject_Z_plus, Hmx', Hmy', !inject_Z_mult.
      rewrite !pow2_Z by lia. unfold Qmag.
      assert (E1 : 2 ^ ex == 2 ^ (ex - ez) * 2 ^ ez).
      { rewrite <- pow2_add. replace (ex - ez + ez)%Z with ex by lia.
        reflexivity. }
      assert (E2 : 2 ^ ey == 2 ^ (ey - ez) * 2 ^ ez).
      { rewrite <- pow2_add. replace (ey - ez + ez)%Z with ey by lia.
        reflexivity. }
      rewrite E1, E2. ring. }
    rewrite E in Hlo3, Hhi3.
    pose proof (Qmag_pos m3 e3) as H3.
    set (P := Qmag mx ex + Qmag my ey) in *. set (Z3 := Qmag m3 e3) in *.
    unfold within, r, u in *. split; lra.
Qed.

(** ** Numbers known to within a factor *)

(** [x] is a positive number with all its digits, of magnitude between [lo]
    and [hi], whose value is within [k] operations of [q]. *)
Definition approx (lo hi : Z) (k : nat) (q : Q) (x : float) : Prop :=
  normal_in false lo hi x /\ within (R k) q (Qval x).

Lemma normal_Qval_pos lo hi x : normal_in false lo hi x -> 0 < Qval x.
Proof. intros [m [e [-> _]]]. apply Qmag_pos. Qed.

Lemma approx_exact lo hi x :
  normal_in false lo hi x -> approx lo hi 0 (Qval x) x.
Proof. intros H. split; [exact H | apply within_refl]. Qed.

Lemma approx_pos lo hi k q x : approx lo hi k q x -> 0 < q.
Proof.
  intros [Hn [_ H]]. pose proof (normal_Qval_pos _ _ _ Hn) as Hx.
  pose proof (R_pos k) as HR.
  destruct (Qlt_le_dec 0 q) as [Hq|Hq]; [exact Hq | exfalso].
  assert (q * R k <= 0).
  { rewrite <- (Qmult_0_l (R k)). apply Qmult_le_compat_r;
      [exact Hq | apply Qlt_le_weak; exact HR]. }
  lra.
Qed.

Lemma approx_weaken lo hi k q lo' hi' k' x :
  (lo' <= lo)%Z -> (hi <= hi')%Z -> (k <= k')%nat ->
  approx lo hi k q x -> approx lo' hi' k' q x.
Proof.
  intros Hlo Hhi Hk H. pose proof (approx_pos _ _ _ _ _ H) as Hq.
  destruct H as [Hn Hw]. split.
  - eapply normal_weaken; [ | | exact Hn]; assumption.
  - apply within_weaken with (f := R k);
      [apply Qlt_le_weak; exact Hq
      | apply Qlt_le_weak; exact (normal_Qval_pos _ _ _ Hn)
      | apply R_mono; exact Hk | exact Hw].
Qed.

Lemma approx_eq lo hi k q q' x :
  q == q' -> approx lo hi k q x -> approx lo hi k q' x.
Proof.
  intros E [Hn [H1 H2]]. split; [exact Hn | ]. split; rewrite <- E; assumption.
Qed.

Lemma approx_mul lox hix loy hiy i j a b x y :
  approx lox hix i a x -> approx loy hiy j b y ->
  (-1021 <= lox + loy - 1)%Z -> (hix + hiy < 1024)%Z ->
  approx (lox + loy - 1) (hix + hiy + 1) (S (i + j)) (a * b) (fmul x y).
Proof.
  intros Hx Hy Hlo Hhi.
  pose proof (approx_pos _ _ _ _ _ Hx) as Ha.
  pose proof (approx_pos _ _ _ _ _ Hy) as Hb.
  destruct Hx as [Hnx Hwx]. destruct Hy as [Hny Hwy].
  pose proof (normal_Qval_pos _ _ _ Hnx) as HX.
  pose proof (normal_Qval_pos _ _ _ Hny) as HY.
  destruct (fmul_within _ _ _ _ x y Hnx Hny Hlo Hhi) as [Hn Hw].
  split; [exact Hn | ].
  apply within_eq with (f := (R i * R j) * r);
    [cbn [R]; rewrite R_add; reflexivity | ].
  apply within_trans with (b := Qval x * Qval y); try exact Hw.
  - apply Qlt_le_weak, Qmult_lt_0_compat; apply R_pos.
  - discriminate.
  - apply within_mul; try assumption; apply Qlt_le_weak; assumption.
Qed.

Lemma approx_div lox hix loy hiy i j a b x y :
  approx lox hix i a x -> approx loy hiy j b y ->
  (-1021 <= lox - hiy)%Z -> (hix - loy + 1 < 1024)%Z ->
  approx (lox - hiy) (hix - loy + 2) (S (i + j)) (a / b) (fdiv x y).
Proof.
  intros Hx Hy Hlo Hhi.
  pose proof (approx_pos _ _ _ _ _ Hx) as Ha.
  pose proof (approx_pos _ _ _ _ _ Hy) as Hb.
  destruct Hx as [Hnx Hwx]. destruct Hy as [Hny Hwy].
  pose proof (normal_Qval_pos _ _ _ Hnx) as HX.
  pose proof (normal_Qval_pos _ _ _ Hny) as HY.
  destruct (fdiv_within _ _ _ _ x y (normal_finite _ _ _ _ Hnx)
              (normal_finite _ _ _ _ Hny) Hlo Hhi) as [Hn Hw].
  split; [exact Hn | ].
  apply within_eq with (f := (R i * R j) * r);
    [cbn [R]; rewrite R_add; reflexivity | ].
  apply within_trans with (b := Qval x / Qval y); try exact Hw.
  - apply Qlt_le_weak, Qmult_lt_0_compat; apply R_pos.
  - discriminate.
  - apply within_div; try assumption; try (apply Qlt_le_weak; assumption);
      apply Qlt_le_weak, R_pos.
Qed.

Lemma approx_add lox hix loy hiy i j a b x y :
  approx lox hix i a x -> approx loy hiy j b y ->
  (-1021 <= Z.max lox loy)%Z -> (Z.max hix hiy + 1 < 1024)%Z ->
  approx (Z.max lox loy) (Z.max hix hiy + 2) (S (i + j)) (a + b) (fadd x y).
Proof.
  intros Hx Hy Hlo Hhi.
  pose proof (approx_pos _ _ _ _ _ Hx) as Ha.
  pose proof (approx_pos _ _ _ _ _ Hy) as Hb.
  destruct Hx as [Hnx [X1 X2]]. destruct Hy as [Hny [Y1 Y2]].
  pose proof (normal_Qval_pos _ _ _ Hnx) as HX.
  pose proof (normal_Qval_pos _ _ _ Hny) as HY.
  destruct (fadd_within _ _ _ _ x y (normal_finite _ _ _ _ Hnx)
              (normal_finite _ _ _ _ Hny) Hlo Hhi) as [Hn Hw].
  split; [exact Hn | ].
  apply within_eq with (f := (R i * R j) * r);
    [cbn [R]; rewrite R_add; reflexivity | ].
  apply within_trans with (b := Qval x + Qval y); try exact Hw.
  - apply Qlt_le_weak, Qmult_lt_0_compat; apply R_pos.
  - discriminate.
  - pose proof (R_ge_1 i) as Ri. pose proof (R_ge_1 j) as Rj.
    pose proof (R_pos i) as Pi. pose proof (R_pos j) as Pj.
    assert (M1 : Qval x * R i <= Qval x * (R i * R j)).
    { apply Qmult_le_l; [exact HX | ].
      apply Qle_trans with (R i * 1); [ring_simplify; apply Qle_refl | ].
      apply Qmult_le_l; assumption. }
    assert (M2 : Qval y * R j <= Qval y * (R i * R j)).
    { apply Qmult_le_l; [exact HY | ].
      apply Qle_trans with (1 * R j); [ring_simplify; apply Qle_refl | ].
      apply Qmult_le_compat_r; [exact Ri | apply Qlt_le_weak; exact Pj]. }
    assert (M3 : a * R i <= a * (R i * R j)).
    { apply Qmult_le_l; [exact Ha | ].
      apply Qle_trans with (R i * 1); [ring_simplify; apply Qle_refl | ].
      apply Qmult_le_l; assumption. }
    assert (M4 : b * R j <= b * (R i * R j)).
    { apply Qmult_le_l; [exact Hb | ].
      apply Qle_trans with (1 * R j); [ring_simplify; apply Qle_refl | ].
      apply Qmult_le_compat_r; [exact Ri | apply Qlt_le_weak; exact Pj]. }
    split.
    + apply Qle_trans with (Qval x * R i + Qval y * R j); [lra | ].
      apply Qle_trans
        with (Qval x * (R i * R j) + Qval y * (R i * R j)); [lra | ].
      ring_simplify. apply Qle_refl.
    + apply Qle_trans with (a * R i + b * R j); [lra | ].
      apply Qle_trans with (a * (R i * R j) + b * (R i * R j)); [lra | ].
      ring_simplify. apply Qle_refl.
Qed.

(** A constant of the program. *)
Lemma approx_constant m e :
  Zdigits2 (Z.pos m) = prec ->
  approx (prec + e) (prec + e) 0 (Qmag m e) (S754_finite false m e).
Proof.
  intros Hd. apply (approx_exact _ _ (S754_finite false m e)).
  exists m, e. split; [reflexivity | ]. split; [exact Hd | lia].
Qed.

(** ** Constants *)

Definition Qpi : Q := 7074237752028440 # 2251799813685248.

Lemma const_2 : approx 2 2 0 2 (of_Z 2).
Proof.
  apply approx_eq with (q := Qmag 4503599627370496 (-51)); [reflexivity | ].
  apply (approx_constant 4503599627370496 (-51)). reflexivity.
Qed.

Lemma const_1000 : approx 10 10 0 1000 (of_Z 1000).
Proof.
  apply approx_eq with (q := Qmag 8796093022208000 (-43)); [reflexivity | ].
  apply (approx_constant 8796093022208000 (-43)). reflexivity.
Qed.

Lemma const_2000 : approx 11 11 0 2000 (of_Z 2000).
Proof.
  apply approx_eq with (q := Qmag 8796093022208000 (-42)); [reflexivity | ].
  apply (approx_constant 8796093022208000 (-42)). reflexivity.
Qed.

Lemma const_pi : approx 2 2 0 Qpi pi.
Proof.
  apply approx_eq with (q := Qmag 7074237752028440 (-51)); [reflexivity | ].
  apply (approx_constant 7074237752028440 (-51)). reflexivity.
Qed.

(** ** Magnitude and value *)

Lemma normal_value lo hi x :
  normal_in false lo hi x -> 2 ^ (lo - 1) <= Qval x /\ Qval x < 2 ^ hi.
Proof.
  intros [m [e [-> [Hd H]]]]. rewrite Qval_finite.
  pose proof (Qmag_digits m e) as [Hlo Hhi]. rewrite Hd in Hlo, Hhi.
  split.
  - apply Qle_trans with (2 ^ (prec - 1 + e)); [apply pow2_le; lia | exact Hlo].
  - apply Qlt_le_trans with (2 ^ (prec + e)); [exact Hhi | apply pow2_le; lia].
Qed.

Lemma normal_tighten lo hi a b x :
  normal_in false lo hi x -> 2 ^ (a - 1) <= Qval x -> Qval x < 2 ^ b ->
  normal_in false a b x.
Proof.
  intros [m [e [-> [Hd H]]]] Ha Hb. rewrite Qval_finite in Ha, Hb.
  pose proof (Qmag_digits m e) as [Hlo Hhi]. rewrite Hd in Hlo, Hhi.
  exists m, e. split; [reflexivity | ]. split; [exact Hd | ].
  assert (H1 : 2 ^ (a - 1) < 2 ^ (prec + e)) by lra.
  assert (H2 : 2 ^ (prec - 1 + e) < 2 ^ b) by lra.
  apply Qpower_lt_compat_l_inv in H1; [ | reflexivity].
  apply Qpower_lt_compat_l_inv in H2; [ | reflexivity].
  lia.
Qed.

Lemma cube_le a b : 0 <= a -> a <= b -> a * a * a <= b * b * b.
Proof.
  intros Ha Hab.
  assert (Hb : 0 <= b) by lra.
  apply Qmult_le_compat_nonneg; split; try assumption.
  - apply Qmult_le_0_compat; assumption.
  - apply Qmult_le_compat_nonneg; split; assumption.
Qed.

Lemma within_scale f k a b :
  0 <= k -> within f a b -> within f (k * a) (k * b).
Proof.
  intros Hk [H1 H2]. split.
  - apply Qle_trans with (k * (b * f)); [ | ring_simplify; apply Qle_refl].
    rewrite !(Qmult_comm k). apply Qmult_le_compat_r; assumption.
  - apply Qle_trans with (k * (a * f)); [ | ring_simplify; apply Qle_refl].
    rewrite !(Qmult_comm k). apply Qmult_le_compat_r; assumption.
Qed.

Lemma within_eq_l f a a' b : a == a' -> within f a b -> within f a' b.
Proof. intros E [H1 H2]. split; rewrite <- E; assumption. Qed.

Lemma within_eq_r f a b b' : b == b' -> within f a b -> within f a b'.
Proof. intros E [H1 H2]. split; rewrite <- E; assumption. Qed.

End F64Error.

(* ================================================================== *)
(** * The capacity verification outside the standard range *)
(* ================================================================== *)

Module ComputedCapacity.

Import Py F64 PyNum TankDesign F64Facts PyNumFacts TankDesignFacts.
Import F64Magnitude F64Value F64Rounding F64Bounds F64Error.
Import ConstructorDomain.
Local Open Scope Z_scope.
Local Open Scope Q_scope.

(** C's [pow] gives the cube root of [b] to within four operations: the
    cube of the result is within [(1 + 2 ^ -50) ^ 4] of [b]. *)
Definition cube_root_close (L : libm) (b : float) : Prop :=
  exists c, libm_pow L b f_third = (c, false) /\
            normal_in false (-340) 342 c /\
            within (R 4) (Qval b) (Qval c * Qval c * Qval c).

(** C's [pow] squares to within two operations. *)
Definition square_close (L : libm) : Prop :=
  forall lo hi x,
    (-400 <= lo)%Z -> (hi <= 400)%Z -> normal_in false lo hi x ->
    exists s, libm_pow L x f_2 = (s, false) /\
              normal_in false (2 * lo - 1) (2 * hi + 1) s /\
              within (R 2) (Qval x * Qval x) (Qval s).

(** The base of the power in the diameter formula:
    [capacity_liters / 1000 * 2 / math.pi]. *)
Definition power_base (z : Z) : float :=
  fdiv (fmul (fdiv (raw_of_Z z) (raw_of_Z 1000)) (of_Z 2)) pi.

Lemma feqb_one m e :
  feqb (S754_finite false m e) one = true ->
  m = 4503599627370496%positive /\ e = (-52)%Z.
Proof.
  unfold feqb, SFeqb. change one with (S754_finite false 4503599627370496 (-52)).
  cbn [SFcompare].
  destruct (Z.compare_spec e (-52)) as [E|E|E]; try discriminate.
  rewrite Pos.compare_cont_spec.
  destruct (Pos.compare_spec m 4503599627370496) as [C|C|C];
    cbn [Pos.switch_Eq]; try discriminate.
  intros _. split; assumption.
Qed.

Lemma normal_one : normal_in false 1 1 one.
Proof.
  exists 4503599627370496%positive, (-52)%Z.
  split; [reflexivity | ]. split; [reflexivity | unfold prec; lia].
Qed.

(** The cube root that Python's [**] returns. *)
Lemma float_pow_third L b lo hi :
  normal_in false lo hi b -> cube_root_close L b ->
  exists c, float_pow L b f_third = Ok (Flt c) /\
            normal_in false (-340) 342 c /\
            within (R 4) (Qval b) (Qval c * Qval c * Qval c).
Proof.
  intros [m [e [-> Hn]]] [c [Hc [Hnc Hw]]].
  unfold float_pow.
  change (is_zero f_third) with false.
  change (is_nan (S754_finite false m e)) with false.
  change (is_nan f_third) with false.
  change (is_inf f_third) with false.
  change (is_inf (S754_finite false m e)) with false.
  change (is_zero (S754_finite false m e)) with false.
  change (fltb (S754_finite false m e) pzero) with false.
  cbn [andb negb fabs SFabs]. cbv iota.
  destruct (feqb (S754_finite false m e) one) eqn:E.
  - apply feqb_one in E. destruct E as [-> ->].
    exists one. split; [reflexivity | ].
    split; [eapply normal_weaken; [ | | exact normal_one]; lia | ].
    apply within_weaken with (f := 1);
      [discriminate | discriminate | apply R_ge_1 | ].
    split; vm_compute; discriminate.
  - rewrite Hc. rewrite (normal_not_inf _ _ _ _ Hnc). eauto.
Qed.

(** The square that Python's [**] returns. *)
Lemma float_pow_square L lo hi x :
  square_close L ->
  (-400 <= lo)%Z -> (hi <= 400)%Z -> normal_in false lo hi x ->
  exists s, float_pow L x f_2 = Ok (Flt s) /\
            normal_in false (2 * lo - 1) (2 * hi + 1) s /\
            within (R 2) (Qval x * Qval x) (Qval s).
Proof.
  intros HL Hlo Hhi Hx. destruct (HL lo hi x Hlo Hhi Hx) as [s [Hs [Hns Hw]]].
  destruct Hx as [m [e [-> Hn]]].
  unfold float_pow.
  change (is_zero f_2) with false.
  change (is_nan (S754_finite false m e)) with false.
  change (is_nan f_2) with false.
  change (is_inf f_2) with false.
  change (is_inf (S754_finite false m e)) with false.
  change (is_zero (S754_finite false m e)) with false.
  change (fltb (S754_finite false m e) pzero) with false.
  cbn [andb negb fabs SFabs]. cbv iota.
  destruct (feqb (S754_finite false m e) one) eqn:E.
  - apply feqb_one in E. destruct E as [-> ->].
    exists one. split; [reflexivity | ].
    split.
    + unfold prec in Hn.
      eapply normal_weaken; [ | | exact normal_one]; lia.
    + apply within_weaken with (f := 1);
        [discriminate | discriminate | apply R_ge_1 | ].
      split; vm_compute; discriminate.
  - rewrite Hs. rewrite (normal_not_inf _ _ _ _ Hns). eauto.
Qed.

(** ** The diameter *)

Lemma raw_of_Z_finite z :
  (0 < z < 2 ^ 50)%Z -> finite_in false 1 50 (raw_of_Z z).
Proof.
  intros H. destruct z as [|q|q]; try lia.
  exists q, 0%Z. split; [reflexivity | ].
  rewrite Z.add_0_r. split; [cbn; lia | apply Zdigits2_bound; lia].
Qed.

(** [capacity_liters / 1000] for an int below [2 ^ 50]. *)
Lemma capacity_m3_normal z :
  (0 < z < 2 ^ 50)%Z ->
  py_truediv (Int z) (Int 1000)
  = Ok (Flt (fdiv (raw_of_Z z) (raw_of_Z 1000))) /\
  normal_in false (-9) 42 (fdiv (raw_of_Z z) (raw_of_Z 1000)).
Proof.
  intros Hz.
  assert (Hn : normal_in false (1 - 10) (50 - 10 + 2)
                 (fdiv (raw_of_Z z) (raw_of_Z 1000))).
  { apply (fdiv_normal false false 1 50 10 10); try lia.
    - apply raw_of_Z_finite. exact Hz.
    - exists 1000%positive, 0%Z. split; [reflexivity | ].
      vm_compute. split; discriminate. }
  split; [ | exact Hn].
  cbn [py_truediv]. unfold int_true_divide.
  change (1000 =? 0)%Z with false. cbv iota.
  rewrite (normal_not_inf _ _ _ _ Hn). reflexivity.
Qed.

(** The numeric facts about a diameter that was computed. *)
Record computed (z : Z) (d : float) : Prop := {
  computed_root :
    exists c, d = fmul c (of_Z 1000) /\ normal_in false (-3) 15 c /\
              within (R 6)
                (Qval (fdiv (raw_of_Z z) (raw_of_Z 1000)) * 2 / Qpi)
                (Qval c * Qval c * Qval c)
}.

Lemma diameter_computed L z :
  (0 < z < 2 ^ 50)%Z ->
  cube_root_close L (power_base z) ->
  exists d, diameter_formula L (Int z) = Ok (Flt d) /\ computed z d.
Proof.
  intros Hz Hcube.
  destruct (capacity_m3_normal z Hz) as [Hq Hnq].
  set (q := fdiv (raw_of_Z z) (raw_of_Z 1000)) in *.
  pose proof (approx_mul _ _ _ _ _ _ _ _ _ _ (approx_exact _ _ _ Hnq) const_2
                ltac:(lia) ltac:(lia)) as A1.
  pose proof (approx_div _ _ _ _ _ _ _ _ _ _ A1 const_pi
                ltac:(lia) ltac:(lia)) as A2.
  change (fdiv (fmul q (of_Z 2)) pi) with (power_base z) in A2.
  cbn [Nat.add] in A2. destruct A2 as [Hnb Hwb].
  destruct (float_pow_third L (power_base z) _ _ Hnb Hcube)
    as [c [Hpow [Hnc Hwc]]].
  pose proof (normal_value _ _ _ Hnq) as [Vlo Vhi].
  set (V := Qval q) in *. set (B := Qval (power_base z)) in *.
  set (C := Qval c * Qval c * Qval c) in *.
  assert (HR2 : R 2 == (1 + 4 * u) * (1 + 4 * u)) by (cbn [R]; unfold r; ring).
  assert (HR4 : R 4 == (1 + 4 * u) * (1 + 4 * u) * ((1 + 4 * u) * (1 + 4 * u)))
    by (cbn [R]; unfold r; ring).
  assert (HC : 2 ^ (-12) <= C /\ C < 2 ^ 43).
  { destruct Hwb as [W1 W2]. destruct Hwc as [W3 W4].
    rewrite HR2 in W1, W2. rewrite HR4 in W3, W4.
    change (2 ^ (-9 - 1)) with (1 # 1024) in Vlo.
    change (2 ^ 42) with (4398046511104 # 1) in Vhi.
    change (2 ^ (-12)) with (1 # 4096).
    change (2 ^ 43) with (8796093022208 # 1).
    unfold Qpi, u, Qdiv in *. cbn [Qinv Qnum Qden] in *. split; lra. }
  destruct HC as [Clo Chi].
  pose proof (normal_Qval_pos _ _ _ Hnc) as Hc0.
  assert (Hnc' : normal_in false (-3) 15 c).
  { apply (normal_tighten _ _ _ _ _ Hnc).
    - apply Qnot_lt_le. intros Hlt.
      assert (H : C <= 2 ^ (-3 - 1) * 2 ^ (-3 - 1) * 2 ^ (-3 - 1)).
      { apply cube_le; [apply Qlt_le_weak; exact Hc0
                       | apply Qlt_le_weak; exact Hlt]. }
      change (2 ^ (-3 - 1) * 2 ^ (-3 - 1) * 2 ^ (-3 - 1)) with (1 # 4096) in H.
      change (2 ^ (-12)) with (1 # 4096) in Clo.
      assert (Hs : C < 1 # 4096); [ | lra].
      clear H.
      apply Qlt_le_trans
        with (2 ^ (-3 - 1) * 2 ^ (-3 - 1) * 2 ^ (-3 - 1)); [ | discriminate].
      subst C.
      apply Qmult_lt_compat_nonneg; split;
        try (apply Qlt_le_weak; exact Hc0); try exact Hlt.
      + apply Qmult_le_0_compat; apply Qlt_le_weak; exact Hc0.
      + apply Qmult_lt_compat_nonneg; split;
          try (apply Qlt_le_weak; exact Hc0); exact Hlt.
    - apply Qnot_le_lt. intros Hle.
      assert (H : 2 ^ 15 * 2 ^ 15 * 2 ^ 15 <= C)
        by (apply cube_le; [discriminate | exact Hle]).
      change (2 ^ 15 * 2 ^ 15 * 2 ^ 15) with (35184372088832 # 1) in H.
      change (2 ^ 43) with (8796093022208 # 1) in Chi. lra. }
  exists (fmul c (of_Z 1000)). split.
  - rewrite (diameter_formula_base L (Int z) q (power_base z));
      [ | exact Hq | apply py_mul_FI; reflexivity
        | apply py_truediv_FF; reflexivity].
    rewrite Hpow. cbn [bind]. apply py_mul_FI. reflexivity.
  - constructor. exists c. split; [reflexivity | ]. split; [exact Hnc' | ].
    apply within_eq with (f := R 2 * R 4); [rewrite <- R_add; reflexivity | ].
    apply within_trans with (b := B); try assumption;
      apply Qlt_le_weak, R_pos.
Qed.

(** ** The volume *)

Definition R17 : Q := Eval vm_compute in Qred (R 17).

Lemma R17_value : R 17 == R17.
Proof. vm_compute. reflexivity. Qed.

(** The largest distance between the volume and the capacity. *)
Definition largest_distance : Q := (4398046511104 # 1) * R17 * (R17 - 1).

Lemma computed_check L z d :
  (0 < z < 2 ^ 50)%Z -> square_close L -> computed z d ->
  capacity_check L (Flt d) (Flt (fmul (of_Z 2) d)) (Int z) = Ok true.
Proof.
  intros Hz HL [[c [-> [Hnc Hw6]]]].
  destruct (capacity_m3_normal z Hz) as [Hq Hnq].
  set (q := fdiv (raw_of_Z z) (raw_of_Z 1000)) in *.
  set (d := fmul c (of_Z 1000)).
  pose proof (approx_mul _ _ _ _ _ _ _ _ _ _ (approx_exact _ _ _ Hnc)
                const_1000 ltac:(lia) ltac:(lia)) as A3.
  fold d in A3.
  pose proof (approx_mul _ _ _ _ _ _ _ _ _ _ const_2 A3
                ltac:(lia) ltac:(lia)) as A4.
  pose proof (approx_div _ _ _ _ _ _ _ _ _ _ A3 const_2000
                ltac:(lia) ltac:(lia)) as A5.
  cbn [Nat.add] in A3, A4, A5.
  set (rho := Qval c) in *.
  set (radius := fdiv d (of_Z 2000)) in *.
  destruct A5 as [Hnr Hwr].
  destruct (float_pow_square L (-3 + 10 - 1 - 11) (15 + 10 + 1 - 11 + 2)
              radius HL ltac:(lia) ltac:(lia) Hnr)
    as [s [Hs [Hns Hws]]].
  pose proof (normal_Qval_pos _ _ _ Hnr) as Hr0.
  pose proof (normal_Qval_pos _ _ _ Hnc) as Hc0. fold rho in Hc0.
  assert (HA0 : 0 < rho * 1000 / 2000).
  { unfold Qdiv. cbn [Qinv Qnum Qden]. lra. }
  assert (S6 : approx (2 * (-3 + 10 - 1 - 11) - 1)
                 (2 * (15 + 10 + 1 - 11 + 2) + 1) 6
                 ((rho * 1000 / 2000) * (rho * 1000 / 2000)) s).
  { split; [exact Hns | ].
    apply within_eq with (f := (R 2 * R 2) * R 2);
      [rewrite <- !R_add; reflexivity | ].
    apply within_trans with (b := Qval radius * Qval radius);
      [apply Qlt_le_weak, Qmult_lt_0_compat; apply R_pos
      | apply Qlt_le_weak, R_pos | | exact Hws].
    apply within_mul; try assumption; apply Qlt_le_weak; assumption. }
  pose proof (approx_mul _ _ _ _ _ _ _ _ _ _ const_pi S6
                ltac:(lia) ltac:(lia)) as A6.
  pose proof (approx_div _ _ _ _ _ _ _ _ _ _ A4 const_1000
                ltac:(lia) ltac:(lia)) as A7.
  pose proof (approx_mul _ _ _ _ _ _ _ _ _ _ A6 A7
                ltac:(lia) ltac:(lia)) as A8.
  cbn [Nat.add] in A8.
  set (volume := fmul (fmul pi s) (fdiv (fmul (of_Z 2) d) (of_Z 1000))) in *.
  (* the program *)
  unfold capacity_check.
  rewrite py_truediv_FI by reflexivity. fold radius. cbn [bind].
  assert (Hpow : py_pow L (Flt radius) (Int 2) = Ok (Flt s)).
  { cbn [py_pow to_float bind]. rewrite int_to_float_small by reflexivity.
    cbn [bind]. change (of_Z 2) with f_2. exact Hs. }
  rewrite Hpow. cbn [bind]. rewrite py_mul_FF. cbn [bind].
  rewrite py_truediv_FI by reflexivity. cbn [bind].
  rewrite py_mul_FF. cbn [bind]. fold volume.
  rewrite Hq. cbn [bind]. rewrite py_sub_FF. cbn [bind py_abs].
  (* the values *)
  destruct A8 as [Hnv Hwv].
  pose proof (normal_value _ _ _ Hnq) as [Vlo Vhi].
  pose proof (normal_Qval_pos _ _ _ Hnq) as HV0.
  pose proof (normal_Qval_pos _ _ _ Hnv) as HW0.
  set (V := Qval q) in *. set (W := Qval volume) in *.
  assert (H17 : within R17 V W).
  { apply within_eq with (f := R 17); [exact R17_value | ].
    apply within_eq with (f := R 6 * R 11); [rewrite <- R_add; reflexivity | ].
    apply within_trans with (b := Qpi * (rho * rho * rho) / 2);
      try (apply Qlt_le_weak, R_pos).
    - apply within_eq_l with (a := (Qpi / 2) * (V * 2 / Qpi));
        [unfold Qpi; field | ].
      apply within_eq_r with (b := (Qpi / 2) * (rho * rho * rho));
        [unfold Qpi; field | ].
      apply within_scale; [discriminate | exact Hw6].
    - eapply within_eq_l; [ | exact Hwv]. unfold Qpi. field. }
  destruct H17 as [H1 H2].
  destruct Hnv as [mv [ev [Ev [Hdv Hmv]]]].
  destruct Hnq as [mq [eq [Eq [Hdq Hmq]]]].
  assert (Hb : below 61 (U largest_distance) (fabs (fsub volume q))).
  { rewrite Ev, Eq.
    eapply below_weaken;
      [ | apply Qle_refl
        | apply (fsub_below 60 largest_distance mv ev mq eq) ];
      try (unfold prec, emax in *; lia).
    - vm_compute. discriminate.
    - subst V W. rewrite Ev, Eq in *. rewrite !Qval_finite in *.
      set (X := Qmag mv ev) in *. set (Y := Qmag mq eq) in *.
      change (2 ^ 42) with (4398046511104 # 1) in Vhi.
      unfold largest_distance, R17 in *. lra.
    - subst V W. rewrite Ev, Eq in *. rewrite !Qval_finite in *.
      set (X := Qmag mv ev) in *. set (Y := Qmag mq eq) in *.
      change (2 ^ 42) with (4398046511104 # 1) in Vhi.
      unfold largest_distance, R17 in *. lra. }
  pose proof (above_below 61 (U largest_distance) _
                4503599627370496 (-53) Hb) as Hgt.
  unfold py_lt. cbn [compare_num bind].
  rewrite (SFcompare_antisym f_0_5).
  change f_0_5 with (S754_finite false 4503599627370496 (-53)).
  rewrite Hgt; [reflexivity | | ].
  - split; [reflexivity | vm_compute; discriminate].
  - vm_compute. reflexivity.
Qed.

(** X18.  For a positive integer capacity below [2 ^ 50] litres that is
    outside the standard range, and a C library whose [pow] squares to within two
    operations and gives the cube root of the base of the diameter formula
    to within four, the construction completes and the Capacity Match field
    of the report is PASS: the tank is computed from the capacity, and the
    volume that the report computes back differs from it by rounding
    only. *)
Theorem computed_capacity_match L z :
  (0 < z < 2 ^ 50)%Z -> (z < 8000 \/ 12000 < z)%Z ->
  square_close L -> cube_root_close L (power_base z) ->
  exists self,
    ProfessionalTankDesigner L (Int z) = (self, Ok tt) /\
    snd (capacity_match L self) = Ok PASS.
Proof.
  intros Hz Hout HL Hcube.
  destruct (diameter_computed L z Hz Hcube) as [d [Hd Hcomp]].
  destruct (capacity_m3_normal z Hz) as [Hq _].
  assert (Hb : py_between (Int 8000) (Int z) (Int 12000) = Ok false).
  { rewrite py_between_int. f_equal.
    destruct (Z.leb_spec 8000 z); destruct (Z.leb_spec z 12000);
      try reflexivity; lia. }
  destruct (construction_float_diameter L (Int z) _ d Hq Hb Hd)
    as [self Hself].
  exists self. split; [exact Hself | ].
  destruct (construction_ok L (Int z) self Hself)
    as [d' [[m3 [Hm3 Hm]] Hp _ Hd' _ _ _ _]].
  destruct Hp as [[Hb' _]|[_ [Hf [Hl _]]]]; [congruence | ].
  rewrite Hd in Hf. injection Hf as <-.
  rewrite (capacity_match_run L self (Flt d) (Flt (fmul (of_Z 2) d))
             (Int z) m3);
    try (apply attribute_lookup; assumption); try exact Hm3.
  rewrite (computed_check L z d Hz HL Hcomp). reflexivity.
Qed.

(** The sample C library squares by one multiplication. *)
Lemma libc_square_close : square_close SampleLibm.libc.
Proof.
  intros lo hi x Hlo Hhi Hx. exists (fmul x x). split.
  - cbn [libm_pow SampleLibm.libc]. unfold SampleLibm.pow.
    change (feqb f_2 f_2) with true. reflexivity.
  - destruct (fmul_within lo hi lo hi x x Hx Hx ltac:(lia) ltac:(lia))
      as [Hn Hw].
    split; [eapply normal_weaken; [ | | exact Hn]; lia | ].
    pose proof (normal_Qval_pos _ _ _ Hx) as H0.
    pose proof (normal_Qval_pos _ _ _ Hn) as H1.
    apply within_weaken with (f := r); try exact Hw.
    + apply Qlt_le_weak, Qmult_lt_0_compat; exact H0.
    + apply Qlt_le_weak. exact H1.
    + vm_compute. discriminate.
Qed.

Lemma libc_cube_root_20000 :
  cube_root_close SampleLibm.libc (power_base 20000).
Proof.
  eexists. split; [vm_compute; reflexivity | ].
  split.
  - eexists _, _. split; [reflexivity | ].
    split; [reflexivity | unfold prec; lia].
  - split; vm_compute; discriminate.
Qed.

(** A capacity of 20000 litres, on the sample C library. *)
Lemma computed_capacity_match_witness :
  exists self,
    ProfessionalTankDesigner SampleLibm.libc (Int 20000) = (self, Ok tt) /\
    snd (capacity_match SampleLibm.libc self) = Ok PASS.
Proof.
  apply (computed_capacity_match SampleLibm.libc 20000).
  - lia.
  - lia.
  - exact libc_square_close.
  - exact libc_cube_root_20000.
Defined.

End ComputedCapacity.

(* ================================================================== *)
(** * The diameters for which the minimum thickness is selected *)
(* ================================================================== *)

Module ShellThickness.

Import Py F64 PyNum TankDesign F64Facts PyNumFacts TankDesignFacts.
Import F64Magnitude F64Value F64Rounding F64Bounds F64Error.
Import ConstructorDomain ComputedCapacity.
Local Open Scope Z_scope.
Local Open Scope Q_scope.

(** 53252 mm and 53253 mm. *)
Definition widest_minimum_diameter : float := Eval vm_compute in of_Z 53252.
Definition narrowest_formula_diameter : float :=
  Eval vm_compute in of_Z 53253.

(** A number of the format that is neither negative nor above a positive
    number in canonical form has at most the value of that number. *)
Lemma between_below d my ey :
  valid_binary prec emax d = true ->
  fleb pzero d = true ->
  canonical my ey ->
  fleb d (S754_finite false my ey) = true ->
  below (Zdigits2 (Z.pos my) + ey) (Qmag my ey) d.
Proof.
  intros Hv H0 Hc H1.
  destruct d as [s|s| |s m e]; try discriminate H0.
  - left. eauto.
  - destruct s; [discriminate H0 | discriminate H1].
  - destruct s; [discriminate H0 | ].
    apply (canonical_valid false) in Hv.
    assert (Hle : Qmag m e <= Qmag my ey).
    { apply Qnot_lt_le. intros Hlt.
      assert (Hb : below (Zdigits2 (Z.pos my) + ey) (Qmag my ey)
                         (S754_finite false my ey)).
      { right. exists my, ey. repeat split; try apply Hc; try lia.
        apply Qle_refl. }
      pose proof (above_below _ _ _ m e Hb Hv Hlt) as Hgt.
      unfold fleb, SFleb in H1. rewrite Hgt in H1. discriminate H1. }
    right. exists m, e. split; [reflexivity | ]. split; [exact Hv | ].
    split; [ | exact Hle].
    pose proof (Qmag_digits m e) as [Hlo _].
    pose proof (Qmag_digits my ey) as [_ Hhi].
    assert (H : 2 ^ (Zdigits2 (Z.pos m) - 1 + e)
                < 2 ^ (Zdigits2 (Z.pos my) + ey)) by lra.
    apply Qpower_lt_compat_l_inv in H; [lia | reflexivity].
Qed.

(** The constants of the thickness formula. *)
Definition Q_2 : Q := Qmag 4503599627370496 (-51).
Definition Q_1000 : Q := Qmag 8796093022208000 (-43).
Definition Q_pressure : Q := Qmag 4968198170689440 (-58).
Definition Q_stress : Q := Qmag 7176884142717818 (-46).
Definition Q_1_5 : Q := Qmag 6755399441055744 (-52).

(** The bound on the calculated thickness that follows the operations of
    the formula, for a diameter of at most 53252 mm. *)
Definition thickness_bound : Q :=
  U (U (U (U (U (U (53252 / Q_2) / Q_1000) * Q_pressure) * Q_1000) / Q_stress)
     + Q_1_5).

Lemma calculated_thickness_below d :
  below 16 53252 d ->
  SFcompare f_6 (calculated_thickness d) = Some Gt.
Proof.
  intros H0. unfold calculated_thickness.
  assert (H1 : below 16 (U (53252 / Q_2)) (fdiv d (of_Z 2))).
  { eapply below_weaken;
      [ | apply Qle_refl
        | apply (fdiv_below 16 53252 d 4503599627370496 (-51) 2 H0) ];
      [ | discriminate | vm_compute; discriminate | reflexivity ].
    vm_compute. discriminate. }
  assert (H2 : below 8 (U (U (53252 / Q_2) / Q_1000))
                     (fdiv (fdiv d (of_Z 2)) (of_Z 1000))).
  { eapply below_weaken;
      [ | apply Qle_refl
        | apply (fdiv_below 16 _ _ 8796093022208000 (-43) 10 H1) ];
      [ | vm_compute; discriminate | vm_compute; discriminate | reflexivity ].
    vm_compute. discriminate. }
  assert (H3 : below 4 (U (U (U (53252 / Q_2) / Q_1000) * Q_pressure))
                     (fmul pressure_mpa (fdiv (fdiv d (of_Z 2)) (of_Z 1000)))).
  { eapply below_weaken;
      [ | apply Qle_refl
        | apply (fmul_below_l 8 _ _ 4968198170689440 (-58) (-5) H2) ];
      [ | vm_compute; discriminate | reflexivity | vm_compute; discriminate
        | reflexivity ].
    vm_compute. discriminate. }
  assert (H4 : below 15
                 (U (U (U (U (53252 / Q_2) / Q_1000) * Q_pressure) * Q_1000))
                 (fmul (fmul pressure_mpa (fdiv (fdiv d (of_Z 2)) (of_Z 1000)))
                       (of_Z 1000))).
  { eapply below_weaken;
      [ | apply Qle_refl
        | apply (fmul_below_r 4 _ _ 8796093022208000 (-43) 10 H3) ];
      [ | vm_compute; discriminate | reflexivity | vm_compute; discriminate
        | reflexivity ].
    vm_compute. discriminate. }
  assert (H5 : below 10
                 (U (U (U (U (U (53252 / Q_2) / Q_1000) * Q_pressure) * Q_1000)
                     / Q_stress))
                 (fdiv (fmul (fmul pressure_mpa
                                   (fdiv (fdiv d (of_Z 2)) (of_Z 1000)))
                             (of_Z 1000)) stress_term)).
  { eapply below_weaken;
      [ | apply Qle_refl
        | apply (fdiv_below 15 _ _ 7176884142717818 (-46) 7 H4) ];
      [ | vm_compute; discriminate | vm_compute; discriminate | reflexivity ].
    vm_compute. discriminate. }
  assert (H6 : below 12 thickness_bound
                 (fadd (fdiv (fmul (fmul pressure_mpa
                                         (fdiv (fdiv d (of_Z 2)) (of_Z 1000)))
                                   (of_Z 1000)) stress_term) f_1_5)).
  { eapply below_weaken;
      [ | apply Qle_refl
        | apply (fadd_below 10 _ _ 6755399441055744 (-52) 1 H5) ];
      [ | vm_compute; discriminate | split; [reflexivity | vm_compute; discriminate]
        | vm_compute; discriminate | reflexivity ].
    vm_compute. discriminate. }
  apply (above_below 12 thickness_bound _ 6755399441055744 (-50) H6).
  - split; [reflexivity | vm_compute; discriminate].
  - vm_compute. reflexivity.
Qed.

(** A number of the format that is not below a positive number in
    canonical form is the positive infinity or has at least the value of that
    number. *)
Lemma above_value d my ey :
  valid_binary prec emax d = true ->
  canonical my ey ->
  fleb (S754_finite false my ey) d = true ->
  d = S754_infinity false \/
  exists m e, d = S754_finite false m e /\ canonical m e /\
              Qmag my ey <= Qmag m e.
Proof.
  intros Hv Hc H1.
  destruct d as [s|s| |s m e]; try discriminate H1.
  - destruct s; [discriminate H1 | left; reflexivity].
  - destruct s; [discriminate H1 | ]. right.
    apply (canonical_valid false) in Hv.
    exists m, e. split; [reflexivity | ]. split; [exact Hv | ].
    apply Qnot_lt_le. intros Hlt.
    assert (Hb : below (Zdigits2 (Z.pos m) + e) (Qmag m e)
                       (S754_finite false m e)).
    { right. exists m, e. repeat split; try apply Hv; try lia.
      apply Qle_refl. }
    pose proof (above_below _ _ _ my ey Hb Hc Hlt) as Hgt.
    unfold fleb, SFleb in H1. rewrite Hgt in H1. discriminate H1.
Qed.

Lemma canonical_normal m e a :
  canonical m e -> 2 ^ a <= Qmag m e -> (-1021 <= a)%Z ->
  normal_in false (a + 1) 1024 (S754_finite false m e).
Proof.
  intros [Hc Hb] Ha Hlo.
  pose proof (Qmag_digits m e) as [_ Hhi].
  assert (H : 2 ^ a < 2 ^ (Zdigits2 (Z.pos m) + e)) by lra.
  apply Qpower_lt_compat_l_inv in H; [ | reflexivity].
  exists m, e. split; [reflexivity | ].
  unfold fexp, SpecFloat.emin, prec, emax in *. lia.
Qed.

Lemma normal_canonical lo hi m e :
  normal_in false lo hi (S754_finite false m e) ->
  (-1021 <= lo)%Z -> (hi <= 1024)%Z -> canonical m e.
Proof.
  intros [m' [e' [E [Hd H]]]] Hlo Hhi. injection E as <- <-.
  unfold canonical, fexp, SpecFloat.emin, prec, emax in *. lia.
Qed.

(** The constants of the thickness formula, as numbers to compute with. *)
Definition Qpressure : Q := Eval vm_compute in Qred Q_pressure.
Definition Qstress : Q := Eval vm_compute in Qred Q_stress.

Lemma const_pressure : approx (-5) (-5) 0 Qpressure pressure_mpa.
Proof.
  apply approx_eq with (q := Qmag 4968198170689440 (-58)); [reflexivity | ].
  apply (approx_constant 4968198170689440 (-58)). reflexivity.
Qed.

Lemma const_stress : approx 7 7 0 Qstress stress_term.
Proof.
  apply approx_eq with (q := Qmag 7176884142717818 (-46)); [reflexivity | ].
  apply (approx_constant 7176884142717818 (-46)). reflexivity.
Qed.

Lemma const_1_5 : approx 1 1 0 (3 # 2) f_1_5.
Proof.
  apply approx_eq with (q := Qmag 6755399441055744 (-52)); [reflexivity | ].
  apply (approx_constant 6755399441055744 (-52)). reflexivity.
Qed.

Definition R6 : Q := Eval vm_compute in Qred (R 6).

Lemma R6_value : R 6 == R6.
Proof. vm_compute. reflexivity. Qed.

Lemma calculated_thickness_above d :
  normal_in false 16 1024 d -> 53253 <= Qval d ->
  SFcompare f_6 (calculated_thickness d) = Some Lt.
Proof.
  intros Hn Hd. unfold calculated_thickness.
  pose proof (approx_div _ _ _ _ _ _ _ _ _ _ (approx_exact _ _ _ Hn) const_2
                ltac:(lia) ltac:(lia)) as A1.
  pose proof (approx_div _ _ _ _ _ _ _ _ _ _ A1 const_1000
                ltac:(lia) ltac:(lia)) as A2.
  pose proof (approx_mul _ _ _ _ _ _ _ _ _ _ const_pressure A2
                ltac:(lia) ltac:(lia)) as A3.
  pose proof (approx_mul _ _ _ _ _ _ _ _ _ _ A3 const_1000
                ltac:(lia) ltac:(lia)) as A4.
  pose proof (approx_div _ _ _ _ _ _ _ _ _ _ A4 const_stress
                ltac:(lia) ltac:(lia)) as A5.
  pose proof (approx_add _ _ _ _ _ _ _ _ _ _ A5 const_1_5
                ltac:(lia) ltac:(lia)) as A6.
  cbn [Nat.add] in A6. destruct A6 as [Hnt [Hw _]].
  set (t := fadd (fdiv (fmul (fmul pressure_mpa
                                   (fdiv (fdiv d (of_Z 2)) (of_Z 1000)))
                             (of_Z 1000)) stress_term) f_1_5) in *.
  rewrite R6_value in Hw.
  assert (Ht : 6 < Qval t).
  { set (D := Qval d) in *. set (T := Qval t) in *.
    unfold Qpressure, Qstress, R6, Qdiv in *.
    cbn [Qinv Qnum Qden] in *. lra. }
  destruct Hnt as [m [e [Et Hm]]].
  assert (Hc : canonical m e).
  { apply (normal_canonical (Z.max 0 1) (Z.max 1018 1 + 2)); try lia.
    exists m, e. split; [reflexivity | exact Hm]. }
  rewrite Et in *. rewrite Qval_finite in Ht.
  rewrite (SFcompare_antisym (S754_finite false m e)).
  assert (Hb : below 3 6 f_6).
  { right. exists 6755399441055744%positive, (-50)%Z.
    split; [reflexivity | ].
    split; [split; [reflexivity | vm_compute; discriminate] | ].
    split; [vm_compute; discriminate | vm_compute; discriminate]. }
  rewrite (above_below 3 6 f_6 m e Hb Hc Ht). reflexivity.
Qed.

Lemma minimum_thickness_below L c self d :
  ProfessionalTankDesigner L c = (self, Ok tt) ->
  attribute self "tank_diameter" = Some (Flt d) ->
  below 16 53252 d ->
  attribute self "shell_thickness" = Some (Flt f_6).
Proof.
  intros Hself Hd Hb.
  destruct (construction_ok L c self Hself) as [d' [_ _ _ Hd' Hs _ _ _]].
  rewrite Hd' in Hd. injection Hd as ->.
  rewrite Hs. f_equal. f_equal.
  unfold float_max. rewrite (calculated_thickness_below d Hb). reflexivity.
Qed.

(** X17.  Whatever the capacity and the C library, a constructed designer
    whose tank diameter is a binary64 number from 0 to 53252 mm has a shell
    thickness of exactly 6.0 mm: for such a diameter the thickness that the
    API 650 formula gives is below the minimum, which is the one selected. *)
Theorem minimum_thickness_is_selected L c self d :
  ProfessionalTankDesigner L c = (self, Ok tt) ->
  attribute self "tank_diameter" = Some (Flt d) ->
  valid_binary prec emax d = true ->
  fleb pzero d = true ->
  fleb d widest_minimum_diameter = true ->
  attribute self "shell_thickness" = Some (Flt f_6).
Proof.
  intros Hself Hd Hv H0 H1.
  apply (minimum_thickness_below L c self d Hself Hd).
  assert (Hb : below 16 (Qmag 7318899150290944 (-37)) d).
  { apply (between_below d 7318899150290944 (-37) Hv H0); [ | exact H1].
    split; [reflexivity | vm_compute; discriminate]. }
  eapply below_weaken; [ | | exact Hb]; [lia | vm_compute; discriminate].
Qed.

(** X19.  Whatever the capacity and the C library, a constructed designer
    whose tank diameter is a binary64 number of at least 53253 mm has the
    shell thickness that the API 650 formula gives, and that thickness is
    above the 6.0 mm minimum. *)
Theorem formula_thickness_is_selected L c self d :
  ProfessionalTankDesigner L c = (self, Ok tt) ->
  attribute self "tank_diameter" = Some (Flt d) ->
  valid_binary prec emax d = true ->
  fleb narrowest_formula_diameter d = true ->
  attribute self "shell_thickness" = Some (Flt (calculated_thickness d)) /\
  fltb f_6 (calculated_thickness d) = true.
Proof.
  intros Hself Hd Hv H1.
  destruct (construction_ok L c self Hself) as [d' [_ _ _ Hd' Hs _ _ _]].
  rewrite Hd' in Hd. injection Hd as ->.
  rewrite Hs.
  assert (Hlt : SFcompare f_6 (calculated_thickness d) = Some Lt).
  { destruct (above_value d 7319036589244416 (-37) Hv) as [->|[m [e [-> [Hc Hle]]]]];
      [split; [reflexivity | vm_compute; discriminate] | exact H1
      | reflexivity | ].
    apply calculated_thickness_above.
    - eapply normal_weaken;
        [ | | apply (canonical_normal m e 15 Hc)]; try lia.
      apply Qle_trans with (Qmag 7319036589244416 (-37)); [ | exact Hle].
      vm_compute. discriminate.
    - rewrite Qval_finite.
      apply Qle_trans with (Qmag 7319036589244416 (-37)); [ | exact Hle].
      vm_compute. discriminate. }
  unfold float_max, fltb, SFltb. rewrite Hlt. split; reflexivity.
Qed.

(** ** The capacities for which the minimum thickness is selected *)

Lemma below_tighten hi B k x :
  below hi B x -> B < 2 ^ k -> below k B x.
Proof.
  intros [Hz|[m [e [-> [Hc [Hm Hv]]]]]] HB; [left; exact Hz | right].
  exists m, e. split; [reflexivity | ]. split; [exact Hc | ].
  split; [ | exact Hv].
  pose proof (Qmag_digits m e) as [Hlo _].
  assert (H : 2 ^ (Zdigits2 (Z.pos m) - 1 + e) < 2 ^ k) by lra.
  apply Qpower_lt_compat_l_inv in H; [lia | reflexivity].
Qed.

Lemma raw_of_Z_value z : (0 < z)%Z -> Qval (raw_of_Z z) == inject_Z z.
Proof.
  intros Hz. destruct z as [|p|p]; try lia.
  cbn [raw_of_Z Qval]. unfold Qmag. change (2 ^ 0) with 1. ring.
Qed.

(** A diameter that is computed for at most 200000 m3 is below 53252 mm. *)
Lemma computed_diameter_below z d :
  (0 < z <= 200000000)%Z -> computed z d -> below 16 53252 d.
Proof.
  intros Hz [[c [-> [Hnc Hw]]]].
  assert (Hz50 : (0 < z < 2 ^ 50)%Z) by lia.
  destruct (fdiv_within 1 50 10 10 (raw_of_Z z) (raw_of_Z 1000)) as [_ [_ HV]];
    try lia.
  { apply raw_of_Z_finite. exact Hz50. }
  { exists 1000%positive, 0%Z. split; [reflexivity | ].
    vm_compute. split; discriminate. }
  rewrite raw_of_Z_value in HV by lia.
  change (Qval (raw_of_Z 1000)) with (1000 # 1) in HV.
  assert (Hzq : inject_Z z <= 200000000).
  { change 200000000 with (inject_Z 200000000). rewrite <- Zle_Qle. lia. }
  assert (Hz0 : 0 < inject_Z z).
  { change 0 with (inject_Z 0). rewrite <- Zlt_Qlt. lia. }
  set (V := Qval (fdiv (raw_of_Z z) (raw_of_Z 1000))) in *.
  pose proof (normal_Qval_pos _ _ _ Hnc) as Hc0.
  set (rho := Qval c) in *.
  destruct Hw as [_ Hw].
  rewrite R6_value in Hw.
  assert (Hcube : rho * rho * rho < 53 * 53 * 53).
  { set (C := rho * rho * rho) in *. set (Zq := inject_Z z) in *.
    unfold Qpi, R6, r, u, Qdiv in *.
    cbn [Qinv Qnum Qden] in *. lra. }
  assert (Hrho : rho < 53).
  { apply Qnot_le_lt. intros Hle.
    assert (H : 53 * 53 * 53 <= rho * rho * rho)
      by (apply cube_le; [discriminate | exact Hle]).
    lra. }
  destruct Hnc as [m [e [Ec Hm]]].
  assert (Hcan : canonical m e).
  { apply (normal_canonical (-3) 15); try lia.
    exists m, e. split; [reflexivity | exact Hm]. }
  assert (Hb : below 15 53 c).
  { right. exists m, e. split; [exact Ec | ]. split; [exact Hcan | ].
    split; [unfold prec in Hm; lia | ].
    subst rho. rewrite Ec, Qval_finite in Hrho. apply Qlt_le_weak. exact Hrho. }
  pose proof (fmul_below_r 15 53 c 8796093022208000 (-43) 10 Hb
                ltac:(discriminate) eq_refl ltac:(vm_compute; discriminate)
                eq_refl) as Hd.
  apply (below_tighten _ _ 16) in Hd; [ | vm_compute; reflexivity].
  eapply below_weaken; [ | | exact Hd]; [lia | vm_compute; discriminate].
Qed.

Lemma computed_thickness L z :
  (0 < z <= 200000000)%Z -> (z < 8000 \/ 12000 < z)%Z ->
  cube_root_close L (power_base z) ->
  exists self,
    ProfessionalTankDesigner L (Int z) = (self, Ok tt) /\
    attribute self "shell_thickness" = Some (Flt f_6).
Proof.
  intros Hz Hout Hcube.
  assert (Hz50 : (0 < z < 2 ^ 50)%Z) by lia.
  destruct (diameter_computed L z Hz50 Hcube) as [d [Hd Hcomp]].
  destruct (capacity_m3_normal z Hz50) as [Hq _].
  assert (Hb : py_between (Int 8000) (Int z) (Int 12000) = Ok false).
  { rewrite py_between_int. f_equal.
    destruct (Z.leb_spec 8000 z); destruct (Z.leb_spec z 12000);
      try reflexivity; lia. }
  destruct (construction_float_diameter L (Int z) _ d Hq Hb Hd)
    as [self Hself].
  exists self. split; [exact Hself | ].
  destruct (construction_ok L (Int z) self Hself)
    as [d' [_ Hp _ Hd' _ _ _ _]].
  destruct Hp as [[Hb' _]|[_ [Hf _]]]; [congruence | ].
  rewrite Hd in Hf. injection Hf as <-.
  apply (minimum_thickness_below L (Int z) self d Hself Hd').
  apply (computed_diameter_below z d Hz Hcomp).
Qed.

(** X20.  For every integer capacity from 1 litre to 200000 m3 the
    construction completes with a shell thickness of exactly 6.0 mm: in the
    standard range whatever the C library, and outside of it when C's [pow]
    gives the cube root of the base of the diameter formula to within four
    operations. *)
Theorem minimum_thickness_for_capacity L z :
  (0 < z <= 200000000)%Z ->
  ((z < 8000 \/ 12000 < z)%Z -> cube_root_close L (power_base z)) ->
  exists self,
    ProfessionalTankDesigner L (Int z) = (self, Ok tt) /\
    attribute self "shell_thickness" = Some (Flt f_6).
Proof.
  intros Hz Hcube.
  destruct (Z_le_dec 8000 z) as [Hlo|Hlo];
    [destruct (Z_le_dec z 12000) as [Hhi|Hhi] | ].
  - assert (Hb : py_between (Int 8000) (Int z) (Int 12000) = Ok true).
    { rewrite py_between_int. f_equal. apply andb_true_intro.
      split; apply Z.leb_le; lia. }
    destruct (standard_construction L (Int z) Hb) as [self Hself].
    exists self. split; [exact Hself | ].
    destruct (construction_ok L (Int z) self Hself)
      as [d [_ Hp _ Hd _ _ _ _]].
    destruct Hp as [[_ [-> _]]|[Hb' _]]; [ | congruence].
    apply (minimum_thickness_below L (Int z) self f_1870 Hself Hd).
    right. exists 8224346975764480%positive, (-42)%Z.
    split; [reflexivity | ].
    split; [split; [reflexivity | vm_compute; discriminate] | ].
    split; vm_compute; discriminate.
  - apply computed_thickness; [lia | lia | apply Hcube; lia].
  - apply computed_thickness; [lia | lia | apply Hcube; lia].
Qed.

(** The diameter of the sample designer of 20000 litres. *)
Definition diameter_20000 : float :=
  Eval vm_compute in
    match attribute TankDesignExamples.designer_20000 "tank_diameter" with
    | Some (Flt d) => d
    | _ => nan
    end.

(** A tank of 300000 m3 on the sample C library, and its diameter. *)
Definition designer_300000000 : obj :=
  Eval vm_compute in
    fst (ProfessionalTankDesigner SampleLibm.libc (Int 300000000)).

Definition diameter_300000000 : float :=
  Eval vm_compute in
    match attribute designer_300000000 "tank_diameter" with
    | Some (Flt d) => d
    | _ => nan
    end.

Lemma minimum_thickness_for_capacity_witness :
  exists self,
    ProfessionalTankDesigner SampleLibm.libc (Int 20000) = (self, Ok tt) /\
    attribute self "shell_thickness" = Some (Flt f_6).
Proof.
  apply (minimum_thickness_for_capacity SampleLibm.libc 20000).
  - lia.
  - intros _. exact libc_cube_root_20000.
Defined.

Lemma minimum_thickness_is_selected_witness :
  attribute TankDesignExamples.designer_20000 "shell_thickness"
  = Some (Flt f_6).
Proof.
  apply (minimum_thickness_is_selected SampleLibm.libc (Int 20000)
           TankDesignExamples.designer_20000 diameter_20000);
    (vm_compute; reflexivity).
Defined.

Lemma formula_thickness_is_selected_witness :
  attribute designer_300000000 "shell_thickness"
  = Some (Flt (calculated_thickness diameter_300000000)) /\
  fltb f_6 (calculated_thickness diameter_300000000) = true.
Proof.
  apply (formula_thickness_is_selected SampleLibm.libc (Int 300000000)
           designer_300000000 diameter_300000000);
    (vm_compute; reflexivity).
Defined.

End ShellThickness.
